(** * PyWebPulse: the page-load benchmark, embedded and verified

    A shallow embedding of the timing sampler ([selenium_utils.py]), the
    run orchestrator ([worker.py]), the report aggregator ([gui.py]) and
    the settings store ([settings_manager.py]); then of the session setup
    ([selenium_utils.py]), the DNS benchmark ([dns_utils.py]), and the
    result slot, the URL list and the export of the window ([gui.py]).

    Conventions of the embedding:
    - Python [int] is [Z] (counts and loop bounds are [nat]); Python
      [float] is a rational [Q].  The clock readings are rationals and the
      sampler subtracts and scales them without rounding; the statistics
      of the report round as Python does, to the nearest double ([float]
      of 53 bits, a tie to the even one; the range of the exponent, so
      overflow and subnormal numbers, is not modelled);
    - a dictionary is an association list in insertion order;
    - an exception is a value of [Exc]; code that can raise returns an
      [Outcome];
    - what the browser, the clocks, the file system and the operator do is
      given by oracle records ([Session], [Env], [Disk], and further on
      [Machine], [Toolkit], [Network]). *)

From Stdlib Require Import List String Ascii Bool Arith ZArith QArith Lia Lqa.
From Stdlib Require Import Qround Qpower Qabs DecimalString Sorting.Sorted.
From Stdlib Require Import Permutation.
From Stdlib Require Import OrdersEx.
Import ListNotations.

Set Warnings "-register-all".
Close Scope Q_scope.
Local Open Scope string_scope.
Local Open Scope list_scope.

(* ================================================================= *)
(** ** Python values, exceptions, dictionaries *)

Module Py.

(** Subclasses of [Exception] that the code distinguishes.  Selenium's
    [TimeoutException] derives from [WebDriverException]; every other
    exception class ([ValueError], [TypeError], [StatisticsError], ...) is
    [OtherException]. *)
Inductive ExcClass :=
| TimeoutException
| WebDriverException
| JSONDecodeError
| IOError
| OtherException.

(** An exception object: its class and [str(e)]. *)
Record Exc := mkExc { exc_class : ExcClass; exc_str : string }.

Inductive Outcome (A : Type) :=
| Returns (a : A)
| Raises (e : Exc).
Arguments Returns {A} a.
Arguments Raises {A} e.

(** [isinstance(e, WebDriverException)] *)
Definition is_webdriver_exception (e : Exc) : bool :=
  match exc_class e with
  | TimeoutException | WebDriverException => true
  | _ => false
  end.

Definition is_timeout_exception (e : Exc) : bool :=
  match exc_class e with
  | TimeoutException => true
  | _ => false
  end.

Definition TypeError (msg : string) : Exc := mkExc OtherException msg.
Definition ValueError (msg : string) : Exc := mkExc OtherException msg.
Definition StatisticsError (msg : string) : Exc := mkExc OtherException msg.
Definition UnicodeDecodeError (msg : string) : Exc :=
  mkExc OtherException msg.

(** [a < b] and [a >= b] on numbers. *)
Definition Qltb (a b : Q) : bool := negb (Qle_bool b a).
Definition Qgeb (a b : Q) : bool := Qle_bool b a.

(** [str(n)] for an [int]. *)
Definition str_int (z : Z) : string := NilZero.string_of_int (Z.to_int z).

(** [needle in hay] for strings. *)
Fixpoint contains (needle hay : string) : bool :=
  if prefix needle hay then true
  else match hay with
       | EmptyString => false
       | String _ hay' => contains needle hay'
       end.

(** JSON-shaped Python values: what [json.load] produces and what the
    program stores in its dictionaries.  A number is an [int] or a
    [float]. *)
Inductive PyVal :=
| PyNone
| PyBool (b : bool)
| PyInt (z : Z)
| PyFloat (q : Q)
| PyStr (s : string)
| PyList (l : list PyVal)
| PyDict (d : list (string * PyVal)).

Definition PyDictT := list (string * PyVal).

Section Dict.
Context {V : Type}.

(** [d.get(k)] *)
Fixpoint dict_get (k : string) (d : list (string * V)) : option V :=
  match d with
  | [] => None
  | (k', v) :: d' => if String.eqb k k' then Some v else dict_get k d'
  end.

(** [k in d] *)
Definition dict_mem (k : string) (d : list (string * V)) : bool :=
  match dict_get k d with Some _ => true | None => false end.

(** [d[k] = v]: an existing key keeps its place, a new key goes last. *)
Fixpoint dict_set (k : string) (v : V) (d : list (string * V))
  : list (string * V) :=
  match d with
  | [] => [(k, v)]
  | (k', v') :: d' =>
      if String.eqb k k' then (k', v) :: d' else (k', v') :: dict_set k v d'
  end.

(** [d.get(k, default)] *)
Definition dict_get_default (k : string) (default : V)
    (d : list (string * V)) : V :=
  match dict_get k d with Some v => v | None => default end.

Definition dict_keys (d : list (string * V)) : list string := map fst d.
End Dict.

(** Statements over a mutable state [S] that may raise: the state
    survives a raise. *)
Definition M (S A : Type) := S -> Outcome A * S.

Section Monad.
Context {S : Type}.

Definition ret {A} (a : A) : M S A := fun s => (Returns a, s).

Definition bind {A B} (c : M S A) (k : A -> M S B) : M S B :=
  fun s => match c s with
           | (Returns a, s') => k a s'
           | (Raises e, s') => (Raises e, s')
           end.

Definition raise {A} (e : Exc) : M S A := fun s => (Raises e, s).

(** A call whose outcome the environment decides. *)
Definition call {A} (o : Outcome A) : M S A := fun s => (o, s).

Definition update (f : S -> S) : M S unit := fun s => (Returns tt, f s).

Definition read : M S S := fun s => (Returns s, s).

(** [try: body except ...]: the handler says which exceptions it takes
    ([None]: not this one, it propagates). *)
Definition try_except {A} (body : M S A) (handler : Exc -> option (M S A))
  : M S A :=
  fun s => match body s with
           | (Returns a, s') => (Returns a, s')
           | (Raises e, s') =>
               match handler e with
               | Some h => h s'
               | None => (Raises e, s')
               end
           end.

(** [try: body finally: fin] *)
Definition try_finally {A} (body : M S A) (fin : M S unit) : M S A :=
  fun s => match body s with
           | (o, s') =>
               match fin s' with
               | (Returns _, s'') => (o, s'')
               | (Raises e, s'') => (Raises e, s'')
               end
           end.
End Monad.

Declare Scope stmt_scope.
Delimit Scope stmt_scope with stmt.
Notation "x <- c ;; k" := (bind c (fun x => k))
  (at level 61, c at next level, right associativity) : stmt_scope.
Notation "c ;;; k" := (bind c (fun _ => k))
  (at level 61, right associativity) : stmt_scope.

End Py.
Import Py.

(* ================================================================= *)
(** ** selenium_utils.py: the timing sampler *)

Module SeleniumUtils.

(** A value of the dictionary returned by
    [window.performance.timing.toJSON()]: a number of milliseconds, or
    [null]. *)
Inductive JsVal := JsNum (z : Z) | JsNull.

Definition type_name (v : JsVal) : string :=
  match v with JsNum _ => "int" | JsNull => "NoneType" end.

(** [a - b] *)
Definition js_sub (a b : JsVal) : Outcome JsVal :=
  match a, b with
  | JsNum x, JsNum y => Returns (JsNum (x - y))
  | _, _ => Raises (TypeError ("unsupported operand type(s) for -: '"
                       ++ type_name a ++ "' and '" ++ type_name b ++ "'")%string)
  end.

(** [a > 0] *)
Definition js_gt0 (a : JsVal) : Outcome bool :=
  match a with
  | JsNum x => Returns (0 <? x)%Z
  | JsNull => Raises (TypeError
      "'>' not supported between instances of 'NoneType' and 'int'")
  end.

(** Truth value of [a] in a condition. *)
Definition js_truthy (a : JsVal) : bool :=
  match a with
  | JsNum x => negb (x =? 0)%Z
  | JsNull => false
  end.

Record NavigationTiming := {
  navigation_start : JsVal;
  fetch_start : JsVal;
  dns_lookup_time : JsVal;
  connect_time : JsVal;
  ttfb : JsVal;
  dom_interactive : JsVal;
  dom_content_loaded : JsVal;
  dom_complete : JsVal;
  load_event_start : JsVal;
  load_event_end : JsVal;
  total_load_from_nav_start : JsVal;
  dom_processing_time : JsVal
}.

(** The [navigation_timing] entry of a result: [None], the breakdown, or
    the marker [{"error": str(e)}]. *)
Inductive NavTimingField :=
| NavNone
| NavData (t : NavigationTiming)
| NavError (msg : string).

Inductive Status := Success | Error.

Definition status_eqb (a b : Status) : bool :=
  match a, b with
  | Success, Success | Error, Error => true
  | _, _ => false
  end.

(** The result dictionary.  The keys [error_message], [navigation_timing],
    [run_number] and [config] are optional entries: the outer [None] says
    that the dictionary has no such key.  [error_message = Some None] is
    the key bound to Python's [None]. *)
Record RunResult := {
  url : string;
  load_time_ms : Q;
  status : Status;
  error_message : option (option string);
  navigation_timing : option NavTimingField;
  timestamp : Q;
  run_number : option nat;
  config : option PyDictT
}.

Definition set_load_time_ms (v : Q) (r : RunResult) : RunResult :=
  {| url := url r; load_time_ms := v; status := status r;
     error_message := error_message r;
     navigation_timing := navigation_timing r; timestamp := timestamp r;
     run_number := run_number r; config := config r |}.

Definition set_status (v : Status) (r : RunResult) : RunResult :=
  {| url := url r; load_time_ms := load_time_ms r; status := v;
     error_message := error_message r;
     navigation_timing := navigation_timing r; timestamp := timestamp r;
     run_number := run_number r; config := config r |}.

Definition set_error_message (v : option string) (r : RunResult) : RunResult :=
  {| url := url r; load_time_ms := load_time_ms r; status := status r;
     error_message := Some v;
     navigation_timing := navigation_timing r; timestamp := timestamp r;
     run_number := run_number r; config := config r |}.

Definition set_navigation_timing (v : NavTimingField) (r : RunResult)
  : RunResult :=
  {| url := url r; load_time_ms := load_time_ms r; status := status r;
     error_message := error_message r;
     navigation_timing := Some v; timestamp := timestamp r;
     run_number := run_number r; config := config r |}.

Definition set_run_number (v : nat) (r : RunResult) : RunResult :=
  {| url := url r; load_time_ms := load_time_ms r; status := status r;
     error_message := error_message r;
     navigation_timing := navigation_timing r; timestamp := timestamp r;
     run_number := Some v; config := config r |}.

Definition set_config (v : PyDictT) (r : RunResult) : RunResult :=
  {| url := url r; load_time_ms := load_time_ms r; status := status r;
     error_message := error_message r;
     navigation_timing := navigation_timing r; timestamp := timestamp r;
     run_number := run_number r; config := Some v |}.

(** What the browser session and the clocks do during one call of
    [measure_load_time]. *)
Record Session := {
  time_time : Q;                       (* time.time() *)
  perf_start : Q;                      (* perf_counter() at the start *)
  perf_end : Q;                        (* perf_counter() when the end is read *)
  driver_get : Outcome unit;           (* driver.get(url) *)
  wait_ready_state : Outcome unit;     (* wait.until(readyState == 'complete') *)
  wait_load_event_end : Outcome unit;  (* wait.until(loadEventEnd > 0) *)
  navigation_timing_script : Outcome (option (list (string * JsVal)))
                                       (* execute_script(JS_NAVIGATION_TIMING) *)
}.

(** Statements of [measure_load_time] act on the [results] dictionary. *)
Definition Stmt (A : Type) := M RunResult A.

Local Open Scope stmt_scope.

Definition tget (k : string) (d : list (string * JsVal)) : JsVal :=
  dict_get_default k (JsNum 0) d.

(** The body of the inner [try] of [measure_load_time]. *)
Definition get_detailed_timing (driver : Session) : Stmt unit :=
  timing_data <- call (navigation_timing_script driver) ;;
  match timing_data with
  | None | Some [] => ret tt
  | Some timing_data =>
      let nav_start := tget "navigationStart" timing_data in
      positive <- call (js_gt0 nav_start) ;;
      if positive : bool then
        dns <- call (js_sub (tget "domainLookupEnd" timing_data)
                            (tget "domainLookupStart" timing_data)) ;;
        connect <- call (js_sub (tget "connectEnd" timing_data)
                                (tget "connectStart" timing_data)) ;;
        first_byte <- call (js_sub (tget "responseStart" timing_data)
                                   (tget "requestStart" timing_data)) ;;
        total <- (if js_truthy (tget "loadEventEnd" timing_data)
                  then call (js_sub (tget "loadEventEnd" timing_data) nav_start)
                  else ret (JsNum (-1))) ;;
        processing <- (if js_truthy (tget "domInteractive" timing_data)
                          && js_truthy (tget "domComplete" timing_data)
                       then call (js_sub (tget "domComplete" timing_data)
                                         (tget "domInteractive" timing_data))
                       else ret (JsNum (-1))) ;;
        update (set_navigation_timing (NavData {|
          navigation_start := nav_start;
          fetch_start := tget "fetchStart" timing_data;
          dns_lookup_time := dns;
          connect_time := connect;
          ttfb := first_byte;
          dom_interactive := tget "domInteractive" timing_data;
          dom_content_loaded := tget "domContentLoadedEventEnd" timing_data;
          dom_complete := tget "domComplete" timing_data;
          load_event_start := tget "loadEventStart" timing_data;
          load_event_end := tget "loadEventEnd" timing_data;
          total_load_from_nav_start := total;
          dom_processing_time := processing |}))
      else ret tt
  end.

(** The wait selected by [wait_strategy]. *)
Definition wait_for_load (driver : Session) (wait_strategy : string)
  : Stmt unit :=
  if String.eqb wait_strategy "ReadyState" then
    call (wait_ready_state driver)
  else if String.eqb wait_strategy "LoadEventEnd" then
    call (wait_load_event_end driver)
  else if String.eqb wait_strategy "Combined" then
    call (wait_ready_state driver) ;;;
    call (wait_load_event_end driver)
  else
    raise (ValueError ("Invalid wait_strategy: " ++ wait_strategy)%string).

Definition elapsed_ms (driver : Session) : Q :=
  ((perf_end driver - perf_start driver) * 1000)%Q.

Definition measure_load_time (driver : Session) (url : string)
    (timeout : Z) (wait_strategy : string) : Outcome RunResult :=
  let results :=
    {| url := url; load_time_ms := (-1)%Q; status := Error;
       error_message := Some None; navigation_timing := Some NavNone;
       timestamp := time_time driver;
       run_number := None; config := None |} in
  let body : Stmt unit :=
    call (driver_get driver) ;;;
    wait_for_load driver wait_strategy ;;;
    update (set_load_time_ms (elapsed_ms driver)) ;;;
    update (set_status Success) ;;;
    try_except (get_detailed_timing driver)
      (fun e => Some (update (set_navigation_timing (NavError (exc_str e))))) in
  let handlers (e : Exc) : option (Stmt unit) :=
    if is_timeout_exception e then
      Some (update (set_status Error) ;;;
            update (set_error_message (Some
              ("Timeout after " ++ str_int timeout
               ++ " seconds waiting for page load ("
               ++ wait_strategy ++ " strategy).")%string)))
    else if is_webdriver_exception e then
      Some (update (set_status Error) ;;;
            update (set_error_message (Some ("WebDriver error: " ++ exc_str e)%string)))
    else
      Some (update (set_status Error) ;;;
            update (set_error_message (Some ("Unexpected error: " ++ exc_str e)%string))) in
  let finally : Stmt unit :=
    results <- read ;;
    if Qltb (load_time_ms results) 0%Q
       && status_eqb (status results) Error
    then update (set_load_time_ms (elapsed_ms driver))
    else ret tt in
  match try_finally (try_except body handlers) finally results with
  | (Returns _, results) => Returns results
  | (Raises e, _) => Raises e
  end.

End SeleniumUtils.
Import SeleniumUtils.

(* ================================================================= *)
(** ** worker.py: the run orchestrator *)

Module Worker.

Local Open Scope stmt_scope.

Record DnsEntry := { latency_ms : option Q; dns_status : string }.
Definition DnsResults := list (string * DnsEntry).

(** A browser driver, as the worker uses it: what its [k]-th page load
    meets, how its [k]-th state reset ends, how [quit()] ends. *)
Record Driver := {
  session : nat -> Session;
  reset_state : nat -> Outcome unit;
  quit : Outcome unit
}.

(** The world around one run: the DNS probe, the outcome of the [i]-th
    call of [setup_driver], the wall clock read for the error results of
    the [i]-th URL, and the moment the operator presses Stop:
    [stop_after = Some s] says that [stop()] sets [_is_running = False]
    once the run has performed [s] actions (during the [s]-th action or
    right after it); [None] says that nobody stops the run. *)
Record Env := {
  run_dns_benchmark : Outcome DnsResults;
  setup_driver : nat -> string -> bool -> bool -> Outcome (option Driver);
  wall_clock : nat -> nat -> Q;
  stop_after : option nat
}.

Inductive Signal :=
| progress (current total : nat)
| status_update (msg : string)
| result_ready (r : RunResult)
| finished
| error_occurred (msg : string)
| dns_results_ready (d : DnsResults).

(** What the run does, in order: the signals it emits and the calls it
    makes into the browser and the network. *)
Inductive Action :=
| Emit (s : Signal)
| DnsBenchmark
| SetupDriver (url : string)
| MeasureLoadTime (url : string) (run : nat) (returned : Outcome RunResult)
| ResetBrowser
| QuitDriver (url : string).

(** The fields of a [TestWorker] after [__init__]. *)
Record TestWorker := {
  urls : list string;
  config : PyDictT;
  runs_per_url : nat;
  browser : string;
  headless : bool;
  timeout : Z;
  wait_strategy : string
}.

(** The state [run] changes: its local [current_step], [self.driver], and
    the actions performed so far. *)
Record RunState := {
  current_step : nat;
  driver : option Driver;
  log : list Action
}.

Definition set_driver (d : option Driver) (st : RunState) : RunState :=
  {| current_step := current_step st; driver := d; log := log st |}.

Definition incr_current_step (st : RunState) : RunState :=
  {| current_step := (current_step st + 1)%nat; driver := driver st; log := log st |}.

Definition append_log (a : Action) (st : RunState) : RunState :=
  {| current_step := current_step st; driver := driver st;
     log := log st ++ [a] |}.

(** Truth value of a Python value. *)
Definition py_truthy (v : PyVal) : bool :=
  match v with
  | PyNone => false
  | PyBool b => b
  | PyInt z => negb (z =? 0)%Z
  | PyFloat q => negb (Qeq_bool q 0%Q)
  | PyStr s => negb (String.eqb s "")
  | PyList l => match l with [] => false | _ => true end
  | PyDict d => match d with [] => false | _ => true end
  end.

Definition newline : string := String (ascii_of_nat 10) "".

(** [str(WebDriverException(msg))] *)
Definition WebDriverException_ (msg : string) : Exc :=
  mkExc WebDriverException ("Message: " ++ msg ++ newline)%string.

(** How one iteration of the URL loop ends. *)
Inductive Ctl := Next | Break.

Definition str_nat (n : nat) : string := str_int (Z.of_nat n).

Section Run.
Variable env : Env.
Variable self : TestWorker.

Definition W := M RunState.

Definition act (a : Action) : W unit := update (append_log a).

Definition emit (s : Signal) : W unit := act (Emit s).

(** A call out of the worker: it is an action of its own, then it
    returns or raises. *)
Definition ext {A} (a : Action) (o : Outcome A) : W A := act a ;;; call o.

(** Reading [self._is_running]. *)
Definition _is_running : W bool :=
  st <- read ;;
  ret (match stop_after env with
       | None => true
       | Some s => (List.length (log st) <? s)%nat
       end).

Definition total_steps : nat :=
  (List.length (urls self) * runs_per_url self)%nat.

(** [for run_num_fail in range(self.runs_per_url)] of the [except]
    branch. *)
Fixpoint failed_runs (i : nat) (url : string) (setup_error : Exc)
    (runs : list nat) : W unit :=
  match runs with
  | [] => ret tt
  | run_num_fail :: runs' =>
      update incr_current_step ;;;
      st <- read ;;
      emit (progress (current_step st) total_steps) ;;;
      emit (result_ready
        {| url := url;
           load_time_ms := (-1)%Q;
           status := Error;
           error_message :=
             Some (Some ("Driver setup failed: " ++ exc_str setup_error)%string);
           navigation_timing := None;
           timestamp := wall_clock env i run_num_fail;
           run_number := Some (run_num_fail + 1);
           SeleniumUtils.config := Some (config self) |}) ;;;
      failed_runs i url setup_error runs'
  end.

(** [for run in range(self.runs_per_url)] of the tests of one URL. *)
Fixpoint test_runs (url : string) (d : Driver) (runs : list nat) : W unit :=
  match runs with
  | [] => ret tt
  | run :: runs' =>
      running <- _is_running ;;
      if negb running then ret tt
      else
        update incr_current_step ;;;
        st <- read ;;
        emit (progress (current_step st) total_steps) ;;;
        emit (status_update ("Running test " ++ str_nat (run + 1) ++ "/"
                ++ str_nat (runs_per_url self) ++ " for " ++ url ++ "...")%string) ;;;
        let returned :=
          measure_load_time (session d run) url (timeout self)
            (wait_strategy self) in
        measurement_result <- ext (MeasureLoadTime url run returned) returned ;;
        let measurement_result := set_run_number (run + 1) measurement_result in
        let measurement_result := set_config (config self) measurement_result in
        running <- _is_running ;;
        if negb running then ret tt
        else
          emit (result_ready measurement_result) ;;;
          try_except (ext ResetBrowser (reset_state d run))
            (fun reset_error => Some (ret tt)) ;;;
          test_runs url d runs'
  end.

(** The body of [for url in self.urls], for the [i]-th URL. *)
Definition test_url (i : nat) (url : string) : W Ctl :=
  running <- _is_running ;;
  if negb running then
    emit (status_update "Test stopped by user.") ;;; ret Break
  else
    update (set_driver None) ;;;
    ready <- try_except
      (emit (status_update ("Initializing driver for URL: " ++ url ++ "...")%string) ;;;
       let current_anti_detection_setting :=
         dict_get_default "anti_detection_enabled" (PyBool false) (config self) in
       d <- ext (SetupDriver url)
              (setup_driver env i (browser self) (headless self)
                 (py_truthy current_anti_detection_setting)) ;;
       update (set_driver d) ;;;
       match d with
       | None => raise (WebDriverException_ "setup_driver returned None unexpectedly.")
       | Some d' =>
           emit (status_update ("Driver ready for " ++ url ++ ".")%string) ;;;
           ret (Some d')
       end)
      (fun setup_error => Some (
         let error_msg := ("Fatal Error initializing driver for " ++ url
                           ++ ": " ++ exc_str setup_error)%string in
         emit (status_update error_msg) ;;;
         emit (error_occurred error_msg) ;;;
         failed_runs i url setup_error (seq 0 (runs_per_url self)) ;;;
         ret None)) ;;
    match ready with
    | None => ret Next
    | Some d =>
        emit (status_update ("Testing URL: " ++ url ++ " ("
                ++ str_nat (runs_per_url self) ++ " runs)")%string) ;;;
        test_runs url d (seq 0 (runs_per_url self)) ;;;
        st <- read ;;
        match driver st with
        | Some d =>
            try_except
              (ext (QuitDriver url) (quit d) ;;;
               emit (status_update ("Browser driver closed for " ++ url ++ ".")%string))
              (fun quit_error => Some (
                 emit (status_update ("Warning: Error quitting driver for "
                         ++ url ++ ": " ++ exc_str quit_error)%string)))
        | None => ret tt
        end ;;;
        update (set_driver None) ;;;
        running <- _is_running ;;
        if negb running then ret Break else ret Next
    end.

Fixpoint test_urls (i : nat) (us : list string) : W unit :=
  match us with
  | [] => ret tt
  | url :: us' =>
      c <- test_url i url ;;
      match c with
      | Break => ret tt
      | Next => test_urls (S i) us'
      end
  end.

Definition run : W unit :=
  (if py_truthy (dict_get_default "run_dns_benchmark" (PyBool false) (config self))
   then
     emit (status_update "Running DNS latency benchmark...") ;;;
     try_except
       (dns_results <- ext DnsBenchmark (run_dns_benchmark env) ;;
        emit (dns_results_ready dns_results) ;;;
        emit (status_update "DNS benchmark finished."))
       (fun dns_err => Some (
          emit (status_update ("Error during DNS benchmark: " ++ exc_str dns_err)%string) ;;;
          emit (dns_results_ready
                  [("Error", {| latency_ms := None; dns_status := exc_str dns_err |})])))
   else ret tt) ;;;
  running <- _is_running ;;
  if negb running then
    emit (status_update "Test stopped after DNS benchmark.") ;;;
    emit finished
  else
    emit (status_update "Starting Browse speed tests...") ;;;
    test_urls 0 (urls self) ;;;
    running <- _is_running ;;
    (if running then emit (status_update "Testing finished.") else ret tt) ;;;
    emit finished.

Definition initial : RunState :=
  {| current_step := 0; driver := None; log := [] |}.

(** The actions of a whole run, in order. *)
Definition trace : list Action := log (snd (run initial)).

(** Whether [run] returned ([None]) or died of an exception. *)
Definition crashed : option Exc :=
  match fst (run initial) with Returns _ => None | Raises e => Some e end.
End Run.

(** The results emitted by a list of actions, in order. *)
Fixpoint results_of (l : list Action) : list RunResult :=
  match l with
  | [] => []
  | Emit (result_ready r) :: l' => r :: results_of l'
  | _ :: l' => results_of l'
  end.

Definition is_finished (a : Action) : bool :=
  match a with Emit finished => true | _ => false end.

Definition is_measure (a : Action) : bool :=
  match a with MeasureLoadTime _ _ _ => true | _ => false end.

End Worker.

(* ================================================================= *)
(** ** Python's json and statistics modules, as the program uses them *)

Module PyLib.

(** A JSON document.  A number is written as an integer, or with a
    fraction or an exponent.  An object lists its members in the order of
    the text; a text may repeat a name. *)
Inductive Json :=
| JNull
| JBool (b : bool)
| JInt (z : Z)
| JFloat (q : Q)
| JString (s : string)
| JArray (items : list Json)
| JObject (members : list (string * Json)).

(** [json.dump]: the document written for a value.  (The text of the
    document, its indentation and the spelling of numbers are not
    modelled.) *)
Fixpoint json_dump (v : PyVal) : Json :=
  match v with
  | PyNone => JNull
  | PyBool b => JBool b
  | PyInt z => JInt z
  | PyFloat q => JFloat q
  | PyStr s => JString s
  | PyList l => JArray (map json_dump l)
  | PyDict d => JObject (map (fun kv => (fst kv, json_dump (snd kv))) d)
  end.

(** [json.load]: the value read from a document.  An object becomes a
    dictionary, filled member by member, so that a repeated name keeps its
    last value. *)
Fixpoint json_load (j : Json) : PyVal :=
  match j with
  | JNull => PyNone
  | JBool b => PyBool b
  | JInt z => PyInt z
  | JFloat q => PyFloat q
  | JString s => PyStr s
  | JArray items => PyList (map json_load items)
  | JObject members =>
      PyDict (fold_left (fun d kv => dict_set (fst kv) (json_load (snd kv)) d)
                members [])
  end.

(** A Python dictionary holds each key once.  [well_keyed v] says that of
    the association lists that stand for the dictionaries of [v]. *)
Fixpoint unique (keys : list string) : bool :=
  match keys with
  | [] => true
  | k :: keys' =>
      negb (existsb (String.eqb k) keys') && unique keys'
  end.

Fixpoint well_keyed (v : PyVal) : bool :=
  match v with
  | PyList l => forallb well_keyed l
  | PyDict d =>
      unique (map fst d) && forallb (fun kv => well_keyed (snd kv)) d
  | _ => true
  end.

(** [sorted(l)], for the order [leb] of the elements. *)
Section Sorted.
Context {A : Type} (leb : A -> A -> bool).

Fixpoint insert_by (x : A) (l : list A) : list A :=
  match l with
  | [] => [x]
  | y :: l' => if leb x y then x :: l else y :: insert_by x l'
  end.

Definition sorted_by (l : list A) : list A := fold_right insert_by [] l.
End Sorted.

(** [sorted(data)] on numbers. *)
Definition sorted_Q (data : list Q) : list Q := sorted_by Qle_bool data.

(** [round(x)]: to the nearest integer, a tie to the even one. *)
Definition round_half_even (x : Q) : Z :=
  let n := Qnum x in
  let d := Zpos (Qden x) in
  let f := (n / d)%Z in
  match (2 * (n mod d) ?= d)%Z with
  | Lt => f
  | Gt => (f + 1)%Z
  | Eq => if Z.even f then f else (f + 1)%Z
  end.

(** *** Doubles *)

Definition pow2 (e : Z) : Q := (2 ^ e)%Q.

(** A [float]: a rational [m * 2^e] with [m] of at most 53 bits. *)
Definition is_double (g : Q) : Prop :=
  exists m e : Z, (Z.abs m < 2 ^ 53)%Z /\ (g == inject_Z m * pow2 e)%Q.

(** The exponent of the last of the 53 bits of [x > 0]: the [e] with
    [2^52 <= x / 2^e < 2^53]. *)
Definition float_exponent (x : Q) : Z :=
  let e := (Z.log2 (Qnum x) - Z.log2 (Zpos (Qden x)) - 53)%Z in
  if Qle_bool (pow2 53) (x * pow2 (- e)) then (e + 1)%Z else e.

(** [x > 0] rounded to 53 bits, a tie to the even one. *)
Definition round_to_53_bits (x : Q) : Q :=
  let e := float_exponent x in
  (inject_Z (round_half_even (x * pow2 (- e))) * pow2 e)%Q.

(** [float(x)] for a fraction [x]: the nearest double, a tie to the one
    with the even last bit, as a fraction in lowest terms. *)
Definition to_float (x : Q) : Q :=
  Qred (match (Qnum x ?= 0)%Z with
        | Gt => round_to_53_bits x
        | Lt => (- round_to_53_bits (- x))%Q
        | Eq => 0%Q
        end).

(** [n / m] for two [int]: the double nearest to the quotient. *)
Definition int_true_div (n m : Z) : Q :=
  to_float (inject_Z n / inject_Z m).

(** [round(x, 2)] on a [float]: the number of hundredths nearest to [x], a
    tie to the even one, and of that the nearest double. *)
Definition round2 (x : Q) : Q :=
  to_float (round_half_even (x * 100)%Q # 100).

(** *** The [statistics] module

    As of CPython 3.11: the sums and the quotients are computed on exact
    fractions, and only the results are converted to [float]. *)

Definition Qsum (data : list Q) : Q := fold_right Qplus 0%Q data.

Definition len (data : list Q) : Q := inject_Z (Z.of_nat (List.length data)).

(** [statistics.mean]: the sum and the quotient are exact, the result is
    converted to [float]. *)
Definition mean (data : list Q) : Outcome Q :=
  match data with
  | [] => Raises (StatisticsError "mean requires at least one data point")
  | _ => Returns (to_float (Qsum data / len data))
  end.

(** [min] and [max] *)
Definition py_min (data : list Q) : Outcome Q :=
  match data with
  | [] => Raises (ValueError "min() arg is an empty sequence")
  | x :: data' =>
      Returns (fold_left (fun m y => if Qltb y m then y else m) data' x)
  end.

Definition py_max (data : list Q) : Outcome Q :=
  match data with
  | [] => Raises (ValueError "max() arg is an empty sequence")
  | x :: data' =>
      Returns (fold_left (fun m y => if Qltb m y then y else m) data' x)
  end.

(** [statistics.median]: for an even number of [float], the sum and the
    half are [float] operations. *)
Definition median (data : list Q) : Outcome Q :=
  let data := sorted_Q data in
  let n := List.length data in
  if (n =? 0)%nat then Raises (StatisticsError "no median for empty data")
  else if (n mod 2 =? 1)%nat then Returns (nth (n / 2) data 0%Q)
  else
    let i := (n / 2)%nat in
    Returns (to_float (to_float (nth (i - 1) data 0%Q + nth i data 0%Q) / 2)).

(** [n.bit_length()] *)
Definition bit_length (n : Z) : Z :=
  if (n =? 0)%Z then 0%Z else (Z.log2 (Z.abs n) + 1)%Z.

(** [statistics._integer_sqrt_of_frac_rto]: the square root of [n / m],
    rounded to an integer, to the odd one when it is not exact. *)
Definition _integer_sqrt_of_frac_rto (n m : Z) : Z :=
  let a := Z.sqrt (n / m) in
  Z.lor a (if (a * a * m =? n)%Z then 0 else 1).

(** [statistics._float_sqrt_of_frac]: the square root of [n / m] as a
    [float]. *)
Definition _float_sqrt_of_frac (n m : Z) : Q :=
  let q := ((bit_length n - bit_length m - 109) / 2)%Z in
  if (0 <=? q)%Z then
    int_true_div
      (Z.shiftl (_integer_sqrt_of_frac_rto n (Z.shiftl m (2 * q))) q) 1
  else
    int_true_div (_integer_sqrt_of_frac_rto (Z.shiftl n (- 2 * q)) m)
      (Z.shiftl 1 (- q)).

(** [math.sqrt] of a fraction, which [statistics] takes in lowest
    terms. *)
Definition float_sqrt (v : Q) : Q :=
  _float_sqrt_of_frac (Qnum (Qred v)) (Zpos (Qden (Qred v))).

(** [statistics.stdev]: the sample standard deviation.  The mean, the sum
    of the squared deviations and its quotient by [n - 1] are exact
    fractions; the square root is a [float]. *)
Definition stdev (data : list Q) : Outcome Q :=
  if (List.length data <? 2)%nat then
    Raises (StatisticsError "stdev requires at least two data points")
  else
    let c := (Qsum data / len data)%Q in
    let ss := Qsum (map (fun x => (x - c) * (x - c))%Q data) in
    Returns (float_sqrt (ss / (len data - 1))).

(** [set(l)]: the distinct elements.  (The order in which Python walks a
    set is not specified; the report sorts the set at once.) *)
Definition py_set (l : list string) : list string := nodup string_dec l.

(** [a <= b] on strings: the lexicographic order of the characters. *)
Definition str_leb (a b : string) : bool :=
  match String_as_OT.compare a b with Gt => false | _ => true end.

Definition sorted_str (l : list string) : list string :=
  sorted_by str_leb l.

End PyLib.
Import PyLib.

(* ================================================================= *)
(** ** gui.py: the report aggregator *)

Module Gui.

Local Open Scope stmt_scope.

(** A statistic of the summary: a number, or the marker ['N/A']. *)
Inductive Stat := NA | Num (q : Q).

Record UrlSummary := {
  url : string;
  num_successful_runs : nat;
  num_errors : nat;
  avg_load_time_ms : Stat;
  min_load_time_ms : Stat;
  max_load_time_ms : Stat;
  median_load_time_ms : Stat;
  std_dev_load_time_ms : Stat;
  error_messages : list (option string)
}.

Definition Summary := list (string * UrlSummary).

(** [r['url'] == url and r['status'] == st] *)
Definition has_url_status (url : string) (st : Status) (r : RunResult) : bool :=
  String.eqb (SeleniumUtils.url r) url && status_eqb (status r) st.

(** [e.get('error_message', 'Unknown Error')] *)
Definition get_error_message (e : RunResult) : option string :=
  match error_message e with
  | Some v => v
  | None => Some "Unknown Error"
  end.

(** [r['load_time_ms']] of a result of the report: a Python [float], so
    the double nearest to the rational that the result holds, which is
    that rational when it is a double. *)
Definition float_load_time (r : RunResult) : Q := to_float (load_time_ms r).

(** The body of [for url in urls]: one entry of [summary]. *)
Definition summarize_url (results_data : list RunResult) (url : string)
  : M Summary unit :=
  let url_results := filter (has_url_status url Success) results_data in
  let url_errors := filter (has_url_status url Error) results_data in
  let load_times :=
    map float_load_time
      (filter (fun r => Qgeb (load_time_ms r) 0%Q) url_results) in
  match load_times with
  | _ :: _ =>
      avg <- call (mean load_times) ;;
      lo <- call (py_min load_times) ;;
      hi <- call (py_max load_times) ;;
      med <- call (median load_times) ;;
      dev <- (if (1 <? List.length load_times)%nat
              then dev <- call (stdev load_times) ;; ret (round2 dev)
              else ret 0%Q) ;;
      update (dict_set url
        {| url := url;
           num_successful_runs := List.length load_times;
           num_errors := List.length url_errors;
           avg_load_time_ms := Num (round2 avg);
           min_load_time_ms := Num (round2 lo);
           max_load_time_ms := Num (round2 hi);
           median_load_time_ms := Num (round2 med);
           std_dev_load_time_ms := Num dev;
           error_messages := map get_error_message url_errors |})
  | [] =>
      update (dict_set url
        {| url := url;
           num_successful_runs := 0;
           num_errors := List.length url_errors;
           avg_load_time_ms := NA;
           min_load_time_ms := NA;
           max_load_time_ms := NA;
           median_load_time_ms := NA;
           std_dev_load_time_ms := NA;
           error_messages := map get_error_message url_errors |})
  end.

Fixpoint summarize_urls (results_data : list RunResult) (urls : list string)
  : M Summary unit :=
  match urls with
  | [] => ret tt
  | url :: urls' =>
      summarize_url results_data url ;;;
      summarize_urls results_data urls'
  end.

Definition generate_summary_report (results_data : list RunResult)
  : Outcome Summary :=
  match results_data with
  | [] => Returns []
  | _ =>
      let urls := sorted_str (py_set (map SeleniumUtils.url results_data)) in
      match summarize_urls results_data urls [] with
      | (Returns _, summary) => Returns summary
      | (Raises e, _) => Raises e
      end
  end.

(** *** The dictionaries behind the records *)

Definition py_nat (n : nat) : PyVal := PyInt (Z.of_nat n).

Definition py_opt_str (s : option string) : PyVal :=
  match s with None => PyNone | Some s => PyStr s end.

Definition py_js (v : JsVal) : PyVal :=
  match v with JsNum z => PyInt z | JsNull => PyNone end.

Definition py_status (s : Status) : PyVal :=
  match s with Success => PyStr "Success" | Error => PyStr "Error" end.

Definition py_navigation_timing (t : NavTimingField) : PyVal :=
  match t with
  | NavNone => PyNone
  | NavError msg => PyDict [("error", PyStr msg)]
  | NavData t =>
      PyDict [("navigation_start", py_js (navigation_start t));
              ("fetch_start", py_js (fetch_start t));
              ("dns_lookup_time", py_js (dns_lookup_time t));
              ("connect_time", py_js (connect_time t));
              ("ttfb", py_js (ttfb t));
              ("dom_interactive", py_js (dom_interactive t));
              ("dom_content_loaded", py_js (dom_content_loaded t));
              ("dom_complete", py_js (dom_complete t));
              ("load_event_start", py_js (load_event_start t));
              ("load_event_end", py_js (load_event_end t));
              ("total_load_from_nav_start", py_js (total_load_from_nav_start t));
              ("dom_processing_time", py_js (dom_processing_time t))]
  end.

Definition optional_key {A} (k : string) (f : A -> PyVal) (v : option A)
  : list (string * PyVal) :=
  match v with None => [] | Some a => [(k, f a)] end.

(** The dictionary a [RunResult] stands for, its keys in the order in
    which the sampler and the worker insert them.  A load time is a
    [float]; the [-1] of a result without one, an [int] in the code,
    stands here as the [float] that equals it. *)
Definition py_result (r : RunResult) : PyVal :=
  PyDict ([("url", PyStr (SeleniumUtils.url r));
           ("load_time_ms", PyFloat (load_time_ms r));
           ("status", py_status (status r))]
          ++ optional_key "error_message" py_opt_str (error_message r)
          ++ optional_key "navigation_timing" py_navigation_timing
               (navigation_timing r)
          ++ [("timestamp", PyFloat (timestamp r))]
          ++ optional_key "run_number" py_nat (run_number r)
          ++ optional_key "config" PyDict (config r)).

Definition py_stat (s : Stat) : PyVal :=
  match s with NA => PyStr "N/A" | Num q => PyFloat q end.

Definition py_url_summary (s : UrlSummary) : PyVal :=
  PyDict [("url", PyStr (url s));
          ("num_successful_runs", py_nat (num_successful_runs s));
          ("num_errors", py_nat (num_errors s));
          ("avg_load_time_ms", py_stat (avg_load_time_ms s));
          ("min_load_time_ms", py_stat (min_load_time_ms s));
          ("max_load_time_ms", py_stat (max_load_time_ms s));
          ("median_load_time_ms", py_stat (median_load_time_ms s));
          ("std_dev_load_time_ms", py_stat (std_dev_load_time_ms s));
          ("error_messages", PyList (map py_opt_str (error_messages s)))].

Definition py_summary (s : Summary) : PyVal :=
  PyDict (map (fun kv => (fst kv, py_url_summary (snd kv))) s).

(** The JSON branch of [export_report]: the value handed to [json.dump],
    [None] when there is nothing to export or the summary raised (the
    operator gets a message box, no file is written). *)
Definition export_data (results_data : list RunResult) (settings : PyDictT)
  : option PyVal :=
  match results_data with
  | [] => None
  | _ =>
      match generate_summary_report results_data with
      | Raises _ => None
      | Returns summary =>
          Some (PyDict
            [("summary_report", py_summary summary);
             ("raw_results", PyList (map py_result results_data));
             ("test_configuration",
              PyDict (filter (fun kv => negb (String.eqb (fst kv) "results"))
                        settings))])
      end
  end.

(** The document [export_report] writes for the JSON format. *)
Definition export_report_json (results_data : list RunResult)
    (settings : PyDictT) : option Json :=
  option_map json_dump (export_data results_data settings).

End Gui.

(* ================================================================= *)
(** ** settings_manager.py: the settings store *)

Module SettingsManager.

Local Open Scope stmt_scope.

Definition DEFAULT_SETTINGS : PyDictT :=
  [("urls", PyList [PyStr "https://www.google.com";
                    PyStr "https://www.wikipedia.org";
                    PyStr "https://github.com"]);
   ("runs_per_url", PyInt 3);
   ("browser", PyStr "Chrome");
   ("headless", PyBool false);
   ("timeout_seconds", PyInt 60);
   ("wait_strategy", PyStr "Combined");
   ("anti_detection_enabled", PyBool true);
   ("export_format", PyStr "CSV");
   ("results", PyList [])].

(** What [settings.json] holds: a text that is a JSON document; a text
    that the parser rejects, with the parser's complaint; or bytes that
    are not a text in the encoding of the locale, with the decoder's
    complaint. *)
Inductive FileContent :=
| JsonText (j : Json)
| Unparseable (why : string)
| Undecodable (why : string).

(** The file system around the settings file: the file (if any), and the
    [IOError] (if any) that opening it for reading or for writing
    raises. *)
Record Disk := {
  file : option FileContent;
  read_error : option string;
  write_error : option string
}.

Definition set_file (c : FileContent) (d : Disk) : Disk :=
  {| file := Some c; read_error := read_error d;
     write_error := write_error d |}.

(** [open(SETTINGS_FILE, 'r')] and [open(SETTINGS_FILE, 'w')] *)
Definition open_ (error : option string) : Outcome unit :=
  match error with
  | None => Returns tt
  | Some msg => Raises (mkExc IOError msg)
  end.

Definition is_io_error (e : Exc) : bool :=
  match exc_class e with IOError => true | _ => false end.

Definition is_json_decode_error (e : Exc) : bool :=
  match exc_class e with JSONDecodeError => true | _ => false end.

Definition save_settings (settings : PyVal) : M Disk unit :=
  try_except
    (d <- read ;;
     call (open_ (write_error d)) ;;;
     update (set_file (JsonText (json_dump settings))))
    (fun e => if is_io_error e then Some (ret tt) else None).

Definition py_type_name (v : PyVal) : string :=
  match v with
  | PyNone => "NoneType"
  | PyBool _ => "bool"
  | PyInt _ => "int"
  | PyFloat _ => "float"
  | PyStr _ => "str"
  | PyList _ => "list"
  | PyDict _ => "dict"
  end.

(** [key in settings] *)
Definition py_in (key : string) (settings : PyVal) : Outcome bool :=
  match settings with
  | PyDict d => Returns (dict_mem key d)
  | PyList l =>
      Returns (existsb (fun v => match v with
                                 | PyStr s => String.eqb s key
                                 | _ => false
                                 end) l)
  | PyStr s => Returns (contains key s)
  | _ => Raises (TypeError ("argument of type '" ++ py_type_name settings
                            ++ "' is not iterable")%string)
  end.

(** [settings[key] = value] *)
Definition py_setitem (key : string) (value : PyVal) (settings : PyVal)
  : Outcome PyVal :=
  match settings with
  | PyDict d => Returns (PyDict (dict_set key value d))
  | PyList _ =>
      Raises (TypeError "list indices must be integers or slices, not str")
  | _ => Raises (TypeError ("'" ++ py_type_name settings
                   ++ "' object does not support item assignment")%string)
  end.

(** [for key, value in DEFAULT_SETTINGS.items()]: returns the settings
    and the flag [updated]. *)
Fixpoint fill_defaults (items : list (string * PyVal)) (settings : PyVal)
    (updated : bool) : Outcome (PyVal * bool) :=
  match items with
  | [] => Returns (settings, updated)
  | (key, value) :: items' =>
      match py_in key settings with
      | Raises e => Raises e
      | Returns true => fill_defaults items' settings updated
      | Returns false =>
          match py_setitem key value settings with
          | Raises e => Raises e
          | Returns settings' => fill_defaults items' settings' true
          end
      end
  end.

Definition load_settings : M Disk PyVal :=
  d <- read ;;
  match file d with
  | None =>
      save_settings (PyDict DEFAULT_SETTINGS) ;;;
      ret (PyDict DEFAULT_SETTINGS)
  | Some content =>
      try_except
        (call (open_ (read_error d)) ;;;
         settings <- match content with
                     | JsonText j => ret (json_load j)
                     | Unparseable why => raise (mkExc JSONDecodeError why)
                     | Undecodable why => raise (UnicodeDecodeError why)
                     end ;;
         filled <- call (fill_defaults DEFAULT_SETTINGS settings false) ;;
         let (settings, updated) := filled : PyVal * bool in
         (if updated then save_settings settings else ret tt) ;;;
         ret settings)
        (fun e => if is_json_decode_error e || is_io_error e
                  then Some (ret (PyDict DEFAULT_SETTINGS))
                  else None)
  end.

End SettingsManager.

(* ================================================================= *)
(** ** Vocabulary of the statements about the worker *)

Module WorkerSpec.
Import Worker.

Section Facts.
Variables (env : Env) (self : TestWorker).

(** What a read of [_is_running] gives after [n] actions. *)
Definition running_at (n : nat) : bool :=
  match stop_after env with
  | None => true
  | Some s => (n <? s)%nat
  end.

(** How the session setup of the [i]-th URL ends: the exception the
    [except] branch handles, or the driver. *)
Definition driver_for (i : nat) : Exc + Driver :=
  match setup_driver env i (browser self) (headless self)
          (py_truthy (dict_get_default "anti_detection_enabled"
                        (PyBool false) (config self))) with
  | Raises e => inl e
  | Returns None =>
      inl (WebDriverException_ "setup_driver returned None unexpectedly.")
  | Returns (Some d) => inr d
  end.

(** The error result of run [k + 1] of a URL whose setup failed. *)
Definition failure_result (i : nat) (url : string) (e : Exc) (k : nat)
  : RunResult :=
  {| SeleniumUtils.url := url;
     load_time_ms := (-1)%Q;
     status := Error;
     error_message := Some (Some ("Driver setup failed: " ++ exc_str e)%string);
     navigation_timing := None;
     timestamp := wall_clock env i k;
     run_number := Some (k + 1);
     SeleniumUtils.config := Some (config self) |}.

(** The result of run [run + 1] on driver [d], tagged by the worker. *)
Definition measured (url : string) (d : Driver) (run : nat)
  : list RunResult :=
  match measure_load_time (session d run) url (timeout self)
          (wait_strategy self) with
  | Returns r => [set_config (config self) (set_run_number (run + 1) r)]
  | Raises _ => []
  end.

(** The results of the [i]-th URL in a run that nobody stops. *)
Definition block (i : nat) (url : string) : list RunResult :=
  match driver_for i with
  | inl e => map (failure_result i url e) (seq 0 (runs_per_url self))
  | inr d => flat_map (measured url d) (seq 0 (runs_per_url self))
  end.

Fixpoint blocks (i : nat) (us : list string) : list RunResult :=
  match us with
  | [] => []
  | url :: us' => block i url ++ blocks (S i) us'
  end.

(** The setup call of the [i]-th URL and, if it fails, the one error
    notice that follows it. *)
Definition attempt (i : nat) (url : string) : list Action :=
  match driver_for i with
  | inl e =>
      [SetupDriver url;
       Emit (error_occurred ("Fatal Error initializing driver for " ++ url
                             ++ ": " ++ exc_str e)%string)]
  | inr _ => [SetupDriver url]
  end.

Fixpoint attempts (i : nat) (us : list string) : list Action :=
  match us with
  | [] => []
  | url :: us' => attempt i url ++ attempts (S i) us'
  end.
End Facts.

(** The setup calls and the error notices of a list of actions. *)
Definition is_attempt (a : Action) : bool :=
  match a with
  | SetupDriver _ | Emit (error_occurred _) => true
  | _ => false
  end.

Definition outline (l : list Action) : list Action := filter is_attempt l.

(** The URLs for which [setup_driver] is called, in order. *)
Fixpoint setups_of (l : list Action) : list string :=
  match l with
  | [] => []
  | SetupDriver url :: l' => url :: setups_of l'
  | _ :: l' => setups_of l'
  end.

(** An action that is neither [finished] nor a measurement that raised. *)
Definition calm (a : Action) : bool :=
  match a with
  | Emit finished => false
  | MeasureLoadTime _ _ (Raises _) => false
  | _ => true
  end.

(** The error result the worker emits for a run of a URL whose session
    setup failed. *)
Definition setup_failure (r : RunResult) : Prop :=
  status r = Error /\ load_time_ms r = (-1)%Q /\ navigation_timing r = None
  /\ exists msg,
       error_message r = Some (Some ("Driver setup failed: " ++ msg)%string).

End WorkerSpec.

(* ================================================================= *)
(** ** Vocabulary of the statements about the report *)

Module GuiSpec.
Import Gui.

(** The Success and the Error subset of a URL. *)
Definition successes (results : list RunResult) (u : string)
  : list RunResult :=
  filter (has_url_status u Success) results.

Definition errors (results : list RunResult) (u : string) : list RunResult :=
  filter (has_url_status u Error) results.

(** The data model's invariant on load times: a successful run has a
    load time that is not negative. *)
Definition well_timed (r : RunResult) : Prop :=
  status r = Success -> (0 <= load_time_ms r)%Q.

(** The value a library call returns (0 stands for a raise, which the
    report never meets). *)
Definition value (o : Outcome Q) : Q :=
  match o with Returns q => q | Raises _ => 0%Q end.

(** The entry the report computes for a URL. *)
Definition url_entry (results_data : list RunResult) (u : string)
  : UrlSummary :=
  let url_errors := errors results_data u in
  let load_times :=
    map float_load_time
      (filter (fun r => Qgeb (load_time_ms r) 0%Q) (successes results_data u)) in
  match load_times with
  | _ :: _ =>
      {| url := u;
         num_successful_runs := List.length load_times;
         num_errors := List.length url_errors;
         avg_load_time_ms := Num (round2 (value (mean load_times)));
         min_load_time_ms := Num (round2 (value (py_min load_times)));
         max_load_time_ms := Num (round2 (value (py_max load_times)));
         median_load_time_ms := Num (round2 (value (median load_times)));
         std_dev_load_time_ms :=
           Num (if (1 <? List.length load_times)%nat
                then round2 (value (stdev load_times)) else 0%Q);
         error_messages := map get_error_message url_errors |}
  | [] =>
      {| url := u;
         num_successful_runs := 0;
         num_errors := List.length url_errors;
         avg_load_time_ms := NA;
         min_load_time_ms := NA;
         max_load_time_ms := NA;
         median_load_time_ms := NA;
         std_dev_load_time_ms := NA;
         error_messages := map get_error_message url_errors |}
  end.

(** The configuration copied into a result is a dictionary. *)
Definition config_well_keyed (r : RunResult) : Prop :=
  match SeleniumUtils.config r with
  | Some c => well_keyed (PyDict c) = true
  | None => True
  end.

(** [settings] without the key ['results']. *)
Definition without_results (settings : PyDictT) : PyDictT :=
  filter (fun kv => negb (String.eqb (fst kv) "results")) settings.

(** *** Reading a report back

    What a reader of the exported report finds in it: the result, and the
    summary, that a dictionary stands for, its entries looked up by their
    keys, whatever their order.  [None]: the dictionary is not one of a
    result (of a summary). *)

Definition and_then {A B} (o : option A) (f : A -> option B) : option B :=
  match o with Some a => f a | None => None end.

(** An entry that has to be there, and one that may be missing. *)
Definition entry {A} (k : string) (d : PyDictT) (read : PyVal -> option A)
  : option A :=
  and_then (dict_get k d) read.

Definition optional_entry {A} (k : string) (d : PyDictT)
    (read : PyVal -> option A) : option (option A) :=
  match dict_get k d with
  | None => Some None
  | Some v => option_map Some (read v)
  end.

Definition read_number (v : PyVal) : option Q :=
  match v with
  | PyFloat q => Some q
  | PyInt z => Some (inject_Z z)
  | _ => None
  end.

Definition read_nat (v : PyVal) : option nat :=
  match v with
  | PyInt z => if (0 <=? z)%Z then Some (Z.to_nat z) else None
  | _ => None
  end.

Definition read_str (v : PyVal) : option string :=
  match v with PyStr s => Some s | _ => None end.

Definition read_opt_str (v : PyVal) : option (option string) :=
  match v with
  | PyNone => Some None
  | PyStr s => Some (Some s)
  | _ => None
  end.

Definition read_dict (v : PyVal) : option PyDictT :=
  match v with PyDict d => Some d | _ => None end.

Definition read_status (v : PyVal) : option Status :=
  match v with
  | PyStr s =>
      if String.eqb s "Success" then Some Success
      else if String.eqb s "Error" then Some Error
      else None
  | _ => None
  end.

Definition read_js (v : PyVal) : option JsVal :=
  match v with
  | PyInt z => Some (JsNum z)
  | PyNone => Some JsNull
  | _ => None
  end.

Definition read_navigation_timing (v : PyVal) : option NavTimingField :=
  match v with
  | PyNone => Some NavNone
  | PyDict d =>
      match dict_get "error" d with
      | Some e => option_map NavError (read_str e)
      | None =>
          and_then (entry "navigation_start" d read_js) (fun a =>
          and_then (entry "fetch_start" d read_js) (fun b =>
          and_then (entry "dns_lookup_time" d read_js) (fun c =>
          and_then (entry "connect_time" d read_js) (fun e =>
          and_then (entry "ttfb" d read_js) (fun f =>
          and_then (entry "dom_interactive" d read_js) (fun g =>
          and_then (entry "dom_content_loaded" d read_js) (fun h =>
          and_then (entry "dom_complete" d read_js) (fun i =>
          and_then (entry "load_event_start" d read_js) (fun j =>
          and_then (entry "load_event_end" d read_js) (fun k =>
          and_then (entry "total_load_from_nav_start" d read_js) (fun l =>
          and_then (entry "dom_processing_time" d read_js) (fun m =>
          Some (NavData
            {| navigation_start := a; fetch_start := b;
               dns_lookup_time := c; connect_time := e; ttfb := f;
               dom_interactive := g; dom_content_loaded := h;
               dom_complete := i; load_event_start := j;
               load_event_end := k; total_load_from_nav_start := l;
               dom_processing_time := m |})))))))))))))
      end
  | _ => None
  end.

(** The result that a dictionary of [raw_results] stands for. *)
Definition read_result (v : PyVal) : option RunResult :=
  match v with
  | PyDict d =>
      and_then (entry "url" d read_str) (fun u =>
      and_then (entry "load_time_ms" d read_number) (fun t =>
      and_then (entry "status" d read_status) (fun st =>
      and_then (optional_entry "error_message" d read_opt_str) (fun em =>
      and_then (optional_entry "navigation_timing" d read_navigation_timing)
        (fun nt =>
      and_then (entry "timestamp" d read_number) (fun ts =>
      and_then (optional_entry "run_number" d read_nat) (fun rn =>
      and_then (optional_entry "config" d read_dict) (fun cfg =>
      Some {| SeleniumUtils.url := u; load_time_ms := t; status := st;
              error_message := em; navigation_timing := nt;
              timestamp := ts; run_number := rn;
              SeleniumUtils.config := cfg |}))))))))
  | _ => None
  end.

Definition read_stat (v : PyVal) : option Stat :=
  match v with
  | PyStr s => if String.eqb s "N/A" then Some NA else None
  | PyFloat q => Some (Num q)
  | PyInt z => Some (Num (inject_Z z))
  | _ => None
  end.

(** All the elements of a list, read by [read]. *)
Fixpoint read_all {A B} (read : A -> option B) (l : list A)
  : option (list B) :=
  match l with
  | [] => Some []
  | x :: l' =>
      and_then (read x) (fun y =>
      and_then (read_all read l') (fun ys => Some (y :: ys)))
  end.

Definition read_list {A} (read : PyVal -> option A) (v : PyVal)
  : option (list A) :=
  match v with PyList l => read_all read l | _ => None end.

(** The entry of a URL that a dictionary of [summary_report] stands
    for. *)
Definition read_url_summary (v : PyVal) : option UrlSummary :=
  match v with
  | PyDict d =>
      and_then (entry "url" d read_str) (fun u =>
      and_then (entry "num_successful_runs" d read_nat) (fun n =>
      and_then (entry "num_errors" d read_nat) (fun e =>
      and_then (entry "avg_load_time_ms" d read_stat) (fun avg =>
      and_then (entry "min_load_time_ms" d read_stat) (fun lo =>
      and_then (entry "max_load_time_ms" d read_stat) (fun hi =>
      and_then (entry "median_load_time_ms" d read_stat) (fun med =>
      and_then (entry "std_dev_load_time_ms" d read_stat) (fun dev =>
      and_then (entry "error_messages" d (read_list read_opt_str))
        (fun messages =>
      Some {| url := u; num_successful_runs := n; num_errors := e;
              avg_load_time_ms := avg; min_load_time_ms := lo;
              max_load_time_ms := hi; median_load_time_ms := med;
              std_dev_load_time_ms := dev;
              error_messages := messages |})))))))))
  | _ => None
  end.

(** The summary that the dictionary [summary_report] stands for. *)
Definition read_summary (v : PyVal) : option Summary :=
  match v with
  | PyDict d =>
      read_all (fun kv => option_map (pair (fst kv))
                            (read_url_summary (snd kv))) d
  | _ => None
  end.

(** The load times of the report are doubles. *)
Definition float_timed (r : RunResult) : Prop :=
  to_float (load_time_ms r) = load_time_ms r.

(** The arithmetic mean, and the sample variance: the squared deviations
    from the mean, summed and divided by [n - 1]. *)
Definition arithmetic_mean (data : list Q) : Q := (Qsum data / len data)%Q.

Definition sample_variance (data : list Q) : Q :=
  (Qsum (map (fun x => (x - arithmetic_mean data) * (x - arithmetic_mean data))
           data)
   / (len data - 1))%Q.

(** [s] is the double nearest to the square root of [v]: it lies between
    the doubles nearest to the rationals below and above the root.  (When
    the root is rational it is one of these rationals; otherwise there
    are rationals below and above it with the same nearest double.) *)
Definition nearest_to_root (v s : Q) : Prop :=
  forall lo hi : Q,
    (0 <= lo)%Q -> (0 <= hi)%Q -> (lo * lo <= v)%Q -> (v <= hi * hi)%Q ->
    (to_float lo <= s)%Q /\ (s <= to_float hi)%Q.

(** [m] is the median of [data]: the middle element of the sorted data,
    or the double nearest to the mean of the two middle elements. *)
Definition is_median (data : list Q) (m : Q) : Prop :=
  exists sorted,
    Permutation sorted data
    /\ StronglySorted Qle sorted
    /\ m = (if (List.length data mod 2 =? 1)%nat
            then nth (List.length data / 2) sorted 0%Q
            else to_float ((nth (List.length data / 2 - 1) sorted 0%Q
                            + nth (List.length data / 2) sorted 0%Q) / 2)).

End GuiSpec.

(* ================================================================= *)
(** ** Vocabulary of the statements about the settings *)

Module SettingsSpec.
Import SettingsManager.

(** Some key of [DEFAULT_SETTINGS] is missing in [d]. *)
Definition lacks_default (d : PyDictT) : bool :=
  existsb (fun kv => negb (dict_mem (fst kv) d)) DEFAULT_SETTINGS.

(** [d], with the defaults for the keys it does not have. *)
Definition back_filled (d d' : PyDictT) : Prop :=
  forall k,
    dict_get k d'
    = match dict_get k d with
      | Some v => Some v
      | None => dict_get k DEFAULT_SETTINGS
      end.

(** The disk after an attempt to write [settings] to the file. *)
Definition written (settings : PyVal) (disk : Disk) : Disk :=
  match write_error disk with
  | None => set_file (JsonText (json_dump settings)) disk
  | Some _ => disk
  end.

End SettingsSpec.

(* ================================================================= *)
(** ** Vocabulary of the statements *)

Module Spec.

(** The three wait strategies the sampler knows. *)
Definition recognized (wait_strategy : string) : Prop :=
  wait_strategy = "ReadyState" \/ wait_strategy = "LoadEventEnd"
  \/ wait_strategy = "Combined".

(** The bounded wait of a strategy times out: one of its
    [WebDriverWait.until] calls raises [TimeoutException]. *)
Inductive wait_times_out (driver : Session) : string -> Prop :=
| ready_state_times_out e :
    wait_ready_state driver = Raises e ->
    exc_class e = TimeoutException ->
    wait_times_out driver "ReadyState"
| load_event_end_times_out e :
    wait_load_event_end driver = Raises e ->
    exc_class e = TimeoutException ->
    wait_times_out driver "LoadEventEnd"
| combined_ready_phase_times_out e :
    wait_ready_state driver = Raises e ->
    exc_class e = TimeoutException ->
    wait_times_out driver "Combined"
| combined_load_phase_times_out u e :
    wait_ready_state driver = Returns u ->
    wait_load_event_end driver = Raises e ->
    exc_class e = TimeoutException ->
    wait_times_out driver "Combined".

(** The page load completes: the navigation and the wait of the strategy
    return. *)
Definition page_loads (driver : Session) (wait_strategy : string) : Prop :=
  exists u, driver_get driver = Returns u /\
  ((wait_strategy = "ReadyState" /\ exists v, wait_ready_state driver = Returns v)
   \/ (wait_strategy = "LoadEventEnd"
       /\ exists v, wait_load_event_end driver = Returns v)
   \/ (wait_strategy = "Combined"
       /\ (exists v, wait_ready_state driver = Returns v)
       /\ exists v, wait_load_event_end driver = Returns v)).

(** The extraction of the timing breakdown fails with [e]. *)
Definition timing_extraction_fails (driver : Session) (e : Exc) : Prop :=
  forall results, fst (get_detailed_timing driver results) = Raises e.

(** How the navigation and the wait of a strategy end. *)
Definition load_outcome (driver : Session) (wait_strategy : string)
  : Outcome unit :=
  match driver_get driver with
  | Raises e => Raises e
  | Returns _ =>
      if String.eqb wait_strategy "ReadyState" then wait_ready_state driver
      else if String.eqb wait_strategy "LoadEventEnd" then
        wait_load_event_end driver
      else if String.eqb wait_strategy "Combined" then
        match wait_ready_state driver with
        | Raises e => Raises e
        | Returns _ => wait_load_event_end driver
        end
      else Raises (ValueError ("Invalid wait_strategy: " ++ wait_strategy)%string)
  end.

(** The [error_message] recorded for an exception. *)
Definition error_text (timeout : Z) (wait_strategy : string) (e : Exc)
  : string :=
  match exc_class e with
  | TimeoutException =>
      "Timeout after " ++ str_int timeout
      ++ " seconds waiting for page load (" ++ wait_strategy ++ " strategy)."
  | WebDriverException => "WebDriver error: " ++ exc_str e
  | _ => "Unexpected error: " ++ exc_str e
  end%string.

End Spec.

(* ================================================================= *)
(** ** Sample data *)

Module Samples.

(** A page that loads in two seconds and has no timing breakdown. *)
Definition fast_page : Session :=
  {| time_time := 1700000000; perf_start := 10; perf_end := 12;
     driver_get := Returns tt;
     wait_ready_state := Returns tt;
     wait_load_event_end := Returns tt;
     navigation_timing_script := Returns None |}.

(** A page whose document is not ready within the timeout. *)
Definition slow_page : Session :=
  {| time_time := 1700000000; perf_start := 10; perf_end := 70;
     driver_get := Returns tt;
     wait_ready_state :=
       Raises (mkExc TimeoutException ("Message: " ++ Worker.newline));
     wait_load_event_end := Returns tt;
     navigation_timing_script := Returns None |}.

(** A host that does not resolve. *)
Definition unreachable_page : Session :=
  {| time_time := 1700000000; perf_start := 10; perf_end := 11;
     driver_get :=
       Raises (mkExc WebDriverException
                 "Message: unknown error: net::ERR_NAME_NOT_RESOLVED");
     wait_ready_state := Returns tt;
     wait_load_event_end := Returns tt;
     navigation_timing_script := Returns None |}.

(** A page that loads, but whose timing script fails. *)
Definition page_without_timing : Session :=
  {| time_time := 1700000000; perf_start := 10; perf_end := 12;
     driver_get := Returns tt;
     wait_ready_state := Returns tt;
     wait_load_event_end := Returns tt;
     navigation_timing_script :=
       Raises (mkExc WebDriverException "Message: javascript error") |}.

(** A driver whose every page is [fast_page]. *)
Definition steady_driver : Worker.Driver :=
  {| Worker.session := fun _ => fast_page;
     Worker.reset_state := fun _ => Returns tt;
     Worker.quit := Returns tt |}.

(** A worker for two URLs, two runs each. *)
Definition two_by_two : Worker.TestWorker :=
  {| Worker.urls := ["https://a.example"; "https://b.example"];
     Worker.config := [("runs_per_url", PyInt 2)];
     Worker.runs_per_url := 2;
     Worker.browser := "Chrome";
     Worker.headless := true;
     Worker.timeout := 60;
     Worker.wait_strategy := "Combined" |}.

(** Every setup succeeds, nobody presses Stop. *)
Definition quiet_env : Worker.Env :=
  {| Worker.run_dns_benchmark := Returns [];
     Worker.setup_driver := fun _ _ _ _ => Returns (Some steady_driver);
     Worker.wall_clock := fun _ _ => 1700000000%Q;
     Worker.stop_after := None |}.

Definition no_chromedriver : Exc :=
  mkExc WebDriverException "Message: ChromeDriver setup failed".

(** The setup of the first URL fails; [stop] says when Stop is pressed. *)
Definition first_setup_fails (stop : option nat) : Worker.Env :=
  {| Worker.run_dns_benchmark := Returns [];
     Worker.setup_driver := fun i _ _ _ =>
       match i with
       | O => Raises no_chromedriver
       | _ => Returns (Some steady_driver)
       end;
     Worker.wall_clock := fun _ _ => 1700000000%Q;
     Worker.stop_after := stop |}.

(** A successful run of [u] that took [t] milliseconds. *)
Definition success_result (u : string) (t : Q) : RunResult :=
  {| url := u; load_time_ms := t; status := Success;
     error_message := Some None; navigation_timing := Some NavNone;
     timestamp := 1700000000; run_number := Some 1%nat;
     config := Some [] |}.

(** A failed run of [u] with the entry [message] for [error_message]. *)
Definition error_result (u : string) (message : option (option string))
  : RunResult :=
  {| url := u; load_time_ms := 60000; status := Error;
     error_message := message; navigation_timing := Some NavNone;
     timestamp := 1700000000; run_number := Some 1%nat;
     config := Some [] |}.

(** Settings as the application holds them during a run. *)
Definition settings_in_use : PyDictT :=
  SettingsManager.DEFAULT_SETTINGS ++ [("run_dns_benchmark", PyBool false)].

(** A settings file that holds only the URL list, on a healthy disk. *)
Definition partial_file : SettingsManager.Disk :=
  {| SettingsManager.file :=
       Some (SettingsManager.JsonText
               (JObject [("urls", JArray [JString "https://a.example"])]));
     SettingsManager.read_error := None;
     SettingsManager.write_error := None |}.

(** A settings file that is not JSON. *)
Definition garbled_file : SettingsManager.Disk :=
  {| SettingsManager.file :=
       Some (SettingsManager.Unparseable
               "Expecting value: line 1 column 1 (char 0)");
     SettingsManager.read_error := None;
     SettingsManager.write_error := None |}.

(** A settings file of the four bytes [ff fe 7b 00], where the locale
    reads UTF-8. *)
Definition undecodable_file : SettingsManager.Disk :=
  {| SettingsManager.file :=
       Some (SettingsManager.Undecodable
               "'utf-8' codec can't decode byte 0xff in position 0: invalid start byte");
     SettingsManager.read_error := None;
     SettingsManager.write_error := None |}.

(** A settings file that holds the JSON array [[]]. *)
Definition empty_array_file : SettingsManager.Disk :=
  {| SettingsManager.file := Some (SettingsManager.JsonText (JArray []));
     SettingsManager.read_error := None;
     SettingsManager.write_error := None |}.

(** No settings file yet. *)
Definition no_file : SettingsManager.Disk :=
  {| SettingsManager.file := None;
     SettingsManager.read_error := None;
     SettingsManager.write_error := None |}.

Definition three_runs : list RunResult :=
  [success_result "https://a.example" 100;
   success_result "https://a.example" 200;
   success_result "https://a.example" 300].

(** The doubles that Python writes 2.67, 2.68 and 0.01. *)
Definition double_2_67 : Q := 1503076375634903 # 562949953421312.
Definition double_2_68 : Q := 6034823500676465 # 2251799813685248.
Definition double_0_01 : Q := 5764607523034235 # 576460752303423488.

(** Two runs of 2.67 ms and 2.68 ms.  The mean of the two doubles is a
    little above 2.675, the double nearest to it a little below. *)
Definition two_close_runs : list RunResult :=
  [success_result "https://a.example" double_2_67;
   success_result "https://a.example" double_2_68].

(** The same two runs, among a run of another URL and a failed run. *)
Definition varied_runs : list RunResult :=
  [success_result "https://b.example" 5;
   success_result "https://a.example" double_2_67;
   error_result "https://a.example"
     (Some (Some "Timeout after 60 seconds waiting for page load (Combined strategy)."));
   success_result "https://a.example" double_2_68].

(** The doubles that Python writes 100.12 and 0.12. *)
Definition double_100_12 : Q := 880664833383465 # 8796093022208.
Definition double_0_12 : Q := 1080863910568919 # 9007199254740992.

(** Runs of 100, 100.125 and 100.25 ms: the mean is 100.125 and the
    standard deviation 0.125, both half way between two hundredths. *)
Definition tied_runs : list RunResult :=
  [success_result "https://a.example" 100;
   success_result "https://a.example" (801 # 8);
   success_result "https://a.example" (401 # 4)].

(** A successful run of one URL, a failed run of another. *)
Definition mixed_runs : list RunResult :=
  [success_result "https://a.example" 100;
   error_result "https://b.example"
     (Some (Some "Timeout after 60 seconds waiting for page load (Combined strategy)."))].

Definition only_errors : list RunResult :=
  [error_result "https://b.example"
     (Some (Some "Timeout after 60 seconds waiting for page load (Combined strategy)."));
   error_result "https://b.example" None].

End Samples.

(* ================================================================= *)
(** ** Vocabulary of the statements about the timing breakdown *)

Module TimingSpec.

(** The number of a timing value ([null] counts as 0). *)
Definition num (v : JsVal) : Z :=
  match v with JsNum z => z | JsNull => 0%Z end.

(** The keys whose values the sampler subtracts from one another,
    whatever they are. *)
Definition subtracted : list string :=
  ["domainLookupEnd"; "domainLookupStart"; "connectEnd"; "connectStart";
   "responseStart"; "requestStart"].

(** The breakdown of the timing data [td] of a page. *)
Definition breakdown (td : list (string * JsVal)) : NavigationTiming :=
  {| navigation_start := tget "navigationStart" td;
     fetch_start := tget "fetchStart" td;
     dns_lookup_time :=
       JsNum (num (tget "domainLookupEnd" td)
              - num (tget "domainLookupStart" td));
     connect_time :=
       JsNum (num (tget "connectEnd" td) - num (tget "connectStart" td));
     ttfb :=
       JsNum (num (tget "responseStart" td) - num (tget "requestStart" td));
     dom_interactive := tget "domInteractive" td;
     dom_content_loaded := tget "domContentLoadedEventEnd" td;
     dom_complete := tget "domComplete" td;
     load_event_start := tget "loadEventStart" td;
     load_event_end := tget "loadEventEnd" td;
     total_load_from_nav_start :=
       JsNum (if js_truthy (tget "loadEventEnd" td)
              then num (tget "loadEventEnd" td)
                   - num (tget "navigationStart" td)
              else -1);
     dom_processing_time :=
       JsNum (if js_truthy (tget "domInteractive" td)
                 && js_truthy (tget "domComplete" td)
              then num (tget "domComplete" td)
                   - num (tget "domInteractive" td)
              else -1) |}.

(** The result of a page load that completes, before the inner [try]. *)
Definition loaded (driver : Session) (url : string) : RunResult :=
  {| SeleniumUtils.url := url; load_time_ms := elapsed_ms driver;
     status := Success;
     error_message := Some None;
     navigation_timing := Some NavNone;
     timestamp := time_time driver;
     run_number := None; SeleniumUtils.config := None |}.

End TimingSpec.

(* ================================================================= *)
(** ** The actions of a run, in closed form *)

Module WorkerTrace.
Import Worker WorkerSpec.

(** The progress signals of a list of actions: the pairs
    [(current_step, total_steps)]. *)
Fixpoint progress_of (l : list Action) : list (nat * nat) :=
  match l with
  | [] => []
  | Emit (progress current total) :: l' => (current, total) :: progress_of l'
  | _ :: l' => progress_of l'
  end.

(** The state after the actions [l], of which the progress signals each
    follow an increment of [current_step]. *)
Definition advance (d : option Driver) (l : list Action) (st : RunState)
  : RunState :=
  {| current_step := (current_step st + List.length (progress_of l))%nat;
     driver := d;
     log := log st ++ l |}.

Section Shape.
Variables (env : Env) (self : TestWorker).

(** The actions of [failed_runs], begun with [current_step = c]. *)
Fixpoint failed_trace (i : nat) (url : string) (e : Exc) (c : nat)
    (runs : list nat) : list Action :=
  match runs with
  | [] => []
  | k :: runs' =>
      Emit (progress (c + 1) (total_steps self))
      :: Emit (result_ready (failure_result env self i url e k))
      :: failed_trace i url e (c + 1) runs'
  end.

(** The actions of [test_runs], begun after [n] actions with
    [current_step = c]. *)
Fixpoint runs_trace (url : string) (d : Driver) (n c : nat)
    (runs : list nat) : list Action :=
  match runs with
  | [] => []
  | run :: runs' =>
      if running_at env n then
        let returned :=
          measure_load_time (session d run) url (timeout self)
            (wait_strategy self) in
        [Emit (progress (c + 1) (total_steps self));
         Emit (status_update ("Running test " ++ str_nat (run + 1) ++ "/"
                 ++ str_nat (runs_per_url self) ++ " for " ++ url ++ "...")%string);
         MeasureLoadTime url run returned]
        ++ match returned with
           | Returns r =>
               if running_at env (n + 3) then
                 [Emit (result_ready
                          (set_config (config self) (set_run_number (run + 1) r)));
                  ResetBrowser]
                 ++ runs_trace url d (n + 5) (c + 1) runs'
               else []
           | Raises _ => []
           end
      else []
  end.

(** The status message after [driver.quit()]. *)
Definition quit_message (url : string) (d : Driver) : string :=
  match quit d with
  | Returns _ => "Browser driver closed for " ++ url ++ "."
  | Raises quit_error =>
      "Warning: Error quitting driver for " ++ url ++ ": " ++ exc_str quit_error
  end.

(** The actions of one iteration of the URL loop, and how it ends. *)
Definition url_trace (i : nat) (url : string) (n c : nat)
  : list Action * Ctl :=
  if running_at env n then
    match driver_for env self i with
    | inl e =>
        ([Emit (status_update ("Initializing driver for URL: " ++ url ++ "..."));
          SetupDriver url;
          Emit (status_update ("Fatal Error initializing driver for " ++ url
                               ++ ": " ++ exc_str e));
          Emit (error_occurred ("Fatal Error initializing driver for " ++ url
                                ++ ": " ++ exc_str e))]
         ++ failed_trace i url e c (seq 0 (runs_per_url self)),
         Next)
    | inr d =>
        let l :=
          [Emit (status_update ("Initializing driver for URL: " ++ url ++ "..."));
           SetupDriver url;
           Emit (status_update ("Driver ready for " ++ url ++ "."));
           Emit (status_update ("Testing URL: " ++ url ++ " ("
                   ++ str_nat (runs_per_url self) ++ " runs)"))]
          ++ runs_trace url d (n + 4) c (seq 0 (runs_per_url self))
          ++ [QuitDriver url; Emit (status_update (quit_message url d))] in
        (l, if running_at env (n + List.length l) then Next else Break)
    end
  else ([Emit (status_update "Test stopped by user.")], Break).

Fixpoint urls_trace (i : nat) (us : list string) (n c : nat) : list Action :=
  match us with
  | [] => []
  | url :: us' =>
      let (l, ctl) := url_trace i url n c in
      match ctl with
      | Break => l
      | Next =>
          l ++ urls_trace (S i) us' (n + List.length l)
                 (c + List.length (progress_of l))
      end
  end.

(** The actions of the DNS phase. *)
Definition dns_trace : list Action :=
  if py_truthy (dict_get_default "run_dns_benchmark" (PyBool false) (config self))
  then
    [Emit (status_update "Running DNS latency benchmark..."); DnsBenchmark]
    ++ match run_dns_benchmark env with
       | Returns dns_results =>
           [Emit (dns_results_ready dns_results);
            Emit (status_update "DNS benchmark finished.")]
       | Raises dns_err =>
           [Emit (status_update ("Error during DNS benchmark: " ++ exc_str dns_err));
            Emit (dns_results_ready
                    [("Error", {| latency_ms := None;
                                  dns_status := exc_str dns_err |})])]
       end
  else [].

(** The actions of the URL loop of a whole run. *)
Definition browse_trace : list Action :=
  urls_trace 0 (urls self) (List.length dns_trace + 1) 0.

Definition run_trace : list Action :=
  dns_trace
  ++ (if running_at env (List.length dns_trace) then
        [Emit (status_update "Starting Browse speed tests...")]
        ++ browse_trace
        ++ (if running_at env (List.length dns_trace + 1 + List.length browse_trace)
            then [Emit (status_update "Testing finished.")] else [])
        ++ [Emit finished]
      else
        [Emit (status_update "Test stopped after DNS benchmark.");
         Emit finished]).
End Shape.

(** *** Vocabulary of the statements about the actions of a run *)

(** The browser sessions along a list of actions.  [open] is the URL whose
    session is open or being set up.  The result is [None] when an action
    breaks the discipline: a setup while a session is open, an error
    notice, a page load, a reset or a quit without a session, a page load
    or a quit for another URL.  Otherwise it is the session left at the
    end. *)
Fixpoint sessions (open : option string) (l : list Action)
  : option (option string) :=
  match l with
  | [] => Some open
  | a :: l' =>
      match a, open with
      | SetupDriver u, None => sessions (Some u) l'
      | SetupDriver _, Some _ => None
      | Emit (error_occurred _), Some _ => sessions None l'
      | Emit (error_occurred _), None => None
      | MeasureLoadTime u _ _, Some v =>
          if String.eqb u v then sessions open l' else None
      | MeasureLoadTime _ _ _, None => None
      | ResetBrowser, Some _ => sessions open l'
      | ResetBrowser, None => None
      | QuitDriver u, Some v =>
          if String.eqb u v then sessions None l' else None
      | QuitDriver _, None => None
      | _, _ => sessions open l'
      end
  end.

(** The calls that open and close sessions. *)
Definition is_lifecycle (a : Action) : bool :=
  match a with
  | SetupDriver _ | QuitDriver _ => true
  | _ => false
  end.

(** The setup and the quit of the sessions of the URLs [us], the first of
    which is the [i]-th URL of the run: a setup that fails has no quit. *)
Fixpoint lifecycles (env : Env) (self : TestWorker) (i : nat)
    (us : list string) : list Action :=
  match us with
  | [] => []
  | u :: us' =>
      match driver_for env self i with
      | inl _ => [SetupDriver u]
      | inr _ => [SetupDriver u; QuitDriver u]
      end ++ lifecycles env self (S i) us'
  end.

(** The calls that make the browser work: a session setup, a page load,
    a state reset. *)
Definition is_browser_work (a : Action) : bool :=
  match a with
  | SetupDriver _ | MeasureLoadTime _ _ _ | ResetBrowser => true
  | _ => false
  end.

(** The payloads of the [dns_results_ready] signals. *)
Fixpoint dns_signals (l : list Action) : list DnsResults :=
  match l with
  | [] => []
  | Emit (dns_results_ready d) :: l' => d :: dns_signals l'
  | _ :: l' => dns_signals l'
  end.

(** A result with the tags of the worker: the URL is one of the run, the
    run number is one of [1..runs_per_url], the configuration is the one
    of the run, and the error message is a text for an error and [None]
    for a success. *)
Definition tagged (self : TestWorker) (r : RunResult) : Prop :=
  In (SeleniumUtils.url r) (urls self)
  /\ (exists k, run_number r = Some k
                /\ (1 <= k)%nat /\ (k <= runs_per_url self)%nat)
  /\ SeleniumUtils.config r = Some (config self)
  /\ (status r = Success -> error_message r = Some None)
  /\ (status r = Error -> exists msg, error_message r = Some (Some msg)).

(** The clocks of the sessions of a run do not go back. *)
Definition monotone_clocks (env : Env) (self : TestWorker) : Prop :=
  forall i d run,
    driver_for env self i = inr d ->
    (perf_start (session d run) <= perf_end (session d run))%Q.

Definition is_dns_benchmark (a : Action) : bool :=
  match a with DnsBenchmark => true | _ => false end.

(** [self.config.get('run_dns_benchmark', False)], as a condition. *)
Definition dns_enabled (self : TestWorker) : bool :=
  py_truthy (dict_get_default "run_dns_benchmark" (PyBool false) (config self)).

(** What the worker emits for the outcome of the DNS probe. *)
Definition dns_report (env : Env) : DnsResults :=
  match run_dns_benchmark env with
  | Returns dns_results => dns_results
  | Raises dns_err =>
      [("Error", {| latency_ms := None; dns_status := exc_str dns_err |})]
  end.

(** The steps and the results of a list of actions. *)
Definition steps (l : list Action) : nat := List.length (progress_of l).
Definition emitted (l : list Action) : nat := List.length (results_of l).

(** A stretch of actions begun after [n] actions with [current_step = c]:
    its progress signals count on from [c], every result has its step,
    and a step without its result is the last thing before the run
    notices the stop request. *)
Definition counted (env : Env) (self : TestWorker) (n c : nat)
    (l : list Action) : Prop :=
  progress_of l
  = map (fun k => (k, total_steps self)) (seq (c + 1) (steps l))
  /\ (emitted l <= steps l)%nat
  /\ (steps l <= emitted l + 1)%nat
  /\ (steps l = (emitted l + 1)%nat ->
      running_at env (n + List.length l) = false).

(** The pieces of work that a list of actions gives the browser. *)
Definition work (l : list Action) : nat :=
  List.length (filter is_browser_work l).

(** A stretch of actions begun after [n] actions, in a run that is asked
    to stop after [s] actions: nothing in it makes the browser work if the
    stop request came before it, and at most one action does after the
    request. *)
Definition prompt (s n : nat) (l : list Action) : Prop :=
  ((s <= n)%nat -> work l = 0%nat)
  /\ (work (skipn (s - n) l) <= 1)%nat.

(** Actions without a DNS probe and without DNS results. *)
Definition dns_free (l : list Action) : Prop :=
  filter is_dns_benchmark l = [] /\ dns_signals l = [].

End WorkerTrace.

(* ================================================================= *)
(** ** Vocabulary of the statements about the counts of the report *)

Module ReportSpec.
Import Gui.

(** The runs that a summary counts. *)
Definition counted_runs (summary : Summary) : nat :=
  list_sum (map (fun kv => (num_successful_runs (snd kv)
                            + num_errors (snd kv))%nat) summary).

(** The number of a statistic (0 for the marker). *)
Definition stat_value (s : Stat) : Q :=
  match s with NA => 0%Q | Num q => q end.

Definition is_number (s : Stat) : Prop :=
  match s with NA => False | Num _ => True end.
(** The runs of [r] that the entry of [u] counts. *)
Definition share (u : string) (r : RunResult) : nat :=
  ((if has_url_status u Success r && Qgeb (load_time_ms r) 0%Q then 1 else 0)
   + (if has_url_status u Error r then 1 else 0))%nat.

End ReportSpec.

(* ================================================================= *)
(** ** selenium_utils.py: the session setup *)

Module SessionSetup.
Import Worker.

Local Open Scope stmt_scope.

(** [c.lower()] and [s.lower()], on the letters of ASCII (the names that
    the code compares with are ASCII). *)
Definition lower_ascii (c : ascii) : ascii :=
  let n := nat_of_ascii c in
  if ((65 <=? n) && (n <=? 90))%nat then ascii_of_nat (n + 32) else c.

Fixpoint lower (s : string) : string :=
  match s with
  | EmptyString => EmptyString
  | String c s' => String (lower_ascii c) (lower s')
  end.

Inductive BrowserKind := Chrome | Firefox.

(** What [setup_driver] puts into [ChromeOptions] or [FirefoxOptions], in
    the order of the calls. *)
Inductive OptionCall :=
| add_argument (argument : string)
| add_experimental_option (name : string) (value : PyVal)
| set_preference (name : string) (value : PyVal).

(** The machine on which a browser is set up: what the driver manager's
    [install()] returns (the path of the driver), what starting the
    browser with a driver and options returns, and how the command of the
    Chrome DevTools protocol ends on a started browser. *)
Record Machine := {
  install : BrowserKind -> Outcome string;
  start : BrowserKind -> string -> list OptionCall -> Outcome Driver;
  execute_cdp_cmd : Driver -> Outcome unit
}.

(** What [setup_driver] does on the machine, in order. *)
Inductive SetupAction :=
| InstallDriver (kind : BrowserKind)
| StartBrowser (kind : BrowserKind) (options : list OptionCall)
| CdpCommand
| QuitBrowser.

(** The state of a call: the local [driver] and the actions so far. *)
Record SetupState := {
  driver_var : option Driver;
  done : list SetupAction
}.

Definition set_driver_var (d : Driver) (st : SetupState) : SetupState :=
  {| driver_var := Some d; done := done st |}.

Definition Setup := M SetupState.

Definition did (a : SetupAction) : Setup unit :=
  update (fun st => {| driver_var := driver_var st; done := done st ++ [a] |}).

Definition chrome_options (headless anti_detection : bool) : list OptionCall :=
  (if headless then [add_argument "--headless";
                     add_argument "--window-size=1920,1080"] else [])
  ++ [add_argument "--disable-gpu";
      add_argument "--no-sandbox";
      add_argument "--disable-dev-shm-usage";
      add_argument "--disable-application-cache";
      add_argument "--disk-cache-size=1";
      add_argument "--media-cache-size=1"]
  ++ (if anti_detection then
        [add_experimental_option "excludeSwitches"
           (PyList [PyStr "enable-automation"]);
         add_experimental_option "useAutomationExtension" (PyBool false);
         add_argument "--disable-blink-features=AutomationControlled"]
      else []).

Definition firefox_options (headless anti_detection : bool) : list OptionCall :=
  (if headless then [add_argument "--headless";
                     add_argument "--window-size=1920,1080"] else [])
  ++ [add_argument "--disable-gpu";
      set_preference "browser.cache.disk.enable" (PyBool false);
      set_preference "browser.cache.memory.enable" (PyBool false);
      set_preference "browser.cache.offline.enable" (PyBool false);
      set_preference "network.http.use-cache" (PyBool false)]
  ++ (if anti_detection then
        [set_preference "dom.webdriver.enabled" (PyBool false);
         set_preference "useAutomationExtension" (PyBool false)]
      else []).

(** The inner [try] of a branch: install the driver, start the browser
    and bind it to [driver]; any exception becomes a
    [WebDriverException]. *)
Definition install_and_start (m : Machine) (kind : BrowserKind)
    (options : list OptionCall) (what : string) : Setup Driver :=
  try_except
    (did (InstallDriver kind) ;;;
     path <- call (install m kind) ;;
     did (StartBrowser kind options) ;;;
     driver <- call (start m kind path options) ;;
     update (set_driver_var driver) ;;;
     ret driver)
    (fun e => Some (raise (WebDriverException_
                             (what ++ " setup failed: " ++ exc_str e)))).

(** [if driver: driver.quit()] of the two handlers. *)
Definition quit_if_started : Setup unit :=
  st <- read ;;
  match driver_var st with
  | Some driver => did QuitBrowser ;;; call (quit driver)
  | None => ret tt
  end.

Definition setup_driver (m : Machine) (browser_name : string)
    (headless anti_detection : bool) : Setup (option Driver) :=
  try_except
    ((if String.eqb (lower browser_name) "chrome" then
        driver <- install_and_start m Chrome
                    (chrome_options headless anti_detection) "ChromeDriver" ;;
        if anti_detection
        then did CdpCommand ;;; call (execute_cdp_cmd m driver)
        else ret tt
      else if String.eqb (lower browser_name) "firefox" then
        install_and_start m Firefox
          (firefox_options headless anti_detection) "GeckoDriver" ;;;
        ret tt
      else
        raise (ValueError ("Unsupported browser: " ++ browser_name))) ;;;
     st <- read ;;
     ret (driver_var st))
    (fun e => Some (
       quit_if_started ;;;
       if is_webdriver_exception e then raise e
       else raise (WebDriverException_
                     ("Unexpected driver setup error: " ++ exc_str e)))).

(** A call of [setup_driver] begins without a driver. *)
Definition fresh : SetupState := {| driver_var := None; done := [] |}.

(** [setup_driver], as the worker calls it. *)
Definition setup (m : Machine) (browser_name : string)
    (headless anti_detection : bool) : Outcome (option Driver) :=
  fst (setup_driver m browser_name headless anti_detection fresh).

Definition actions (m : Machine) (browser_name : string)
    (headless anti_detection : bool) : list SetupAction :=
  done (snd (setup_driver m browser_name headless anti_detection fresh)).

(** *** Vocabulary *)

(** Whether the actions [l] leave a browser open: a start that succeeds
    leaves one, a call of [quit()] leaves none ([open] says whether one
    was open before). *)
Fixpoint left_open (m : Machine) (l : list SetupAction) (open : bool)
  : bool :=
  match l with
  | [] => open
  | StartBrowser kind options :: l' =>
      left_open m l'
        match install m kind with
        | Returns path =>
            match start m kind path options with
            | Returns _ => true
            | Raises _ => open
            end
        | Raises _ => open
        end
  | QuitBrowser :: l' => left_open m l' false
  | _ :: l' => left_open m l' open
  end.

(** An option that hides the automation from the pages. *)
Definition hides_automation (c : OptionCall) : bool :=
  match c with
  | add_experimental_option _ _ => true
  | add_argument a => String.eqb a "--disable-blink-features=AutomationControlled"
  | set_preference p _ =>
      String.eqb p "dom.webdriver.enabled"
      || String.eqb p "useAutomationExtension"
  end.

Definition is_cdp (a : SetupAction) : bool :=
  match a with CdpCommand => true | _ => false end.

(** The options of the browsers started by a list of actions. *)
Fixpoint options_used (l : list SetupAction) : list OptionCall :=
  match l with
  | [] => []
  | StartBrowser _ options :: l' => options ++ options_used l'
  | _ :: l' => options_used l'
  end.

End SessionSetup.

(* ================================================================= *)
(** ** Vocabulary of the statements about the setup in a run *)

Module SetupSpec.
Import Worker.

(** The session setups of a run are calls of [setup_driver], the [i]-th
    on the machine [machine i]. *)
Definition set_up_by (machine : nat -> SessionSetup.Machine) (env : Env)
  : Prop :=
  forall i browser_name headless anti_detection,
    Worker.setup_driver env i browser_name headless anti_detection
    = SessionSetup.setup (machine i) browser_name headless anti_detection.

(** The error message of a run whose browser name is not supported. *)
Definition unsupported_message (browser_name : string) : string :=
  "Driver setup failed: Message: Unexpected driver setup error: "
  ++ "Unsupported browser: " ++ browser_name ++ newline.

End SetupSpec.

(* ================================================================= *)
(** ** gui.py: the slot of the results *)

Module ResultSlot.
Import Worker.

Local Open Scope stmt_scope.

(** What the slot relies on outside the program: the text of a number
    under the format [.2f], the local time of a timestamp under
    ['%Y-%m-%d %H:%M:%S'] (the conversion of a timestamp can raise), and
    what [QTableWidgetItem(None)] gives: the text of the item, or an
    exception. *)
Record Toolkit := {
  format_2f : Q -> string;
  strftime : Q -> Outcome string;
  item_of_none : Outcome string
}.

(** The part of the window that the slot changes: [self.results_data],
    the rows of [self.results_table] (of a row, the items set so far, from
    column 0 on) and the lines of [self.log_area]. *)
Record Window := {
  results_data : list RunResult;
  results_table : list (list string);
  log_area : list string
}.

Definition Slot := M Window.

(** [self.results_data.append(result)] *)
Definition store (result : RunResult) : Slot unit :=
  update (fun w => {| results_data := results_data w ++ [result];
                      results_table := results_table w;
                      log_area := log_area w |}).

(** [self.results_table.insertRow(self.results_table.rowCount())] *)
Definition insertRow : Slot unit :=
  update (fun w => {| results_data := results_data w;
                      results_table := results_table w ++ [[]];
                      log_area := log_area w |}).

(** The item [text] set in the next column of the last row. *)
Definition set_next_item (text : string) : Slot unit :=
  update (fun w => {| results_data := results_data w;
                      results_table :=
                        removelast (results_table w)
                        ++ [last (results_table w) [] ++ [text]];
                      log_area := log_area w |}).

(** [self.log_area.append(line)] *)
Definition log_append (line : string) : Slot unit :=
  update (fun w => {| results_data := results_data w;
                      results_table := results_table w;
                      log_area := log_area w ++ [line] |}).

(** [str(v)] of a timing value. *)
Definition str_js (v : JsVal) : string :=
  match v with JsNum z => str_int z | JsNull => "None" end.

(** [result.get('navigation_timing')] when it counts as true: a
    dictionary that is not empty, the breakdown or the error marker. *)
Inductive TimingDict :=
| Breakdown (d : NavigationTiming)
| Marker (msg : string).

Definition truthy_timing (result : RunResult) : option TimingDict :=
  match navigation_timing result with
  | Some (NavData d) => Some (Breakdown d)
  | Some (NavError msg) => Some (Marker msg)
  | Some NavNone | None => None
  end.

(** [timing.get(key, 'N/A')] inside an f-string, for a key of the
    breakdown: the error marker has none of them. *)
Definition timing_text (f : NavigationTiming -> JsVal) (timing : TimingDict)
  : string :=
  match timing with
  | Breakdown d => str_js (f d)
  | Marker _ => "N/A"
  end.

(** [timing.get('dom_content_loaded', 'N/A')
     - timing.get('navigation_start', 0)] *)
Definition dom_load (timing : TimingDict) : Outcome JsVal :=
  match timing with
  | Breakdown d => js_sub (dom_content_loaded d) (navigation_start d)
  | Marker _ =>
      Raises (TypeError "unsupported operand type(s) for -: 'str' and 'int'")
  end.

Definition status_str (result : RunResult) : string :=
  match status result with Success => "Success" | Error => "Error" end.

(** [str(result.get('run_number', '-'))] *)
Definition run_num_str (result : RunResult) : string :=
  match run_number result with Some n => str_nat n | None => "-" end.

Definition load_time_str (tk : Toolkit) (result : RunResult) : string :=
  if Qgeb (load_time_ms result) 0%Q then format_2f tk (load_time_ms result)
  else "N/A".

(** [result.get('error_message', '') if status_str == 'Error' else 'OK']:
    [None] when the key is bound to [None]. *)
Definition details_str (result : RunResult) : option string :=
  match status result with
  | Error => match error_message result with
             | Some v => v
             | None => Some ""
             end
  | Success => Some "OK"
  end.

(** The line of the log for the timing of a result. *)
Definition timing_details (result : RunResult) (timing : TimingDict)
    (dom : JsVal) : string :=
  "Timing for " ++ SeleniumUtils.url result ++ " (Run "
  ++ run_num_str result ++ "): "
  ++ "TTFB: " ++ timing_text ttfb timing ++ "ms | "
  ++ "DOM Load: " ++ str_js dom ++ "ms | "
  ++ "Full Load: " ++ timing_text total_load_from_nav_start timing ++ "ms".

Definition handle_result (tk : Toolkit) (result : RunResult) : Slot unit :=
  store result ;;;
  insertRow ;;;
  timestamp_str <- call (strftime tk (timestamp result)) ;;
  set_next_item (SeleniumUtils.url result) ;;;
  set_next_item (run_num_str result) ;;;
  set_next_item (load_time_str tk result) ;;;
  set_next_item (status_str result) ;;;
  details <- match details_str result with
             | Some text => ret text
             | None => call (item_of_none tk)
             end ;;
  set_next_item details ;;;
  set_next_item timestamp_str ;;;
  match truthy_timing result, status result with
  | Some timing, Success =>
      dom <- call (dom_load timing) ;;
      log_append (timing_details result timing dom)
  | _, _ => ret tt
  end.

(** [clear_results_display], on the same part of the window. *)
Definition clear_results_display : Slot unit :=
  update (fun _ => {| results_data := []; results_table := [];
                      log_area := [] |}).

(** *** Vocabulary *)

(** The table has a row for each stored result. *)
Definition in_step (w : Window) : Prop :=
  List.length (results_table w) = List.length (results_data w).

(** The row of a result that the slot has shown in full. *)
Definition row_of (tk : Toolkit) (result : RunResult) (details ts : string)
  : list string :=
  [SeleniumUtils.url result; run_num_str result; load_time_str tk result;
   status_str result; details; ts].

End ResultSlot.

(* ================================================================= *)
(** ** dns_utils.py *)

Module DnsUtils.
Import Worker.

Definition STANDARD_DNS_SERVERS : list (string * string) :=
  [("Google", "8.8.8.8");
   ("Cloudflare", "1.1.1.1");
   ("Quad9", "9.9.9.9");
   ("OpenDNS", "208.67.222.222");
   ("AdGuard DNS", "94.140.14.14");
   ("Comodo Secure DNS", "8.26.56.26")].

Definition TEST_DOMAIN : string := "www.google.com".

(** How [resolver.resolve] ends, as the [except] clauses of
    [measure_dns_latency] tell the cases apart: an answer, a
    [dns.exception.Timeout], a [dns.resolver.NoNameservers] with its text,
    or another exception with the name of its type. *)
Inductive Resolved :=
| Answered
| TimedOut
| NoNameservers (text : string)
| Failed (type_name : string).

(** The network around the benchmark.  The probes are numbered: probe 0
    is the one of the system's server, probe [k + 1] the one of the
    [k]-th standard server.
    - [get_system_dns_servers]: what the function of that name returns
      (its body catches what the detection raises);
    - [new_resolver k server]: how the construction of the resolver of
      probe [k] and the assignment of its name server and timeouts end;
    - [resolve k domain server]: how the query of probe [k] ends;
    - [perf_counter k]: the clock read before and after that query. *)
Record Network := {
  get_system_dns_servers : list string;
  new_resolver : nat -> string -> Outcome unit;
  resolve : nat -> string -> string -> Resolved;
  perf_counter : nat -> Q * Q
}.

Definition minus_one : Q := (-1)%Q.

(** [measure_dns_latency(domain, dns_server, timeout)], as probe [k]. *)
Definition measure_dns_latency (net : Network) (k : nat)
    (domain dns_server : string) (timeout : Z) : Outcome (Q * string) :=
  match new_resolver net k dns_server with
  | Raises e => Raises e
  | Returns _ =>
      let start_time := fst (perf_counter net k) in
      match resolve net k domain dns_server with
      | Answered =>
          let end_time := snd (perf_counter net k) in
          let latency_ms := ((end_time - start_time) * 1000)%Q in
          Returns (round2 latency_ms, "Success")
      | TimedOut =>
          Returns (minus_one, ("Timeout (" ++ str_int timeout ++ "s)")%string)
      | NoNameservers e =>
          Returns (minus_one, ("No Nameservers (" ++ e ++ ")")%string)
      | Failed type_name =>
          Returns (minus_one, ("Error (" ++ type_name ++ ")")%string)
      end
  end.

Definition entry (latency : Q) (status : string) : DnsEntry :=
  {| latency_ms := Some latency; dns_status := status |}.

(** The loop over [STANDARD_DNS_SERVERS.items()], from probe [k] on. *)
Fixpoint test_standard (net : Network) (k : nat)
    (servers : list (string * string)) (results : DnsResults)
  : Outcome DnsResults :=
  match servers with
  | [] => Returns results
  | (name, ip) :: servers' =>
      match measure_dns_latency net k TEST_DOMAIN ip 2 with
      | Raises e => Raises e
      | Returns (latency, status) =>
          test_standard net (S k) servers'
            (dict_set (name ++ " (" ++ ip ++ ")")%string (entry latency status)
               results)
      end
  end.

Definition run_dns_benchmark (net : Network) : Outcome DnsResults :=
  match
    match get_system_dns_servers net with
    | server_ip :: _ =>
        if negb (String.eqb server_ip "OS Default (Not Detected)") then
          match measure_dns_latency net 0 TEST_DOMAIN server_ip 2 with
          | Raises e => Raises e
          | Returns (latency, status) =>
              Returns [(("System (" ++ server_ip ++ ")")%string,
                        entry latency status)]
          end
        else Returns [("System Default", entry minus_one "Not Detected")]
    | [] => Returns [("System Default", entry minus_one "Not Detected")]
    end
  with
  | Raises e => Raises e
  | Returns results => test_standard net 1 STANDARD_DNS_SERVERS results
  end.

(** *** Vocabulary *)

(** The label of the system's entry. *)
Definition system_label (net : Network) : string :=
  match get_system_dns_servers net with
  | server_ip :: _ =>
      if String.eqb server_ip "OS Default (Not Detected)"
      then "System Default"
      else "System (" ++ server_ip ++ ")"
  | [] => "System Default"
  end.

(** The labels of the standard servers, in the order of the table. *)
Definition standard_labels : list string :=
  ["Google (8.8.8.8)"; "Cloudflare (1.1.1.1)"; "Quad9 (9.9.9.9)";
   "OpenDNS (208.67.222.222)"; "AdGuard DNS (94.140.14.14)";
   "Comodo Secure DNS (8.26.56.26)"].

(** The probes that the benchmark makes: the number of each with its
    server. *)
Definition probes (net : Network) : list (nat * string) :=
  match get_system_dns_servers net with
  | server_ip :: _ =>
      if String.eqb server_ip "OS Default (Not Detected)" then []
      else [(0%nat, server_ip)]
  | [] => []
  end
  ++ combine (seq 1 6) (map snd STANDARD_DNS_SERVERS).

(** The clock of every probe does not go back. *)
Definition steady_clock (net : Network) : Prop :=
  forall k, (fst (perf_counter net k) <= snd (perf_counter net k))%Q.

(** An entry is sound: it has a latency, which is the sentinel [-1]
    exactly when the status is not ["Success"], and is not negative
    otherwise. *)
Definition sound_entry (e : DnsEntry) : Prop :=
  exists latency,
    latency_ms e = Some latency
    /\ (dns_status e <> "Success" -> latency = minus_one)
    /\ (dns_status e = "Success" -> (0 <= latency)%Q).

(** The label of a standard server in the results. *)
Definition label (server : string * string) : string :=
  fst server ++ " (" ++ snd server ++ ")".

End DnsUtils.

(* ================================================================= *)
(** ** gui.py: the list of URLs *)

Module UrlList.

(** What the window tells the operator. *)
Inductive Notice :=
| StatusMessage (text : string)
| WarningBox (title text : string).

(** The part of the window that [add_url] works on: the text of
    [url_input], the items of [url_list_widget], and the notices shown so
    far. *)
Record Panel := {
  url_input : string;
  url_list_widget : list string;
  notices : list Notice
}.

Definition clear_input (p : Panel) : Panel :=
  {| url_input := ""; url_list_widget := url_list_widget p;
     notices := notices p |}.

Definition addItem (url : string) (p : Panel) : Panel :=
  {| url_input := url_input p;
     url_list_widget := url_list_widget p ++ [url];
     notices := notices p |}.

Definition notify (n : Notice) (p : Panel) : Panel :=
  {| url_input := url_input p; url_list_widget := url_list_widget p;
     notices := notices p ++ [n] |}.

(** [url.startswith(('http://', 'https://'))] *)
Definition is_web_url (url : string) : bool :=
  prefix "http://" url || prefix "https://" url.

(** [url in items] *)
Definition mem (url : string) (items : list string) : bool :=
  existsb (String.eqb url) items.

Section AddUrl.
(** [str.strip()], which removes the white space of Unicode at both
    ends. *)
Variable strip : string -> string.

Definition add_url (p : Panel) : Panel :=
  let url := strip (url_input p) in
  clear_input
    (if negb (String.eqb url "") && is_web_url url then
       let items := url_list_widget p in
       if negb (mem url items) then clear_input (addItem url p)
       else notify (StatusMessage "URL already in the list.") p
     else if negb (String.eqb url "") then
       notify (WarningBox "Invalid URL"
                 "URL must start with http:// or https://") p
     else p).
End AddUrl.

(** [clear_urls] *)
Definition clear_urls (p : Panel) : Panel :=
  {| url_input := url_input p; url_list_widget := [];
     notices := notices p |}.

End UrlList.

(* ================================================================= *)
(** ** gui.py: the file and the format of an export *)

Module ExportTarget.
Import SessionSetup.

Inductive Format := CSV | JSON.

(** [s.endswith(suffix)] *)
Definition endswith (s suffix : string) : bool :=
  (String.length suffix <=? String.length s)%nat
  && String.eqb
       (substring (String.length s - String.length suffix)
          (String.length suffix) s)
       suffix.

(** The lines of [export_report] that settle the format and the name of
    the file from the answer of the file dialog. *)
Definition export_target (filename selected_filter : string)
  : string * Format :=
  if contains "JSON" selected_filter then
    (if negb (endswith (lower filename) ".json")
     then (filename ++ ".json")%string
     else filename, JSON)
  else if contains "CSV" selected_filter then
    (if negb (endswith (lower filename) ".csv")
     then (filename ++ ".csv")%string
     else filename, CSV)
  else (filename, CSV).

(** The extension of a format. *)
Definition extension (f : Format) : string :=
  match f with CSV => ".csv" | JSON => ".json" end.

(** The filters that the dialog of [export_report] offers. *)
Definition file_filters : list string :=
  ["CSV Files (*.csv)"; "JSON Files (*.json)"; "All Files (*)"].

End ExportTarget.

(* ================================================================= *)
(** ** gui.py: the export of a report *)

Module ReportExport.
Import Worker Gui SettingsManager ExportTarget.

Local Open Scope stmt_scope.

(** What the window tells the operator during an export. *)
Inductive Shown :=
| Status (text : string)
| Information (title text : string)
| Warning (title text : string)
| Critical (title text : string).

(** The calls on the file of the report. *)
Inductive FileCall :=
| OpenW (filename : string)
| WriteHeader (fieldnames : list string)
| WriteRow (cells : list PyVal)
| Dump (document : Json)
| CloseFile.

(** The state of an export: the calls on the file and what the operator
    was shown, in order. *)
Record Exporting := {
  calls : list FileCall;
  shown : list Shown
}.

Definition Exp := M Exporting.

Definition show (n : Shown) : Exp unit :=
  update (fun s => {| calls := calls s; shown := shown s ++ [n] |}).

(** A call on the file, whose outcome the file system [fs] decides. *)
Definition file_call (fs : FileCall -> Outcome unit) (c : FileCall) : Exp unit :=
  update (fun s => {| calls := calls s ++ [c]; shown := shown s |}) ;;;
  call (fs c).

(** [with open(filename, 'w', ...) as f: body]: the file that was opened
    is closed however the body ends. *)
Definition with_open (fs : FileCall -> Outcome unit) (filename : string)
    (body : Exp unit) : Exp unit :=
  file_call fs (OpenW filename) ;;;
  try_finally body (file_call fs CloseFile).

Definition fieldnames : list string :=
  ["url"; "num_successful_runs"; "num_errors"; "avg_load_time_ms";
   "median_load_time_ms"; "min_load_time_ms"; "max_load_time_ms";
   "std_dev_load_time_ms"; "error_messages"].

(** [sep.join(items)], for items that are strings. *)
Fixpoint join (sep : string) (items : list string) : string :=
  match items with
  | [] => ""
  | [item] => item
  | item :: items' => item ++ sep ++ join sep items'
  end.

(** The index of the first item of a list that is [None]. *)
Fixpoint first_none (i : nat) (items : list (option string)) : option nat :=
  match items with
  | [] => None
  | None :: _ => Some i
  | Some _ :: items' => first_none (S i) items'
  end.

(** The items that are strings. *)
Fixpoint texts (items : list (option string)) : list string :=
  match items with
  | [] => []
  | Some s :: items' => s :: texts items'
  | None :: items' => texts items'
  end.

(** ["; ".join(messages)], which raises on an item that is not a
    string. *)
Definition join_messages (messages : list (option string)) : Outcome string :=
  match first_none 0 messages with
  | Some i =>
      Raises (TypeError ("sequence item " ++ str_nat i
                         ++ ": expected str instance, NoneType found"))
  | None => Returns (join "; " (texts messages))
  end.

(** The cells of the row of a summary entry, in the order of
    [fieldnames], with the joined messages in the last one. *)
Definition csv_row (s : UrlSummary) (messages : string) : list PyVal :=
  [PyStr (url s);
   py_nat (num_successful_runs s);
   py_nat (num_errors s);
   py_stat (avg_load_time_ms s);
   py_stat (median_load_time_ms s);
   py_stat (min_load_time_ms s);
   py_stat (max_load_time_ms s);
   py_stat (std_dev_load_time_ms s);
   PyStr messages].

(** The loop [for url_summary in summary.values()]. *)
Fixpoint write_rows (fs : FileCall -> Outcome unit)
    (entries : list UrlSummary) : Exp unit :=
  match entries with
  | [] => ret tt
  | url_summary :: entries' =>
      messages <- call (join_messages (error_messages url_summary)) ;;
      file_call fs (WriteRow (csv_row url_summary messages)) ;;;
      write_rows fs entries'
  end.

(** [export_report], given the answer of the file dialog.  The two
    handlers tell an [IOError] from any other exception. *)
Definition export_report (fs : FileCall -> Outcome unit)
    (answer : string * string) (settings : PyDictT)
    (results_data : list RunResult) : Exp unit :=
  match results_data with
  | [] => show (Information "No Results" "No results to export.")
  | _ :: _ =>
      if String.eqb (fst answer) "" then ret tt
      else
        let filename := fst (export_target (fst answer) (snd answer)) in
        let export_format := snd (export_target (fst answer) (snd answer)) in
        try_except
          (exported <-
             match export_format with
             | CSV =>
                 summary <- call (generate_summary_report results_data) ;;
                 match summary with
                 | [] =>
                     show (Warning "Export Error"
                             "Could not generate summary report.") ;;;
                     ret false
                 | _ :: _ =>
                     with_open fs filename
                       (file_call fs (WriteHeader fieldnames) ;;;
                        write_rows fs (map snd summary)) ;;;
                     ret true
                 end
             | JSON =>
                 summary <- call (generate_summary_report results_data) ;;
                 with_open fs filename
                   (file_call fs
                      (Dump (json_dump (PyDict
                         [("summary_report", py_summary summary);
                          ("raw_results", PyList (map py_result results_data));
                          ("test_configuration",
                           PyDict (filter
                                     (fun kv =>
                                        negb (String.eqb (fst kv) "results"))
                                     settings))])))) ;;;
                 ret true
             end ;;
           if exported : bool then
             show (Status ("Report exported successfully to " ++ filename))
           else ret tt)
          (fun e => Some (
             if is_io_error e then
               show (Critical "Export Error"
                       ("Failed to save report file:" ++ newline
                        ++ exc_str e)) ;;;
               show (Status ("Error exporting report: " ++ exc_str e))
             else
               show (Critical "Export Error"
                       ("An unexpected error occurred during export:"
                        ++ newline ++ exc_str e)) ;;;
               show (Status ("Unexpected error during export: "
                             ++ exc_str e))))
  end.

Definition nothing : Exporting := {| calls := []; shown := [] |}.

(** An export, from the click to its end. *)
Definition export_run (fs : FileCall -> Outcome unit) (answer : string * string)
    (settings : PyDictT) (results_data : list RunResult) : Exporting :=
  snd (export_report fs answer settings results_data nothing).

(** *** Vocabulary *)

(** The rows of the CSV report of [results_data]: one for each URL, in
    the order of the summary. *)
Definition csv_rows (results_data : list RunResult) : list (list PyVal) :=
  map (fun u =>
         csv_row (GuiSpec.url_entry results_data u)
           (join "; " (texts (error_messages
                                (GuiSpec.url_entry results_data u)))))
    (sorted_str (py_set (map SeleniumUtils.url results_data))).

(** Every error has a message that is a text. *)
Definition errors_have_text (results_data : list RunResult) : Prop :=
  Forall (fun r => status r = Error ->
                   exists msg, error_message r = Some (Some msg))
    results_data.

(** A call that writes to the file. *)
Definition is_write (c : FileCall) : Prop :=
  match c with
  | WriteHeader _ | WriteRow _ | Dump _ => True
  | OpenW _ | CloseFile => False
  end.

(** The discipline of the file: no call, or an [open] that failed, or an
    [open], then writes, then one [close] at the end. *)
Definition file_closed (fs : FileCall -> Outcome unit) (l : list FileCall)
  : Prop :=
  l = []
  \/ (exists filename e,
        l = [OpenW filename] /\ fs (OpenW filename) = Raises e)
  \/ (exists filename writes,
        l = OpenW filename :: writes ++ [CloseFile]
        /\ Forall is_write writes).

(** The message of a successful export. *)
Definition success (answer : string * string) : Shown :=
  Status ("Report exported successfully to "
          ++ fst (export_target (fst answer) (snd answer))).

(** The summary of [results_data], as [generate_summary_report] returns
    it. *)
Definition summary_of (results_data : list RunResult) : Summary :=
  map (fun u => (u, GuiSpec.url_entry results_data u))
    (sorted_str (py_set (map SeleniumUtils.url results_data))).

(** What is written into the file of an export. *)
Definition body_of (fs : FileCall -> Outcome unit) (format : Format)
    (settings : PyDictT) (results_data : list RunResult) : Exp unit :=
  match format with
  | CSV =>
      file_call fs (WriteHeader fieldnames) ;;;
      write_rows fs (map snd (summary_of results_data))
  | JSON =>
      file_call fs
        (Dump (json_dump (PyDict
           [("summary_report", py_summary (summary_of results_data));
            ("raw_results", PyList (map py_result results_data));
            ("test_configuration",
             PyDict (filter (fun kv => negb (String.eqb (fst kv) "results"))
                       settings))])))
  end.

(** What the handlers of [export_report] show for an exception. *)
Definition failure_shown (e : Exc) : list Shown :=
  if is_io_error e then
    [Critical "Export Error"
       ("Failed to save report file:" ++ newline ++ exc_str e);
     Status ("Error exporting report: " ++ exc_str e)]
  else
    [Critical "Export Error"
       ("An unexpected error occurred during export:" ++ newline
        ++ exc_str e);
     Status ("Unexpected error during export: " ++ exc_str e)].

(** A piece of an export that only writes: it makes calls that write and
    shows nothing; if it returns, every call returned. *)
Definition writes_only (fs : FileCall -> Outcome unit) (c : Exp unit) : Prop :=
  forall st, exists l,
    snd (c st) = {| calls := calls st ++ l; shown := shown st |}
    /\ Forall is_write l
    /\ (fst (c st) = Returns tt -> Forall (fun w => fs w = Returns tt) l).

(** The row of an entry whose messages are texts. *)
Definition row_of_entry (s : UrlSummary) : list PyVal :=
  csv_row s (join "; " (texts (error_messages s))).

End ReportExport.

(* ================================================================= *)
(** ** Further sample data *)

Module Scenarios.

(** The timing data of a page that took 950 ms from the start of the
    navigation to the end of the load event. *)
Definition timing_data : list (string * JsVal) :=
  [("navigationStart", JsNum 1000);
   ("fetchStart", JsNum 1005);
   ("domainLookupStart", JsNum 1010);
   ("domainLookupEnd", JsNum 1030);
   ("connectStart", JsNum 1030);
   ("connectEnd", JsNum 1060);
   ("requestStart", JsNum 1060);
   ("responseStart", JsNum 1200);
   ("domInteractive", JsNum 1500);
   ("domContentLoadedEventEnd", JsNum 1600);
   ("domComplete", JsNum 1900);
   ("loadEventStart", JsNum 1900);
   ("loadEventEnd", JsNum 1950)].

(** A page that loads in one second and has that timing data. *)
Definition timed_page : Session :=
  {| time_time := 1700000000; perf_start := 10; perf_end := 11;
     driver_get := Returns tt;
     wait_ready_state := Returns tt;
     wait_load_event_end := Returns tt;
     navigation_timing_script := Returns (Some timing_data) |}.

Definition name_not_resolved : Exc :=
  mkExc WebDriverException
    "Message: unknown error: net::ERR_NAME_NOT_RESOLVED".

Definition javascript_error : Exc :=
  mkExc WebDriverException "Message: javascript error".

(** A settings file that holds a JSON array. *)
Definition array_file : SettingsManager.Disk :=
  {| SettingsManager.file :=
       Some (SettingsManager.JsonText (JArray [JString "https://a.example"]));
     SettingsManager.read_error := None;
     SettingsManager.write_error := None |}.

(** Settings that hold two keys. *)
Definition two_settings : PyDictT :=
  [("urls", PyList [PyStr "https://a.example"]); ("runs_per_url", PyInt 5)].

(** A machine without a browser driver. *)
Definition bare_machine : SessionSetup.Machine :=
  {| SessionSetup.install := fun _ =>
       Raises (mkExc OtherException "Could not reach host. Are you offline?");
     SessionSetup.start := fun _ _ _ =>
       Raises (mkExc WebDriverException "Message: unable to start");
     SessionSetup.execute_cdp_cmd := fun _ => Returns tt |}.

(** A run whose session setups are calls of [setup_driver] on that
    machine. *)
Definition bare_env : Worker.Env :=
  {| Worker.run_dns_benchmark := Returns [];
     Worker.setup_driver := fun _ browser_name headless anti_detection =>
       SessionSetup.setup bare_machine browser_name headless anti_detection;
     Worker.wall_clock := fun _ _ => 1700000000%Q;
     Worker.stop_after := None |}.

(** A worker that is asked for a browser that is not supported. *)
Definition safari_worker : Worker.TestWorker :=
  {| Worker.urls := ["https://a.example"];
     Worker.config := [("browser", PyStr "Safari")];
     Worker.runs_per_url := 2;
     Worker.browser := "Safari";
     Worker.headless := false;
     Worker.timeout := 60;
     Worker.wait_strategy := "Combined" |}.

(** A file system that does not fail. *)
Definition healthy : ReportExport.FileCall -> Outcome unit :=
  fun _ => Returns tt.

(** The answer of the file dialog: a name without extension, the filter
    of CSV files. *)
Definition csv_answer : string * string := ("report", "CSV Files (*.csv)").

(** An error whose message is [None]. *)
Definition silent_error : RunResult :=
  Samples.error_result "https://b.example" (Some None).

End Scenarios.

(* ================================================================= *)
(** ** Strings *)

Lemma prefix_append (s t : string) : prefix s (s ++ t) = true.
Proof.
  induction s as [|c s IH]; simpl.
  - now destruct t.
  - destruct (ascii_dec c c) as [_|ne]; [exact IH | now elim ne].
Qed.

Lemma contains_cons (needle : string) (c : ascii) (hay : string) :
  contains needle (String c hay)
  = if prefix needle (String c hay) then true else contains needle hay.
Proof. reflexivity. Qed.

Lemma contains_append_r (needle a : string) :
  forall b, contains needle b = true -> contains needle (a ++ b) = true.
Proof.
  induction a as [|c a IH]; intros b Hb; [exact Hb|].
  change (String c a ++ b)%string with (String c (a ++ b)).
  rewrite contains_cons.
  destruct (prefix needle (String c (a ++ b))); [reflexivity|].
  now apply IH.
Qed.

Lemma contains_prefix (needle b : string) :
  contains needle (needle ++ b) = true.
Proof.
  assert (H : prefix needle (needle ++ b) = true) by apply prefix_append.
  destruct (needle ++ b)%string as [|c h].
  - unfold contains. now rewrite H.
  - rewrite contains_cons. now rewrite H.
Qed.

(** A string contains each of the pieces it is built from. *)
Lemma contains_middle (a needle b : string) :
  contains needle (a ++ needle ++ b) = true.
Proof. apply contains_append_r, contains_prefix. Qed.

(* ================================================================= *)
(** ** The timing sampler *)

Section Sampler.
Variables (driver : Session) (url : string) (timeout : Z)
          (wait_strategy : string).

Local Open Scope string_scope.

(** The inner [try] never lets an exception out and leaves everything
    but [navigation_timing] alone. *)
Lemma detailed_timing_caught (r : RunResult) :
  exists nav,
    try_except (get_detailed_timing driver)
      (fun e => Some (update (set_navigation_timing (NavError (exc_str e))))) r
    = (Returns tt,
       {| SeleniumUtils.url := SeleniumUtils.url r;
          load_time_ms := load_time_ms r; status := status r;
          error_message := error_message r; navigation_timing := nav;
          timestamp := timestamp r; run_number := run_number r;
          SeleniumUtils.config := SeleniumUtils.config r |})
    /\ (forall e, fst (get_detailed_timing driver r) = Raises e ->
                  nav = Some (NavError (exc_str e))).
Proof.
  unfold try_except.
  assert (Hpres : forall o r',
             get_detailed_timing driver r = (o, r') ->
             (o = Returns tt /\ exists nav, r' = 
               {| SeleniumUtils.url := SeleniumUtils.url r;
                  load_time_ms := load_time_ms r; status := status r;
                  error_message := error_message r; navigation_timing := nav;
                  timestamp := timestamp r; run_number := run_number r;
                  SeleniumUtils.config := SeleniumUtils.config r |})
             \/ (exists e, o = Raises e /\ r' = r)).
  { intros o r'. unfold get_detailed_timing, bind, call, ret, update.
    destruct (navigation_timing_script driver) as [[[|kv d]|]|e]; intros H;
      try (injection H as <- <-; first
             [ right; eexists; split; reflexivity
             | left; split; [reflexivity|];
               exists (navigation_timing r); now destruct r ]).
    revert H. set (td := kv :: d).
    destruct (js_gt0 (tget "navigationStart" td)) as [[|]|e]; intros H;
      try (injection H as <- <-; first
             [ right; eexists; split; reflexivity
             | left; split; [reflexivity|];
               exists (navigation_timing r); now destruct r ]).
    revert H.
    destruct (js_sub (tget "domainLookupEnd" td) (tget "domainLookupStart" td));
      [|intros H; injection H as <- <-; right; eexists; split; reflexivity].
    destruct (js_sub (tget "connectEnd" td) (tget "connectStart" td));
      [|intros H; injection H as <- <-; right; eexists; split; reflexivity].
    destruct (js_sub (tget "responseStart" td) (tget "requestStart" td));
      [|intros H; injection H as <- <-; right; eexists; split; reflexivity].
    destruct (js_truthy (tget "loadEventEnd" td));
      [destruct (js_sub (tget "loadEventEnd" td) (tget "navigationStart" td));
       [|intros H; injection H as <- <-; right; eexists; split; reflexivity]|];
      (destruct (js_truthy (tget "domInteractive" td)
                 && js_truthy (tget "domComplete" td));
       [destruct (js_sub (tget "domComplete" td) (tget "domInteractive" td));
        [|intros H; injection H as <- <-; right; eexists; split; reflexivity]|]);
      intros H; injection H as <- <-; left; split; try reflexivity;
      eexists; reflexivity. }
  destruct (get_detailed_timing driver r) as [o r'] eqn:E.
  destruct (Hpres o r' eq_refl) as [[-> [nav ->]]|[e [-> ->]]].
  - exists nav. split; [reflexivity|]. intros e He. discriminate He.
  - exists (Some (NavError (exc_str e))). split; [reflexivity|].
    intros e' He. simpl in He. now injection He as <-.
Qed.

Lemma measure_failure (e : Exc) :
  Spec.load_outcome driver wait_strategy = Raises e ->
  measure_load_time driver url timeout wait_strategy
  = Returns {| SeleniumUtils.url := url; load_time_ms := elapsed_ms driver;
               status := Error;
               error_message := Some (Some (Spec.error_text timeout wait_strategy e));
               navigation_timing := Some NavNone;
               timestamp := time_time driver;
               run_number := None; SeleniumUtils.config := None |}.
Proof.
  intros H.
  assert (Hhandled : forall r : RunResult,
    load_time_ms r = (-1)%Q -> 
    match (if is_timeout_exception e
            then
             Some
               (update (set_status Error);;;
                update
                  (set_error_message
                     (Some
                        ("Timeout after " ++
                         str_int timeout ++
                         " seconds waiting for page load (" ++
                         wait_strategy ++ " strategy)."))))%stmt
            else
             if is_webdriver_exception e
             then
              Some
                (update (set_status Error);;;
                 update
                   (set_error_message
                      (Some ("WebDriver error: " ++ exc_str e))))%stmt
             else
              Some
                (update (set_status Error);;;
                 update
                   (set_error_message
                      (Some ("Unexpected error: " ++ exc_str e))))%stmt)
    with Some h => h r | None => (Raises e, r) end
    = (Returns tt, set_error_message (Some (Spec.error_text timeout wait_strategy e)) (set_status Error r))).
  { intros r _. unfold is_timeout_exception, is_webdriver_exception, Spec.error_text.
    destruct (exc_class e); reflexivity. }
  unfold Spec.load_outcome in H.
  unfold measure_load_time, try_finally, try_except, wait_for_load.
  unfold bind at 1 2 3. unfold call at 1.
  destruct (driver_get driver) as [u|e0].
  - destruct (wait_strategy =? "ReadyState").
    { unfold call at 1. rewrite H, Hhandled by reflexivity. reflexivity. }
    destruct (wait_strategy =? "LoadEventEnd").
    { unfold call at 1. rewrite H, Hhandled by reflexivity. reflexivity. }
    destruct (wait_strategy =? "Combined").
    { unfold bind at 1, call at 1 2.
      destruct (wait_ready_state driver) as [v|e1].
      - rewrite H, Hhandled by reflexivity. reflexivity.
      - injection H as ->. rewrite Hhandled by reflexivity. reflexivity. }
    injection H as <-. unfold raise. reflexivity.
  - injection H as ->. rewrite Hhandled by reflexivity. reflexivity.
Qed.

Lemma measure_success (u : unit) :
  Spec.load_outcome driver wait_strategy = Returns u ->
  exists nav,
    measure_load_time driver url timeout wait_strategy
    = Returns {| SeleniumUtils.url := url; load_time_ms := elapsed_ms driver;
                 status := Success;
                 error_message := Some None;
                 navigation_timing := nav;
                 timestamp := time_time driver;
                 run_number := None; SeleniumUtils.config := None |}
    /\ (forall e, Spec.timing_extraction_fails driver e ->
                  nav = Some (NavError (exc_str e))).
Proof.
  intros H.
  set (r1 := {| SeleniumUtils.url := url; load_time_ms := elapsed_ms driver;
                 status := Success;
                 error_message := Some None;
                 navigation_timing := Some NavNone;
                 timestamp := time_time driver;
                 run_number := None; SeleniumUtils.config := None |}).
  destruct (detailed_timing_caught r1) as [nav [Hnav Hfail]].
  exists nav. split.
  2:{ intros e He. apply Hfail, He. }
  assert (Hrest : forall r0 : RunResult, 
     r0 = {| SeleniumUtils.url := url; load_time_ms := (-1)%Q;
                 status := Error;
                 error_message := Some None;
                 navigation_timing := Some NavNone;
                 timestamp := time_time driver;
                 run_number := None; SeleniumUtils.config := None |} ->
     (update (set_load_time_ms (elapsed_ms driver));;;
              update (set_status Success);;;
              try_except (get_detailed_timing driver)
                (fun e : Exc =>
                 Some
                   (update (set_navigation_timing (NavError (exc_str e))))))%stmt r0
     = (Returns tt, {| SeleniumUtils.url := url; load_time_ms := elapsed_ms driver;
                 status := Success;
                 error_message := Some None;
                 navigation_timing := nav;
                 timestamp := time_time driver;
                 run_number := None; SeleniumUtils.config := None |})).
  { intros r0 ->. unfold bind at 1 2, update at 1 2.
    unfold set_load_time_ms, set_status; cbn [SeleniumUtils.url load_time_ms status error_message navigation_timing timestamp run_number SeleniumUtils.config].
    fold r1. exact Hnav. }
  unfold Spec.load_outcome in H.
  unfold measure_load_time, try_finally, try_except at 1, wait_for_load.
  unfold bind at 1 2 3. unfold call at 1.
  destruct (driver_get driver) as [u0|e0]; [|discriminate].
  assert (Hfin : forall nav', (let (o, results) :=
     let (o0, s'') :=
       (results <- read;;
        (if
          Qltb (load_time_ms results) 0 &&
          status_eqb (status results) Error
         then update (set_load_time_ms (elapsed_ms driver))
         else ret tt))%stmt {| SeleniumUtils.url := url; load_time_ms := elapsed_ms driver;
                 status := Success;
                 error_message := Some None;
                 navigation_timing := nav';
                 timestamp := time_time driver;
                 run_number := None; SeleniumUtils.config := None |} in
     match o0 with
     | Returns _ => (Returns tt, s'')
     | Raises e => (Raises e, s'')
     end in
   match o with
   | Returns _ => Returns results
   | Raises e => Raises e
   end) = Returns {| SeleniumUtils.url := url; load_time_ms := elapsed_ms driver;
                 status := Success;
                 error_message := Some None;
                 navigation_timing := nav';
                 timestamp := time_time driver;
                 run_number := None; SeleniumUtils.config := None |}).
  { intros nav'. unfold bind, read, update, ret. cbn [load_time_ms status status_eqb].
    rewrite Bool.andb_false_r. reflexivity. }
  destruct (wait_strategy =? "ReadyState").
  { unfold call at 1. rewrite H. cbv beta iota. 
    rewrite (Hrest _ eq_refl). apply Hfin. }
  destruct (wait_strategy =? "LoadEventEnd").
  { unfold call at 1. rewrite H. cbv beta iota.
    rewrite (Hrest _ eq_refl). apply Hfin. }
  destruct (wait_strategy =? "Combined"); [|discriminate].
  unfold call at 1 2.
  destruct (wait_ready_state driver) as [v|e1]; [|discriminate].
  rewrite H. cbv beta iota. rewrite (Hrest _ eq_refl). apply Hfin.
Qed.
End Sampler.

Lemma page_loads_outcome (driver : Session) (wait_strategy : string) :
  Spec.page_loads driver wait_strategy
  <-> exists u, Spec.load_outcome driver wait_strategy = Returns u.
Proof.
  unfold Spec.page_loads, Spec.load_outcome. split.
  - intros [u [-> [[-> [v Hv]]|[[-> [v Hv]]|[-> [[v Hv] [w Hw]]]]]]]; simpl.
    + now exists v.
    + now exists v.
    + rewrite Hv. now exists w.
  - destruct (driver_get driver) as [u|e]; [|intros [? ?]; discriminate].
    intros [v Hv]. exists u. split; [reflexivity|].
    destruct (String.eqb_spec wait_strategy "ReadyState") as [->|_];
      [left; eauto|].
    destruct (String.eqb_spec wait_strategy "LoadEventEnd") as [->|_];
      [right; left; eauto|].
    destruct (String.eqb_spec wait_strategy "Combined") as [->|_];
      [|discriminate].
    right; right. split; [reflexivity|].
    destruct (wait_ready_state driver) as [w|e]; [|discriminate]. eauto.
Qed.

Lemma wait_times_out_outcome (driver : Session) (wait_strategy : string) u :
  driver_get driver = Returns u ->
  Spec.wait_times_out driver wait_strategy ->
  exists e, Spec.load_outcome driver wait_strategy = Raises e
            /\ exc_class e = TimeoutException.
Proof.
  intros Hget Hwait. unfold Spec.load_outcome. rewrite Hget.
  destruct Hwait as [e H1 H2|e H1 H2|e H1 H2|v e H0 H1 H2]; simpl;
    try rewrite H0; try rewrite H1; eauto.
Qed.

Lemma unrecognized_outcome (driver : Session) (wait_strategy : string) u :
  ~ Spec.recognized wait_strategy ->
  driver_get driver = Returns u ->
  Spec.load_outcome driver wait_strategy
  = Raises (ValueError ("Invalid wait_strategy: " ++ wait_strategy)%string).
Proof.
  intros Hnot Hget. unfold Spec.load_outcome, Spec.recognized in *.
  rewrite Hget.
  destruct (String.eqb_spec wait_strategy "ReadyState"); [tauto|].
  destruct (String.eqb_spec wait_strategy "LoadEventEnd"); [tauto|].
  destruct (String.eqb_spec wait_strategy "Combined"); [tauto|].
  reflexivity.
Qed.

Lemma elapsed_ms_nonneg (driver : Session) :
  (perf_start driver <= perf_end driver)%Q -> (0 <= elapsed_ms driver)%Q.
Proof.
  intros H. unfold elapsed_ms.
  apply Qmult_le_0_compat; [|discriminate].
  now apply -> Qle_minus_iff.
Qed.

(** C4.  When the bounded wait of the strategy times out, the sampler
    returns an [Error] result whose message names the timeout and the
    strategy (so ["Combined"] when that strategy's ready-state phase times
    out), and whose [load_time_ms] is the time elapsed until the failure,
    in milliseconds: the second reading of the clock less the first,
    times 1000.  With a clock that does not run backwards that is not
    negative, so it is not the sentinel [-1]. *)
Theorem measure_timeout_reported
    (driver : Session) (url : string) (timeout : Z) (wait_strategy : string)
    (u : unit) :
  driver_get driver = Returns u ->
  Spec.wait_times_out driver wait_strategy ->
  (perf_start driver <= perf_end driver)%Q ->
  exists r,
    measure_load_time driver url timeout wait_strategy = Returns r
    /\ status r = Error
    /\ error_message r
       = Some (Some ("Timeout after " ++ str_int timeout
                     ++ " seconds waiting for page load ("
                     ++ wait_strategy ++ " strategy).")%string)
    /\ contains (str_int timeout)
         ("Timeout after " ++ str_int timeout
          ++ " seconds waiting for page load ("
          ++ wait_strategy ++ " strategy).")%string = true
    /\ contains wait_strategy
         ("Timeout after " ++ str_int timeout
          ++ " seconds waiting for page load ("
          ++ wait_strategy ++ " strategy).")%string = true
    /\ load_time_ms r = ((perf_end driver - perf_start driver) * 1000)%Q
    /\ (0 <= load_time_ms r)%Q
    /\ ~ (load_time_ms r == -1)%Q.
Proof.
  intros Hget Hwait Hclock.
  destruct (wait_times_out_outcome driver wait_strategy u Hget Hwait)
    as [e [Hout Hclass]].
  eexists. split; [apply (measure_failure driver url timeout wait_strategy e Hout)|].
  cbn [status error_message load_time_ms].
  unfold Spec.error_text. rewrite Hclass.
  pose proof (elapsed_ms_nonneg driver Hclock) as Hpos.
  repeat split; try assumption.
  - apply contains_middle.
  - apply contains_append_r, contains_append_r, contains_middle.
  - intros Heq. rewrite Heq in Hpos. now apply Hpos.
Qed.


(** C10, as stated, fails: with an unknown strategy and a navigation that
    raises, the message reports the navigation error. *)
Lemma invalid_strategy_message_counterexample :
  ~ (forall driver url timeout wait_strategy,
        ~ Spec.recognized wait_strategy ->
        exists r msg,
          measure_load_time driver url timeout wait_strategy = Returns r
          /\ status r = Error
          /\ error_message r = Some (Some msg)
          /\ contains "Invalid wait_strategy" msg = true).
Proof.
  intros H.
  destruct (H Samples.unreachable_page "https://example.org" 60%Z "Quick")
    as [r [msg [Hm [_ [Hmsg Hc]]]]].
  - unfold Spec.recognized. intros [E|[E|E]]; discriminate E.
  - vm_compute in Hm. injection Hm as <-.
    cbn in Hmsg. injection Hmsg as <-.
    vm_compute in Hc. discriminate Hc.
Qed.

(** C10, amended.  With a strategy that is none of the three, the sampler
    returns an [Error] result; if the navigation returned, the message is
    the one of the [ValueError] and contains ["Invalid wait_strategy"]. *)
Theorem measure_invalid_strategy
    (driver : Session) (url : string) (timeout : Z) (wait_strategy : string) :
  ~ Spec.recognized wait_strategy ->
  exists r,
    measure_load_time driver url timeout wait_strategy = Returns r
    /\ status r = Error
    /\ (forall u, driver_get driver = Returns u ->
          error_message r
          = Some (Some ("Unexpected error: Invalid wait_strategy: "
                        ++ wait_strategy)%string)
          /\ contains "Invalid wait_strategy"
               ("Unexpected error: Invalid wait_strategy: "
                ++ wait_strategy)%string = true)
    /\ (forall e, driver_get driver = Raises e ->
          error_message r = Some (Some (Spec.error_text timeout wait_strategy e))).
Proof.
  intros Hnot.
  destruct (driver_get driver) as [u|e] eqn:Hget.
  - pose proof (unrecognized_outcome driver wait_strategy u Hnot Hget) as Hout.
    eexists. split; [apply (measure_failure _ url timeout _ _ Hout)|].
    cbn. split; [reflexivity|]. split.
    + intros _ _. split; [reflexivity|].
      apply (contains_middle "Unexpected error: " "Invalid wait_strategy"
               (": " ++ wait_strategy)).
    + intros e He. discriminate He.
  - assert (Hout : Spec.load_outcome driver wait_strategy = Raises e)
      by (unfold Spec.load_outcome; now rewrite Hget).
    eexists. split; [apply (measure_failure _ url timeout _ _ Hout)|].
    cbn. split; [reflexivity|]. split.
    + intros u Hu. discriminate Hu.
    + intros e' He'. now injection He' as <-.
Qed.

(** Witness of C4: the ready-state phase of ["Combined"] times out after
    60 seconds, the clock reading 10 s at the start and 70 s at the
    failure: the result carries 60000 ms. *)
Lemma measure_timeout_reported_witness :
  exists r,
    measure_load_time Samples.slow_page "https://example.org" 60 "Combined"
    = Returns r
    /\ status r = Error
    /\ error_message r
       = Some (Some "Timeout after 60 seconds waiting for page load (Combined strategy)."%string)
    /\ contains "60"
         "Timeout after 60 seconds waiting for page load (Combined strategy)."
       = true
    /\ contains "Combined"
         "Timeout after 60 seconds waiting for page load (Combined strategy)."
       = true
    /\ load_time_ms r = 60000%Q
    /\ (0 <= load_time_ms r)%Q
    /\ ~ (load_time_ms r == -1)%Q.
Proof.
  apply (measure_timeout_reported Samples.slow_page "https://example.org"
           60 "Combined" tt).
  - reflexivity.
  - eapply Spec.combined_ready_phase_times_out; reflexivity.
  - vm_compute. discriminate.
Defined.


(** Witness of C10 (amended): the strategy ["Quick"] on a page that
    loads. *)
Lemma measure_invalid_strategy_witness :
  exists r,
    measure_load_time Samples.fast_page "https://example.org" 60 "Quick"
    = Returns r
    /\ status r = Error
    /\ (forall u, driver_get Samples.fast_page = Returns u ->
          error_message r
          = Some (Some ("Unexpected error: Invalid wait_strategy: "
                        ++ "Quick")%string)
          /\ contains "Invalid wait_strategy"
               ("Unexpected error: Invalid wait_strategy: "
                ++ "Quick")%string = true)
    /\ (forall e, driver_get Samples.fast_page = Raises e ->
          error_message r = Some (Some (Spec.error_text 60 "Quick" e))).
Proof.
  apply (measure_invalid_strategy Samples.fast_page "https://example.org"
           60 "Quick").
  unfold Spec.recognized. intros [E|[E|E]]; discriminate E.
Defined.

(* ================================================================= *)
(** ** The run orchestrator *)

Section ActionLists.
Import Worker WorkerSpec.

Lemma results_of_app (l1 l2 : list Action) :
  results_of (l1 ++ l2) = results_of l1 ++ results_of l2.
Proof.
  induction l1 as [|a l1 IH]; [reflexivity|].
  destruct a as [[]| | | | |]; cbn; now rewrite ?IH.
Qed.

Lemma outline_app (l1 l2 : list Action) :
  outline (l1 ++ l2) = outline l1 ++ outline l2.
Proof. apply filter_app. Qed.

Lemma calm_app (l1 l2 : list Action) :
  forallb calm l1 = true -> forallb calm l2 = true ->
  forallb calm (l1 ++ l2) = true.
Proof. intros H1 H2. now rewrite forallb_app, H1, H2. Qed.

(** The results among the actions after the first [k]. *)
Lemma late_app (k : nat) (l1 l2 : list Action) :
  results_of (skipn k (l1 ++ l2))
  = results_of (skipn k l1) ++ results_of (skipn (k - List.length l1) l2).
Proof. now rewrite skipn_app, results_of_app. Qed.

Lemma late_nil (k : nat) (l : list Action) :
  results_of l = [] -> results_of (skipn k l) = [].
Proof.
  revert k. induction l as [|a l IH]; intros [|k] H; try reflexivity;
    try exact H.
  cbn [skipn]. apply IH.
  destruct a as [[]| | | | |]; cbn in H; try exact H. discriminate H.
Qed.
End ActionLists.

Section Orchestrator.
Import Worker WorkerSpec.
Variables (env : Env) (self : TestWorker).

Local Open Scope stmt_scope.

Lemma bind_step {A B} (c : W A) (k : A -> W B) st a st1 :
  c st = (Returns a, st1) -> bind c k st = k a st1.
Proof. intros H. unfold bind. now rewrite H. Qed.

Lemma is_running_step (st : RunState) :
  _is_running env st
  = (Returns (running_at env (List.length (log st))), st).
Proof. reflexivity. Qed.

Lemma emit_step (s : Signal) (st : RunState) :
  emit s st = (Returns tt, append_log (Emit s) st).
Proof. reflexivity. Qed.

Lemma update_step (f : RunState -> RunState) (st : RunState) :
  update f st = (Returns tt, f st).
Proof. reflexivity. Qed.

Lemma read_step (st : RunState) : read st = (Returns st, st).
Proof. reflexivity. Qed.

Lemma ext_returns {A} (a : Action) (x : A) (st : RunState) :
  ext a (Returns x) st = (Returns x, append_log a st).
Proof. reflexivity. Qed.

Lemma ext_raises {A} (a : Action) (e : Exc) (st : RunState) :
  @ext A a (Raises e) st = (Raises e, append_log a st).
Proof. reflexivity. Qed.

Lemma ret_step {A} (x : A) (st : RunState) : ret x st = (Returns x, st).
Proof. reflexivity. Qed.

Ltac step :=
  first
    [ rewrite (bind_step _ _ _ _ _ (is_running_step _))
    | rewrite (bind_step _ _ _ _ _ (ret_step _ _))
    | rewrite (bind_step _ _ _ _ _ (emit_step _ _))
    | rewrite (bind_step _ _ _ _ _ (update_step _ _))
    | rewrite (bind_step _ _ _ _ _ (read_step _))
    | rewrite (bind_step _ _ _ _ _ (ext_returns _ _ _)) ].

Lemma measure_returns (s : Session) url t ws :
  exists r, measure_load_time s url t ws = Returns r
            /\ SeleniumUtils.url r = url.
Proof.
  destruct (Spec.load_outcome s ws) as [u|e] eqn:Hout.
  - destruct (measure_success s url t ws u Hout) as [nav [Hm _]].
    eexists. split; [exact Hm|reflexivity].
  - eexists. split; [apply (measure_failure s url t ws e Hout)|reflexivity].
Qed.

(** The runs of a URL whose setup failed. *)
Lemma failed_runs_spec (i : nat) (url : string) (e : Exc) :
  forall (runs : list nat) (st : RunState),
  exists st' l,
    failed_runs env self i url e runs st = (Returns tt, st')
    /\ log st' = log st ++ l
    /\ driver st' = driver st
    /\ forallb calm l = true
    /\ outline l = []
    /\ results_of l = map (failure_result env self i url e) runs.
Proof.
  induction runs as [|k runs IH]; intros st.
  - exists st, []. cbn. rewrite app_nil_r. repeat split; reflexivity.
  - cbn [failed_runs]. repeat step.
    destruct (IH (append_log
                 (Emit (result_ready
                    {| SeleniumUtils.url := url;
           load_time_ms := (-1)%Q;
           status := Error;
           error_message :=
             Some (Some ("Driver setup failed: " ++ exc_str e)%string);
           navigation_timing := None;
           timestamp := wall_clock env i k;
           run_number := Some (k + 1);
           SeleniumUtils.config := Some (config self) |}))
                 (append_log (Emit (progress (current_step (incr_current_step st)) (total_steps self))) (incr_current_step st))))
      as [st' [l [Hrun [Hlog [Hdrv [Hcalm [Hout Hres]]]]]]].
    exists st'.
    exists (Emit (progress (current_step (incr_current_step st))
                    (total_steps self))
            :: Emit (result_ready (failure_result env self i url e k)) :: l).
    split; [exact Hrun|].
    split.
    { rewrite Hlog. cbn [log append_log incr_current_step].
      rewrite <- !app_assoc. reflexivity. }
    split; [exact Hdrv|].
    unfold outline in *. cbn [forallb calm andb filter is_attempt results_of map].
    rewrite Hcalm, Hout, Hres. auto.
Qed.

Lemma reset_step (d : Driver) (run : nat) (st : RunState) :
  try_except (ext ResetBrowser (reset_state d run))
    (fun _ => Some (ret tt)) st
  = (Returns tt, append_log ResetBrowser st).
Proof.
  unfold try_except, ext, bind, act, update, call.
  now destruct (reset_state d run) as [[]|e].
Qed.

Lemma running_at_nostop (n : nat) :
  stop_after env = None -> running_at env n = true.
Proof. intros H. unfold running_at. now rewrite H. Qed.

Lemma running_at_stop (n s : nat) :
  stop_after env = Some s -> running_at env n = (n <? s)%nat.
Proof. intros H. unfold running_at. now rewrite H. Qed.

(** The runs of a URL whose driver is ready.  After a stop request no
    measured result is emitted. *)
Lemma test_runs_spec (url : string) (d : Driver) :
  forall (runs : list nat) (st : RunState),
  exists st' l,
    test_runs env self url d runs st = (Returns tt, st')
    /\ log st' = log st ++ l
    /\ driver st' = driver st
    /\ forallb calm l = true
    /\ outline l = []
    /\ (stop_after env = None ->
        results_of l = flat_map (measured self url d) runs)
    /\ (forall s, stop_after env = Some s ->
        results_of (skipn (s - List.length (log st)) l) = []).
Proof.
  induction runs as [|run runs IH]; intros st.
  - exists st, []. cbn. rewrite app_nil_r.
    repeat split; try reflexivity. intros s _. now rewrite skipn_nil.
  - cbn [test_runs]. step.
    destruct (running_at env (List.length (log st))) eqn:Hrun1; cbn [negb].
    2:{ exists st, []. rewrite app_nil_r.
        repeat split; try reflexivity.
        - intros Hno. rewrite (running_at_nostop _ Hno) in Hrun1. discriminate.
        - intros s _. now rewrite skipn_nil. }
    do 4 step.
    destruct (measure_returns (session d run) url (timeout self)
                (wait_strategy self)) as [r [Hr _]].
    rewrite Hr. step.
    set (a1 := Emit (progress (current_step (incr_current_step st))
                       (total_steps self))).
    set (a2 := Emit (status_update _)).
    set (a3 := MeasureLoadTime url run (Returns r)).
    set (st3 := append_log a3 _).
    assert (Hlog3 : log st3 = log st ++ [a1; a2; a3]).
    { subst st3. cbn [log append_log incr_current_step].
      now rewrite <- !app_assoc. }
    step.
    destruct (running_at env (List.length (log st3))) eqn:Hrun2; cbn [negb].
    2:{ exists st3, [a1; a2; a3].
        repeat split; try reflexivity; try assumption.
        - intros Hno. rewrite (running_at_nostop _ Hno) in Hrun2. discriminate.
        - intros s _. now apply late_nil. }
    step. rewrite (bind_step _ _ _ _ _ (reset_step _ _ _)).
    set (r' := set_config (config self) (set_run_number (run + 1) r)).
    set (st5 := append_log ResetBrowser _).
    assert (Hlog5 : log st5 = log st ++ [a1; a2; a3; Emit (result_ready r'); ResetBrowser]).
    { subst st5. cbn [log append_log]. rewrite Hlog3.
      now rewrite <- !app_assoc. }
    destruct (IH st5) as [st' [l [Hrun [Hlog [Hdrv [Hcalm [Hout [Hno Hstop]]]]]]]].
    exists st', ([a1; a2; a3; Emit (result_ready r'); ResetBrowser] ++ l).
    split; [exact Hrun|].
    split. { rewrite Hlog, Hlog5. now rewrite <- app_assoc. }
    split. { rewrite Hdrv. reflexivity. }
    split. { apply calm_app; [reflexivity|exact Hcalm]. }
    split. { rewrite outline_app, Hout. reflexivity. }
    split.
    + intros Hnone. rewrite results_of_app, (Hno Hnone).
      cbn [flat_map]. unfold measured at 2. rewrite Hr. reflexivity.
    + intros s Hs. rewrite late_app.
      specialize (Hstop s Hs).
      rewrite Hlog5, length_app in Hstop. cbn [List.length] in Hstop.
      rewrite (running_at_stop _ s Hs) in Hrun2.
      rewrite Hlog3, length_app in Hrun2. cbn [List.length] in Hrun2.
      apply Nat.ltb_lt in Hrun2.
      replace (s - List.length (log st) - List.length [a1; a2; a3; Emit (result_ready r'); ResetBrowser])%nat
        with (s - (List.length (log st) + 5))%nat by (cbn [List.length]; lia).
      rewrite Hstop, app_nil_r.
      remember (s - List.length (log st))%nat as k eqn:Hk.
      assert (Hk4 : (4 <= k)%nat) by lia.
      do 4 (destruct k as [|k]; [lia|]).
      cbn [skipn]. destruct k as [|[|k]]; reflexivity.
Qed.

Lemma late_mid (k : nat) (pre l post : list Action) :
  results_of pre = [] -> results_of post = [] ->
  results_of (skipn k (pre ++ l ++ post))
  = results_of (skipn (k - List.length pre) l).
Proof.
  intros Hpre Hpost.
  now rewrite !late_app, (late_nil _ pre Hpre), (late_nil _ post Hpost),
    app_nil_r.
Qed.

Lemma late_suffix (k : nat) (l : list Action) :
  exists pre, results_of l = pre ++ results_of (skipn k l).
Proof.
  exists (results_of (firstn k l)).
  now rewrite <- results_of_app, firstn_skipn.
Qed.

Lemma quit_step (url : string) (d : Driver) (st : RunState) :
  exists msg,
    try_except
      (ext (QuitDriver url) (quit d) ;;;
       emit (status_update ("Browser driver closed for " ++ url ++ ".")%string))
      (fun quit_error => Some (
         emit (status_update ("Warning: Error quitting driver for "
                 ++ url ++ ": " ++ exc_str quit_error)%string))) st
    = (Returns tt,
       append_log (Emit (status_update msg)) (append_log (QuitDriver url) st)).
Proof.
  unfold try_except, ext, bind, act, update, call, emit.
  destruct (quit d) as [[]|e]; eexists; reflexivity.
Qed.

Lemma on_setup_failure (i : nat) (url : string) (e : Exc) (st : RunState) :
  let error_msg := ("Fatal Error initializing driver for " ++ url
                    ++ ": " ++ exc_str e)%string in
  exists st' lf,
    (emit (status_update error_msg) ;;;
     emit (error_occurred error_msg) ;;;
     failed_runs env self i url e (seq 0 (runs_per_url self)) ;;;
     ret (@None Driver)) st = (Returns None, st')
    /\ log st' = log st ++ [Emit (status_update error_msg);
                            Emit (error_occurred error_msg)] ++ lf
    /\ forallb calm lf = true
    /\ outline lf = []
    /\ results_of lf
       = map (failure_result env self i url e) (seq 0 (runs_per_url self)).
Proof.
  intros error_msg. do 2 step.
  destruct (failed_runs_spec i url e (seq 0 (runs_per_url self))
              (append_log (Emit (error_occurred error_msg))
                 (append_log (Emit (status_update error_msg)) st)))
    as [st' [lf [Hrun [Hlog [_ [Hcalm [Hout Hres]]]]]]].
  rewrite (bind_step _ _ _ _ _ Hrun). cbn [ret].
  exists st', lf. split; [reflexivity|]. split.
  { rewrite Hlog. cbn [log append_log]. now rewrite <- !app_assoc. }
  auto.
Qed.

Lemma failure_results_are_setup_failures (i : nat) (url : string) (e : Exc)
    (runs : list nat) :
  Forall setup_failure (map (failure_result env self i url e) runs).
Proof.
  apply Forall_forall. intros r Hin.
  apply in_map_iff in Hin as [k [<- _]].
  unfold setup_failure. cbn. repeat split. eauto.
Qed.

(** What the handler of a failed setup contributes to the facts about
    one URL. *)
Lemma failed_url_facts (i : nat) (url : string) (e : Exc) (st st2 st' : RunState)
    (a1 : Action) (lf : list Action) :
  let error_msg := ("Fatal Error initializing driver for " ++ url
                    ++ ": " ++ exc_str e)%string in
  driver_for env self i = inl e ->
  running_at env (List.length (log st)) = true ->
  is_attempt a1 = false -> calm a1 = true -> results_of [a1] = [] ->
  log st' = (log st ++ [a1; SetupDriver url])
            ++ [Emit (status_update error_msg);
                Emit (error_occurred error_msg)] ++ lf ->
  forallb calm lf = true ->
  outline lf = [] ->
  results_of lf
    = map (failure_result env self i url e) (seq 0 (runs_per_url self)) ->
  exists l,
    log st' = log st ++ l
    /\ forallb calm l = true
    /\ (stop_after env = None
        \/ (running_at env (List.length (log st)) = true
            /\ exists e, driver_for env self i = inl e) ->
        Next = Next
        /\ results_of l = block env self i url
        /\ outline l = attempt env self i url)
    /\ (forall s, stop_after env = Some s ->
        Forall setup_failure
          (results_of (skipn (s - List.length (log st)) l))
        /\ (List.length (results_of (skipn (s - List.length (log st)) l))
            <= runs_per_url self)%nat
        /\ ((s <= List.length (log st))%nat -> results_of l = [])
        /\ ((exists d, driver_for env self i = inr d) ->
            results_of (skipn (s - List.length (log st)) l) = [])).
Proof.
  intros error_msg Hfor Hrun Ha1 Hc1 Hr1 Hlog Hcalm Hout Hres.
  exists ([a1; SetupDriver url]
          ++ [Emit (status_update error_msg); Emit (error_occurred error_msg)]
          ++ lf).
  assert (Hall : results_of ([a1; SetupDriver url]
          ++ [Emit (status_update error_msg); Emit (error_occurred error_msg)]
          ++ lf) = map (failure_result env self i url e)
                     (seq 0 (runs_per_url self))).
  { assert (H12 : results_of [a1; SetupDriver url] = []).
    { change [a1; SetupDriver url] with ([a1] ++ [SetupDriver url]).
      now rewrite results_of_app, Hr1. }
    now rewrite !results_of_app, Hres, H12. }
  split. { rewrite Hlog. now rewrite <- !app_assoc. }
  split.
  { apply calm_app; [cbn; now rewrite Hc1|].
    apply calm_app; [reflexivity|exact Hcalm]. }
  split.
  - intros _. split; [reflexivity|]. split.
    + rewrite Hall. unfold block. now rewrite Hfor.
    + rewrite !outline_app, Hout. unfold attempt. rewrite Hfor.
      unfold outline. cbn [filter is_attempt]. now rewrite Ha1.
  - intros s Hs.
    destruct (late_suffix (s - List.length (log st))
                ([a1; SetupDriver url]
          ++ [Emit (status_update error_msg); Emit (error_occurred error_msg)]
          ++ lf)) as [pre Hpre].
    rewrite Hall in Hpre.
    pose proof (failure_results_are_setup_failures i url e
                  (seq 0 (runs_per_url self))) as Hfail.
    rewrite Hpre in Hfail. apply Forall_app in Hfail as [_ Hfail].
    split; [exact Hfail|]. split.
    + apply (f_equal (@List.length _)) in Hpre.
      rewrite length_map, length_seq, length_app in Hpre. lia.
    + split.
      * intros Hle. rewrite (running_at_stop _ s Hs) in Hrun.
        apply Nat.ltb_lt in Hrun. lia.
      * intros [d Hd]. congruence.
Qed.

(** One iteration of the URL loop. *)
Lemma test_url_spec (i : nat) (url : string) (st : RunState) :
  exists c st' l,
    test_url env self i url st = (Returns c, st')
    /\ log st' = log st ++ l
    /\ forallb calm l = true
    /\ (stop_after env = None
        \/ (running_at env (List.length (log st)) = true
            /\ exists e, driver_for env self i = inl e) ->
        c = Next
        /\ results_of l = block env self i url
        /\ outline l = attempt env self i url)
    /\ (forall s, stop_after env = Some s ->
        Forall setup_failure
          (results_of (skipn (s - List.length (log st)) l))
        /\ (List.length (results_of (skipn (s - List.length (log st)) l))
            <= runs_per_url self)%nat
        /\ ((s <= List.length (log st))%nat -> results_of l = [])
        /\ ((exists d, driver_for env self i = inr d) ->
            results_of (skipn (s - List.length (log st)) l) = [])).
Proof.
  unfold test_url. step.
  destruct (running_at env (List.length (log st))) eqn:Hrun1; cbn [negb].
  2:{ step. cbn [ret].
      eexists Break, _, [_]. split; [reflexivity|].
      split; [reflexivity|]. split; [reflexivity|]. split.
      - intros [Hno|[Hyes _]]; [|discriminate Hyes].
        rewrite (running_at_nostop _ Hno) in Hrun1. discriminate.
      - intros s Hs. rewrite late_nil by reflexivity.
        repeat split; auto. apply Nat.le_0_l. }
  step.
  unfold bind at 1. unfold try_except at 1.
  step.
  unfold bind at 1. unfold ext at 1, bind at 1, act at 1, update at 1, call at 1.
  cbv beta iota.
  assert (Hfor := eq_refl (driver_for env self i)).
  unfold driver_for at 1 in Hfor.
  set (a1 := Emit (status_update ("Initializing driver for URL: " ++ url ++ "...")%string)).
  destruct (setup_driver env i (browser self) (headless self)
           (py_truthy
              (dict_get_default "anti_detection_enabled" 
                 (PyBool false) (config self)))) as [[d|]|e] eqn:Hsetup.
  - (* the driver is ready *)
    do 2 step. cbn [ret]. cbv beta iota. step.
    set (a3 := Emit (status_update ("Driver ready for " ++ url ++ ".")%string)).
    set (a4 := Emit (status_update _)).
    set (st4 := append_log a4 _).
    assert (Hlog4 : log st4 = log st ++ [a1; SetupDriver url; a3; a4]).
    { subst st4. cbn [log append_log set_driver]. now rewrite <- !app_assoc. }
    destruct (test_runs_spec url d (seq 0 (runs_per_url self)) st4)
      as [st5 [lt [Hrun [Hlog [Hdrv [Hcalm [Hout [Hno Hstop]]]]]]]].
    rewrite (bind_step _ _ _ _ _ Hrun). step.
    replace (driver st5) with (Some d) by (now rewrite Hdrv).
    destruct (quit_step url d st5) as [msg Hquit].
    rewrite (bind_step _ _ _ _ _ Hquit). do 2 step.
    set (st7 := set_driver None _).
    assert (Hlog7 : log st7 = log st ++ [a1; SetupDriver url; a3; a4] ++ lt
                              ++ [QuitDriver url; Emit (status_update msg)]).
    { subst st7. cbn [log append_log set_driver]. rewrite Hlog, Hlog4.
      now rewrite <- !app_assoc. }
    exists (if negb (running_at env (List.length (log st7))) then Break else Next),
      st7, ([a1; SetupDriver url; a3; a4] ++ lt
            ++ [QuitDriver url; Emit (status_update msg)]).
    split. { now destruct (running_at env (List.length (log st7))). }
    split; [exact Hlog7|].
    split. { apply calm_app; [reflexivity|]. apply calm_app; [exact Hcalm|reflexivity]. }
    split.
    + intros [Hnone|[_ [e He]]]; [|congruence].
      rewrite (running_at_nostop _ Hnone). cbn [negb].
      split; [reflexivity|]. split.
      * rewrite !results_of_app, (Hno Hnone). cbn [results_of app].
        rewrite app_nil_r. unfold block. now rewrite <- Hfor.
      * rewrite !outline_app, Hout. unfold attempt. now rewrite <- Hfor.
    + intros s Hs.
      assert (Hlate : results_of
                (skipn (s - List.length (log st))
                   ([a1; SetupDriver url; a3; a4] ++ lt
                    ++ [QuitDriver url; Emit (status_update msg)])) = []).
      { rewrite !late_app.
        rewrite (late_nil _ [a1; SetupDriver url; a3; a4]) by reflexivity.
        rewrite (late_nil _ [QuitDriver url; Emit (status_update msg)])
          by reflexivity.
        specialize (Hstop s Hs).
        rewrite Hlog4, length_app in Hstop.
        replace (s - List.length (log st)
                 - List.length [a1; SetupDriver url; a3; a4])%nat
          with (s - (List.length (log st)
                     + List.length [a1; SetupDriver url; a3; a4]))%nat by lia.
        now rewrite Hstop. }
      rewrite Hlate. split; [constructor|]. split; [apply Nat.le_0_l|].
      split; [|reflexivity].
      intros Hle. rewrite (running_at_stop _ s Hs) in Hrun1.
      apply Nat.ltb_lt in Hrun1. lia.
  - (* setup_driver returned None *)
    step. unfold raise at 1.
    set (e := WebDriverException_ "setup_driver returned None unexpectedly.") in *.
    destruct (on_setup_failure i url e
                (set_driver None (append_log (SetupDriver url)
                   (append_log a1 (set_driver None st)))))
      as [st' [lf [Hrun [Hlog [Hcalm [Hout Hres]]]]]].
    cbv zeta in Hrun. rewrite Hrun. cbn [ret].
    destruct (failed_url_facts i url e st
                (set_driver None (append_log (SetupDriver url)
                   (append_log a1 (set_driver None st)))) st' a1 lf)
      as [l Hl]; auto.
    { rewrite Hlog. cbn [log append_log set_driver].
      now rewrite <- !app_assoc. }
    rewrite Hrun1 in Hl.
    exists Next, st', l. split; [reflexivity|exact Hl].
  - (* setup_driver raised *)
    destruct (on_setup_failure i url e
                (append_log (SetupDriver url)
                   (append_log a1 (set_driver None st))))
      as [st' [lf [Hrun [Hlog [Hcalm [Hout Hres]]]]]].
    cbv zeta in Hrun. rewrite Hrun. cbn [ret].
    destruct (failed_url_facts i url e st
                (append_log (SetupDriver url)
                   (append_log a1 (set_driver None st))) st' a1 lf)
      as [l Hl]; auto.
    { rewrite Hlog. cbn [log append_log set_driver].
      now rewrite <- !app_assoc. }
    rewrite Hrun1 in Hl.
    exists Next, st', l. split; [reflexivity|exact Hl].
Qed.

(** The URL loop. *)
Lemma test_urls_spec :
  forall (us : list string) (i : nat) (st : RunState),
  exists st' l,
    test_urls env self i us st = (Returns tt, st')
    /\ log st' = log st ++ l
    /\ forallb calm l = true
    /\ (stop_after env = None ->
        results_of l = blocks env self i us
        /\ outline l = attempts env self i us)
    /\ (forall s, stop_after env = Some s ->
        Forall setup_failure
          (results_of (skipn (s - List.length (log st)) l))
        /\ (List.length (results_of (skipn (s - List.length (log st)) l))
            <= runs_per_url self)%nat
        /\ ((s <= List.length (log st))%nat -> results_of l = [])
        /\ ((forall j, exists d, driver_for env self j = inr d) ->
            results_of (skipn (s - List.length (log st)) l) = [])).
Proof.
  induction us as [|url us IH]; intros i st.
  - exists st, []. cbn [test_urls ret]. rewrite app_nil_r.
    split; [reflexivity|]. split; [reflexivity|]. split; [reflexivity|].
    split; [intros _; split; reflexivity|].
    intros s _. rewrite skipn_nil. cbn.
    repeat split; auto. apply Nat.le_0_l.
  - cbn [test_urls].
    destruct (test_url_spec i url st)
      as [c [st1 [l1 [Hrun1 [Hlog1 [Hcalm1 [Hno1 Hstop1]]]]]]].
    rewrite (bind_step _ _ _ _ _ Hrun1).
    destruct c.
    + destruct (IH (S i) st1) as [st' [l2 [Hrun2 [Hlog2 [Hcalm2 [Hno2 Hstop2]]]]]].
      exists st', (l1 ++ l2). split; [exact Hrun2|].
      split. { rewrite Hlog2, Hlog1. now rewrite <- app_assoc. }
      split; [now apply calm_app|].
      split.
      * intros Hnone.
        destruct (Hno1 (or_introl Hnone)) as [_ [Hr1 Ho1]].
        destruct (Hno2 Hnone) as [Hr2 Ho2].
        rewrite results_of_app, outline_app, Hr1, Hr2, Ho1, Ho2.
        split; reflexivity.
      * intros s Hs.
        destruct (Hstop1 s Hs) as [Hf1 [Hn1 [Hz1 Hok1]]].
        destruct (Hstop2 s Hs) as [Hf2 [Hn2 [Hz2 Hok2]]].
        rewrite Hlog1, length_app in Hf2, Hn2, Hz2, Hok2.
        rewrite late_app.
        replace (s - List.length (log st) - List.length l1)%nat
          with (s - (List.length (log st) + List.length l1))%nat by lia.
        split; [apply Forall_app; now split|].
        split.
        { rewrite length_app.
          destruct (Nat.le_gt_cases s (List.length (log st) + List.length l1))
            as [Hle|Hgt].
          - rewrite (late_nil _ l2 (Hz2 Hle)). cbn [List.length]. lia.
          - rewrite (skipn_all2 l1) by lia. cbn [results_of List.length]. lia. }
        split.
        { intros Hle. rewrite results_of_app, (Hz1 Hle), Hz2 by lia.
          reflexivity. }
        intros Hall. now rewrite (Hok1 (Hall i)), (Hok2 Hall).
    + exists st1, l1. cbn [ret]. split; [reflexivity|].
      split; [exact Hlog1|]. split; [exact Hcalm1|]. split.
      * intros Hnone. destruct (Hno1 (or_introl Hnone)) as [Hc _].
        discriminate Hc.
      * intros s Hs. destruct (Hstop1 s Hs) as [Hf1 [Hn1 [Hz1 Hok1]]].
        repeat split; auto.
Qed.

Lemma dns_phase (st : RunState) :
  exists ld,
    (if py_truthy (dict_get_default "run_dns_benchmark" (PyBool false)
                     (config self))
     then
       emit (status_update "Running DNS latency benchmark...") ;;;
       try_except
         (dns_results <- ext DnsBenchmark (run_dns_benchmark env) ;;
          emit (dns_results_ready dns_results) ;;;
          emit (status_update "DNS benchmark finished."))
         (fun dns_err => Some (
            emit (status_update ("Error during DNS benchmark: "
                    ++ exc_str dns_err)%string) ;;;
            emit (dns_results_ready
                    [("Error"%string, {| latency_ms := None;
                                  dns_status := exc_str dns_err |})])))
     else ret tt) st
    = (Returns tt,
       {| current_step := current_step st; driver := driver st;
          log := log st ++ ld |})
    /\ forallb calm ld = true
    /\ results_of ld = []
    /\ outline ld = [].
Proof.
  destruct (py_truthy _).
  - step. unfold try_except, emit, ext, act, bind, update, call.
    destruct (run_dns_benchmark env) as [dns|e]; cbv beta iota;
      eexists [_; _; _; _]; unfold append_log;
      cbn [log current_step driver];
      rewrite <- !app_assoc; repeat split; reflexivity.
  - exists []. cbn [ret]. rewrite app_nil_r. destruct st; repeat split; reflexivity.
Qed.

(** The whole run: it returns, [finished] is its last action and occurs
    nowhere else. *)
Lemma run_spec :
  exists l,
    trace env self = l ++ [Emit finished]
    /\ crashed env self = None
    /\ forallb calm l = true
    /\ (stop_after env = None ->
        results_of l = blocks env self 0 (urls self)
        /\ outline l = attempts env self 0 (urls self))
    /\ (forall s, stop_after env = Some s ->
        Forall setup_failure (results_of (skipn s l))
        /\ (List.length (results_of (skipn s l)) <= runs_per_url self)%nat
        /\ ((forall j, exists d, driver_for env self j = inr d) ->
            results_of (skipn s l) = [])).
Proof.
  unfold trace, crashed, run.
  destruct (dns_phase (initial)) as [ld [Hdns [Hcalmd [Hresd Houtd]]]].
  rewrite (bind_step _ _ _ _ _ Hdns). step.
  cbn [log initial app].
  destruct (running_at env (List.length ld)) eqn:Hrun0; cbn [negb].
  - step.
    set (st1 := append_log _ _).
    destruct (test_urls_spec (urls self) 0 st1)
      as [st2 [lu [Hrun [Hlog [Hcalm [Hno Hstop]]]]]].
    rewrite (bind_step _ _ _ _ _ Hrun). step.
    assert (Hlog1 : log st1 = ld ++ [Emit (status_update "Starting Browse speed tests...")])
      by reflexivity.
    destruct (running_at env (List.length (log st2))) eqn:Hrun2.
    + step. rewrite emit_step. cbn [fst snd log append_log].
      exists ((ld ++ [Emit (status_update "Starting Browse speed tests...")]) ++ lu
              ++ [Emit (status_update "Testing finished.")]).
      split. { rewrite Hlog, Hlog1. now rewrite <- !app_assoc. }
      split; [reflexivity|].
      split. { apply calm_app; [apply calm_app; [exact Hcalmd|reflexivity]|].
               apply calm_app; [exact Hcalm|reflexivity]. }
      split.
      * intros Hnone. destruct (Hno Hnone) as [Hr Ho].
        rewrite !results_of_app, !outline_app, Hresd, Houtd, Hr, Ho.
        cbn. rewrite !app_nil_r. split; reflexivity.
      * intros s Hs. destruct (Hstop s Hs) as [Hf [Hn [_ Hok]]].
        rewrite Hlog1 in Hf, Hn, Hok.
        assert (Hlate : results_of (skipn s
                  ((ld ++ [Emit (status_update "Starting Browse speed tests...")]) ++ lu
              ++ [Emit (status_update "Testing finished.")]))
                = results_of (skipn (s - List.length (ld ++ [Emit (status_update "Starting Browse speed tests...")])) lu)).
        { apply late_mid; [|reflexivity].
          now rewrite results_of_app, Hresd. }
        rewrite Hlate. auto.
    + step. rewrite emit_step. cbn [fst snd log append_log].
      exists ((ld ++ [Emit (status_update "Starting Browse speed tests...")]) ++ lu).
      split. { rewrite Hlog, Hlog1. now rewrite <- !app_assoc. }
      split; [reflexivity|].
      split. { apply calm_app; [apply calm_app; [exact Hcalmd|reflexivity]|exact Hcalm]. }
      split.
      * intros Hnone. rewrite (running_at_nostop _ Hnone) in Hrun2. discriminate.
      * intros s Hs. destruct (Hstop s Hs) as [Hf [Hn [_ Hok]]].
        rewrite Hlog1 in Hf, Hn, Hok.
        assert (Hlate : results_of (skipn s
                  ((ld ++ [Emit (status_update "Starting Browse speed tests...")]) ++ lu))
                = results_of (skipn (s - List.length (ld ++ [Emit (status_update "Starting Browse speed tests...")])) lu)).
        { rewrite <- (app_nil_r lu) at 1. apply late_mid; [|reflexivity].
          now rewrite results_of_app, Hresd. }
        rewrite Hlate. auto.
  - step. rewrite emit_step. cbn [fst snd log append_log].
    exists (ld ++ [Emit (status_update "Test stopped after DNS benchmark.")]).
    split. { now rewrite <- !app_assoc. }
    split; [reflexivity|].
    split. { apply calm_app; [exact Hcalmd|reflexivity]. }
    split.
    + intros Hnone. rewrite (running_at_nostop _ Hnone) in Hrun0. discriminate.
    + intros s Hs. rewrite late_nil.
      * repeat split; auto. apply Nat.le_0_l.
      * now rewrite results_of_app, Hresd.
Qed.
End Orchestrator.



Section RunTheorems.
Import Worker WorkerSpec.

Lemma calm_not_finished (l : list Action) :
  forallb calm l = true -> ~ In (Emit finished) l.
Proof.
  intros H Hin. rewrite forallb_forall in H. specialize (H _ Hin).
  discriminate H.
Qed.

Lemma calm_measure_returned (l : list Action) url run o :
  forallb calm l = true -> In (MeasureLoadTime url run o) l ->
  exists r, o = Returns r.
Proof.
  intros H Hin. rewrite forallb_forall in H. specialize (H _ Hin).
  destruct o as [r|e]; [eauto|discriminate H].
Qed.

Lemma setups_of_app (l1 l2 : list Action) :
  setups_of (l1 ++ l2) = setups_of l1 ++ setups_of l2.
Proof.
  induction l1 as [|a l1 IH]; [reflexivity|].
  destruct a; cbn; now rewrite ?IH.
Qed.

Lemma setups_of_outline (l : list Action) :
  setups_of (outline l) = setups_of l.
Proof.
  unfold outline. induction l as [|a l IH]; [reflexivity|].
  destruct a as [[]| | | | |]; cbn; now rewrite ?IH.
Qed.

Lemma setups_of_attempts (env : Env) (self : TestWorker) :
  forall us i, setups_of (attempts env self i us) = us.
Proof.
  induction us as [|u us IH]; intros i; [reflexivity|].
  cbn [attempts]. rewrite setups_of_app, IH.
  unfold attempt. now destruct (driver_for env self i).
Qed.

Lemma block_length (env : Env) (self : TestWorker) (i : nat) (url : string) :
  List.length (block env self i url) = runs_per_url self.
Proof.
  unfold block. destruct (driver_for env self i) as [e|d].
  - now rewrite length_map, length_seq.
  - generalize 0%nat. induction (runs_per_url self) as [|n IH]; intros k;
      [reflexivity|].
    cbn [seq flat_map]. rewrite length_app, IH.
    unfold measured.
    destruct (measure_returns (session d k) url (timeout self)
                (wait_strategy self)) as [r [-> _]].
    reflexivity.
Qed.

Lemma blocks_length (env : Env) (self : TestWorker) :
  forall us i,
    List.length (blocks env self i us)
    = (runs_per_url self * List.length us)%nat.
Proof.
  induction us as [|u us IH]; intros i; cbn [blocks List.length]; [lia|].
  rewrite length_app, block_length, IH. lia.
Qed.

Lemma blocks_app (env : Env) (self : TestWorker) :
  forall us1 us2 i,
    blocks env self i (us1 ++ us2)
    = blocks env self i us1
      ++ blocks env self (i + List.length us1) us2.
Proof.
  induction us1 as [|u us1 IH]; intros us2 i; cbn [blocks app List.length].
  - now rewrite Nat.add_0_r.
  - rewrite IH, <- app_assoc.
    now replace (i + S (List.length us1))%nat
      with (S i + List.length us1)%nat by lia.
Qed.

Lemma attempts_app (env : Env) (self : TestWorker) :
  forall us1 us2 i,
    attempts env self i (us1 ++ us2)
    = attempts env self i us1
      ++ attempts env self (i + List.length us1) us2.
Proof.
  induction us1 as [|u us1 IH]; intros us2 i; cbn [attempts app List.length].
  - now rewrite Nat.add_0_r.
  - rewrite IH, <- app_assoc.
    now replace (i + S (List.length us1))%nat
      with (S i + List.length us1)%nat by lia.
Qed.

(** The keys (URL, run number) of the results of a URL whose driver is
    ready. *)
Lemma measured_keys (self : TestWorker) (url : string) (d : Driver) :
  forall n k,
    map (fun r => (SeleniumUtils.url r, run_number r))
      (flat_map (measured self url d) (seq k n))
    = map (fun j => (url, Some j)) (seq (S k) n).
Proof.
  induction n as [|n IH]; intros k; [reflexivity|].
  cbn [seq flat_map map]. rewrite map_app, IH.
  unfold measured.
  destruct (measure_returns (session d k) url (timeout self)
              (wait_strategy self)) as [r [-> Hurl]].
  cbn. rewrite Hurl. now rewrite Nat.add_1_r.
Qed.

Lemma blocks_keys (env : Env) (self : TestWorker) :
  (forall j, exists d, driver_for env self j = inr d) ->
  forall us i,
    map (fun r => (SeleniumUtils.url r, run_number r)) (blocks env self i us)
    = flat_map (fun u => map (fun k => (u, Some k))
                           (seq 1 (runs_per_url self))) us.
Proof.
  intros Hall. induction us as [|u us IH]; intros i; [reflexivity|].
  cbn [blocks flat_map]. rewrite map_app, IH. f_equal.
  unfold block. destruct (Hall i) as [d ->]. apply measured_keys.
Qed.

Lemma every_setup_succeeds (env : Env) (self : TestWorker) :
  (forall i b h a, exists d, setup_driver env i b h a = Returns (Some d)) ->
  forall j, exists d, driver_for env self j = inr d.
Proof.
  intros H j. unfold driver_for.
  destruct (H j (browser self) (headless self)
              (py_truthy (dict_get_default "anti_detection_enabled"
                            (PyBool false) (config self)))) as [d ->].
  eauto.
Qed.

(** The results of a run that nobody stops, URL by URL. *)
Lemma run_results_without_stop (env : Env) (self : TestWorker) :
  stop_after env = None ->
  results_of (trace env self) = blocks env self 0 (urls self)
  /\ outline (trace env self) = attempts env self 0 (urls self).
Proof.
  intros Hnone.
  destruct (run_spec env self) as [l [Ht [_ [_ [Hno _]]]]].
  destruct (Hno Hnone) as [Hr Ho].
  rewrite Ht, results_of_app, outline_app, Hr, Ho. cbn.
  now rewrite !app_nil_r.
Qed.

(** [finished] is the last action of a run and occurs nowhere else. *)
Lemma run_finishes_once (env : Env) (self : TestWorker) :
  (exists l, trace env self = l ++ [Emit finished] /\ ~ In (Emit finished) l)
  /\ crashed env self = None.
Proof.
  destruct (run_spec env self) as [l [Ht [Hc [Hcalm _]]]].
  split; [|exact Hc]. exists l. split; [exact Ht|].
  now apply calm_not_finished.
Qed.

(** C1.  Every run returns and emits [finished] exactly once, as its last
    action, hence after the last result.  If every session setup succeeds
    and nobody stops the run, it emits [runs_per_url] results for each
    URL: URL by URL in list order, run numbers [1..runs_per_url] within
    each URL. *)
Theorem run_emits_all_results_then_finished (env : Env) (self : TestWorker) :
  (exists l, trace env self = l ++ [Emit finished] /\ ~ In (Emit finished) l)
  /\ crashed env self = None
  /\ (stop_after env = None ->
      (forall i b h a,
          exists d, setup_driver env i b h a = Returns (Some d)) ->
      List.length (results_of (trace env self))
      = (runs_per_url self * List.length (urls self))%nat
      /\ map (fun r => (SeleniumUtils.url r, run_number r))
           (results_of (trace env self))
         = flat_map (fun u => map (fun k => (u, Some k))
                                (seq 1 (runs_per_url self)))
             (urls self)).
Proof.
  destruct (run_finishes_once env self) as [Hfin Hret].
  split; [exact Hfin|]. split; [exact Hret|].
  intros Hnone Hsetup.
  destruct (run_results_without_stop env self Hnone) as [Hres _].
  rewrite Hres. split.
  - apply blocks_length.
  - apply blocks_keys. now apply every_setup_succeeds.
Qed.

(** An iteration of the URL loop that passes its flag check and whose
    setup fails: whenever Stop is pressed afterwards, it emits the error
    notice and all the error results, and the loop goes on. *)
Lemma failed_url_iteration
    (env : Env) (self : TestWorker) (i : nat) (u : string) (e : Exc)
    (st : RunState) :
  driver_for env self i = inl e ->
  running_at env (List.length (log st)) = true ->
  exists st' l,
    test_url env self i u st = (Returns Next, st')
    /\ log st' = log st ++ l
    /\ results_of l
       = map (failure_result env self i u e) (seq 0 (runs_per_url self))
    /\ outline l
       = [SetupDriver u;
          Emit (error_occurred ("Fatal Error initializing driver for "
                                ++ u ++ ": " ++ exc_str e)%string)].
Proof.
  intros Hfail Hrun.
  destruct (test_url_spec env self i u st)
    as [c [st' [l [Htest [Hlog [_ [Hfacts _]]]]]]].
  destruct Hfacts as [Hc [Hres Hout]]; [right; eauto|].
  subst c. exists st', l. split; [exact Htest|]. split; [exact Hlog|].
  unfold block in Hres. unfold attempt in Hout. rewrite Hfail in Hres, Hout.
  now split.
Qed.

(** C2.  Let the session setup of the URL [u] at position [length us1]
    fail with [e].  The iteration of [u], once past its flag check, emits
    one [error_occurred] notice right after the setup call and exactly
    [runs_per_url] results, all [Error] with the one message ["Driver
    setup failed: " ++ str(e)], numbered [1..runs_per_url], and ends with
    the loop going on, whenever Stop is pressed.  In a run that nobody
    stops these results come after those of the URLs before [u], the
    setup of every URL is attempted, and the URLs after [u] get their
    [runs_per_url] results each. *)
Theorem setup_failure_is_isolated
    (env : Env) (self : TestWorker) (us1 : list string) (u : string)
    (us2 : list string) (e : Exc) :
  urls self = us1 ++ u :: us2 ->
  driver_for env self (List.length us1) = inl e ->
  (forall st,
      running_at env (List.length (log st)) = true ->
      exists st' l,
        test_url env self (List.length us1) u st = (Returns Next, st')
        /\ log st' = log st ++ l
        /\ results_of l
           = map (failure_result env self (List.length us1) u e)
               (seq 0 (runs_per_url self))
        /\ outline l
           = [SetupDriver u;
              Emit (error_occurred ("Fatal Error initializing driver for "
                                    ++ u ++ ": " ++ exc_str e)%string)])
  /\ Forall (fun r => SeleniumUtils.url r = u /\ status r = Error
                      /\ error_message r
                         = Some (Some ("Driver setup failed: "
                                       ++ exc_str e)%string))
       (map (failure_result env self (List.length us1) u e)
          (seq 0 (runs_per_url self)))
  /\ map run_number
       (map (failure_result env self (List.length us1) u e)
          (seq 0 (runs_per_url self)))
     = map Some (seq 1 (runs_per_url self))
  /\ (stop_after env = None ->
      exists before after,
        results_of (trace env self)
        = before
          ++ map (failure_result env self (List.length us1) u e)
               (seq 0 (runs_per_url self))
          ++ after
        /\ List.length before = (runs_per_url self * List.length us1)%nat
        /\ List.length after = (runs_per_url self * List.length us2)%nat
        /\ outline (trace env self)
           = attempts env self 0 us1
             ++ [SetupDriver u;
                 Emit (error_occurred ("Fatal Error initializing driver for "
                                       ++ u ++ ": " ++ exc_str e)%string)]
             ++ attempts env self (S (List.length us1)) us2
        /\ setups_of (trace env self) = urls self).
Proof.
  intros Hurls Hfail. split.
  { intros st Hrun. now apply failed_url_iteration. }
  split.
  { apply Forall_forall. intros r Hin.
    apply in_map_iff in Hin as [k [<- _]]. cbn. auto. }
  split.
  { rewrite map_map. cbn [run_number failure_result].
    rewrite <- seq_shift, map_map. apply map_ext. intros k.
    now rewrite Nat.add_1_r. }
  intros Hnone.
  destruct (run_results_without_stop env self Hnone) as [Hres Hout].
  exists (blocks env self 0 us1), (blocks env self (S (List.length us1)) us2).
  split.
  { rewrite Hres, Hurls, blocks_app. cbn [blocks Nat.add].
    unfold block at 1. now rewrite Hfail. }
  split; [apply blocks_length|]. split; [apply blocks_length|].
  split.
  { rewrite Hout, Hurls, attempts_app. cbn [attempts Nat.add].
    unfold attempt at 1. now rewrite Hfail. }
  rewrite <- setups_of_outline, Hout. apply setups_of_attempts.
Qed.

(** The results beyond the first [k] are those emitted after the first
    [s] actions, when [k] results are among these. *)
Lemma results_after (s k : nat) (l : list Action) :
  List.length (results_of (firstn s l)) = k ->
  skipn k (results_of l) = results_of (skipn s l)
  /\ List.length (results_of l)
     = (k + List.length (results_of (skipn s l)))%nat.
Proof.
  intros Hk. rewrite <- (firstn_skipn s l) at 1 3.
  rewrite results_of_app, length_app, Hk. split; [|reflexivity].
  rewrite skipn_app, Hk, Nat.sub_diag, skipn_all2 by lia. reflexivity.
Qed.

(** C3, as stated, fails: Stop is pressed while the setup of the first
    URL is under way, before any result; the setup fails and both error
    results of that URL are emitted all the same. *)
Lemma stop_counterexample :
  ~ (forall env self s k,
        stop_after env = Some s ->
        List.length (results_of (firstn s (trace env self))) = k ->
        List.length (results_of (trace env self)) = k).
Proof.
  intros H.
  specialize (H (Samples.first_setup_fails (Some 3%nat)) Samples.two_by_two
                3%nat 0%nat eq_refl eq_refl).
  vm_compute in H. discriminate H.
Qed.

(** C3, amended.  Let Stop be pressed once [s] actions are done, [k]
    results being emitted by then.  Every result beyond the [k]-th is an
    error result of a URL whose session setup failed (that loop does not
    read the flag), and there are at most [runs_per_url] of them; if every
    setup succeeds there is none.  Every measurement that was started has
    returned its result, and the run returns with [finished] as its last
    action, emitted once. *)
Theorem stop_request_honoured (env : Env) (self : TestWorker) (s k : nat) :
  stop_after env = Some s ->
  List.length (results_of (firstn s (trace env self))) = k ->
  Forall setup_failure (skipn k (results_of (trace env self)))
  /\ (List.length (results_of (trace env self)) <= k + runs_per_url self)%nat
  /\ ((forall i b h a,
         exists d, setup_driver env i b h a = Returns (Some d)) ->
      List.length (results_of (trace env self)) = k)
  /\ (forall url run o,
         In (MeasureLoadTime url run o) (trace env self) ->
         exists r, o = Returns r)
  /\ (exists l, trace env self = l ++ [Emit finished]
                /\ ~ In (Emit finished) l)
  /\ crashed env self = None.
Proof.
  intros Hs Hk.
  destruct (results_after s k (trace env self) Hk) as [Hskip Hlen].
  destruct (run_spec env self) as [l [Ht [Hc [Hcalm [_ Hstop]]]]].
  destruct (Hstop s Hs) as [Hfail [Hbound Hnone]].
  assert (Hlate : results_of (skipn s (trace env self))
                  = results_of (skipn s l)).
  { rewrite Ht, late_app, (late_nil _ [Emit finished]) by reflexivity.
    apply app_nil_r. }
  rewrite Hskip, Hlen, Hlate.
  split; [exact Hfail|]. split; [lia|]. split.
  { intros Hsetup. rewrite (Hnone (every_setup_succeeds env self Hsetup)).
    cbn [List.length]. lia. }
  split.
  { intros url run o Hin. rewrite Ht in Hin.
    apply in_app_or in Hin as [Hin|[Hin|[]]]; [|discriminate Hin].
    exact (calm_measure_returned l url run o Hcalm Hin). }
  split; [|exact Hc].
  exists l. split; [exact Ht|]. now apply calm_not_finished.
Qed.

(** Witness of C1: two URLs, two runs each. *)
Lemma run_emits_all_results_then_finished_witness :
  List.length (results_of (trace Samples.quiet_env Samples.two_by_two))
  = (runs_per_url Samples.two_by_two
     * List.length (urls Samples.two_by_two))%nat
  /\ map (fun r => (SeleniumUtils.url r, run_number r))
       (results_of (trace Samples.quiet_env Samples.two_by_two))
     = flat_map (fun u => map (fun k => (u, Some k))
                            (seq 1 (runs_per_url Samples.two_by_two)))
         (urls Samples.two_by_two).
Proof.
  apply (proj2 (proj2 (run_emits_all_results_then_finished
                         Samples.quiet_env Samples.two_by_two))).
  - reflexivity.
  - intros i b h a. exists Samples.steady_driver. reflexivity.
Defined.

(** Witness of C2: the setup of the first of two URLs fails. *)
Lemma setup_failure_is_isolated_witness :
  exists before after,
    results_of (trace (Samples.first_setup_fails None) Samples.two_by_two)
    = before
      ++ map (failure_result (Samples.first_setup_fails None)
                Samples.two_by_two 0 "https://a.example"
                Samples.no_chromedriver)
           (seq 0 2)
      ++ after
    /\ List.length before = (2 * 0)%nat
    /\ List.length after = (2 * 1)%nat
    /\ outline (trace (Samples.first_setup_fails None) Samples.two_by_two)
       = attempts (Samples.first_setup_fails None) Samples.two_by_two 0 []
         ++ [SetupDriver "https://a.example";
             Emit (error_occurred
                     ("Fatal Error initializing driver for "
                      ++ "https://a.example" ++ ": "
                      ++ exc_str Samples.no_chromedriver)%string)]
         ++ attempts (Samples.first_setup_fails None) Samples.two_by_two 1
              ["https://b.example"]
    /\ setups_of (trace (Samples.first_setup_fails None) Samples.two_by_two)
       = urls Samples.two_by_two.
Proof.
  apply (setup_failure_is_isolated (Samples.first_setup_fails None)
           Samples.two_by_two [] "https://a.example" ["https://b.example"]
           Samples.no_chromedriver); reflexivity.
Defined.

(** Witness of C3 (amended): Stop arrives during the failing setup of the
    first URL. *)
Lemma stop_request_honoured_witness :
  Forall setup_failure
    (skipn 0 (results_of (trace (Samples.first_setup_fails (Some 3%nat))
                            Samples.two_by_two)))
  /\ (List.length (results_of (trace (Samples.first_setup_fails (Some 3%nat))
                                 Samples.two_by_two))
      <= 0 + runs_per_url Samples.two_by_two)%nat
  /\ ((forall i b h a,
         exists d, setup_driver (Samples.first_setup_fails (Some 3%nat))
                     i b h a = Returns (Some d)) ->
      List.length (results_of (trace (Samples.first_setup_fails (Some 3%nat))
                                 Samples.two_by_two)) = 0%nat)
  /\ (forall url run o,
         In (MeasureLoadTime url run o)
            (trace (Samples.first_setup_fails (Some 3%nat)) Samples.two_by_two) ->
         exists r, o = Returns r)
  /\ (exists l, trace (Samples.first_setup_fails (Some 3%nat))
                  Samples.two_by_two = l ++ [Emit finished]
                /\ ~ In (Emit finished) l)
  /\ crashed (Samples.first_setup_fails (Some 3%nat)) Samples.two_by_two = None.
Proof.
  apply (stop_request_honoured (Samples.first_setup_fails (Some 3%nat))
           Samples.two_by_two 3 0); reflexivity.
Defined.
End RunTheorems.


(* ================================================================= *)
(** ** Sorting *)

Section SortedFacts.
Context {A : Type} (leb : A -> A -> bool).
Hypothesis leb_total : forall a b, leb a b = true \/ leb b a = true.
Hypothesis leb_trans :
  forall a b c, leb a b = true -> leb b c = true -> leb a c = true.

Lemma insert_by_perm (x : A) (l : list A) :
  Permutation (insert_by leb x l) (x :: l).
Proof.
  induction l as [|y l IH]; cbn [insert_by]; [reflexivity|].
  destruct (leb x y); [reflexivity|].
  rewrite IH. apply perm_swap.
Qed.

Lemma sorted_by_perm (l : list A) : Permutation (sorted_by leb l) l.
Proof.
  induction l as [|x l IH]; [reflexivity|].
  cbn [sorted_by fold_right]. fold (sorted_by leb l).
  rewrite insert_by_perm. now constructor.
Qed.

Lemma insert_by_sorted (x : A) (l : list A) :
  StronglySorted (fun a b => leb a b = true) l ->
  StronglySorted (fun a b => leb a b = true) (insert_by leb x l).
Proof.
  induction 1 as [|y l Hs IH Hall]; cbn [insert_by].
  - repeat constructor.
  - destruct (leb x y) eqn:Hxy.
    + constructor; [now constructor|].
      constructor; [exact Hxy|].
      eapply Forall_impl; [|exact Hall]. intros z Hz. now apply (leb_trans x y z).
    + constructor; [exact IH|].
      assert (Hyx : leb y x = true).
      { destruct (leb_total x y) as [H|H]; [congruence|exact H]. }
      apply (Permutation_Forall (Permutation_sym (insert_by_perm x l))).
      now constructor.
Qed.

Lemma sorted_by_sorted (l : list A) :
  StronglySorted (fun a b => leb a b = true) (sorted_by leb l).
Proof.
  induction l as [|x l IH]; [constructor|].
  cbn [sorted_by fold_right]. now apply insert_by_sorted.
Qed.
End SortedFacts.

Lemma str_leb_cases (a b : string) :
  str_leb a b = true <-> a = b \/ String_as_OT.lt a b.
Proof.
  unfold str_leb.
  destruct (String_as_OT.compare_spec a b) as [Heq|Hlt|Hgt].
  - split; auto.
  - split; auto.
  - split; [discriminate|].
    intros [->|Hlt]; exfalso.
    + now apply (StrictOrder_Irreflexive b) in Hgt.
    + apply (StrictOrder_Irreflexive a).
      now apply (StrictOrder_Transitive a b a).
Qed.

Lemma str_leb_total (a b : string) :
  str_leb a b = true \/ str_leb b a = true.
Proof.
  rewrite !str_leb_cases.
  destruct (String_as_OT.compare_spec a b) as [Heq|Hlt|Hgt]; auto.
Qed.

Lemma str_leb_trans (a b c : string) :
  str_leb a b = true -> str_leb b c = true -> str_leb a c = true.
Proof.
  rewrite !str_leb_cases. intros [->|Hab] [->|Hbc]; auto.
  right. now apply (StrictOrder_Transitive a b c).
Qed.

(** A sorted list without repetition is strictly sorted. *)
Lemma sorted_nodup_strict (l : list string) :
  StronglySorted (fun a b => str_leb a b = true) l -> NoDup l ->
  StronglySorted String_as_OT.lt l.
Proof.
  induction 1 as [|x l Hs IH Hall]; intros Hnd; [constructor|].
  inversion Hnd as [|? ? Hnotin Hnd']; subst.
  constructor; [now apply IH|].
  rewrite Forall_forall in *. intros y Hy.
  destruct (proj1 (str_leb_cases x y) (Hall y Hy)) as [->|Hlt];
    [contradiction|exact Hlt].
Qed.

(** [sorted(list(set(l)))]: the distinct elements of [l], ascending. *)
Lemma sorted_set_spec (l : list string) :
  StronglySorted String_as_OT.lt (sorted_str (py_set l))
  /\ NoDup (sorted_str (py_set l))
  /\ forall u, In u (sorted_str (py_set l)) <-> In u l.
Proof.
  pose proof (sorted_by_perm str_leb (py_set l)) as Hperm.
  fold (sorted_str (py_set l)) in Hperm.
  assert (Hnd : NoDup (sorted_str (py_set l))).
  { apply (Permutation_NoDup (Permutation_sym Hperm)), NoDup_nodup. }
  split; [|split; [exact Hnd|]].
  - apply sorted_nodup_strict; [|exact Hnd].
    apply sorted_by_sorted; [apply str_leb_total|apply str_leb_trans].
  - intros u. unfold py_set in *. split.
    + intros Hin. apply (Permutation_in _ Hperm) in Hin.
      exact (proj1 (nodup_In string_dec l u) Hin).
    + intros Hin. apply (Permutation_in _ (Permutation_sym Hperm)).
      exact (proj2 (nodup_In string_dec l u) Hin).
Qed.

(* ================================================================= *)
(** ** Dictionaries *)

Section DictFacts.
Context {V : Type}.

Lemma dict_set_new (k : string) (v : V) (d : list (string * V)) :
  ~ In k (dict_keys d) -> dict_set k v d = d ++ [(k, v)].
Proof.
  induction d as [|[k' v'] d IH]; intros Hnot; [reflexivity|].
  cbn [dict_set]. destruct (String.eqb_spec k k') as [->|_].
  - elim Hnot. now left.
  - cbn [app]. rewrite IH; [reflexivity|]. intros Hin. apply Hnot. now right.
Qed.

Lemma dict_get_map (f : string -> V) (k : string) (ks : list string) :
  In k ks -> dict_get k (map (fun u => (u, f u)) ks) = Some (f k).
Proof.
  induction ks as [|k' ks IH]; intros Hin; [destruct Hin|].
  cbn [map dict_get]. destruct (String.eqb_spec k k') as [->|Hne];
    [reflexivity|].
  destruct Hin as [->|Hin]; [now elim Hne|now apply IH].
Qed.

Lemma dict_keys_map (f : string -> V) (ks : list string) :
  dict_keys (map (fun u => (u, f u)) ks) = ks.
Proof. unfold dict_keys. rewrite map_map. cbn. apply map_id. Qed.

(** Setting distinct new keys one after the other lists them in order. *)
Lemma dict_fill (f : string -> V) :
  forall (ks : list string) (d : list (string * V)),
    NoDup ks -> (forall k, In k ks -> ~ In k (dict_keys d)) ->
    fold_left (fun d u => dict_set u (f u) d) ks d
    = d ++ map (fun u => (u, f u)) ks.
Proof.
  induction ks as [|k ks IH]; intros d Hnd Hnew; cbn [fold_left map].
  - now rewrite app_nil_r.
  - inversion Hnd as [|? ? Hnotin Hnd']; subst.
    rewrite dict_set_new by (apply Hnew; now left).
    rewrite IH; [now rewrite <- app_assoc|exact Hnd'|].
    intros k' Hin. unfold dict_keys. rewrite map_app, in_app_iff.
    intros [Hd|[<-|[]]].
    + apply (Hnew k'); [now right|exact Hd].
    + contradiction.
Qed.
End DictFacts.

(* ================================================================= *)
(** ** Doubles *)

Section Floats.
Local Open Scope Q_scope.

(** *** Rounding to an integer *)

(** [round] is monotone. *)
Lemma round_half_even_mono (x y : Q) :
  (x <= y)%Q -> (round_half_even x <= round_half_even y)%Z.
Proof.
  destruct x as [n d], y as [n' d']. unfold Qle, round_half_even.
  cbn [Qnum Qden]. intros Hle.
  assert (Hff : (n / Zpos d <= n' / Zpos d')%Z)
    by (apply (Qfloor_resp_le (n # d) (n' # d')); exact Hle).
  pose proof (Z.div_mod n (Zpos d) ltac:(lia)) as Hdm.
  pose proof (Z.mod_pos_bound n (Zpos d) ltac:(lia)) as Hb.
  pose proof (Z.div_mod n' (Zpos d') ltac:(lia)) as Hdm'.
  pose proof (Z.mod_pos_bound n' (Zpos d') ltac:(lia)) as Hb'.
  set (f := (n / Zpos d)%Z) in *. set (r := (n mod Zpos d)%Z) in *.
  set (f' := (n' / Zpos d')%Z) in *. set (r' := (n' mod Zpos d')%Z) in *.
  assert (HD : (0 < Zpos d)%Z) by lia.
  assert (HD' : (0 < Zpos d')%Z) by lia.
  set (D := Zpos d) in *. set (D' := Zpos d') in *.
  clearbody f r f' r' D D'.
  destruct (Z.eq_dec f f') as [<-|Hne].
  - assert (Hrr : (r * D' <= r' * D)%Z) by nia.
    assert (H1 : (2 * r < D -> 2 * (r * D') < D * D')%Z) by nia.
    assert (H2 : (2 * r = D -> 2 * (r * D') = D * D')%Z) by nia.
    assert (H3 : (D < 2 * r -> D * D' < 2 * (r * D'))%Z) by nia.
    assert (H4 : (2 * r' < D' -> 2 * (r' * D) < D * D')%Z) by nia.
    assert (H5 : (2 * r' = D' -> 2 * (r' * D) = D * D')%Z) by nia.
    assert (H6 : (D' < 2 * r' -> D * D' < 2 * (r' * D))%Z) by nia.
    destruct (2 * r ?= D)%Z eqn:Hc; destruct (2 * r' ?= D')%Z eqn:Hc';
      try rewrite Z.compare_eq_iff in *;
      try rewrite Z.compare_lt_iff in *;
      try rewrite Z.compare_gt_iff in *;
      try (destruct (Z.even f)); lia.
  - assert (Hlt : (f + 1 <= f')%Z) by lia.
    destruct (2 * r ?= D)%Z; destruct (2 * r' ?= D')%Z;
      try (destruct (Z.even f)); try (destruct (Z.even f')); lia.
Qed.

(** [round] takes equal numbers to the same integer, and an integer to
    itself. *)
Lemma round_half_even_Qeq (x y : Q) :
  x == y -> round_half_even x = round_half_even y.
Proof.
  intros H. apply Z.le_antisymm; apply round_half_even_mono;
    rewrite H; apply Qle_refl.
Qed.

Lemma round_half_even_inject (z : Z) : round_half_even (inject_Z z) = z.
Proof.
  unfold round_half_even, inject_Z. cbn [Qnum Qden].
  rewrite Z.mod_1_r, Z.div_1_r. reflexivity.
Qed.

(** [round] is within one half of its argument. *)
Lemma round_half_even_close (n : Z) (d : positive) :
  let z := round_half_even (n # d) in
  (2 * n - Zpos d <= 2 * z * Zpos d <= 2 * n + Zpos d)%Z.
Proof.
  unfold round_half_even. cbn [Qnum Qden].
  pose proof (Z.div_mod n (Zpos d) ltac:(lia)) as Hdm.
  pose proof (Z.mod_pos_bound n (Zpos d) ltac:(lia)) as Hb.
  set (f := (n / Zpos d)%Z) in *. set (r := (n mod Zpos d)%Z) in *.
  set (D := Zpos d) in *.
  clearbody f r D.
  destruct (2 * r ?= D)%Z eqn:Hc.
  - apply Z.compare_eq in Hc. destruct (Z.even f); nia.
  - rewrite Z.compare_lt_iff in Hc. nia.
  - rewrite Z.compare_gt_iff in Hc. nia.
Qed.

(** The integer within one half of [y] is its rounding. *)
Lemma round_half_even_unique (y : Q) (c : Z) :
  inject_Z c - (1 # 2) < y -> y < inject_Z c + (1 # 2) ->
  round_half_even y = c.
Proof.
  destruct y as [n d]. intros H1 H2.
  pose proof (round_half_even_close n d) as H. cbv zeta in H.
  set (z := round_half_even (n # d)) in *. clearbody z.
  unfold Qlt, Qminus, Qplus, Qopp, inject_Z in H1, H2.
  cbn [Qnum Qden] in H1, H2. nia.
Qed.

Lemma round_half_even_half (y : Q) :
  inject_Z (round_half_even y) - (1 # 2) <= y
  /\ y <= inject_Z (round_half_even y) + (1 # 2).
Proof.
  destruct y as [n d].
  pose proof (round_half_even_close n d) as H. cbv zeta in H.
  set (z := round_half_even (n # d)) in *. clearbody z.
  unfold Qle, Qminus, Qplus, Qopp, inject_Z. cbn [Qnum Qden]. split; nia.
Qed.

(** *** Powers of two *)

Lemma pow2_pos (e : Z) : 0 < pow2 e.
Proof. apply Qpower_0_lt. reflexivity. Qed.

Lemma pow2_add (a b : Z) : pow2 (a + b) == pow2 a * pow2 b.
Proof. apply Qpower_plus. discriminate. Qed.

Lemma pow2_le (a b : Z) : (a <= b)%Z -> pow2 a <= pow2 b.
Proof. intros H. apply Qpower_le_compat_l; [exact H|discriminate]. Qed.

Lemma pow2_lt (a b : Z) : (a < b)%Z -> pow2 a < pow2 b.
Proof. intros H. apply Qpower_lt_compat_l; [exact H|reflexivity]. Qed.

Lemma pow2_inject (n : Z) : (0 <= n)%Z -> inject_Z (2 ^ n) == pow2 n.
Proof. intros H. apply (Zpower_Qpower 2 n H). Qed.

Lemma pow2_cancel (e : Z) : pow2 e * pow2 (- e) == 1.
Proof. rewrite <- pow2_add, Z.add_opp_diag_r. reflexivity. Qed.

(** [x / 2^e] against [2^k] is [x] against [2^(k + e)]. *)
Lemma scale_le (k e : Z) (x : Q) :
  pow2 k <= x * pow2 (- e) <-> pow2 (k + e) <= x.
Proof.
  rewrite pow2_add.
  rewrite <- (Qmult_le_r (pow2 k) (x * pow2 (- e)) (pow2 e) (pow2_pos e)).
  rewrite <- Qmult_assoc, (Qmult_comm (pow2 (- e))), pow2_cancel, Qmult_1_r.
  reflexivity.
Qed.

Lemma scale_lt (k e : Z) (x : Q) :
  x * pow2 (- e) < pow2 k <-> x < pow2 (k + e).
Proof.
  rewrite pow2_add.
  rewrite <- (Qmult_lt_r (x * pow2 (- e)) (pow2 k) (pow2 e) (pow2_pos e)).
  rewrite <- Qmult_assoc, (Qmult_comm (pow2 (- e))), pow2_cancel, Qmult_1_r.
  reflexivity.
Qed.

Lemma scale_lt_l (x b : Q) (e : Z) : b < x * pow2 (- e) <-> b * pow2 e < x.
Proof.
  rewrite <- (Qmult_lt_r b (x * pow2 (- e)) (pow2 e) (pow2_pos e)).
  rewrite <- Qmult_assoc, (Qmult_comm (pow2 (- e))), pow2_cancel, Qmult_1_r.
  reflexivity.
Qed.

Lemma scale_lt_r (x b : Q) (e : Z) : x * pow2 (- e) < b <-> x < b * pow2 e.
Proof.
  rewrite <- (Qmult_lt_r (x * pow2 (- e)) b (pow2 e) (pow2_pos e)).
  rewrite <- Qmult_assoc, (Qmult_comm (pow2 (- e))), pow2_cancel, Qmult_1_r.
  reflexivity.
Qed.

Lemma inject_Z_sub (a b : Z) : inject_Z (a - b) == inject_Z a - inject_Z b.
Proof. unfold Z.sub. rewrite inject_Z_plus, inject_Z_opp. reflexivity. Qed.

(** *** The exponent *)

Lemma log2_bracket (n : Z) :
  (0 < n)%Z -> pow2 (Z.log2 n) <= inject_Z n < pow2 (Z.log2 n + 1).
Proof.
  intros Hn. destruct (Z.log2_spec n Hn) as [H1 H2].
  pose proof (Z.log2_nonneg n) as H0.
  rewrite <- !pow2_inject by lia. rewrite <- Zle_Qle, <- Zlt_Qlt.
  unfold Z.succ in H2. split; assumption.
Qed.

Lemma Qbracket (x : Q) :
  0 < x ->
  let t := (Z.log2 (Qnum x) - Z.log2 (Zpos (Qden x)))%Z in
  pow2 (t - 1) < x < pow2 (t + 1).
Proof.
  intros Hx t. destruct x as [n d]. cbn [Qnum Qden] in t.
  assert (Hn : (0 < n)%Z).
  { unfold Qlt in Hx. cbn in Hx. lia. }
  destruct (log2_bracket n Hn) as [Hn1 Hn2].
  destruct (log2_bracket (Zpos d) ltac:(lia)) as [Hd1 Hd2].
  set (a := Z.log2 n) in *. set (b := Z.log2 (Zpos d)) in *.
  assert (Hd : 0 < inject_Z (Zpos d)) by reflexivity.
  rewrite (Qmake_Qdiv n d). split.
  - apply Qlt_shift_div_l; [exact Hd|].
    apply Qlt_le_trans with (pow2 (t - 1) * pow2 (b + 1)).
    + apply Qmult_lt_l; [apply pow2_pos|exact Hd2].
    + rewrite <- pow2_add. replace (t - 1 + (b + 1))%Z with a by (unfold t; lia).
      exact Hn1.
  - apply Qlt_shift_div_r; [exact Hd|].
    apply Qlt_le_trans with (pow2 (t + 1) * pow2 b).
    + rewrite <- pow2_add. replace (t + 1 + b)%Z with (a + 1)%Z by (unfold t; lia).
      exact Hn2.
    + apply Qmult_le_l; [apply pow2_pos|exact Hd1].
Qed.

(** The exponent of [x > 0] puts [x] between [2^52] and [2^53] units. *)
Lemma float_exponent_spec (x : Q) :
  0 < x ->
  pow2 (52 + float_exponent x) <= x < pow2 (53 + float_exponent x).
Proof.
  intros Hx. destruct (Qbracket x Hx) as [H1 H2].
  unfold float_exponent.
  set (t := (Z.log2 (Qnum x) - Z.log2 (Zpos (Qden x)))%Z) in *.
  replace (Z.log2 (Qnum x) - Z.log2 (Zpos (Qden x)) - 53)%Z with (t - 53)%Z
    by reflexivity.
  destruct (Qle_bool (pow2 53) (x * pow2 (- (t - 53)))) eqn:Hc.
  - apply Qle_bool_iff, scale_le in Hc.
    replace (52 + (t - 53 + 1))%Z with (53 + (t - 53))%Z by lia.
    replace (53 + (t - 53 + 1))%Z with (t + 1)%Z by lia.
    split; assumption.
  - assert (Hlt : x * pow2 (- (t - 53)) < pow2 53).
    { apply Qnot_le_lt. intros Hle. apply Qle_bool_iff in Hle. congruence. }
    apply scale_lt in Hlt.
    replace (52 + (t - 53))%Z with (t - 1)%Z by lia.
    split; [now apply Qlt_le_weak|exact Hlt].
Qed.

Lemma float_exponent_unique (x : Q) (e : Z) :
  pow2 (52 + e) <= x < pow2 (53 + e) -> float_exponent x = e.
Proof.
  intros [H1 H2].
  assert (Hx : 0 < x) by (eapply Qlt_le_trans; [apply pow2_pos|exact H1]).
  destruct (float_exponent_spec x Hx) as [H3 H4].
  set (e' := float_exponent x) in *.
  destruct (Z.lt_trichotomy e' e) as [Hlt|[Heq|Hgt]]; [|exact Heq|]; exfalso.
  - assert (H : pow2 (53 + e') <= pow2 (52 + e)) by (apply pow2_le; lia).
    apply (Qlt_irrefl x).
    eapply Qlt_le_trans; [exact H4|]. eapply Qle_trans; [exact H|exact H1].
  - assert (H : pow2 (53 + e) <= pow2 (52 + e')) by (apply pow2_le; lia).
    apply (Qlt_irrefl x).
    eapply Qlt_le_trans; [exact H2|]. eapply Qle_trans; [exact H|exact H3].
Qed.

Lemma float_exponent_mono (x y : Q) :
  0 < x -> x <= y -> (float_exponent x <= float_exponent y)%Z.
Proof.
  intros Hx Hxy.
  assert (Hy : 0 < y) by (eapply Qlt_le_trans; eassumption).
  destruct (float_exponent_spec x Hx) as [H1 H2].
  destruct (float_exponent_spec y Hy) as [H3 H4].
  destruct (Z_le_gt_dec (float_exponent x) (float_exponent y)) as [H|H];
    [exact H|exfalso].
  assert (H' : pow2 (53 + float_exponent y) <= pow2 (52 + float_exponent x))
    by (apply pow2_le; lia).
  apply (Qlt_irrefl y).
  eapply Qlt_le_trans; [exact H4|]. eapply Qle_trans; [exact H'|].
  eapply Qle_trans; [exact H1|exact Hxy].
Qed.

(** *** Rounding to 53 bits *)

Lemma pow2_52 : pow2 52 = inject_Z 4503599627370496.
Proof. vm_compute. reflexivity. Qed.

Lemma pow2_53 : pow2 53 = inject_Z 9007199254740992.
Proof. vm_compute. reflexivity. Qed.

(** The 53 bits of [x > 0], as an integer. *)
Lemma mantissa_bounds (x : Q) :
  0 < x ->
  (4503599627370496
   <= round_half_even (x * pow2 (- float_exponent x))
   <= 9007199254740992)%Z.
Proof.
  intros Hx. destruct (float_exponent_spec x Hx) as [H1 H2].
  apply scale_le in H1. apply scale_lt in H2. apply Qlt_le_weak in H2.
  apply round_half_even_mono in H1, H2.
  rewrite pow2_52, round_half_even_inject in H1.
  rewrite pow2_53, round_half_even_inject in H2.
  split; assumption.
Qed.

Lemma round_to_53_bits_pos (x : Q) : 0 < x -> 0 < round_to_53_bits x.
Proof.
  intros Hx. unfold round_to_53_bits.
  destruct (mantissa_bounds x Hx) as [H _].
  apply Qmult_lt_0_compat; [|apply pow2_pos].
  change 0 with (inject_Z 0). rewrite <- Zlt_Qlt. lia.
Qed.

Lemma round_to_53_bits_mono (x y : Q) :
  0 < x -> x <= y -> round_to_53_bits x <= round_to_53_bits y.
Proof.
  intros Hx Hxy.
  assert (Hy : 0 < y) by (eapply Qlt_le_trans; eassumption).
  pose proof (float_exponent_mono x y Hx Hxy) as He.
  destruct (mantissa_bounds x Hx) as [_ Hmx].
  destruct (mantissa_bounds y Hy) as [Hmy _].
  unfold round_to_53_bits.
  set (ex := float_exponent x) in *. set (ey := float_exponent y) in *.
  destruct (Z.eq_dec ex ey) as [Heq|Hne].
  - rewrite <- Heq. apply Qmult_le_compat_r; [|apply Qlt_le_weak, pow2_pos].
    rewrite <- Zle_Qle. apply round_half_even_mono.
    apply Qmult_le_compat_r; [exact Hxy|apply Qlt_le_weak, pow2_pos].
  - apply Qle_trans with (pow2 53 * pow2 ex).
    + apply Qmult_le_compat_r; [|apply Qlt_le_weak, pow2_pos].
      rewrite pow2_53, <- Zle_Qle. exact Hmx.
    + apply Qle_trans with (pow2 52 * pow2 ey).
      * rewrite <- !pow2_add. apply pow2_le. lia.
      * apply Qmult_le_compat_r; [|apply Qlt_le_weak, pow2_pos].
        rewrite pow2_52, <- Zle_Qle. exact Hmy.
Qed.

Lemma round_to_53_bits_Qeq (x y : Q) :
  0 < x -> x == y -> round_to_53_bits x == round_to_53_bits y.
Proof.
  intros Hx Hxy.
  assert (Hy : 0 < y) by now rewrite <- Hxy.
  apply Qle_antisym; apply round_to_53_bits_mono; try assumption;
    rewrite Hxy; apply Qle_refl.
Qed.

(** A number of 53 bits is its own rounding. *)
Lemma round_to_53_bits_exact (m e : Z) :
  (4503599627370496 <= m < 9007199254740992)%Z ->
  round_to_53_bits (inject_Z m * pow2 e) == inject_Z m * pow2 e.
Proof.
  intros [H1 H2]. unfold round_to_53_bits.
  assert (He : float_exponent (inject_Z m * pow2 e) = e).
  { apply float_exponent_unique. rewrite !pow2_add, pow2_52, pow2_53. split.
    - apply Qmult_le_compat_r; [|apply Qlt_le_weak, pow2_pos].
      now rewrite <- Zle_Qle.
    - apply Qmult_lt_compat_r; [apply pow2_pos|]. now rewrite <- Zlt_Qlt. }
  rewrite He.
  rewrite (round_half_even_Qeq _ (inject_Z m)), round_half_even_inject;
    [reflexivity|].
  rewrite <- Qmult_assoc, pow2_cancel, Qmult_1_r. reflexivity.
Qed.

Lemma round_to_53_bits_idem (x : Q) :
  0 < x -> round_to_53_bits (round_to_53_bits x) == round_to_53_bits x.
Proof.
  intros Hx. destruct (mantissa_bounds x Hx) as [H1 H2].
  unfold round_to_53_bits at 2 3.
  set (m := round_half_even (x * pow2 (- float_exponent x))) in *.
  set (e := float_exponent x).
  destruct (Z.eq_dec m 9007199254740992) as [->|Hne].
  - assert (Heq : inject_Z 9007199254740992 * pow2 e
                  == inject_Z 4503599627370496 * pow2 (e + 1)).
    { rewrite <- pow2_53, <- pow2_52, <- !pow2_add.
      replace (52 + (e + 1))%Z with (53 + e)%Z by lia. reflexivity. }
    rewrite Heq at 2. rewrite <- (round_to_53_bits_exact _ (e + 1)) by lia.
    apply round_to_53_bits_Qeq; [|exact Heq].
    apply Qmult_lt_0_compat; [reflexivity|apply pow2_pos].
  - apply round_to_53_bits_exact. lia.
Qed.

(** Scaling by a power of two commutes with the rounding. *)
Lemma round_to_53_bits_scale (x : Q) (k : Z) :
  0 < x -> round_to_53_bits (x * pow2 k) == round_to_53_bits x * pow2 k.
Proof.
  intros Hx. destruct (float_exponent_spec x Hx) as [H1 H2].
  unfold round_to_53_bits.
  assert (He : float_exponent (x * pow2 k) = (float_exponent x + k)%Z).
  { apply float_exponent_unique. rewrite !Z.add_assoc, !(pow2_add _ k). split.
    - apply Qmult_le_compat_r; [exact H1|apply Qlt_le_weak, pow2_pos].
    - apply Qmult_lt_compat_r; [apply pow2_pos|exact H2]. }
  rewrite He. set (e := float_exponent x).
  rewrite (round_half_even_Qeq (x * pow2 k * pow2 (- (e + k)))
             (x * pow2 (- e))).
  - rewrite pow2_add, Qmult_assoc. reflexivity.
  - rewrite <- Qmult_assoc, <- pow2_add.
    replace (k + - (e + k))%Z with (- e)%Z by lia. reflexivity.
Qed.

(** [x > 0] and its rounding, in units of the last bit. *)
Lemma round_to_53_bits_units (x : Q) :
  0 < x ->
  exists (M : Z) (u X : Q),
    0 < u /\ x == X * u /\ round_to_53_bits x == inject_Z M * u
    /\ (4503599627370496 <= M <= 9007199254740992)%Z
    /\ inject_Z 4503599627370496 <= X
    /\ inject_Z M - (1 # 2) <= X <= inject_Z M + (1 # 2)
    /\ u == pow2 (float_exponent x).
Proof.
  intros Hx. destruct (float_exponent_spec x Hx) as [H1 H2].
  pose proof (mantissa_bounds x Hx) as HM.
  set (e := float_exponent x) in *.
  exists (round_half_even (x * pow2 (- e))), (pow2 e), (x * pow2 (- e)).
  split; [apply pow2_pos|]. split.
  { rewrite <- Qmult_assoc, (Qmult_comm (pow2 (- e))), pow2_cancel.
    now rewrite Qmult_1_r. }
  split; [reflexivity|]. split; [exact HM|]. split.
  { rewrite <- pow2_52. now apply scale_le. }
  split; [apply round_half_even_half|reflexivity].
Qed.

(** *** [float] *)

Lemma sign_Gt (x : Q) : (Qnum x ?= 0)%Z = Gt <-> 0 < x.
Proof. unfold Qlt. cbn. rewrite Z.compare_gt_iff. lia. Qed.

Lemma sign_Lt (x : Q) : (Qnum x ?= 0)%Z = Lt <-> x < 0.
Proof. unfold Qlt. cbn. rewrite Z.compare_lt_iff. lia. Qed.

Lemma sign_Eq (x : Q) : (Qnum x ?= 0)%Z = Eq <-> x == 0.
Proof. unfold Qeq. cbn. rewrite Z.compare_eq_iff. lia. Qed.

Lemma to_float_pos (x : Q) : 0 < x -> to_float x == round_to_53_bits x.
Proof.
  intros H. unfold to_float. rewrite (proj2 (sign_Gt x) H).
  apply Qred_correct.
Qed.

Lemma to_float_neg (x : Q) : x < 0 -> to_float x == - round_to_53_bits (- x).
Proof.
  intros H. unfold to_float. rewrite (proj2 (sign_Lt x) H).
  apply Qred_correct.
Qed.

Lemma to_float_zero (x : Q) : x == 0 -> to_float x == 0.
Proof.
  intros H. unfold to_float. rewrite (proj2 (sign_Eq x) H).
  apply Qred_correct.
Qed.

Lemma Qsign_cases (x : Q) : x < 0 \/ x == 0 \/ 0 < x.
Proof.
  destruct (Q_dec x 0) as [[H|H]|H]; auto.
Qed.

(** The three cases of [to_float]. *)
Lemma to_float_cases (x : Q) :
  (x < 0 /\ to_float x == - round_to_53_bits (- x) /\ to_float x < 0)
  \/ (x == 0 /\ to_float x == 0)
  \/ (0 < x /\ to_float x == round_to_53_bits x /\ 0 < to_float x).
Proof.
  destruct (Qsign_cases x) as [H|[H|H]].
  - left. split; [exact H|]. split; [now apply to_float_neg|].
    rewrite (to_float_neg x H).
    assert (H' : 0 < - x) by lra.
    pose proof (round_to_53_bits_pos _ H'). lra.
  - right. left. split; [exact H|now apply to_float_zero].
  - right. right. split; [exact H|]. split; [now apply to_float_pos|].
    rewrite (to_float_pos x H). now apply round_to_53_bits_pos.
Qed.

(** Rounding to a double is monotone. *)
Lemma to_float_mono (x y : Q) : x <= y -> to_float x <= to_float y.
Proof.
  intros Hxy.
  destruct (to_float_cases x) as [[Hx [Ex Sx]]|[[Hx Ex]|[Hx [Ex Sx]]]];
    destruct (to_float_cases y) as [[Hy [Ey Sy]]|[[Hy Ey]|[Hy [Ey Sy]]]];
    try lra.
  - rewrite Ex, Ey.
    assert (H : round_to_53_bits (- y) <= round_to_53_bits (- x))
      by (apply round_to_53_bits_mono; lra).
    lra.
  - rewrite Ex, Ey. now apply round_to_53_bits_mono.
Qed.

(** Two doubles that are equal as numbers are the same fraction. *)
Lemma to_float_eq (x y : Q) :
  to_float x == to_float y -> to_float x = to_float y.
Proof.
  unfold to_float.
  set (a := match (Qnum x ?= 0)%Z with Gt => _ | _ => _ end).
  set (b := match (Qnum y ?= 0)%Z with Gt => _ | _ => _ end).
  intros H. apply Qred_complete.
  rewrite <- (Qred_correct a), <- (Qred_correct b). exact H.
Qed.

Lemma to_float_Qeq (x y : Q) : x == y -> to_float x = to_float y.
Proof.
  intros H. apply to_float_eq, Qle_antisym; apply to_float_mono;
    rewrite H; apply Qle_refl.
Qed.

(** A double is its own rounding. *)
Lemma to_float_idem (x : Q) : to_float (to_float x) = to_float x.
Proof.
  apply to_float_eq.
  destruct (to_float_cases x) as [[Hx [Ex Sx]]|[[Hx Ex]|[Hx [Ex Sx]]]].
  - rewrite (to_float_neg _ Sx).
    assert (H : 0 < - x) by lra.
    rewrite (round_to_53_bits_Qeq (- to_float x) (round_to_53_bits (- x)))
      by lra.
    rewrite round_to_53_bits_idem by exact H. lra.
  - rewrite (to_float_zero _ Ex). now symmetry.
  - rewrite (to_float_pos _ Sx).
    rewrite (round_to_53_bits_Qeq (to_float x) (round_to_53_bits x))
      by assumption.
    rewrite round_to_53_bits_idem by exact Hx. now symmetry.
Qed.

(** Scaling by a power of two commutes with the rounding. *)
Lemma to_float_scale (x : Q) (k : Z) :
  to_float (x * pow2 k) == to_float x * pow2 k.
Proof.
  pose proof (pow2_pos k) as Hk.
  destruct (to_float_cases x) as [[Hx [Ex _]]|[[Hx Ex]|[Hx [Ex _]]]].
  - assert (H : x * pow2 k < 0).
    { setoid_replace 0 with (0 * pow2 k) by ring.
      now apply Qmult_lt_compat_r. }
    rewrite (to_float_neg _ H), Ex.
    rewrite (round_to_53_bits_Qeq (- (x * pow2 k)) (- x * pow2 k)).
    + rewrite round_to_53_bits_scale by lra. ring.
    + lra.
    + ring.
  - rewrite Ex. rewrite to_float_zero; [ring|]. rewrite Hx. ring.
  - assert (H : 0 < x * pow2 k) by now apply Qmult_lt_0_compat.
    rewrite (to_float_pos _ H), Ex. now apply round_to_53_bits_scale.
Qed.

Lemma to_float_half (x : Q) : to_float (x / 2) == to_float x / 2.
Proof.
  assert (H : forall y, y / 2 == y * pow2 (-1)).
  { intros y. unfold Qdiv. apply Qmult_comp; reflexivity. }
  rewrite (to_float_Qeq _ _ (H x)), H. apply to_float_scale.
Qed.

Lemma to_float_nonneg (x : Q) : 0 <= x -> 0 <= to_float x.
Proof. intros H. apply to_float_mono in H. exact H. Qed.

(** The mean of two doubles, computed in doubles, is the double nearest
    to their mean. *)
Lemma float_mean_of_two (a b : Q) :
  to_float (to_float (a + b) / 2) = to_float ((a + b) / 2).
Proof.
  apply to_float_eq.
  rewrite !to_float_half, to_float_idem. reflexivity.
Qed.

(** *** The nearest double *)

Lemma to_float_is_double (x : Q) : is_double (to_float x).
Proof.
  assert (Hpos : forall y, 0 < y -> is_double (round_to_53_bits y)).
  { intros y Hy.
    destruct (round_to_53_bits_units y Hy)
      as (M & u & X & Hu & _ & Hs & [HM1 HM2] & _ & _ & Hue).
    destruct (Z.eq_dec M 9007199254740992) as [->|Hne].
    - exists 4503599627370496%Z, (float_exponent y + 1)%Z.
      split; [reflexivity|]. rewrite Hs, Hue, pow2_add.
      change (pow2 1) with 2. change (inject_Z 9007199254740992)
        with (inject_Z 4503599627370496 * 2). ring.
    - exists M, (float_exponent y). split; [|now rewrite Hs, Hue].
      change (2 ^ 53)%Z with 9007199254740992%Z. lia. }
  destruct (to_float_cases x) as [[Hx [Ex _]]|[[Hx Ex]|[Hx [Ex _]]]].
  - destruct (Hpos (- x)) as (m & e & Hm & He); [lra|].
    exists (- m)%Z, e. split; [lia|].
    rewrite Ex, He, inject_Z_opp. ring.
  - exists 0%Z, 0%Z. split; [reflexivity|]. rewrite Ex. reflexivity.
  - destruct (Hpos x Hx) as (m & e & Hm & He).
    exists m, e. split; [exact Hm|]. now rewrite Ex.
Qed.

(** No double is nearer to [x > 0] than its rounding. *)
Lemma round_to_53_bits_nearest (x g : Q) :
  0 < x -> is_double g ->
  Qabs (round_to_53_bits x - x) <= Qabs (g - x).
Proof.
  intros Hx (m & eg & Hm & Hg).
  destruct (round_to_53_bits_units x Hx)
    as (M & u & X & Hu & HxX & Hs & [HM1 HM2] & HX & [Hr1 Hr2] & Hue).
  set (e := float_exponent x) in *.
  assert (HMq : inject_Z 4503599627370496 <= inject_Z M)
    by (now rewrite <- Zle_Qle).
  (* the distance of the rounding *)
  assert (Hd : Qabs (round_to_53_bits x - x) == Qabs (inject_Z M - X) * u).
  { rewrite Hs.
    setoid_replace (inject_Z M * u - x) with ((inject_Z M - X) * u)
      by (rewrite HxX; ring).
    rewrite Qabs_Qmult, (Qabs_pos u) by (now apply Qlt_le_weak).
    reflexivity. }
  assert (Hhalf : Qabs (inject_Z M - X) <= 1 # 2).
  { apply Qabs_Qle_condition. split; lra. }
  destruct (Z_le_gt_dec m 0) as [Hneg|Hpos].
  - (* a double that is not positive *)
    assert (Hg0 : g <= 0).
    { rewrite Hg.
      setoid_replace 0 with (0 * pow2 eg) by ring.
      apply Qmult_le_compat_r; [|apply Qlt_le_weak, pow2_pos].
      change 0 with (inject_Z 0). now rewrite <- Zle_Qle. }
    rewrite Hd. apply Qle_trans with (x - g).
    + apply Qle_trans with ((1 # 2) * u).
      * apply Qmult_le_compat_r; [exact Hhalf|now apply Qlt_le_weak].
      * assert (inject_Z 4503599627370496 * u <= x).
        { rewrite HxX. apply Qmult_le_compat_r;
            [exact HX|now apply Qlt_le_weak]. }
        assert (1 <= inject_Z 4503599627370496) by discriminate.
        nra.
    + setoid_replace (x - g) with (- (g - x)) by ring.
      rewrite <- Qabs_opp. apply Qle_Qabs.
  - destruct (Z_le_gt_dec e eg) as [Hee|Hee].
    + (* a multiple of the unit *)
      set (k := (m * 2 ^ (eg - e))%Z).
      assert (Hk : g == inject_Z k * u).
      { rewrite Hg, Hue. unfold k.
        rewrite inject_Z_mult, pow2_inject by lia.
        rewrite <- Qmult_assoc, <- pow2_add.
        replace (eg - e + e)%Z with eg by lia. reflexivity. }
      assert (Hgd : Qabs (g - x) == Qabs (inject_Z k - X) * u).
      { rewrite Hk.
        setoid_replace (inject_Z k * u - x) with ((inject_Z k - X) * u)
          by (rewrite HxX; ring).
        rewrite Qabs_Qmult, (Qabs_pos u) by (now apply Qlt_le_weak).
        reflexivity. }
      rewrite Hd, Hgd.
      apply Qmult_le_compat_r; [|now apply Qlt_le_weak].
      destruct (Z.lt_trichotomy k M) as [Hlt|[->|Hgt]].
      * apply Qle_trans with (1 # 2); [exact Hhalf|].
        apply Qle_trans with (- (inject_Z k - X));
          [|rewrite <- Qabs_opp; apply Qle_Qabs].
        assert (inject_Z k + 1 <= inject_Z M).
        { change 1 with (inject_Z 1).
          rewrite <- inject_Z_plus, <- Zle_Qle. lia. }
        lra.
      * apply Qle_refl.
      * apply Qle_trans with (1 # 2); [exact Hhalf|].
        apply Qle_trans with (inject_Z k - X); [|apply Qle_Qabs].
        assert (inject_Z M + 1 <= inject_Z k).
        { change 1 with (inject_Z 1).
          rewrite <- inject_Z_plus, <- Zle_Qle. lia. }
        lra.
    + (* a double of a lower binade *)
      assert (Hgl : g <= inject_Z 4503599627370496 * u).
      { rewrite Hg, Hue, <- pow2_52, <- pow2_add.
        apply Qle_trans with (pow2 53 * pow2 eg).
        - apply Qmult_le_compat_r; [|apply Qlt_le_weak, pow2_pos].
          rewrite pow2_53, <- Zle_Qle.
          change (2 ^ 53)%Z with 9007199254740992%Z in Hm. lia.
        - rewrite <- pow2_add. apply pow2_le. lia. }
      rewrite Hd. apply Qle_trans with (x - g).
      * apply Qle_trans with ((X - inject_Z 4503599627370496) * u).
        -- apply Qmult_le_compat_r; [|now apply Qlt_le_weak].
           apply Qabs_Qle_condition. split; [lra|].
           destruct (Z.eq_dec M 4503599627370496) as [->|Hne]; [lra|].
           assert (inject_Z 4503599627370496 + 1 <= inject_Z M).
           { change 1 with (inject_Z 1).
             rewrite <- inject_Z_plus, <- Zle_Qle. lia. }
           lra.
        -- rewrite HxX. nra.
      * setoid_replace (x - g) with (- (g - x)) by ring.
        rewrite <- Qabs_opp. apply Qle_Qabs.
Qed.

(** [float(x)] is a double, and no double is nearer to [x]. *)
Lemma to_float_nearest (x g : Q) :
  is_double g -> Qabs (to_float x - x) <= Qabs (g - x).
Proof.
  intros Hg.
  destruct (to_float_cases x) as [[Hx [Ex _]]|[[Hx Ex]|[Hx [Ex _]]]].
  - assert (Hg' : is_double (- g)).
    { destruct Hg as (m & e & Hm & He). exists (- m)%Z, e.
      split; [lia|]. rewrite He, inject_Z_opp. ring. }
    assert (H : 0 < - x) by lra.
    pose proof (round_to_53_bits_nearest (- x) (- g) H Hg') as Hn.
    rewrite Ex.
    setoid_replace (- round_to_53_bits (- x) - x)
      with (- (round_to_53_bits (- x) - - x)) by ring.
    setoid_replace (g - x) with (- (- g - - x)) by ring.
    now rewrite !Qabs_opp.
  - rewrite Ex, Hx. setoid_replace (0 - 0) with 0 by ring.
    apply Qabs_nonneg.
  - rewrite Ex. now apply round_to_53_bits_nearest.
Qed.

(** *** [round(x, 2)] *)

(** [round(x, 2)] is monotone, and keeps the sign. *)
Lemma round2_mono (x y : Q) : (x <= y)%Q -> (round2 x <= round2 y)%Q.
Proof.
  intros Hle. unfold round2. apply to_float_mono.
  assert (H : (x * 100 <= y * 100)%Q) by lra.
  apply round_half_even_mono in H.
  unfold Qle. cbn [Qnum Qden]. lia.
Qed.

Lemma round2_nonneg (x : Q) : (0 <= x)%Q -> (0 <= round2 x)%Q.
Proof. intros H. apply round2_mono in H. exact H. Qed.

(** [round(x, 2)] is the double nearest to a number of hundredths that
    is within half a hundredth of [x]. *)
Lemma round2_hundredths (x : Q) :
  exists h : Z,
    round2 x = to_float (h # 100)
    /\ (x - (1 # 200) <= h # 100 <= x + (1 # 200)).
Proof.
  exists (round_half_even (x * 100)). split; [reflexivity|].
  destruct x as [p q].
  pose proof (round_half_even_close (Qnum ((p # q) * 100)) (Qden ((p # q) * 100))) as H.
  cbv zeta in H.
  change (Qnum ((p # q) * 100) # Qden ((p # q) * 100)) with ((p # q) * 100) in H.
  set (z := round_half_even ((p # q) * 100)) in *.
  cbn [Qnum Qden Qmult] in H.
  rewrite Pos.mul_1_r in H.
  unfold Qle, Qminus, Qplus, Qopp. cbn [Qnum Qden].
  split; nia.
Qed.

(** *** The square root *)

(** The square root is not negative. *)
Lemma int_true_div_nonneg (n m : Z) :
  (0 <= n)%Z -> (0 < m)%Z -> 0 <= int_true_div n m.
Proof.
  intros Hn Hm. apply to_float_nonneg.
  apply Qle_shift_div_l.
  - change 0 with (inject_Z 0). now rewrite <- Zlt_Qlt.
  - rewrite Qmult_0_l. change 0 with (inject_Z 0). now rewrite <- Zle_Qle.
Qed.

Lemma _integer_sqrt_of_frac_rto_nonneg (n m : Z) :
  (0 <= _integer_sqrt_of_frac_rto n m)%Z.
Proof.
  unfold _integer_sqrt_of_frac_rto. apply Z.lor_nonneg. split.
  - apply Z.sqrt_nonneg.
  - destruct (_ =? _)%Z; lia.
Qed.

Lemma _float_sqrt_of_frac_nonneg (n m : Z) : 0 <= _float_sqrt_of_frac n m.
Proof.
  unfold _float_sqrt_of_frac.
  destruct (0 <=? _)%Z eqn:Hq.
  - apply int_true_div_nonneg; [|lia].
    apply Z.shiftl_nonneg, _integer_sqrt_of_frac_rto_nonneg.
  - apply int_true_div_nonneg; [apply _integer_sqrt_of_frac_rto_nonneg|].
    apply Z.leb_gt in Hq. rewrite Z.shiftl_1_l. apply Z.pow_pos_nonneg; lia.
Qed.

Lemma float_sqrt_nonneg (v : Q) : 0 <= float_sqrt v.
Proof. apply _float_sqrt_of_frac_nonneg. Qed.

(** Around an odd integer of 55 bits or more the rounding to 53 bits is
    constant: no double and no middle of two doubles lies within one of
    it. *)
Lemma round_near_odd (a : Z) (x : Q) :
  Z.odd a = true -> (2 ^ 54 <= a)%Z ->
  inject_Z a - 1 < x -> x < inject_Z a + 1 ->
  to_float x = to_float (inject_Z a).
Proof.
  intros Hodd Hbig H1 H2.
  assert (Ha : 0 < inject_Z a).
  { change 0 with (inject_Z 0). rewrite <- Zlt_Qlt. lia. }
  assert (Hx : 0 < x).
  { apply Qle_lt_trans with (inject_Z a - 1); [|exact H1].
    setoid_replace (inject_Z a - 1) with (inject_Z (a - 1))
      by (now rewrite inject_Z_sub).
    change 0 with (inject_Z 0). rewrite <- Zle_Qle. lia. }
  apply to_float_eq. rewrite (to_float_pos _ Hx), (to_float_pos _ Ha).
  destruct (float_exponent_spec _ Ha) as [B1 B2].
  set (e := float_exponent (inject_Z a)) in *.
  assert (He : (2 <= e)%Z).
  { destruct (Z_le_gt_dec 2 e) as [H|H]; [exact H|exfalso].
    assert (H' : pow2 (53 + e) <= pow2 54) by (apply pow2_le; lia).
    apply (Qlt_irrefl (inject_Z a)).
    eapply Qlt_le_trans; [exact B2|]. eapply Qle_trans; [exact H'|].
    rewrite <- (pow2_inject 54) by lia. now rewrite <- Zle_Qle. }
  rewrite <- (pow2_inject (52 + e)) in B1 by lia.
  rewrite <- (pow2_inject (53 + e)) in B2 by lia.
  rewrite <- Zle_Qle in B1. rewrite <- Zlt_Qlt in B2.
  rewrite !Z.pow_add_r in B1, B2 by lia.
  pose proof (Z.pow_pos_nonneg 2 (e - 1) ltac:(lia) ltac:(lia)) as Hh.
  assert (HP : (2 ^ e = 2 * 2 ^ (e - 1))%Z).
  { rewrite <- (Z.pow_succ_r 2 (e - 1)) by lia. f_equal. lia. }
  assert (HP' : (2 ^ (e - 1) = 2 * 2 ^ (e - 2))%Z).
  { rewrite <- (Z.pow_succ_r 2 (e - 2)) by lia. f_equal. lia. }
  set (h := (2 ^ (e - 1))%Z) in *. set (P := (2 ^ e)%Z) in *.
  set (g := (2 ^ (e - 2))%Z) in *.
  pose proof (Z.div_mod a P ltac:(lia)) as Hdm.
  pose proof (Z.mod_pos_bound a P ltac:(lia)) as Hr.
  set (c := (a / P)%Z) in *. set (r := (a mod P)%Z) in *.
  apply Zodd_bool_iff in Hodd. destruct (Zodd_ex _ Hodd) as [k Hk].
  assert (Hrh : (r <> h)%Z) by lia.
  assert (Hr0 : (r <> 0)%Z) by lia.
  (* the exponent of [x] *)
  assert (Hex : float_exponent x = e).
  { apply float_exponent_unique.
    rewrite <- (pow2_inject (52 + e)), <- (pow2_inject (53 + e)) by lia.
    rewrite !Z.pow_add_r by lia. fold P. split.
    - apply Qle_trans with (inject_Z (a - 1)).
      + rewrite <- Zle_Qle. lia.
      + rewrite inject_Z_sub. now apply Qlt_le_weak.
    - apply Qlt_le_trans with (inject_Z (a + 1)).
      + now rewrite inject_Z_plus.
      + rewrite <- Zle_Qle. lia. }
  unfold round_to_53_bits. rewrite Hex. fold e.
  apply Qmult_comp; [|reflexivity].
  assert (HPq : pow2 e == inject_Z P) by (symmetry; apply pow2_inject; lia).
  assert (Haq : inject_Z a == inject_Z P * inject_Z c + inject_Z r).
  { rewrite <- inject_Z_mult, <- inject_Z_plus. now rewrite <- Hdm. }
  assert (Hhq : inject_Z P == 2 * inject_Z h).
  { change 2 with (inject_Z 2). rewrite <- inject_Z_mult. now rewrite HP. }
  destruct (Z_lt_ge_dec r h) as [Hlt|Hge].
  - assert (Hr1 : inject_Z r + 1 <= inject_Z h).
    { change 1 with (inject_Z 1). rewrite <- inject_Z_plus, <- Zle_Qle. lia. }
    assert (Hr2 : 1 <= inject_Z r).
    { change 1 with (inject_Z 1). rewrite <- Zle_Qle. lia. }
    rewrite (round_half_even_unique (x * pow2 (- e)) c),
            (round_half_even_unique (inject_Z a * pow2 (- e)) c);
      [reflexivity| | | |];
      rewrite ?scale_lt_l, ?scale_lt_r, HPq; nra.
  - assert (Hr1 : inject_Z h + 1 <= inject_Z r).
    { change 1 with (inject_Z 1). rewrite <- inject_Z_plus, <- Zle_Qle. lia. }
    assert (Hr2 : inject_Z r + 1 <= inject_Z P).
    { change 1 with (inject_Z 1). rewrite <- inject_Z_plus, <- Zle_Qle. lia. }
    rewrite (round_half_even_unique (x * pow2 (- e)) (c + 1)),
            (round_half_even_unique (inject_Z a * pow2 (- e)) (c + 1));
      [reflexivity| | | |];
      rewrite ?scale_lt_l, ?scale_lt_r, HPq, inject_Z_plus;
      change (inject_Z 1) with 1; nra.
Qed.

(** [a | 1] is the odd one of [a] and [a + 1]. *)
Lemma lor_1 (a : Z) :
  (0 <= a)%Z -> Z.lor a 1 = if Z.even a then (a + 1)%Z else a.
Proof.
  destruct a as [|p|p]; [reflexivity| |lia]. intros _.
  destruct p; reflexivity.
Qed.

(** The integer square root of a quotient. *)
Lemma sqrt_div_spec (N M : Z) :
  (0 <= N)%Z -> (0 < M)%Z ->
  let a := Z.sqrt (N / M) in
  (0 <= a /\ a * a * M <= N < (a + 1) * (a + 1) * M)%Z.
Proof.
  intros HN HM a.
  assert (Hq : (0 <= N / M)%Z) by (apply Z.div_pos; lia).
  pose proof (Z.sqrt_spec (N / M) Hq) as Hs. cbv zeta in Hs. fold a in Hs.
  pose proof (Z.sqrt_nonneg (N / M)) as Ha. fold a in Ha.
  pose proof (Z.div_mod N M ltac:(lia)) as Hdm.
  pose proof (Z.mod_pos_bound N M HM) as Hr.
  unfold Z.succ in Hs. split; [exact Ha|]. nia.
Qed.

Lemma square_le_inv (x y : Q) : 0 <= y -> x * x <= y * y -> x <= y.
Proof.
  intros Hy H. apply Qnot_lt_le. intros Hlt.
  assert (H' : y * y < x * x) by nra. lra.
Qed.

Lemma square_lt_inv (x y : Q) : 0 <= y -> x * x < y * y -> x < y.
Proof.
  intros Hy H. apply Qnot_le_lt. intros Hle.
  assert (H' : y * y <= x * x) by nra. lra.
Qed.

(** The square root rounded to odd, then to a double, lies between the
    doubles nearest to the rationals below and above the root, when the
    integer part of the root has 55 bits or more. *)
Lemma sqrt_rto_brackets (N M : Z) (lo hi : Q) :
  (0 <= N)%Z -> (0 < M)%Z ->
  (N = 0 \/ 2 ^ 108 * M <= N)%Z ->
  0 <= lo -> 0 <= hi ->
  lo * lo * inject_Z M <= inject_Z N ->
  inject_Z N <= hi * hi * inject_Z M ->
  to_float lo <= to_float (inject_Z (_integer_sqrt_of_frac_rto N M))
  /\ to_float (inject_Z (_integer_sqrt_of_frac_rto N M)) <= to_float hi.
Proof.
  intros HN HM Hbits Hlo Hhi H1 H2.
  destruct (sqrt_div_spec N M HN HM) as [Ha [Hb1 Hb2]].
  unfold _integer_sqrt_of_frac_rto.
  set (a := Z.sqrt (N / M)) in *.
  assert (HMq : 0 < inject_Z M).
  { change 0 with (inject_Z 0). now rewrite <- Zlt_Qlt. }
  assert (Haq : 0 <= inject_Z a).
  { change 0 with (inject_Z 0). now rewrite <- Zle_Qle. }
  assert (Hb1q : inject_Z a * inject_Z a * inject_Z M <= inject_Z N).
  { rewrite <- !inject_Z_mult, <- Zle_Qle. exact Hb1. }
  assert (Hb2q : inject_Z N
                 < (inject_Z a + 1) * (inject_Z a + 1) * inject_Z M).
  { change 1 with (inject_Z 1).
    rewrite <- !inject_Z_plus, <- !inject_Z_mult, <- Zlt_Qlt. exact Hb2. }
  destruct (a * a * M =? N)%Z eqn:Hex.
  - (* exact *)
    apply Z.eqb_eq in Hex. rewrite Z.lor_0_r.
    assert (Hexq : inject_Z N == inject_Z a * inject_Z a * inject_Z M).
    { rewrite <- !inject_Z_mult. now rewrite Hex. }
    split; apply to_float_mono.
    + apply square_le_inv; [exact Haq|].
      apply (Qmult_le_r _ _ (inject_Z M) HMq). lra.
    + apply square_le_inv; [exact Hhi|].
      apply (Qmult_le_r _ _ (inject_Z M) HMq). lra.
  - (* not exact *)
    apply Z.eqb_neq in Hex.
    assert (Hlt : (a * a * M < N)%Z) by lia.
    assert (Hltq : inject_Z a * inject_Z a * inject_Z M < inject_Z N).
    { rewrite <- !inject_Z_mult, <- Zlt_Qlt. exact Hlt. }
    assert (Hbig : (2 ^ 54 <= a)%Z).
    { destruct Hbits as [->|Hbits]; [nia|].
      assert (Hq : (2 ^ 108 <= N / M)%Z)
        by (apply Z.div_le_lower_bound; lia).
      apply Z.sqrt_le_mono in Hq. fold a in Hq.
      change (2 ^ 108)%Z with (2 ^ 54 * 2 ^ 54)%Z in Hq.
      rewrite Z.sqrt_square in Hq by lia. exact Hq. }
    assert (Hlo' : lo < inject_Z a + 1).
    { apply square_lt_inv; [lra|].
      apply (Qmult_lt_r _ _ (inject_Z M) HMq). lra. }
    assert (Hhi' : inject_Z a < hi).
    { apply square_lt_inv; [exact Hhi|].
      apply (Qmult_lt_r _ _ (inject_Z M) HMq). lra. }
    rewrite lor_1 by exact Ha.
    destruct (Z.even a) eqn:Heven.
    + assert (Hodd : Z.odd (a + 1) = true).
      { rewrite Z.odd_add, <- Z.negb_even, Heven. reflexivity. }
      assert (Hs : inject_Z (a + 1) == inject_Z a + 1)
        by (now rewrite inject_Z_plus).
      split.
      * apply to_float_mono. rewrite Hs. now apply Qlt_le_weak.
      * destruct (Qlt_le_dec hi (inject_Z (a + 1))) as [Hc|Hc].
        -- rewrite (round_near_odd (a + 1) hi Hodd); [apply Qle_refl|lia| |];
             rewrite Hs; lra.
        -- now apply to_float_mono.
    + assert (Hodd : Z.odd a = true) by (now rewrite <- Z.negb_even, Heven).
      split.
      * destruct (Qlt_le_dec (inject_Z a) lo) as [Hc|Hc].
        -- rewrite (round_near_odd a lo Hodd Hbig); [apply Qle_refl| |];
             lra.
        -- now apply to_float_mono.
      * apply to_float_mono. now apply Qlt_le_weak.
Qed.

(** The number of bits: the quotient under the root has 109 bits or
    more. *)
Lemma bit_length_spec (n : Z) :
  (0 < n)%Z -> (2 ^ (bit_length n - 1) <= n < 2 ^ bit_length n)%Z.
Proof.
  intros Hn. unfold bit_length.
  rewrite (proj2 (Z.eqb_neq n 0)) by lia. rewrite Z.abs_eq by lia.
  destruct (Z.log2_spec n Hn) as [H1 H2].
  replace (Z.log2 n + 1 - 1)%Z with (Z.log2 n) by lia.
  split; assumption.
Qed.

Lemma bit_length_pos (n : Z) : (0 < n)%Z -> (1 <= bit_length n)%Z.
Proof.
  intros Hn. unfold bit_length.
  rewrite (proj2 (Z.eqb_neq n 0)) by lia.
  pose proof (Z.log2_nonneg (Z.abs n)). lia.
Qed.

Lemma enough_bits (n m q : Z) :
  (0 < n)%Z -> (0 < m)%Z ->
  (2 * q <= bit_length n - bit_length m - 109)%Z ->
  (0 <= q -> 2 ^ 108 * (m * 2 ^ (2 * q)) <= n)%Z
  /\ (q < 0 -> 2 ^ 108 * m <= n * 2 ^ (- 2 * q))%Z.
Proof.
  intros Hn Hm Hq.
  destruct (bit_length_spec n Hn) as [Hn1 _].
  destruct (bit_length_spec m Hm) as [_ Hm2].
  pose proof (bit_length_pos n Hn) as Hbn.
  pose proof (bit_length_pos m Hm) as Hbm.
  set (bn := bit_length n) in *. set (bm := bit_length m) in *.
  split; intros Hs.
  - apply Z.le_trans with (2 ^ (bn - 1))%Z; [|exact Hn1].
    apply Z.le_trans with (2 ^ 108 * (2 ^ bm * 2 ^ (2 * q)))%Z.
    + apply Z.mul_le_mono_nonneg_l; [lia|].
      apply Z.mul_le_mono_nonneg_r; [|lia].
      apply Z.pow_nonneg. lia.
    + rewrite <- !Z.pow_add_r by lia. apply Z.pow_le_mono_r; lia.
  - apply Z.le_trans with (2 ^ 108 * 2 ^ bm)%Z.
    + apply Z.mul_le_mono_nonneg_l; lia.
    + apply Z.le_trans with (2 ^ (bn - 1) * 2 ^ (- 2 * q))%Z.
      * rewrite <- !Z.pow_add_r by lia. apply Z.pow_le_mono_r; lia.
      * apply Z.mul_le_mono_nonneg_r; [|exact Hn1].
        apply Z.pow_nonneg. lia.
Qed.

(** [_float_sqrt_of_frac n m] lies between the doubles nearest to the
    rationals below and above the square root of [n / m]. *)
Lemma _float_sqrt_of_frac_brackets (n m : Z) (lo hi : Q) :
  (0 <= n)%Z -> (0 < m)%Z -> 0 <= lo -> 0 <= hi ->
  lo * lo * inject_Z m <= inject_Z n ->
  inject_Z n <= hi * hi * inject_Z m ->
  to_float lo <= _float_sqrt_of_frac n m <= to_float hi.
Proof.
  intros Hn Hm Hlo Hhi H1 H2. unfold _float_sqrt_of_frac.
  set (q := ((bit_length n - bit_length m - 109) / 2)%Z).
  assert (Hq : (2 * q <= bit_length n - bit_length m - 109)%Z)
    by (apply Z.mul_div_le; lia).
  pose proof (pow2_pos q) as Hpq. pose proof (pow2_pos (- q)) as Hpq'.
  pose proof (pow2_cancel q) as Hcan.
  assert (Hl : 0 <= lo * pow2 (- q))
    by (apply Qmult_le_0_compat; [exact Hlo|now apply Qlt_le_weak]).
  assert (Hh : 0 <= hi * pow2 (- q))
    by (apply Qmult_le_0_compat; [exact Hhi|now apply Qlt_le_weak]).
  assert (Hback : forall x, x * pow2 (- q) * pow2 q == x).
  { intros x. rewrite <- Qmult_assoc, (Qmult_comm (pow2 (- q))), Hcan.
    apply Qmult_1_r. }
  assert (Hmq : 0 < inject_Z m).
  { change 0 with (inject_Z 0). now rewrite <- Zlt_Qlt. }
  (* the result is the double nearest to [a * 2^q] *)
  assert (Hres : forall a r : Q,
             r == a * pow2 q ->
             to_float (lo * pow2 (- q)) <= to_float a ->
             to_float a <= to_float (hi * pow2 (- q)) ->
             to_float lo <= to_float r <= to_float hi).
  { intros a r Hr Hla Hah.
    assert (Elo : to_float lo == to_float (lo * pow2 (- q)) * pow2 q).
    { rewrite <- to_float_scale. now rewrite (to_float_Qeq _ _ (Hback lo)). }
    assert (Ehi : to_float hi == to_float (hi * pow2 (- q)) * pow2 q).
    { rewrite <- to_float_scale. now rewrite (to_float_Qeq _ _ (Hback hi)). }
    rewrite (to_float_Qeq _ _ Hr), to_float_scale, Elo, Ehi.
    split; (apply Qmult_le_compat_r; [assumption|now apply Qlt_le_weak]). }
  destruct (0 <=? q)%Z eqn:Hs.
  - apply Z.leb_le in Hs. unfold int_true_div.
    rewrite !Z.shiftl_mul_pow2 by lia.
    set (M := (m * 2 ^ (2 * q))%Z).
    assert (HM : (0 < M)%Z).
    { unfold M. apply Z.mul_pos_pos; [exact Hm|].
      apply Z.pow_pos_nonneg; lia. }
    assert (HMq : inject_Z M == inject_Z m * (pow2 q * pow2 q)).
    { unfold M. rewrite inject_Z_mult, pow2_inject by lia.
      replace (2 * q)%Z with (q + q)%Z by lia. now rewrite pow2_add. }
    assert (Hscale : forall x, x * pow2 (- q) * (x * pow2 (- q)) * inject_Z M
                               == x * x * inject_Z m).
    { intros x. rewrite HMq.
      setoid_replace (x * pow2 (- q) * (x * pow2 (- q))
                      * (inject_Z m * (pow2 q * pow2 q)))
        with (x * x * inject_Z m
              * ((pow2 q * pow2 (- q)) * (pow2 q * pow2 (- q)))) by ring.
      rewrite Hcan. ring. }
    destruct (sqrt_rto_brackets n M (lo * pow2 (- q)) (hi * pow2 (- q)))
      as [Ha Hb]; try assumption.
    + destruct (Z.eq_dec n 0) as [->|Hn0]; [now left|right].
      apply (enough_bits n m q); lia.
    + now rewrite Hscale.
    + now rewrite Hscale.
    + apply (Hres (inject_Z (_integer_sqrt_of_frac_rto n M))); try assumption.
      rewrite inject_Z_mult, pow2_inject by lia.
      unfold Qdiv. change (/ inject_Z 1) with 1. ring.
  - apply Z.leb_gt in Hs. unfold int_true_div.
    rewrite !Z.shiftl_mul_pow2 by lia. rewrite Z.mul_1_l.
    set (N := (n * 2 ^ (- 2 * q))%Z).
    assert (HN : (0 <= N)%Z).
    { unfold N. apply Z.mul_nonneg_nonneg; [exact Hn|].
      apply Z.pow_nonneg. lia. }
    assert (HNq : inject_Z N == inject_Z n * (pow2 (- q) * pow2 (- q))).
    { unfold N. rewrite inject_Z_mult, pow2_inject by lia.
      replace (- 2 * q)%Z with (- q + - q)%Z by lia. now rewrite pow2_add. }
    destruct (sqrt_rto_brackets N m (lo * pow2 (- q)) (hi * pow2 (- q)))
      as [Ha Hb]; try assumption.
    + destruct (Z.eq_dec n 0) as [->|Hn0]; [left; reflexivity|right].
      apply (enough_bits n m q); lia.
    + rewrite HNq.
      setoid_replace (lo * pow2 (- q) * (lo * pow2 (- q)) * inject_Z m)
        with (lo * lo * inject_Z m * (pow2 (- q) * pow2 (- q))) by ring.
      apply Qmult_le_compat_r; [exact H1|].
      apply Qmult_le_0_compat; now apply Qlt_le_weak.
    + rewrite HNq.
      setoid_replace (hi * pow2 (- q) * (hi * pow2 (- q)) * inject_Z m)
        with (hi * hi * inject_Z m * (pow2 (- q) * pow2 (- q))) by ring.
      apply Qmult_le_compat_r; [exact H2|].
      apply Qmult_le_0_compat; now apply Qlt_le_weak.
    + apply (Hres (inject_Z (_integer_sqrt_of_frac_rto N m))); try assumption.
      rewrite pow2_inject by lia.
      unfold Qdiv. apply Qmult_comp; [reflexivity|].
      apply (Qmult_inj_r _ _ (pow2 (- q))); [intros H; rewrite H in Hpq'; discriminate|].
      rewrite Qmult_comm, Qmult_inv_r, Hcan; [reflexivity|].
      intros H; rewrite H in Hpq'; discriminate.
Qed.

(** [float_sqrt v] is a double nearest to the square root of [v]. *)
Lemma float_sqrt_spec (v : Q) : 0 <= v -> GuiSpec.nearest_to_root v (float_sqrt v).
Proof.
  intros Hv lo hi Hlo Hhi H1 H2. unfold float_sqrt.
  pose proof (Qred_correct v) as Hred.
  set (w := Qred v) in *. destruct w as [n d]. cbn [Qnum Qden].
  assert (Hn : (0 <= n)%Z).
  { rewrite <- Hred in Hv. unfold Qle in Hv. cbn in Hv. lia. }
  assert (Hd : 0 < inject_Z (Zpos d)) by reflexivity.
  rewrite <- Hred, (Qmake_Qdiv n d) in H1, H2.
  apply _float_sqrt_of_frac_brackets; try assumption; try reflexivity.
  - apply (Qmult_le_r _ _ (/ inject_Z (Zpos d))).
    + now apply Qinv_lt_0_compat.
    + rewrite <- Qmult_assoc, Qmult_inv_r, Qmult_1_r; [exact H1|].
      intros H. rewrite H in Hd. discriminate.
  - apply (Qmult_le_r _ _ (/ inject_Z (Zpos d))).
    + now apply Qinv_lt_0_compat.
    + rewrite <- Qmult_assoc, Qmult_inv_r, Qmult_1_r; [exact H2|].
      intros H. rewrite H in Hd. discriminate.
Qed.

(** The square root of a square. *)
Lemma float_sqrt_square (x : Q) : 0 <= x -> float_sqrt (x * x) = to_float x.
Proof.
  intros Hx.
  assert (Hv : 0 <= x * x) by (now apply Qmult_le_0_compat).
  destruct (float_sqrt_spec (x * x) Hv x x Hx Hx (Qle_refl _) (Qle_refl _))
    as [H1 H2].
  unfold float_sqrt, _float_sqrt_of_frac, int_true_div in *.
  destruct (0 <=? _)%Z; apply to_float_eq; now apply Qle_antisym.
Qed.

End Floats.

(* ================================================================= *)
(** ** Statistics *)

Lemma Qle_bool_total (a b : Q) : Qle_bool a b = true \/ Qle_bool b a = true.
Proof.
  rewrite !Qle_bool_iff.
  destruct (Qlt_le_dec a b) as [H|H]; [left; now apply Qlt_le_weak|now right].
Qed.

Lemma Qle_bool_trans (a b c : Q) :
  Qle_bool a b = true -> Qle_bool b c = true -> Qle_bool a c = true.
Proof. rewrite !Qle_bool_iff. apply Qle_trans. Qed.

Lemma Qltb_false (a b : Q) : Qltb a b = false -> (b <= a)%Q.
Proof.
  unfold Qltb. intros H. apply Qle_bool_iff.
  now destruct (Qle_bool b a).
Qed.

Lemma Qltb_true (a b : Q) : Qltb a b = true -> (a <= b)%Q.
Proof.
  unfold Qltb. intros H.
  destruct (Qle_bool_total a b) as [Hab|Hba].
  - now apply Qle_bool_iff.
  - rewrite Hba in H. discriminate H.
Qed.

(** [statistics.mean] returns the double nearest to the mean. *)
Lemma mean_returns (data : list Q) :
  data <> [] -> mean data = Returns (to_float (GuiSpec.arithmetic_mean data)).
Proof. destruct data; [congruence|reflexivity]. Qed.

(** [min] returns an element that is below all the others. *)
Lemma py_min_spec (x : Q) (data : list Q) :
  exists lo, py_min (x :: data) = Returns lo
             /\ In lo (x :: data) /\ Forall (Qle lo) (x :: data).
Proof.
  unfold py_min.
  assert (H : forall l m,
             let r := fold_left (fun m y => if Qltb y m then y else m) l m in
             In r (m :: l) /\ (r <= m)%Q /\ Forall (Qle r) l).
  { induction l as [|y l IH]; intros m; cbn [fold_left].
    - split; [now left|]. split; [apply Qle_refl|constructor].
    - destruct (Qltb y m) eqn:Hym.
      + destruct (IH y) as [Hin [Hle Hall]].
        split; [destruct Hin as [<-|Hin]; [right; now left|now do 2 right]|].
        split; [eapply Qle_trans; [exact Hle|now apply Qltb_true]|].
        constructor; assumption.
      + destruct (IH m) as [Hin [Hle Hall]].
        split; [destruct Hin as [<-|Hin]; [now left|now do 2 right]|].
        split; [exact Hle|].
        constructor; [|exact Hall].
        eapply Qle_trans; [exact Hle|now apply Qltb_false]. }
  destruct (H data x) as [Hin [Hle Hall]].
  eexists. split; [reflexivity|]. split; [exact Hin|].
  constructor; assumption.
Qed.

(** [max] returns an element that is above all the others. *)
Lemma py_max_spec (x : Q) (data : list Q) :
  exists hi, py_max (x :: data) = Returns hi
             /\ In hi (x :: data) /\ Forall (fun y => (y <= hi)%Q) (x :: data).
Proof.
  unfold py_max.
  assert (H : forall l m,
             let r := fold_left (fun m y => if Qltb m y then y else m) l m in
             In r (m :: l) /\ (m <= r)%Q /\ Forall (fun y => (y <= r)%Q) l).
  { induction l as [|y l IH]; intros m; cbn [fold_left].
    - split; [now left|]. split; [apply Qle_refl|constructor].
    - destruct (Qltb m y) eqn:Hmy.
      + destruct (IH y) as [Hin [Hle Hall]].
        split; [destruct Hin as [<-|Hin]; [right; now left|now do 2 right]|].
        split; [apply Qle_trans with y; [now apply Qltb_true|exact Hle]|].
        constructor; [exact Hle|exact Hall].
      + destruct (IH m) as [Hin [Hle Hall]].
        split; [destruct Hin as [<-|Hin]; [now left|now do 2 right]|].
        split; [exact Hle|].
        constructor; [|exact Hall].
        apply Qle_trans with m; [now apply Qltb_false|exact Hle]. }
  destruct (H data x) as [Hin [Hle Hall]].
  eexists. split; [reflexivity|]. split; [exact Hin|].
  constructor; assumption.
Qed.

Lemma sorted_Q_spec (data : list Q) :
  Permutation (sorted_Q data) data /\ StronglySorted Qle (sorted_Q data).
Proof.
  split; [apply sorted_by_perm|].
  pose proof (sorted_by_sorted Qle_bool Qle_bool_total Qle_bool_trans data)
    as Hs.
  fold (sorted_Q data) in Hs.
  induction Hs as [|x l Hs IH Hall]; constructor; [exact IH|].
  eapply Forall_impl; [|exact Hall]. intros y. apply Qle_bool_iff.
Qed.

(** [statistics.median] returns the median. *)
Lemma median_returns (data : list Q) :
  data <> [] -> exists m, median data = Returns m /\ GuiSpec.is_median data m.
Proof.
  intros Hne. destruct (sorted_Q_spec data) as [Hperm Hsorted].
  pose proof (Permutation_length Hperm) as Hlen.
  unfold median. rewrite Hlen.
  destruct (List.length data =? 0)%nat eqn:Hz.
  { apply Nat.eqb_eq in Hz. destruct data; [congruence|discriminate Hz]. }
  exists (if (List.length data mod 2 =? 1)%nat
          then nth (List.length data / 2) (sorted_Q data) 0%Q
          else to_float ((nth (List.length data / 2 - 1) (sorted_Q data) 0%Q
                          + nth (List.length data / 2) (sorted_Q data) 0%Q)
                         / 2)).
  split.
  - destruct (List.length data mod 2 =? 1)%nat; [reflexivity|].
    now rewrite float_mean_of_two.
  - exists (sorted_Q data). split; [exact Hperm|]. split; [exact Hsorted|].
    reflexivity.
Qed.

(** [statistics.stdev] returns the square root, as a double, of the
    sample variance. *)
Lemma stdev_returns (data : list Q) :
  (2 <= List.length data)%nat ->
  stdev data = Returns (float_sqrt (GuiSpec.sample_variance data)).
Proof.
  intros Hlen. unfold stdev.
  destruct (List.length data <? 2)%nat eqn:Hlt; [|reflexivity].
  apply Nat.ltb_lt in Hlt. lia.
Qed.

(* ================================================================= *)
(** ** The report aggregator *)

Section Report.
Import Gui GuiSpec.

Lemma summarize_url_step (results_data : list RunResult) (u : string)
    (summary : Summary) :
  summarize_url results_data u summary
  = (Returns tt, dict_set u (url_entry results_data u) summary).
Proof.
  unfold summarize_url, url_entry, successes, errors.
  set (load_times := map float_load_time _).
  destruct load_times as [|x l] eqn:E; [reflexivity|].
  rewrite <- E.
  assert (Hne : load_times <> []) by (rewrite E; discriminate).
  destruct (py_min_spec x l) as [lo [Hlo _]].
  destruct (py_max_spec x l) as [hi [Hhi _]].
  destruct (median_returns load_times Hne) as [m [Hm _]].
  rewrite <- E in Hlo, Hhi.
  unfold bind, call, update, ret.
  rewrite (mean_returns load_times Hne), Hlo, Hhi, Hm.
  destruct (1 <? List.length load_times)%nat eqn:Hlen.
  - apply Nat.ltb_lt in Hlen.
    rewrite (stdev_returns load_times) by lia. reflexivity.
  - reflexivity.
Qed.

Lemma summarize_urls_fold (results_data : list RunResult) :
  forall (us : list string) (summary : Summary),
    summarize_urls results_data us summary
    = (Returns tt,
       fold_left (fun d u => dict_set u (url_entry results_data u) d)
         us summary).
Proof.
  induction us as [|u us IH]; intros summary; [reflexivity|].
  cbn [summarize_urls fold_left]. unfold bind.
  rewrite summarize_url_step. apply IH.
Qed.

(** The report lists the distinct URLs in ascending order, each with its
    entry. *)
Lemma report_closed_form (results_data : list RunResult) :
  generate_summary_report results_data
  = Returns (map (fun u => (u, url_entry results_data u))
               (sorted_str (py_set (map SeleniumUtils.url results_data)))).
Proof.
  unfold generate_summary_report.
  destruct results_data as [|r rs]; [reflexivity|].
  rewrite summarize_urls_fold.
  destruct (sorted_set_spec (map SeleniumUtils.url (r :: rs)))
    as [_ [Hnd _]].
  rewrite dict_fill; [reflexivity|exact Hnd|].
  intros k _ [].
Qed.

Lemma report_lookup (results_data : list RunResult) (u : string) :
  In u (map SeleniumUtils.url results_data) ->
  exists summary,
    generate_summary_report results_data = Returns summary
    /\ StronglySorted String_as_OT.lt (dict_keys summary)
    /\ (forall v, In v (dict_keys summary)
                  <-> In v (map SeleniumUtils.url results_data))
    /\ dict_get u summary = Some (url_entry results_data u).
Proof.
  intros Hin. eexists. split; [apply report_closed_form|].
  destruct (sorted_set_spec (map SeleniumUtils.url results_data))
    as [Hsorted [_ Hmem]].
  rewrite dict_keys_map. split; [exact Hsorted|]. split; [exact Hmem|].
  apply dict_get_map. now apply Hmem.
Qed.

Lemma has_url_status_true (u : string) (st : Status) (r : RunResult) :
  has_url_status u st r = true <-> SeleniumUtils.url r = u /\ status r = st.
Proof.
  unfold has_url_status. rewrite andb_true_iff, String.eqb_eq.
  destruct (status r), st; cbn; intuition congruence.
Qed.

(** Successful runs have load times that are not negative, so the filter
    on the load times keeps them all. *)
Lemma successful_load_times (results_data : list RunResult) (u : string) :
  Forall well_timed results_data ->
  filter (fun r => Qgeb (load_time_ms r) 0%Q) (successes results_data u)
  = successes results_data u.
Proof.
  intros Hwt. unfold successes.
  induction results_data as [|r rs IH]; [reflexivity|].
  inversion Hwt as [|? ? Hr Hrs]; subst.
  cbn [filter]. destruct (has_url_status u Success r) eqn:Hus.
  - apply has_url_status_true in Hus as [_ Hst].
    cbn [filter]. unfold Qgeb at 1.
    rewrite (proj2 (Qle_bool_iff 0 (load_time_ms r)) (Hr Hst)).
    now rewrite IH.
  - now apply IH.
Qed.

Lemma url_of_success (results_data : list RunResult) (u : string) :
  successes results_data u <> [] ->
  In u (map SeleniumUtils.url results_data).
Proof.
  unfold successes. intros Hne.
  destruct (filter _ results_data) as [|r l] eqn:E; [congruence|].
  assert (Hin : In r (filter (has_url_status u Success) results_data))
    by (rewrite E; now left).
  apply filter_In in Hin as [Hin Hus].
  apply has_url_status_true in Hus as [<- _]. now apply in_map.
Qed.

(** The sample variance is not negative. *)
Lemma sample_variance_nonneg (data : list Q) :
  (2 <= List.length data)%nat -> (0 <= sample_variance data)%Q.
Proof.
  intros Hlen. unfold sample_variance.
  set (c := arithmetic_mean data). clearbody c.
  assert (Hss : (0 <= Qsum (map (fun x => (x - c) * (x - c)) data))%Q).
  { clear Hlen. induction data as [|x l IH]; [apply Qle_refl|].
    cbn [map Qsum fold_right]. fold (Qsum (map (fun x => (x - c) * (x - c)) l))%Q.
    assert (H : forall y : Q, (0 <= y * y)%Q).
    { intros [n d]. unfold Qle, Qmult. cbn [Qnum Qden]. nia. }
    specialize (H (x - c)%Q). lra. }
  apply Qle_shift_div_l; [|lra].
  unfold len. change 1%Q with (inject_Z 1).
  rewrite <- (Qplus_opp_r (inject_Z 1)).
  apply Qplus_lt_l. rewrite <- Zlt_Qlt. lia.
Qed.

(** The load times of the successful runs, when they are doubles. *)
Lemma float_load_times (results_data : list RunResult) (u : string) :
  Forall float_timed results_data ->
  map float_load_time (successes results_data u)
  = map load_time_ms (successes results_data u).
Proof.
  intros Hfl. apply map_ext_in. intros r Hr.
  apply filter_In in Hr as [Hr _].
  rewrite Forall_forall in Hfl. exact (Hfl r Hr).
Qed.

(** C6.  Let every load time be a double, that of a successful result not
    negative, and let [u] have a successful run.  The report lists the
    distinct URLs in ascending order, and the entry of [u] holds, each
    rounded to two decimals, the mean of the successful load times (as
    the nearest double), their minimum, their maximum and their median,
    and a standard deviation that is 0 for one success and, for two or
    more, the double nearest to the square root of the sample
    variance. *)
Theorem summary_statistics (results : list RunResult) (u : string) :
  Forall well_timed results ->
  Forall float_timed results ->
  successes results u <> [] ->
  exists summary entry,
    generate_summary_report results = Returns summary
    /\ StronglySorted String_as_OT.lt (dict_keys summary)
    /\ (forall v, In v (dict_keys summary)
                  <-> In v (map SeleniumUtils.url results))
    /\ dict_get u summary = Some entry
    /\ num_successful_runs entry = List.length (successes results u)
    /\ num_errors entry = List.length (errors results u)
    /\ avg_load_time_ms entry
       = Num (round2 (to_float (arithmetic_mean
                                  (map load_time_ms (successes results u)))))
    /\ (exists lo,
          min_load_time_ms entry = Num (round2 lo)
          /\ In lo (map load_time_ms (successes results u))
          /\ Forall (Qle lo) (map load_time_ms (successes results u)))
    /\ (exists hi,
          max_load_time_ms entry = Num (round2 hi)
          /\ In hi (map load_time_ms (successes results u))
          /\ Forall (fun x => (x <= hi)%Q)
               (map load_time_ms (successes results u)))
    /\ (exists m,
          median_load_time_ms entry = Num (round2 m)
          /\ is_median (map load_time_ms (successes results u)) m)
    /\ (List.length (successes results u) = 1%nat ->
        std_dev_load_time_ms entry = Num 0)
    /\ ((2 <= List.length (successes results u))%nat ->
        std_dev_load_time_ms entry
        = Num (round2 (float_sqrt
                         (sample_variance
                            (map load_time_ms (successes results u)))))
        /\ nearest_to_root
             (sample_variance (map load_time_ms (successes results u)))
             (float_sqrt
                (sample_variance (map load_time_ms (successes results u))))).
Proof.
  intros Hwt Hfl Hne.
  destruct (report_lookup results u (url_of_success results u Hne))
    as [summary [Hrep [Hsorted [Hkeys Hget]]]].
  exists summary, (url_entry results u).
  split; [exact Hrep|]. split; [exact Hsorted|]. split; [exact Hkeys|].
  split; [exact Hget|].
  unfold url_entry.
  rewrite (successful_load_times results u Hwt), (float_load_times results u Hfl).
  set (load_times := map load_time_ms (successes results u)).
  assert (Hlen : List.length load_times = List.length (successes results u))
    by apply length_map.
  destruct load_times as [|x l] eqn:E.
  { destruct (successes results u); [congruence|discriminate E]. }
  rewrite <- E in *.
  assert (Hne' : load_times <> []) by (rewrite E; discriminate).
  cbn [num_successful_runs num_errors avg_load_time_ms min_load_time_ms
         max_load_time_ms median_load_time_ms std_dev_load_time_ms].
  split; [exact Hlen|]. split; [reflexivity|].
  split; [now rewrite (mean_returns load_times Hne')|].
  split.
  { destruct (py_min_spec x l) as [lo [Hlo [Hin Hall]]].
    rewrite <- E in Hlo, Hin, Hall. exists lo. now rewrite Hlo. }
  split.
  { destruct (py_max_spec x l) as [hi [Hhi [Hin Hall]]].
    rewrite <- E in Hhi, Hin, Hall. exists hi. now rewrite Hhi. }
  split.
  { destruct (median_returns load_times Hne') as [m [Hm Hmed]].
    exists m. now rewrite Hm. }
  rewrite Hlen. split.
  - intros ->. reflexivity.
  - intros H2. rewrite (proj2 (Nat.ltb_lt _ _)) by lia.
    rewrite stdev_returns by lia. split; [reflexivity|].
    apply float_sqrt_spec, sample_variance_nonneg. lia.
Qed.

(** C7.  For a URL of the results without a successful run, the five
    statistics are the marker ['N/A'], and [error_messages] lists, in
    order, the messages of the error results of the URL, ['Unknown Error']
    standing for a result without the key; the list is not empty. *)
Theorem summary_without_success (results : list RunResult) (u : string) :
  In u (map SeleniumUtils.url results) ->
  successes results u = [] ->
  exists summary entry,
    generate_summary_report results = Returns summary
    /\ dict_get u summary = Some entry
    /\ num_successful_runs entry = 0%nat
    /\ avg_load_time_ms entry = NA
    /\ min_load_time_ms entry = NA
    /\ max_load_time_ms entry = NA
    /\ median_load_time_ms entry = NA
    /\ std_dev_load_time_ms entry = NA
    /\ error_messages entry
       = map (fun e => match error_message e with
                       | Some message => message
                       | None => Some "Unknown Error"
                       end) (errors results u)
    /\ error_messages entry <> [].
Proof.
  intros Hin Hnone.
  destruct (report_lookup results u Hin) as [summary [Hrep [_ [_ Hget]]]].
  exists summary, (url_entry results u).
  split; [exact Hrep|]. split; [exact Hget|].
  unfold url_entry. rewrite Hnone. cbn [filter map].
  cbn [num_successful_runs avg_load_time_ms min_load_time_ms
         max_load_time_ms median_load_time_ms std_dev_load_time_ms
         error_messages].
  repeat (split; [reflexivity|]).
  apply in_map_iff in Hin as [r [Hurl Hr]].
  assert (Herr : In r (errors results u)).
  { apply filter_In. split; [exact Hr|].
    apply has_url_status_true. split; [exact Hurl|].
    destruct (status r) eqn:Hst; [|reflexivity].
    assert (Hs : In r (successes results u)).
    { apply filter_In. split; [exact Hr|].
      now apply has_url_status_true. }
    rewrite Hnone in Hs. destruct Hs. }
  intros Hempty. destruct (errors results u); [destruct Herr|].
  discriminate Hempty.
Qed.
End Report.


Section ReportWitnesses.
Import Gui GuiSpec.

(** The load times 100, 200, 300: mean 200.00, median 200.00, standard
    deviation 100.00. *)
Example summary_of_three_runs :
  generate_summary_report Samples.three_runs
  = Returns
      [("https://a.example"%string,
        {| url := "https://a.example";
           num_successful_runs := 3;
           num_errors := 0;
           avg_load_time_ms := Num 200;
           min_load_time_ms := Num 100;
           max_load_time_ms := Num 300;
           median_load_time_ms := Num 200;
           std_dev_load_time_ms := Num 100;
           error_messages := [] |})].
Proof. vm_compute. reflexivity. Qed.

(** The load times 100, 100.125, 100.25: the mean 100.125 and the
    standard deviation 0.125 are ties, and go to the even hundredth:
    100.12 and 0.12. *)
Example summary_of_tied_runs :
  generate_summary_report Samples.tied_runs
  = Returns
      [("https://a.example"%string,
        {| url := "https://a.example";
           num_successful_runs := 3;
           num_errors := 0;
           avg_load_time_ms := Num Samples.double_100_12;
           min_load_time_ms := Num 100;
           max_load_time_ms := Num (401 # 4);
           median_load_time_ms := Num Samples.double_100_12;
           std_dev_load_time_ms := Num Samples.double_0_12;
           error_messages := [] |})].
Proof. vm_compute. reflexivity. Qed.

(** The samples are the doubles nearest to the decimals of their
    names. *)
Example sample_doubles :
  to_float (267 # 100) = Samples.double_2_67
  /\ to_float (268 # 100) = Samples.double_2_68
  /\ to_float (1 # 100) = Samples.double_0_01
  /\ to_float (10012 # 100) = Samples.double_100_12
  /\ to_float (12 # 100) = Samples.double_0_12.
Proof. vm_compute. repeat split. Qed.

(** One success: the standard deviation is 0. *)
Example summary_of_one_run :
  option_map std_dev_load_time_ms
    (match generate_summary_report
             [Samples.success_result "https://a.example" 100] with
     | Returns summary => dict_get "https://a.example"%string summary
     | Raises _ => None
     end)
  = Some (Num 0).
Proof. vm_compute. reflexivity. Qed.

(** The same on the two load times 2.67 and 2.68: the double nearest to
    their mean is below 2.675, and the report gives 2.67. *)
Example summary_of_close_runs :
  generate_summary_report Samples.two_close_runs
  = Returns
      [("https://a.example"%string,
        {| url := "https://a.example";
           num_successful_runs := 2;
           num_errors := 0;
           avg_load_time_ms := Num Samples.double_2_67;
           min_load_time_ms := Num Samples.double_2_67;
           max_load_time_ms := Num Samples.double_2_68;
           median_load_time_ms := Num Samples.double_2_67;
           std_dev_load_time_ms := Num Samples.double_0_01;
           error_messages := [] |})].
Proof. vm_compute. reflexivity. Qed.

(** The mean of the two doubles themselves is nearer to 2.68: it is the
    rounding of the mean to a double that brings the report to 2.67. *)
Example mean_of_close_runs :
  round2 (arithmetic_mean [Samples.double_2_67; Samples.double_2_68])
  = Samples.double_2_68
  /\ round2 (to_float
               (arithmetic_mean [Samples.double_2_67; Samples.double_2_68]))
     = Samples.double_2_67.
Proof. vm_compute. split; reflexivity. Qed.

(** Square roots, as [math.sqrt] gives them. *)
Example float_sqrt_values :
  float_sqrt 0 = 0%Q
  /\ float_sqrt 10000 = 100%Q
  /\ float_sqrt (1 # 64) = (1 # 8)%Q
  /\ float_sqrt 2 = (6369051672525773 # 4503599627370496)%Q
  /\ float_sqrt (1 # 20000) = (8152386140832989 # 1152921504606846976)%Q.
Proof. vm_compute. repeat split. Qed.

(** Witness of C6: successful runs of 2.67 ms and 2.68 ms and a failed run
    of one URL, listed after a run of 5 ms of another.  The report lists
    the two URLs in order.  The mean of 2.67 and 2.68 is above 2.675 by
    less than the double nearest to it is below: the report gives 2.67
    for the mean and for the median, and 0.01 for the standard deviation
    0.00707...; the other URL has the standard deviation 0. *)
Lemma summary_statistics_witness :
  exists summary entry_a entry_b,
    generate_summary_report Samples.varied_runs = Returns summary
    /\ dict_keys summary = ["https://a.example"; "https://b.example"]%string
    /\ dict_get "https://a.example"%string summary = Some entry_a
    /\ num_successful_runs entry_a = 2%nat
    /\ num_errors entry_a = 1%nat
    /\ avg_load_time_ms entry_a = Num Samples.double_2_67
    /\ min_load_time_ms entry_a = Num Samples.double_2_67
    /\ max_load_time_ms entry_a = Num Samples.double_2_68
    /\ median_load_time_ms entry_a = Num Samples.double_2_67
    /\ std_dev_load_time_ms entry_a = Num Samples.double_0_01
    /\ dict_get "https://b.example"%string summary = Some entry_b
    /\ num_successful_runs entry_b = 1%nat
    /\ num_errors entry_b = 0%nat
    /\ avg_load_time_ms entry_b = Num 5
    /\ std_dev_load_time_ms entry_b = Num 0.
Proof.
  assert (Hwt : Forall GuiSpec.well_timed Samples.varied_runs)
    by (repeat constructor; intros _; vm_compute; discriminate).
  assert (Hfl : Forall GuiSpec.float_timed Samples.varied_runs)
    by (repeat constructor).
  destruct (summary_statistics Samples.varied_runs "https://a.example"
              Hwt Hfl)
    as (summary & entry_a & Hrep & Hsorted & Hkeys & Hget & Hn & He & Havg
        & Hmin & Hmax & Hmed & _ & Hdev);
    [vm_compute; discriminate|].
  destruct (summary_statistics Samples.varied_runs "https://b.example"
              Hwt Hfl)
    as (summary' & entry_b & Hrep' & _ & _ & Hget' & Hn' & He' & Havg'
        & _ & _ & _ & Hone & _);
    [vm_compute; discriminate|].
  rewrite Hrep in Hrep'. injection Hrep' as <-.
  exists summary, entry_a, entry_b.
  split; [exact Hrep|].
  split.
  { clear -Hrep. vm_compute in Hrep. injection Hrep as <-. reflexivity. }
  split; [exact Hget|]. split; [exact Hn|]. split; [exact He|].
  split; [rewrite Havg; vm_compute; reflexivity|].
  change (map load_time_ms
            (successes Samples.varied_runs "https://a.example"))
    with [Samples.double_2_67; Samples.double_2_68] in *.
  split.
  { destruct Hmin as [lo [-> [[<-|[<-|[]]] Hall]]].
    - vm_compute. reflexivity.
    - inversion Hall as [|? ? Hle _]. vm_compute in Hle. now elim Hle. }
  split.
  { destruct Hmax as [hi [-> [[<-|[<-|[]]] Hall]]].
    - inversion Hall as [|? ? _ Hall']. inversion Hall' as [|? ? Hle _].
      vm_compute in Hle. now elim Hle.
    - vm_compute. reflexivity. }
  split.
  { destruct Hmed as [m [-> [sorted [Hperm [Hsort ->]]]]].
    apply Permutation_sym, Permutation_length_2_inv in Hperm
      as [->| ->].
    - vm_compute. reflexivity.
    - inversion Hsort as [|? ? _ Hall]. inversion Hall as [|? ? Hle _].
      vm_compute in Hle. now elim Hle. }
  split.
  { destruct Hdev as [-> _]; [vm_compute; lia|]. vm_compute. reflexivity. }
  split; [exact Hget'|]. split; [exact Hn'|]. split; [exact He'|].
  split; [rewrite Havg'; vm_compute; reflexivity|].
  apply Hone. reflexivity.
Defined.

(** Witness of C7: a URL with two failed runs, one of them without the
    key [error_message]. *)
Lemma summary_without_success_witness :
  exists summary entry,
    generate_summary_report Samples.only_errors = Returns summary
    /\ dict_get "https://b.example"%string summary = Some entry
    /\ num_successful_runs entry = 0%nat
    /\ avg_load_time_ms entry = NA
    /\ min_load_time_ms entry = NA
    /\ max_load_time_ms entry = NA
    /\ median_load_time_ms entry = NA
    /\ std_dev_load_time_ms entry = NA
    /\ error_messages entry
       = [Some "Timeout after 60 seconds waiting for page load (Combined strategy)."%string;
          Some "Unknown Error"%string]
    /\ error_messages entry <> [].
Proof.
  apply (summary_without_success Samples.only_errors "https://b.example").
  - vm_compute. now left.
  - reflexivity.
Defined.
End ReportWitnesses.


(* ================================================================= *)
(** ** JSON *)

Section Json.

(** Induction on a value, with the hypothesis for the elements of a list
    and for the values of a dictionary. *)
Lemma PyVal_nested_ind (P : PyVal -> Prop) :
  P PyNone ->
  (forall b, P (PyBool b)) ->
  (forall z, P (PyInt z)) ->
  (forall q, P (PyFloat q)) ->
  (forall s, P (PyStr s)) ->
  (forall l, Forall P l -> P (PyList l)) ->
  (forall d, Forall (fun kv => P (snd kv)) d -> P (PyDict d)) ->
  forall v, P v.
Proof.
  intros HNone HBool HInt HFloat HStr HList HDict.
  fix IH 1. intros [| b | z | q | s | l | d].
  - exact HNone.
  - apply HBool.
  - apply HInt.
  - apply HFloat.
  - apply HStr.
  - apply HList. induction l as [|x l IHl]; constructor; [apply IH|exact IHl].
  - apply HDict. induction d as [|[k x] d IHd]; constructor;
      [apply IH|exact IHd].
Qed.

Lemma unique_NoDup (keys : list string) :
  unique keys = true <-> NoDup keys.
Proof.
  induction keys as [|k keys IH]; cbn [unique].
  - split; [constructor|reflexivity].
  - rewrite andb_true_iff, negb_true_iff, IH. split.
    + intros [Hnot Hnd]. constructor; [|exact Hnd].
      intros Hin. assert (Hex : existsb (String.eqb k) keys = true).
      { apply existsb_exists. exists k. split; [exact Hin|apply String.eqb_refl]. }
      congruence.
    + intros Hnd. inversion Hnd as [|? ? Hnotin Hnd']; subst.
      split; [|exact Hnd'].
      destruct (existsb (String.eqb k) keys) eqn:Hex; [|reflexivity].
      apply existsb_exists in Hex as [k' [Hin Heq]].
      apply String.eqb_eq in Heq as <-. contradiction.
Qed.

(** Reading back the members written for a dictionary gives the
    dictionary. *)
Lemma load_members (d : list (string * PyVal)) :
  Forall (fun kv => json_load (json_dump (snd kv)) = snd kv) d ->
  forall acc,
    NoDup (map fst acc ++ map fst d) ->
    fold_left (fun acc kv => dict_set (fst kv) (json_load (snd kv)) acc)
      (map (fun kv => (fst kv, json_dump (snd kv))) d) acc
    = acc ++ d.
Proof.
  induction 1 as [|[k v] d Hv Hd IH]; intros acc Hnd; cbn [map fold_left].
  - now rewrite app_nil_r.
  - cbn [fst snd] in *. rewrite Hv.
    rewrite dict_set_new.
    + rewrite IH; [now rewrite <- app_assoc|].
      rewrite map_app. cbn [map fst]. now rewrite <- app_assoc.
    + apply NoDup_remove_2 in Hnd. intros Hin. apply Hnd.
      apply in_or_app. now left.
Qed.

(** What [json.dump] writes, [json.load] reads back. *)
Lemma json_round_trip (v : PyVal) :
  well_keyed v = true -> json_load (json_dump v) = v.
Proof.
  induction v as [| b | z | q | s | l IHl | d IHd] using PyVal_nested_ind;
    intros Hwk; try reflexivity.
  - cbn [json_dump json_load]. f_equal. rewrite map_map.
    cbn [well_keyed] in Hwk. rewrite forallb_forall in Hwk.
    rewrite Forall_forall in IHl.
    rewrite <- (map_id l) at 2. apply map_ext_in.
    intros x Hx. apply IHl; auto.
  - cbn [json_dump json_load]. f_equal.
    cbn [well_keyed] in Hwk. apply andb_true_iff in Hwk as [Hu Hall].
    apply unique_NoDup in Hu. rewrite forallb_forall in Hall.
    rewrite (load_members d); [reflexivity| |exact Hu].
    rewrite Forall_forall in *. intros kv Hkv. apply IHd; auto.
Qed.
End Json.


(* ================================================================= *)
(** ** The JSON export *)

Section JsonExport.
Import Gui GuiSpec.

Lemma py_js_well_keyed (v : JsVal) : well_keyed (py_js v) = true.
Proof. now destruct v. Qed.

Lemma py_navigation_timing_well_keyed (t : NavTimingField) :
  well_keyed (py_navigation_timing t) = true.
Proof.
  destruct t as [|t|msg]; try reflexivity.
  unfold py_navigation_timing.
  cbn [well_keyed map fst snd forallb].
  rewrite !py_js_well_keyed. reflexivity.
Qed.

Lemma py_result_well_keyed (r : RunResult) :
  config_well_keyed r -> well_keyed (py_result r) = true.
Proof.
  unfold config_well_keyed.
  destruct r as [u lt st em nt ts rn cfg]. cbn [SeleniumUtils.config].
  intros Hcfg. unfold py_result.
  cbn [SeleniumUtils.url load_time_ms status error_message
         navigation_timing timestamp run_number SeleniumUtils.config].
  assert (Hst : well_keyed (py_status st) = true) by now destruct st.
  assert (Hem : forall m, well_keyed (py_opt_str m) = true)
    by (now intros [m|]).
  destruct em as [m|], nt as [t|], rn as [n|], cfg as [c|];
    cbn [optional_key app well_keyed map fst snd forallb];
    rewrite ?Hst, ?Hem, ?py_navigation_timing_well_keyed;
    try (change (unique (map fst c)
                 && forallb (fun kv => well_keyed (snd kv)) c)
           with (well_keyed (PyDict c));
         rewrite Hcfg);
    reflexivity.
Qed.

Lemma py_url_summary_well_keyed (e : UrlSummary) :
  well_keyed (py_url_summary e) = true.
Proof.
  destruct e as [u n1 n2 a b c d f msgs]. cbn.
  destruct a, b, c, d, f; cbn; rewrite ?andb_true_r;
    induction msgs as [|[m|] msgs IH]; cbn; auto.
Qed.

Lemma py_summary_well_keyed (summary : Summary) :
  NoDup (dict_keys summary) -> well_keyed (py_summary summary) = true.
Proof.
  intros Hnd. unfold py_summary. cbn [well_keyed].
  apply andb_true_iff. split.
  - apply unique_NoDup. rewrite map_map. exact Hnd.
  - rewrite forallb_forall. intros kv Hin.
    apply in_map_iff in Hin as [[k e] [<- _]].
    apply py_url_summary_well_keyed.
Qed.

Lemma without_results_well_keyed (settings : PyDictT) :
  well_keyed (PyDict settings) = true ->
  well_keyed (PyDict (without_results settings)) = true.
Proof.
  cbn [well_keyed]. rewrite !andb_true_iff, !unique_NoDup, !forallb_forall.
  intros [Hnd Hall]. unfold without_results. split.
  - clear Hall. induction settings as [|[k v] d IH]; [constructor|].
    cbn [map fst] in Hnd. inversion Hnd as [|? ? Hnotin Hnd']; subst.
    cbn [filter fst]. destruct (negb (k =? "results")%string); [|now apply IH].
    cbn [map fst]. constructor; [|now apply IH].
    intros Hin. apply Hnotin. apply in_map_iff in Hin as [kv [Hk Hkv]].
    apply filter_In in Hkv as [Hkv _]. apply in_map_iff. eauto.
  - intros kv Hin. apply filter_In in Hin as [Hin _]. now apply Hall.
Qed.

Lemma without_results_lookup (settings : PyDictT) (k : string) :
  dict_get k (without_results settings)
  = if String.eqb k "results" then None else dict_get k settings.
Proof.
  unfold without_results.
  induction settings as [|[k' v] d IH]; cbn [filter fst dict_get].
  - now destruct (k =? "results")%string.
  - destruct (String.eqb_spec k' "results") as [->|Hne]; cbn [negb].
    + rewrite IH. now destruct (String.eqb k "results").
    + cbn [dict_get]. destruct (String.eqb_spec k k') as [Hkk'|Hkk'].
      * subst k'. now rewrite (proj2 (String.eqb_neq k "results") Hne).
      * exact IH.
Qed.

Lemma export_well_keyed (a b c : PyVal) :
  well_keyed a = true -> well_keyed b = true -> well_keyed c = true ->
  well_keyed (PyDict [("summary_report"%string, a);
                      ("raw_results"%string, b);
                      ("test_configuration"%string, c)]) = true.
Proof.
  intros Ha Hb Hc. cbn [well_keyed map fst snd forallb].
  now rewrite Ha, Hb, Hc.
Qed.

(** *** Reading back what the export wrote *)

Lemma read_js_py_js (v : JsVal) : read_js (py_js v) = Some v.
Proof. now destruct v. Qed.

Lemma read_navigation_timing_py (t : NavTimingField) :
  read_navigation_timing (py_navigation_timing t) = Some t.
Proof.
  destruct t as [|t|msg]; [reflexivity| |reflexivity].
  destruct t. unfold py_navigation_timing, read_navigation_timing, entry.
  cbn [dict_get String.eqb Ascii.eqb Bool.eqb and_then
       navigation_start fetch_start dns_lookup_time connect_time ttfb
       dom_interactive dom_content_loaded dom_complete load_event_start
       load_event_end total_load_from_nav_start dom_processing_time].
  rewrite !read_js_py_js. reflexivity.
Qed.

Lemma read_status_py (st : Status) : read_status (py_status st) = Some st.
Proof. now destruct st. Qed.

Lemma read_opt_str_py (m : option string) :
  read_opt_str (py_opt_str m) = Some m.
Proof. now destruct m. Qed.

Lemma read_nat_py (n : nat) : read_nat (py_nat n) = Some n.
Proof.
  unfold read_nat, py_nat.
  rewrite (proj2 (Z.leb_le 0 (Z.of_nat n))) by lia.
  now rewrite Nat2Z.id.
Qed.

(** A result is read back from its dictionary. *)
Lemma read_result_py (r : RunResult) : read_result (py_result r) = Some r.
Proof.
  destruct r as [u lt st em nt ts rn cfg].
  unfold py_result, read_result, entry, optional_entry.
  cbn [SeleniumUtils.url load_time_ms status error_message
         navigation_timing timestamp run_number SeleniumUtils.config].
  destruct em as [m|], nt as [t|], rn as [n|], cfg as [c|];
    cbn [optional_key app dict_get String.eqb Ascii.eqb Bool.eqb and_then
         read_str read_number read_dict option_map];
    rewrite ?read_status_py, ?read_opt_str_py, ?read_navigation_timing_py,
      ?read_nat_py;
    reflexivity.
Qed.

Lemma read_all_map {A B} (write : B -> A) (read : A -> option B)
    (l : list B) :
  (forall x, read (write x) = Some x) ->
  read_all read (map write l) = Some l.
Proof.
  intros H. induction l as [|x l IH]; [reflexivity|].
  cbn [map read_all]. now rewrite H, IH.
Qed.

Lemma read_stat_py (x : Stat) : read_stat (py_stat x) = Some x.
Proof. now destruct x. Qed.

(** An entry of the summary is read back from its dictionary. *)
Lemma read_url_summary_py (e : UrlSummary) :
  read_url_summary (py_url_summary e) = Some e.
Proof.
  destruct e as [u n1 n2 a b c d f msgs].
  unfold py_url_summary, read_url_summary, entry.
  cbn [url num_successful_runs num_errors avg_load_time_ms
         min_load_time_ms max_load_time_ms median_load_time_ms
         std_dev_load_time_ms error_messages
         dict_get String.eqb Ascii.eqb Bool.eqb and_then read_str
         read_list].
  rewrite !read_nat_py, !read_stat_py.
  rewrite (read_all_map py_opt_str read_opt_str msgs read_opt_str_py).
  reflexivity.
Qed.

(** A summary is read back from its dictionary. *)
Lemma read_summary_py (summary : Summary) :
  read_summary (py_summary summary) = Some summary.
Proof.
  unfold read_summary, py_summary.
  apply (read_all_map (fun kv => (fst kv, py_url_summary (snd kv)))).
  intros [k e]. cbn [fst snd]. now rewrite read_url_summary_py.
Qed.

(** C8.  For results to export and dictionaries with one entry per key,
    the JSON export writes a document that reads back as the object with
    exactly the members [summary_report], [raw_results] and
    [test_configuration].  [raw_results] is the list of the dictionaries
    of the results in memory, and these stand one for one and in order
    for the results: read by its keys, whatever their order, each gives
    back its result, entry for entry.  [summary_report] stands in the
    same way for the summary, and [test_configuration] holds the settings
    without the key ['results']. *)
Theorem export_json_round_trip
    (results : list RunResult) (settings : PyDictT) :
  results <> [] ->
  well_keyed (PyDict settings) = true ->
  Forall config_well_keyed results ->
  exists summary document,
    generate_summary_report results = Returns summary
    /\ export_report_json results settings = Some document
    /\ json_load document
       = PyDict [("summary_report"%string, py_summary summary);
                 ("raw_results"%string, PyList (map py_result results));
                 ("test_configuration"%string,
                  PyDict (without_results settings))]
    /\ map read_result (map py_result results) = map Some results
    /\ read_summary (py_summary summary) = Some summary
    /\ (forall k,
          dict_get k (without_results settings)
          = if String.eqb k "results" then None else dict_get k settings).
Proof.
  intros Hne Hsettings Hresults.
  pose proof (report_closed_form results) as Hrep.
  destruct (sorted_set_spec (map SeleniumUtils.url results)) as [_ [Hnd _]].
  eexists. eexists. split; [exact Hrep|].
  unfold export_report_json, export_data. rewrite Hrep.
  destruct results as [|r rs]; [congruence|].
  cbn [option_map]. split; [reflexivity|]. split.
  - apply json_round_trip, export_well_keyed.
    + apply py_summary_well_keyed. now rewrite dict_keys_map.
    + cbn [well_keyed]. rewrite forallb_forall. intros v Hv.
      apply in_map_iff in Hv as [x [<- Hx]].
      apply py_result_well_keyed.
      rewrite Forall_forall in Hresults. now apply Hresults.
    + now apply without_results_well_keyed.
  - split.
    + rewrite map_map. apply map_ext. intros x. apply read_result_py.
    + split; [apply read_summary_py|apply without_results_lookup].
Qed.
End JsonExport.


(* ================================================================= *)
(** ** The settings store *)

Section Settings.
Import SettingsManager SettingsSpec.

Lemma dict_get_set {V : Type} (k k' : string) (v : V)
    (d : list (string * V)) :
  dict_get k' (dict_set k v d)
  = if String.eqb k' k then Some v else dict_get k' d.
Proof.
  induction d as [|[k0 v0] d IH]; cbn [dict_set dict_get].
  - reflexivity.
  - destruct (String.eqb_spec k k0) as [->|Hne]; cbn [dict_get].
    + now destruct (String.eqb k' k0).
    + destruct (String.eqb_spec k' k0) as [->|Hne'].
      * now rewrite (proj2 (String.eqb_neq k0 k)) by congruence.
      * exact IH.
Qed.

(** The loop over the defaults, on a dictionary. *)
Lemma fill_defaults_dict :
  forall (items : PyDictT) (d : PyDictT) (updated : bool),
  exists d',
    fill_defaults items (PyDict d) updated
    = Returns (PyDict d',
               updated || existsb (fun kv => negb (dict_mem (fst kv) d)) items)
    /\ (forall k,
          dict_get k d'
          = match dict_get k d with
            | Some v => Some v
            | None => dict_get k items
            end)
    /\ (existsb (fun kv => negb (dict_mem (fst kv) d)) items = false ->
        d' = d).
Proof.
  induction items as [|[key value] items IH]; intros d updated.
  - exists d. cbn. rewrite orb_false_r. split; [reflexivity|]. split.
    + intros k. now destruct (dict_get k d).
    + reflexivity.
  - cbn [fill_defaults py_in existsb fst].
    destruct (dict_mem key d) eqn:Hmem; cbn [negb orb].
    + destruct (IH d updated) as [d' [Hrun [Hget Hsame]]].
      exists d'. split; [exact Hrun|]. split; [|exact Hsame].
      intros k. rewrite Hget. destruct (dict_get k d) eqn:Hk; [reflexivity|].
      cbn [dict_get]. destruct (String.eqb_spec k key) as [->|_];
        [|reflexivity].
      unfold dict_mem in Hmem. rewrite Hk in Hmem. discriminate Hmem.
    + cbn [py_setitem].
      destruct (IH (dict_set key value d) true) as [d' [Hrun [Hget _]]].
      exists d'. rewrite orb_true_r. split; [exact Hrun|].
      split; [|discriminate].
      intros k. rewrite Hget, dict_get_set. cbn [dict_get].
      destruct (String.eqb_spec k key) as [->|_].
      * unfold dict_mem in Hmem. now destruct (dict_get key d).
      * reflexivity.
Qed.

Lemma save_settings_step (settings : PyVal) (disk : Disk) :
  save_settings settings disk = (Returns tt, written settings disk).
Proof.
  unfold save_settings, written, try_except, bind, read, call, update, open_.
  now destruct (write_error disk).
Qed.

(** The files that [load_settings] handles.  Loading a file that holds a
    JSON object returns it with the defaults for its missing keys; when a
    key was missing and the file can be written, the file then holds what
    was returned; otherwise the disk stays as it is (a failed write is
    only logged).  Loading a file that is not JSON, or that cannot be
    opened, returns the defaults and leaves the disk alone.  Loading
    without a file returns the defaults, and the file holds them when it
    can be written. *)
Lemma load_settings_handled :
  (forall disk j d,
      file disk = Some (JsonText j) ->
      json_load j = PyDict d ->
      read_error disk = None ->
      exists d',
        back_filled d d'
        /\ fst (load_settings disk) = Returns (PyDict d')
        /\ (lacks_default d = false ->
            d' = d /\ snd (load_settings disk) = disk)
        /\ (lacks_default d = true ->
            match write_error disk with
            | None =>
                snd (load_settings disk)
                = {| file := Some (JsonText (json_dump (PyDict d')));
                     read_error := None; write_error := None |}
            | Some _ => snd (load_settings disk) = disk
            end))
  /\ (forall disk why,
        file disk = Some (Unparseable why) ->
        load_settings disk = (Returns (PyDict DEFAULT_SETTINGS), disk))
  /\ (forall disk content msg,
        file disk = Some content ->
        read_error disk = Some msg ->
        load_settings disk = (Returns (PyDict DEFAULT_SETTINGS), disk))
  /\ (forall disk,
        file disk = None ->
        fst (load_settings disk) = Returns (PyDict DEFAULT_SETTINGS)
        /\ match write_error disk with
           | None =>
               snd (load_settings disk)
               = {| file := Some (JsonText
                                    (json_dump (PyDict DEFAULT_SETTINGS)));
                    read_error := read_error disk; write_error := None |}
           | Some _ => snd (load_settings disk) = disk
           end).
Proof.
  split; [|split; [|split]].
  - intros disk j d Hfile Hjson Hread.
    destruct (fill_defaults_dict DEFAULT_SETTINGS d false)
      as [d' [Hfill [Hget Hsame]]].
    exists d'. split; [exact Hget|].
    fold (lacks_default d) in Hfill, Hsame. cbn [orb] in Hfill.
    destruct disk as [f re we]. cbn [file read_error write_error] in *.
    subst f re.
    unfold load_settings, try_except, bind, read, call, ret, open_.
    cbn [file read_error]. rewrite Hjson, Hfill.
    destruct (lacks_default d).
    + rewrite save_settings_step. unfold written. cbn [write_error].
      destruct we; (split; [reflexivity|]);
        (split; [discriminate|]); intros _; reflexivity.
    + split; [reflexivity|]. split; [|discriminate].
      intros _. split; [now apply Hsame|reflexivity].
  - intros disk why Hfile.
    destruct disk as [f re we]. cbn [file] in Hfile. subst f.
    unfold load_settings, try_except, bind, read, call, ret, raise, open_.
    cbn [file read_error]. now destruct re.
  - intros disk content msg Hfile Hread.
    destruct disk as [f re we]. cbn [file read_error] in Hfile, Hread.
    subst f re.
    unfold load_settings, try_except, bind, read, call, ret, raise, open_.
    reflexivity.
  - intros disk Hfile.
    destruct disk as [f re we]. cbn [file] in Hfile. subst f.
    unfold load_settings, bind, read, ret. cbn [file].
    rewrite save_settings_step. unfold written. cbn [write_error read_error].
    destruct we; split; reflexivity.
Qed.

(** C9.  Two settings files that [load_settings] does not handle, though
    its docstring promises the defaults for a file that is "invalid".
    Bytes that are not text raise a [UnicodeDecodeError] when the file is
    read, and a JSON array raises a [TypeError] in the loop over the
    defaults; the handler takes [json.JSONDecodeError] and [IOError]
    only, so [load_settings] raises, and returns no settings.  The file
    stays as it is. *)
Theorem load_settings_raises_on_invalid_files :
  load_settings Samples.undecodable_file
  = (Raises (UnicodeDecodeError
               "'utf-8' codec can't decode byte 0xff in position 0: invalid start byte"),
     Samples.undecodable_file)
  /\ load_settings Samples.empty_array_file
     = (Raises (TypeError "list indices must be integers or slices, not str"),
        Samples.empty_array_file).
Proof. split; reflexivity. Qed.
End Settings.

Section ExportWitness.
Import Gui GuiSpec.

(** Witness of C8: a success, an error, and the settings in use. *)
Lemma export_json_round_trip_witness :
  exists document,
    export_report_json Samples.mixed_runs Samples.settings_in_use
    = Some document
    /\ json_load document
       = PyDict
           [("summary_report"%string,
             PyDict
               [("https://a.example"%string,
                 PyDict [("url"%string, PyStr "https://a.example");
                         ("num_successful_runs"%string, PyInt 1);
                         ("num_errors"%string, PyInt 0);
                         ("avg_load_time_ms"%string, PyFloat 100);
                         ("min_load_time_ms"%string, PyFloat 100);
                         ("max_load_time_ms"%string, PyFloat 100);
                         ("median_load_time_ms"%string, PyFloat 100);
                         ("std_dev_load_time_ms"%string, PyFloat 0);
                         ("error_messages"%string, PyList [])]);
                ("https://b.example"%string,
                 PyDict [("url"%string, PyStr "https://b.example");
                         ("num_successful_runs"%string, PyInt 0);
                         ("num_errors"%string, PyInt 1);
                         ("avg_load_time_ms"%string, PyStr "N/A");
                         ("min_load_time_ms"%string, PyStr "N/A");
                         ("max_load_time_ms"%string, PyStr "N/A");
                         ("median_load_time_ms"%string, PyStr "N/A");
                         ("std_dev_load_time_ms"%string, PyStr "N/A");
                         ("error_messages"%string,
                          PyList [PyStr "Timeout after 60 seconds waiting for page load (Combined strategy)."])])]);
            ("raw_results"%string,
             PyList
               [PyDict [("url"%string, PyStr "https://a.example");
                        ("load_time_ms"%string, PyFloat 100);
                        ("status"%string, PyStr "Success");
                        ("error_message"%string, PyNone);
                        ("navigation_timing"%string, PyNone);
                        ("timestamp"%string, PyFloat 1700000000);
                        ("run_number"%string, PyInt 1);
                        ("config"%string, PyDict [])];
                PyDict [("url"%string, PyStr "https://b.example");
                        ("load_time_ms"%string, PyFloat 60000);
                        ("status"%string, PyStr "Error");
                        ("error_message"%string,
                         PyStr "Timeout after 60 seconds waiting for page load (Combined strategy).");
                        ("navigation_timing"%string, PyNone);
                        ("timestamp"%string, PyFloat 1700000000);
                        ("run_number"%string, PyInt 1);
                        ("config"%string, PyDict [])]]);
            ("test_configuration"%string,
             PyDict
               [("urls"%string,
                 PyList [PyStr "https://www.google.com";
                         PyStr "https://www.wikipedia.org";
                         PyStr "https://github.com"]);
                ("runs_per_url"%string, PyInt 3);
                ("browser"%string, PyStr "Chrome");
                ("headless"%string, PyBool false);
                ("timeout_seconds"%string, PyInt 60);
                ("wait_strategy"%string, PyStr "Combined");
                ("anti_detection_enabled"%string, PyBool true);
                ("export_format"%string, PyStr "CSV");
                ("run_dns_benchmark"%string, PyBool false)])].
Proof.
  destruct (export_json_round_trip Samples.mixed_runs Samples.settings_in_use)
    as (summary & document & Hrep & Hdoc & Hload & _).
  - discriminate.
  - reflexivity.
  - repeat constructor.
  - exists document. split; [exact Hdoc|]. rewrite Hload.
    vm_compute in Hrep. injection Hrep as <-.
    vm_compute. reflexivity.
Defined.
End ExportWitness.

(* ================================================================= *)
(** * Further properties of the code *)

(* ================================================================= *)
(** ** The sampler, continued *)

Section SamplerTiming.
Variables (driver : Session) (url : string) (timeout : Z)
          (wait_strategy : string).

Local Open Scope string_scope.

(** The result of a page load that completes, given what the inner [try]
    leaves in [navigation_timing]. *)
Lemma measure_success_timing (u : unit) (nav : option NavTimingField) :
  Spec.load_outcome driver wait_strategy = Returns u ->
  try_except (get_detailed_timing driver)
    (fun e => Some (update (set_navigation_timing (NavError (exc_str e)))))
    {| SeleniumUtils.url := url; load_time_ms := elapsed_ms driver;
       status := Success;
       error_message := Some None;
       navigation_timing := Some NavNone;
       timestamp := time_time driver;
       run_number := None; SeleniumUtils.config := None |}
  = (Returns tt,
     {| SeleniumUtils.url := url; load_time_ms := elapsed_ms driver;
        status := Success;
        error_message := Some None;
        navigation_timing := nav;
        timestamp := time_time driver;
        run_number := None; SeleniumUtils.config := None |}) ->
  measure_load_time driver url timeout wait_strategy
  = Returns {| SeleniumUtils.url := url; load_time_ms := elapsed_ms driver;
               status := Success;
               error_message := Some None;
               navigation_timing := nav;
               timestamp := time_time driver;
               run_number := None; SeleniumUtils.config := None |}.
Proof.
  intros H Hnav.
  set (r1 := {| SeleniumUtils.url := url; load_time_ms := elapsed_ms driver;
                 status := Success;
                 error_message := Some None;
                 navigation_timing := Some NavNone;
                 timestamp := time_time driver;
                 run_number := None; SeleniumUtils.config := None |}) in *.
  assert (Hrest : forall r0 : RunResult, 
     r0 = {| SeleniumUtils.url := url; load_time_ms := (-1)%Q;
                 status := Error;
                 error_message := Some None;
                 navigation_timing := Some NavNone;
                 timestamp := time_time driver;
                 run_number := None; SeleniumUtils.config := None |} ->
     (update (set_load_time_ms (elapsed_ms driver));;;
              update (set_status Success);;;
              try_except (get_detailed_timing driver)
                (fun e : Exc =>
                 Some
                   (update (set_navigation_timing (NavError (exc_str e))))))%stmt r0
     = (Returns tt, {| SeleniumUtils.url := url; load_time_ms := elapsed_ms driver;
                 status := Success;
                 error_message := Some None;
                 navigation_timing := nav;
                 timestamp := time_time driver;
                 run_number := None; SeleniumUtils.config := None |})).
  { intros r0 ->. unfold bind at 1 2, update at 1 2.
    unfold set_load_time_ms, set_status; cbn [SeleniumUtils.url load_time_ms status error_message navigation_timing timestamp run_number SeleniumUtils.config].
    fold r1. exact Hnav. }
  unfold Spec.load_outcome in H.
  unfold measure_load_time, try_finally, try_except at 1, wait_for_load.
  unfold bind at 1 2 3. unfold call at 1.
  destruct (driver_get driver) as [u0|e0]; [|discriminate].
  assert (Hfin : forall nav', (let (o, results) :=
     let (o0, s'') :=
       (results <- read;;
        (if
          Qltb (load_time_ms results) 0 &&
          status_eqb (status results) Error
         then update (set_load_time_ms (elapsed_ms driver))
         else ret tt))%stmt {| SeleniumUtils.url := url; load_time_ms := elapsed_ms driver;
                 status := Success;
                 error_message := Some None;
                 navigation_timing := nav';
                 timestamp := time_time driver;
                 run_number := None; SeleniumUtils.config := None |} in
     match o0 with
     | Returns _ => (Returns tt, s'')
     | Raises e => (Raises e, s'')
     end in
   match o with
   | Returns _ => Returns results
   | Raises e => Raises e
   end) = Returns {| SeleniumUtils.url := url; load_time_ms := elapsed_ms driver;
                 status := Success;
                 error_message := Some None;
                 navigation_timing := nav';
                 timestamp := time_time driver;
                 run_number := None; SeleniumUtils.config := None |}).
  { intros nav'. unfold bind, read, update, ret. cbn [load_time_ms status status_eqb].
    rewrite Bool.andb_false_r. reflexivity. }
  destruct (wait_strategy =? "ReadyState").
  { unfold call at 1. rewrite H. cbv beta iota. 
    rewrite (Hrest _ eq_refl). apply Hfin. }
  destruct (wait_strategy =? "LoadEventEnd").
  { unfold call at 1. rewrite H. cbv beta iota.
    rewrite (Hrest _ eq_refl). apply Hfin. }
  destruct (wait_strategy =? "Combined"); [|discriminate].
  unfold call at 1 2.
  destruct (wait_ready_state driver) as [v|e1]; [|discriminate].
  rewrite H. cbv beta iota. rewrite (Hrest _ eq_refl). apply Hfin.
Qed.

Lemma timing_of_numbers (td : list (string * JsVal)) (n : Z) :
  navigation_timing_script driver = Returns (Some td) ->
  td <> [] ->
  tget "navigationStart" td = JsNum n -> (0 < n)%Z ->
  Forall (fun k => tget k td <> JsNull) TimingSpec.subtracted ->
  try_except (get_detailed_timing driver)
    (fun e => Some (update (set_navigation_timing (NavError (exc_str e)))))
    (TimingSpec.loaded driver url)
  = (Returns tt,
     set_navigation_timing (NavData (TimingSpec.breakdown td)) (TimingSpec.loaded driver url)).
Proof.
  intros Hscript Hne Hnav Hpos Hsub.
  unfold try_except, get_detailed_timing, bind at 1, call at 1.
  rewrite Hscript. destruct td as [|kv td']; [congruence|].
  set (td := kv :: td') in *.
  unfold bind at 1, call at 1. rewrite Hnav. cbn [js_gt0].
  rewrite (proj2 (Z.ltb_lt 0 n) Hpos).
  unfold TimingSpec.subtracted in Hsub.
  repeat match goal with
         | H : Forall _ (_ :: _) |- _ =>
             let H1 := fresh "Hk" in
             let H2 := fresh "Hrest" in
             inversion H as [|? ? H1 H2]; subst; clear H; rename H2 into Hsub'
         end.
  unfold TimingSpec.breakdown. rewrite Hnav.
  destruct (tget "domainLookupEnd" td) as [z1|]; [|congruence].
  destruct (tget "domainLookupStart" td) as [z2|]; [|congruence].
  destruct (tget "connectEnd" td) as [z3|]; [|congruence].
  destruct (tget "connectStart" td) as [z4|]; [|congruence].
  destruct (tget "responseStart" td) as [z5|]; [|congruence].
  destruct (tget "requestStart" td) as [z6|]; [|congruence].
  unfold bind, call, ret, update. cbn [js_sub TimingSpec.num].
  destruct (tget "loadEventEnd" td) as [z7|]; cbn [js_truthy js_sub];
    [destruct (negb (z7 =? 0)%Z)|];
    (destruct (tget "domInteractive" td) as [z8|]; cbn [js_truthy andb];
     [destruct (negb (z8 =? 0)%Z); cbn [andb]|];
     try reflexivity;
     destruct (tget "domComplete" td) as [z9|]; cbn [js_truthy js_sub];
     [destruct (negb (z9 =? 0)%Z)|]; reflexivity).
Qed.

Lemma timing_without_data :
  navigation_timing_script driver = Returns None
  \/ navigation_timing_script driver = Returns (Some []) ->
  try_except (get_detailed_timing driver)
    (fun e => Some (update (set_navigation_timing (NavError (exc_str e)))))
    (TimingSpec.loaded driver url)
  = (Returns tt, (TimingSpec.loaded driver url)).
Proof.
  intros [H|H];
    unfold try_except, get_detailed_timing, bind at 1, call at 1;
    now rewrite H.
Qed.

Lemma timing_without_start (td : list (string * JsVal)) (n : Z) :
  navigation_timing_script driver = Returns (Some td) ->
  tget "navigationStart" td = JsNum n -> (n <= 0)%Z ->
  try_except (get_detailed_timing driver)
    (fun e => Some (update (set_navigation_timing (NavError (exc_str e)))))
    (TimingSpec.loaded driver url)
  = (Returns tt, (TimingSpec.loaded driver url)).
Proof.
  intros Hscript Hnav Hpos.
  unfold try_except, get_detailed_timing, bind at 1, call at 1.
  rewrite Hscript. destruct td as [|kv td']; [reflexivity|].
  unfold bind at 1, call at 1. rewrite Hnav. cbn [js_gt0].
  now rewrite (proj2 (Z.ltb_ge 0 n) Hpos).
Qed.

Lemma timing_with_null_start (td : list (string * JsVal)) :
  navigation_timing_script driver = Returns (Some td) ->
  td <> [] ->
  tget "navigationStart" td = JsNull ->
  try_except (get_detailed_timing driver)
    (fun e => Some (update (set_navigation_timing (NavError (exc_str e)))))
    (TimingSpec.loaded driver url)
  = (Returns tt,
     set_navigation_timing
       (NavError "'>' not supported between instances of 'NoneType' and 'int'")
       (TimingSpec.loaded driver url)).
Proof.
  intros Hscript Hne Hnav.
  unfold try_except, get_detailed_timing, bind at 1, call at 1.
  rewrite Hscript. destruct td as [|kv td']; [congruence|].
  unfold bind at 1, call at 1. rewrite Hnav. reflexivity.
Qed.

Lemma timing_with_null_operand (td : list (string * JsVal)) (n : Z) :
  navigation_timing_script driver = Returns (Some td) ->
  td <> [] ->
  tget "navigationStart" td = JsNum n -> (0 < n)%Z ->
  Exists (fun k => tget k td = JsNull) TimingSpec.subtracted ->
  exists a b,
    try_except (get_detailed_timing driver)
      (fun e => Some (update (set_navigation_timing (NavError (exc_str e)))))
      (TimingSpec.loaded driver url)
    = (Returns tt,
       set_navigation_timing
         (NavError ("unsupported operand type(s) for -: '" ++ type_name a
                    ++ "' and '" ++ type_name b ++ "'"))
         (TimingSpec.loaded driver url))
    /\ (a = JsNull \/ b = JsNull).
Proof.
  intros Hscript Hne Hnav Hpos Hsub.
  unfold try_except, get_detailed_timing, bind at 1, call at 1.
  rewrite Hscript. destruct td as [|kv td']; [congruence|].
  set (td := kv :: td') in *.
  unfold bind at 1, call at 1. rewrite Hnav. cbn [js_gt0].
  rewrite (proj2 (Z.ltb_lt 0 n) Hpos).
  unfold TimingSpec.subtracted in Hsub.
  unfold bind, call, ret, update.
  destruct (tget "domainLookupEnd" td) as [z1|] eqn:E1;
    [|eexists JsNull, _; split; [reflexivity|now left]].
  destruct (tget "domainLookupStart" td) as [z2|] eqn:E2;
    [|eexists _, JsNull; split; [reflexivity|now right]].
  cbn [js_sub].
  destruct (tget "connectEnd" td) as [z3|] eqn:E3;
    [|eexists JsNull, _; split; [reflexivity|now left]].
  destruct (tget "connectStart" td) as [z4|] eqn:E4;
    [|eexists _, JsNull; split; [reflexivity|now right]].
  cbn [js_sub].
  destruct (tget "responseStart" td) as [z5|] eqn:E5;
    [|eexists JsNull, _; split; [reflexivity|now left]].
  destruct (tget "requestStart" td) as [z6|] eqn:E6;
    [|eexists _, JsNull; split; [reflexivity|now right]].
  exfalso. rewrite !Exists_cons, Exists_nil in Hsub.
  intuition congruence.
Qed.
End SamplerTiming.

(** *** The sampler's results *)

(** What every result of the sampler looks like. *)
Lemma measure_result_shape (driver : Session) (url : string) (timeout : Z)
    (wait_strategy : string) :
  exists r,
    measure_load_time driver url timeout wait_strategy = Returns r
    /\ SeleniumUtils.url r = url
    /\ load_time_ms r = elapsed_ms driver
    /\ timestamp r = time_time driver
    /\ run_number r = None
    /\ SeleniumUtils.config r = None
    /\ ((status r = Success /\ error_message r = Some None
         /\ exists u, Spec.load_outcome driver wait_strategy = Returns u)
        \/ (status r = Error /\ navigation_timing r = Some NavNone
            /\ exists e,
                 Spec.load_outcome driver wait_strategy = Raises e
                 /\ error_message r
                    = Some (Some (Spec.error_text timeout wait_strategy e)))).
Proof.
  destruct (Spec.load_outcome driver wait_strategy) as [u|e] eqn:Hout.
  - destruct (measure_success driver url timeout wait_strategy u Hout)
      as [nav [Hm _]].
    eexists. split; [exact Hm|]. cbn. repeat (split; [reflexivity|]).
    left. eauto.
  - eexists. split; [apply (measure_failure driver url timeout _ e Hout)|].
    cbn. repeat (split; [reflexivity|]). right. eauto.
Qed.

Section TraceProofs.
Import Worker WorkerSpec WorkerTrace.
Variables (env : Env) (self : TestWorker).

Local Open Scope stmt_scope.

Ltac step :=
  first
    [ rewrite (bind_step _ _ _ _ _ (is_running_step env _))
    | rewrite (bind_step _ _ _ _ _ (ret_step _ _))
    | rewrite (bind_step _ _ _ _ _ (emit_step _ _))
    | rewrite (bind_step _ _ _ _ _ (update_step _ _))
    | rewrite (bind_step _ _ _ _ _ (read_step _))
    | rewrite (bind_step _ _ _ _ _ (ext_returns _ _ _)) ].

Lemma progress_of_app (l1 l2 : list Action) :
  progress_of (l1 ++ l2) = progress_of l1 ++ progress_of l2.
Proof.
  induction l1 as [|a l1 IH]; [reflexivity|].
  destruct a as [[]| | | | |]; cbn; now rewrite ?IH.
Qed.

Lemma advance_nil (st : RunState) : advance (driver st) [] st = st.
Proof.
  destruct st as [c d l]. unfold advance. cbn.
  now rewrite Nat.add_0_r, app_nil_r.
Qed.

Lemma advance_app (d1 d2 : option Driver) (l1 l2 : list Action) (st : RunState) :
  advance d2 l2 (advance d1 l1 st) = advance d2 (l1 ++ l2) st.
Proof.
  unfold advance. cbn [current_step log driver].
  rewrite progress_of_app, length_app, app_assoc. f_equal. lia.
Qed.

Lemma failed_runs_trace (i : nat) (url : string) (e : Exc) :
  forall (runs : list nat) (st : RunState),
    failed_runs env self i url e runs st
    = (Returns tt,
       advance (driver st) (failed_trace env self i url e (current_step st) runs) st).
Proof.
  induction runs as [|k runs IH]; intros st.
  - cbn [failed_runs failed_trace ret]. now rewrite advance_nil.
  - cbn [failed_runs failed_trace]. repeat step. rewrite IH.
    f_equal. unfold advance.
    cbn [current_step log driver append_log incr_current_step progress_of
           List.length].
    rewrite <- !app_assoc. f_equal. lia.
Qed.

Lemma state_eq (c1 c2 : nat) (d : option Driver) (l1 l2 : list Action) :
  c1 = c2 -> l1 = l2 ->
  {| current_step := c1; driver := d; log := l1 |}
  = {| current_step := c2; driver := d; log := l2 |}.
Proof. now intros -> ->. Qed.

Ltac same_state :=
  unfold ret, advance, append_log, incr_current_step, set_driver;
  cbv beta iota;
  cbn [current_step log driver progress_of List.length app];
  rewrite ?progress_of_app, ?length_app; cbn [progress_of List.length];
  f_equal; apply state_eq;
  [ lia | rewrite <- ?app_assoc; cbn [app]; reflexivity ].

Lemma test_runs_trace (url : string) (d : Driver) :
  forall (runs : list nat) (st : RunState),
    test_runs env self url d runs st
    = (Returns tt,
       advance (driver st)
         (runs_trace env self url d (List.length (log st)) (current_step st) runs)
         st).
Proof.
  induction runs as [|run runs IH]; intros st.
  - cbn [test_runs runs_trace ret]. now rewrite advance_nil.
  - cbn [test_runs runs_trace]. step.
    destruct (running_at env (List.length (log st))) eqn:Hrun1; cbn [negb].
    2:{ cbn [ret]. now rewrite advance_nil. }
    do 4 step.
    destruct (measure_returns (session d run) url (timeout self)
                (wait_strategy self)) as [r [Hr _]].
    rewrite Hr. step. step.
    cbn [log append_log incr_current_step]. rewrite !length_app.
    cbn [List.length].
    replace (List.length (log st) + 1 + 1 + 1)%nat
      with (List.length (log st) + 3)%nat by lia.
    destruct (running_at env (List.length (log st) + 3)) eqn:Hrun2; cbn [negb].
    2:{ same_state. }
    step. rewrite (bind_step _ _ _ _ _ (reset_step _ _ _)).
    rewrite IH.
    cbn [log append_log incr_current_step current_step]. rewrite !length_app.
    cbn [List.length].
    replace (List.length (log st) + 1 + 1 + 1 + 1 + 1)%nat
      with (List.length (log st) + 5)%nat by lia.
    same_state.
Qed.

Lemma quit_trace (url : string) (d : Driver) (st : RunState) :
  try_except
    (ext (QuitDriver url) (quit d) ;;;
     emit (status_update ("Browser driver closed for " ++ url ++ ".")%string))
    (fun quit_error => Some (
       emit (status_update ("Warning: Error quitting driver for "
               ++ url ++ ": " ++ exc_str quit_error)%string))) st
  = (Returns tt,
     append_log (Emit (status_update (quit_message url d)))
       (append_log (QuitDriver url) st)).
Proof.
  unfold try_except, ext, bind, act, update, call, emit, quit_message.
  now destruct (quit d) as [[]|e].
Qed.

Lemma setup_failure_trace (i : nat) (url : string) (e : Exc) (st : RunState) :
  (emit (status_update ("Fatal Error initializing driver for " ++ url
                        ++ ": " ++ exc_str e)%string) ;;;
   emit (error_occurred ("Fatal Error initializing driver for " ++ url
                         ++ ": " ++ exc_str e)%string) ;;;
   failed_runs env self i url e (seq 0 (runs_per_url self)) ;;;
   ret (@None Driver)) st
  = (Returns None,
     advance (driver st)
       ([Emit (status_update ("Fatal Error initializing driver for " ++ url
                              ++ ": " ++ exc_str e)%string);
         Emit (error_occurred ("Fatal Error initializing driver for " ++ url
                               ++ ": " ++ exc_str e)%string)]
        ++ failed_trace env self i url e (current_step st)
             (seq 0 (runs_per_url self))) st).
Proof.
  do 2 step. rewrite (bind_step _ _ _ _ _ (failed_runs_trace _ _ _ _ _)).
  cbn [current_step append_log]. same_state.
Qed.

Lemma test_url_trace (i : nat) (url : string) (st : RunState) :
  test_url env self i url st
  = (Returns (snd (url_trace env self i url (List.length (log st))
                     (current_step st))),
     advance (if running_at env (List.length (log st)) then None else driver st)
       (fst (url_trace env self i url (List.length (log st)) (current_step st)))
       st).
Proof.
  unfold test_url, url_trace. step.
  destruct (running_at env (List.length (log st))) eqn:Hrun1; cbn [negb].
  2:{ step. cbn [fst snd]. same_state. }
  step.
  unfold bind at 1. unfold try_except at 1.
  step.
  unfold bind at 1. unfold ext at 1, bind at 1, act at 1, update at 1, call at 1.
  cbv beta iota.
  unfold driver_for.
  destruct (setup_driver env i (browser self) (headless self)
           (py_truthy
              (dict_get_default "anti_detection_enabled"
                 (PyBool false) (config self)))) as [[d|]|e] eqn:Hsetup.
  - (* the driver is ready *)
    do 2 step. cbn [ret]. cbv beta iota. step.
    rewrite (bind_step _ _ _ _ _ (test_runs_trace _ _ _ _)). step.
    cbn [driver advance append_log set_driver].
    rewrite (bind_step _ _ _ _ _ (quit_trace _ _ _)). do 2 step.
    cbn [fst snd ret].
    cbn [log append_log set_driver advance current_step].
    rewrite !length_app. cbn [List.length].
    replace (List.length (log st) + 1 + 1 + 1 + 1)%nat
      with (List.length (log st) + 4)%nat by lia.
    match goal with
    | |- context [negb (running_at env ?a)] =>
        match goal with
        | |- context [if running_at env ?b then Next else Break] =>
            replace a with b
              by (rewrite ?length_app; cbn [List.length];
                  rewrite ?length_app; cbn [List.length]; lia)
        end
    end.
    match goal with
    | |- context [if running_at env ?b then Next else Break] =>
        destruct (running_at env b)
    end; cbn [negb]; same_state.
  - (* setup_driver returned None *)
    step. unfold raise at 1.
    rewrite setup_failure_trace. cbn [fst snd]. same_state.
  - (* setup_driver raised *)
    rewrite setup_failure_trace. cbn [fst snd]. same_state.
Qed.

Lemma test_urls_trace :
  forall (us : list string) (i : nat) (st : RunState),
    driver st = None ->
    test_urls env self i us st
    = (Returns tt,
       advance None
         (urls_trace env self i us (List.length (log st)) (current_step st)) st).
Proof.
  induction us as [|url us IH]; intros i st Hdrv.
  - cbn [test_urls urls_trace ret]. now rewrite <- Hdrv, advance_nil.
  - cbn [test_urls urls_trace].
    rewrite (bind_step _ _ _ _ _ (test_url_trace i url st)).
    rewrite Hdrv.
    replace (if running_at env (List.length (log st)) then None else None)
      with (@None Driver) by (now destruct (running_at env _)).
    destruct (url_trace env self i url (List.length (log st)) (current_step st))
      as [l [|]]; cbn [fst snd].
    + rewrite IH by reflexivity. rewrite advance_app.
      cbn [advance log current_step]. now rewrite length_app.
    + reflexivity.
Qed.

Lemma dns_phase_trace (st : RunState) :
  (if py_truthy (dict_get_default "run_dns_benchmark" (PyBool false)
                   (config self))
   then
     emit (status_update "Running DNS latency benchmark...") ;;;
     try_except
       (dns_results <- ext DnsBenchmark (run_dns_benchmark env) ;;
        emit (dns_results_ready dns_results) ;;;
        emit (status_update "DNS benchmark finished."))
       (fun dns_err => Some (
          emit (status_update ("Error during DNS benchmark: "
                  ++ exc_str dns_err)%string) ;;;
          emit (dns_results_ready
                  [("Error"%string, {| latency_ms := None;
                                dns_status := exc_str dns_err |})])))
   else ret tt) st
  = (Returns tt, advance (driver st) (dns_trace env self) st).
Proof.
  unfold dns_trace. destruct (py_truthy _).
  - step. unfold try_except, emit, ext, act, bind, update, call.
    destruct (run_dns_benchmark env) as [dns|e]; cbv beta iota; same_state.
  - cbn [ret]. now rewrite advance_nil.
Qed.

Lemma dns_trace_progress : progress_of (dns_trace env self) = [].
Proof.
  unfold dns_trace. destruct (py_truthy _); [|reflexivity].
  now destruct (run_dns_benchmark env).
Qed.

(** The actions of the embedded [run] are those of the closed form, and
    [run] returns. *)
Lemma run_is_run_trace :
  trace env self = run_trace env self /\ crashed env self = None.
Proof.
  unfold trace, crashed, run, run_trace, browse_trace.
  rewrite (bind_step _ _ _ _ _ (dns_phase_trace _)). step.
  cbn [log initial app advance].
  destruct (running_at env (List.length (dns_trace env self))) eqn:Hrun0;
    cbn [negb].
  - step.
    pose proof (test_urls_trace (urls self) 0
                  (append_log
                     (Emit (status_update "Starting Browse speed tests..."))
                     (advance (driver initial) (dns_trace env self) initial))
                  eq_refl) as Hloop.
    rewrite (bind_step _ _ _ _ _ Hloop). clear Hloop. step.
    cbn [log append_log advance current_step initial driver app].
    rewrite !length_app, dns_trace_progress. cbn [List.length Nat.add].
    set (lu := urls_trace env self 0 (urls self) _ _).
    match goal with
    | |- context [if running_at env ?b then emit _ else ret tt] =>
        destruct (running_at env b)
    end; step; rewrite emit_step;
      cbn [fst snd log append_log advance initial app];
      rewrite <- ?app_assoc; split; reflexivity.
  - step. rewrite emit_step. cbn [fst snd log append_log].
    rewrite <- !app_assoc. split; reflexivity.
Qed.

(** *** Counting steps *)

Lemma running_at_mono (n n' : nat) :
  running_at env n = false -> (n <= n')%nat -> running_at env n' = false.
Proof.
  unfold running_at. destruct (stop_after env) as [s|]; [|discriminate].
  rewrite !Nat.ltb_ge. lia.
Qed.

Lemma running_at_false_stop (n : nat) :
  running_at env n = false -> stop_after env <> None.
Proof. unfold running_at. now destruct (stop_after env). Qed.

Lemma steps_app (l1 l2 : list Action) :
  steps (l1 ++ l2) = (steps l1 + steps l2)%nat.
Proof. unfold steps. now rewrite progress_of_app, length_app. Qed.

Lemma emitted_app (l1 l2 : list Action) :
  emitted (l1 ++ l2) = (emitted l1 + emitted l2)%nat.
Proof. unfold emitted. now rewrite results_of_app, length_app. Qed.

Lemma counted_app (n c : nat) (l1 l2 : list Action) :
  counted env self n c l1 ->
  counted env self (n + List.length l1) (c + steps l1) l2 ->
  (steps l1 = (emitted l1 + 1)%nat -> steps l2 = 0%nat) ->
  counted env self n c (l1 ++ l2).
Proof.
  intros [Hp1 [Hle1 [Hge1 Hstop1]]] [Hp2 [Hle2 [Hge2 Hstop2]]] Hcut.
  unfold counted. rewrite steps_app, emitted_app, length_app.
  split.
  { rewrite progress_of_app, Hp1, Hp2, seq_app, map_app.
    now replace (c + steps l1 + 1)%nat with (c + 1 + steps l1)%nat by lia. }
  split; [lia|]. split.
  { destruct (Nat.eq_dec (steps l1) (emitted l1 + 1)) as [E|E];
      [rewrite (Hcut E)|]; lia. }
  intros H.
  destruct (Nat.eq_dec (steps l1) (emitted l1 + 1)) as [E|E].
  - apply (running_at_mono (n + List.length l1)); [now apply Hstop1|lia].
  - rewrite Nat.add_assoc. apply Hstop2. lia.
Qed.

(** Actions without a progress signal and without a result. *)
Lemma counted_quiet (n c : nat) (l : list Action) :
  progress_of l = [] -> results_of l = [] -> counted env self n c l.
Proof.
  intros Hp Hr. unfold counted, steps, emitted. rewrite Hp, Hr. cbn.
  repeat split; auto; lia.
Qed.

Lemma counted_after_quiet (n c : nat) (l1 l2 : list Action) :
  progress_of l1 = [] -> results_of l1 = [] ->
  counted env self (n + List.length l1) c l2 ->
  counted env self n c (l1 ++ l2).
Proof.
  intros Hp Hr Hc. apply counted_app.
  - now apply counted_quiet.
  - unfold steps at 1. rewrite Hp. cbn [List.length].
    now rewrite Nat.add_0_r.
  - unfold steps, emitted. rewrite Hp, Hr. discriminate.
Qed.

Lemma counted_before_quiet (n c : nat) (l1 l2 : list Action) :
  counted env self n c l1 ->
  progress_of l2 = [] -> results_of l2 = [] ->
  counted env self n c (l1 ++ l2).
Proof.
  intros Hc Hp Hr. apply counted_app.
  - exact Hc.
  - now apply counted_quiet.
  - intros _. unfold steps. now rewrite Hp.
Qed.

Lemma quiet_steps (l : list Action) : progress_of l = [] -> steps l = 0%nat.
Proof. unfold steps. now intros ->. Qed.

Lemma failed_trace_counted (i : nat) (url : string) (e : Exc) :
  forall (runs : list nat) (n c : nat),
    counted env self n c (failed_trace env self i url e c runs)
    /\ steps (failed_trace env self i url e c runs) = List.length runs
    /\ emitted (failed_trace env self i url e c runs) = List.length runs.
Proof.
  induction runs as [|k runs IH]; intros n c.
  - split; [now apply counted_quiet|]. split; reflexivity.
  - destruct (IH (n + 2)%nat (c + 1)%nat) as [Hc [Hs He]].
    cbn [failed_trace].
    change (Emit (progress (c + 1) (total_steps self))
            :: Emit (result_ready (failure_result env self i url e k))
            :: failed_trace env self i url e (c + 1) runs)
      with ([Emit (progress (c + 1) (total_steps self));
             Emit (result_ready (failure_result env self i url e k))]
            ++ failed_trace env self i url e (c + 1) runs).
    rewrite steps_app, emitted_app, Hs, He. split; [|split; reflexivity].
    apply counted_app; [| exact Hc | discriminate].
    unfold counted, steps, emitted. cbn. repeat split; auto; lia.
Qed.

Lemma runs_trace_counted (url : string) (d : Driver) :
  forall (runs : list nat) (n c : nat),
    counted env self n c (runs_trace env self url d n c runs)
    /\ (running_at env n = false -> runs_trace env self url d n c runs = [])
    /\ (steps (runs_trace env self url d n c runs) <= List.length runs)%nat
    /\ (stop_after env = None ->
        steps (runs_trace env self url d n c runs) = List.length runs).
Proof.
  induction runs as [|run runs IH]; intros n c.
  - split; [now apply counted_quiet|]. cbn. auto.
  - cbn [runs_trace].
    destruct (running_at env n) eqn:Hrun1.
    2:{ split; [now apply counted_quiet|]. split; [reflexivity|].
        split; [cbn; lia|].
        intros Hno. now rewrite (running_at_nostop _ _ Hno) in Hrun1. }
    destruct (measure_returns (session d run) url (timeout self)
                (wait_strategy self)) as [r [Hr _]].
    rewrite Hr.
    set (a1 := Emit (progress (c + 1) (total_steps self))).
    set (a2 := Emit (status_update _)).
    set (a3 := MeasureLoadTime url run (Returns r)).
    destruct (running_at env (n + 3)) eqn:Hrun2.
    + destruct (IH (n + 5)%nat (c + 1)%nat) as [Hc [Hoff [Hle Hno]]].
      set (lt := runs_trace env self url d (n + 5) (c + 1) runs) in *.
      change ([a1; a2; a3] ++ [Emit (result_ready
                 (set_config (config self) (set_run_number (run + 1) r)));
               ResetBrowser] ++ lt)
        with ([a1; a2; a3; Emit (result_ready
                 (set_config (config self) (set_run_number (run + 1) r)));
               ResetBrowser] ++ lt).
      rewrite steps_app. cbn [List.length].
      split.
      { apply counted_app; [| exact Hc | discriminate].
        unfold counted, steps, emitted. cbn. repeat split; auto; lia. }
      split; [discriminate|].
      split; [cbn; lia|].
      intros Hnone. rewrite (Hno Hnone). reflexivity.
    + rewrite app_nil_r. split.
      { unfold counted, steps, emitted. cbn. repeat split; auto; lia. }
      split; [discriminate|]. split; [cbn; lia|].
      intros Hno. now rewrite (running_at_nostop _ _ Hno) in Hrun2.
Qed.

Lemma url_trace_counted (i : nat) (url : string) (n c : nat) :
  counted env self n c (fst (url_trace env self i url n c))
  /\ (running_at env n = false ->
      steps (fst (url_trace env self i url n c)) = 0%nat)
  /\ (steps (fst (url_trace env self i url n c)) <= runs_per_url self)%nat
  /\ (stop_after env = None ->
      steps (fst (url_trace env self i url n c)) = runs_per_url self
      /\ snd (url_trace env self i url n c) = Next).
Proof.
  unfold url_trace.
  destruct (running_at env n) eqn:Hrun1.
  2:{ cbn [fst snd]. split; [now apply counted_quiet|].
      split; [reflexivity|]. split; [cbn; lia|].
      intros Hno. now rewrite (running_at_nostop _ _ Hno) in Hrun1. }
  destruct (driver_for env self i) as [e|d]; cbn [fst snd].
  - destruct (failed_trace_counted i url e (seq 0 (runs_per_url self))
                (n + 4)%nat c) as [Hc [Hs He]].
    rewrite length_seq in Hs, He.
    rewrite steps_app, Hs. cbn [steps progress_of List.length Nat.add].
    split; [now apply counted_after_quiet|].
    split; [discriminate|]. split; [lia|]. auto.
  - destruct (runs_trace_counted url d (seq 0 (runs_per_url self))
                (n + 4)%nat c) as [Hc [Hoff [Hle Hno]]].
    rewrite length_seq in Hle, Hno.
    set (lt := runs_trace env self url d (n + 4) c (seq 0 (runs_per_url self)))
      in *.
    rewrite !steps_app. cbn [steps progress_of List.length Nat.add].
    fold (steps lt). rewrite Nat.add_0_r.
    split.
    { apply counted_after_quiet; [reflexivity|reflexivity|].
      now apply counted_before_quiet. }
    split; [discriminate|]. split; [exact Hle|].
    intros Hnone. split; [now apply Hno|].
    now rewrite (running_at_nostop _ _ Hnone).
Qed.

Lemma urls_trace_counted :
  forall (us : list string) (i n c : nat),
    counted env self n c (urls_trace env self i us n c)
    /\ (running_at env n = false ->
        steps (urls_trace env self i us n c) = 0%nat)
    /\ (steps (urls_trace env self i us n c)
        <= runs_per_url self * List.length us)%nat
    /\ (stop_after env = None ->
        steps (urls_trace env self i us n c)
        = (runs_per_url self * List.length us)%nat).
Proof.
  induction us as [|url us IH]; intros i n c.
  - split; [now apply counted_quiet|]. cbn. split; [reflexivity|].
    split; [lia|]. intros _. lia.
  - cbn [urls_trace List.length].
    destruct (url_trace_counted i url n c) as [Hc1 [Hoff1 [Hle1 Hno1]]].
    destruct (url_trace env self i url n c) as [l1 ctl]. cbn [fst snd] in *.
    destruct ctl.
    + destruct (IH (S i) (n + List.length l1)%nat
                  (c + List.length (progress_of l1))%nat)
        as [Hc2 [Hoff2 [Hle2 Hno2]]].
      rewrite steps_app. split.
      { apply counted_app; [exact Hc1|exact Hc2|].
        intros H. apply Hoff2. now apply Hc1. }
      split.
      { intros Hoff. rewrite (Hoff1 Hoff), Hoff2; [reflexivity|].
        apply (running_at_mono n); [exact Hoff|lia]. }
      split; [lia|].
      intros Hnone. destruct (Hno1 Hnone) as [-> _].
      rewrite (Hno2 Hnone). lia.
    + split; [exact Hc1|]. split; [exact Hoff1|]. split; [lia|].
      intros Hnone. destruct (Hno1 Hnone) as [_ H]. discriminate H.
Qed.

Lemma dns_trace_results : results_of (dns_trace env self) = [].
Proof.
  unfold dns_trace. destruct (py_truthy _); [|reflexivity].
  now destruct (run_dns_benchmark env).
Qed.

Lemma run_trace_counted :
  counted env self 0 0 (run_trace env self)
  /\ (steps (run_trace env self) <= total_steps self)%nat
  /\ (stop_after env = None -> steps (run_trace env self) = total_steps self).
Proof.
  unfold run_trace, browse_trace, total_steps.
  rewrite (Nat.mul_comm (List.length (urls self))).
  destruct (running_at env (List.length (dns_trace env self))) eqn:Hrun0.
  - destruct (urls_trace_counted (urls self) 0
                (List.length (dns_trace env self) + 1)%nat 0)
      as [Hc [Hoff [Hle Hno]]].
    set (lu := urls_trace env self 0 (urls self) _ 0) in *.
    assert (Htail : forall b : bool,
              progress_of ((if b then [Emit (status_update "Testing finished.")]
                            else []) ++ [Emit finished]) = []
              /\ results_of ((if b then [Emit (status_update "Testing finished.")]
                              else []) ++ [Emit finished]) = [])
      by (intros []; split; reflexivity).
    match goal with
    | |- context [if running_at env ?b then [_] else []] =>
        destruct (Htail (running_at env b)) as [Hp Hr]
    end.
    set (tail := (if running_at env _ then [_] else []) ++ [Emit finished]) in *.
    rewrite !steps_app, (quiet_steps _ dns_trace_progress), (quiet_steps _ Hp).
    cbn [steps progress_of List.length Nat.add]. fold (steps lu).
    rewrite Nat.add_0_r.
    split.
    { apply counted_after_quiet;
        [apply dns_trace_progress|apply dns_trace_results|].
      apply (counted_after_quiet _ _ [_]); [reflexivity|reflexivity|].
      cbn [List.length Nat.add].
      apply counted_before_quiet; [exact Hc|exact Hp|exact Hr]. }
    split; [exact Hle|exact Hno].
  - rewrite steps_app, (quiet_steps _ dns_trace_progress).
    cbn [steps progress_of List.length Nat.add].
    split.
    { apply counted_after_quiet;
        [apply dns_trace_progress|apply dns_trace_results|].
      now apply counted_quiet. }
    split; [lia|].
    intros Hno. now rewrite (running_at_nostop _ _ Hno) in Hrun0.
Qed.


(** *** Sessions *)

Lemma sessions_app (l1 l2 : list Action) :
  forall open,
    sessions open (l1 ++ l2)
    = match sessions open l1 with
      | Some open' => sessions open' l2
      | None => None
      end.
Proof.
  induction l1 as [|a l1 IH]; intros open; [reflexivity|].
  cbn [app sessions].
  destruct a as [[]| | | | |]; destruct open as [v|]; try apply IH;
    try reflexivity; destruct (String.eqb _ _); auto.
Qed.

Lemma failed_trace_sessions (i : nat) (url : string) (e : Exc) :
  forall (runs : list nat) (c : nat) open,
    sessions open (failed_trace env self i url e c runs) = Some open.
Proof.
  induction runs as [|k runs IH]; intros c open; [reflexivity|].
  cbn [failed_trace sessions]. destruct open; apply IH.
Qed.

Lemma runs_trace_sessions (url : string) (d : Driver) :
  forall (runs : list nat) (n c : nat),
    sessions (Some url) (runs_trace env self url d n c runs) = Some (Some url).
Proof.
  induction runs as [|run runs IH]; intros n c; [reflexivity|].
  cbn [runs_trace].
  destruct (running_at env n); [|reflexivity].
  destruct (measure_load_time _ _ _ _) as [r|e];
    cbn [app sessions]; rewrite String.eqb_refl; [|reflexivity].
  destruct (running_at env (n + 3)); [|reflexivity].
  cbn [app sessions]. apply IH.
Qed.

Lemma url_trace_sessions (i : nat) (url : string) (n c : nat) :
  sessions None (fst (url_trace env self i url n c)) = Some None.
Proof.
  unfold url_trace. destruct (running_at env n); [|reflexivity].
  destruct (driver_for env self i) as [e|d]; cbn [fst].
  - cbn [app sessions]. apply failed_trace_sessions.
  - cbn [app sessions]. rewrite sessions_app, runs_trace_sessions.
    cbn [sessions]. now rewrite String.eqb_refl.
Qed.

Lemma urls_trace_sessions :
  forall (us : list string) (i n c : nat),
    sessions None (urls_trace env self i us n c) = Some None.
Proof.
  induction us as [|url us IH]; intros i n c; [reflexivity|].
  cbn [urls_trace].
  pose proof (url_trace_sessions i url n c) as H1.
  destruct (url_trace env self i url n c) as [l1 [|]]; cbn [fst] in H1.
  - now rewrite sessions_app, H1.
  - exact H1.
Qed.

Lemma dns_trace_sessions : sessions None (dns_trace env self) = Some None.
Proof.
  unfold dns_trace. destruct (py_truthy _); [|reflexivity].
  now destruct (run_dns_benchmark env).
Qed.

Lemma run_trace_sessions : sessions None (run_trace env self) = Some None.
Proof.
  unfold run_trace, browse_trace.
  rewrite sessions_app, dns_trace_sessions.
  destruct (running_at env (List.length (dns_trace env self)));
    [|reflexivity].
  cbn [app sessions]. rewrite sessions_app, urls_trace_sessions.
  now destruct (running_at env _).
Qed.

Lemma failed_trace_lifecycle (i : nat) (url : string) (e : Exc) :
  forall (runs : list nat) (c : nat),
    filter is_lifecycle (failed_trace env self i url e c runs) = [].
Proof.
  induction runs as [|k runs IH]; intros c; [reflexivity|].
  cbn [failed_trace filter is_lifecycle]. apply IH.
Qed.

Lemma runs_trace_lifecycle (url : string) (d : Driver) :
  forall (runs : list nat) (n c : nat),
    filter is_lifecycle (runs_trace env self url d n c runs) = [].
Proof.
  induction runs as [|run runs IH]; intros n c; [reflexivity|].
  cbn [runs_trace].
  destruct (running_at env n); [|reflexivity].
  destruct (measure_load_time _ _ _ _) as [r|e];
    cbn [app filter is_lifecycle]; [|reflexivity].
  destruct (running_at env (n + 3)); [|reflexivity].
  cbn [app filter is_lifecycle]. apply IH.
Qed.

Lemma url_trace_lifecycle (i : nat) (url : string) (n c : nat) :
  filter is_lifecycle (fst (url_trace env self i url n c))
  = if running_at env n then lifecycles env self i [url] else [].
Proof.
  unfold url_trace. destruct (running_at env n); [|reflexivity].
  cbn [lifecycles]. rewrite app_nil_r.
  destruct (driver_for env self i) as [e|d]; cbn [fst].
  - cbn [app filter is_lifecycle]. now rewrite failed_trace_lifecycle.
  - cbn [app filter is_lifecycle].
    now rewrite filter_app, runs_trace_lifecycle.
Qed.

Lemma url_trace_stopped (i : nat) (url : string) (n c : nat) :
  running_at env n = false ->
  url_trace env self i url n c
  = ([Emit (status_update "Test stopped by user.")], Break).
Proof. intros H. unfold url_trace. now rewrite H. Qed.

Lemma urls_trace_lifecycle :
  forall (us : list string) (i n c : nat),
  exists us1 us2,
    us = us1 ++ us2
    /\ filter is_lifecycle (urls_trace env self i us n c)
       = lifecycles env self i us1
    /\ (stop_after env = None -> us2 = []).
Proof.
  induction us as [|url us IH]; intros i n c.
  - exists [], []. repeat split; reflexivity.
  - cbn [urls_trace].
    destruct (running_at env n) eqn:Hrun1.
    2:{ rewrite (url_trace_stopped i url n c Hrun1).
        exists [], (url :: us). split; [reflexivity|]. split; [reflexivity|].
        intros H. exfalso. exact (running_at_false_stop _ Hrun1 H). }
    pose proof (url_trace_lifecycle i url n c) as H1. rewrite Hrun1 in H1.
    destruct (url_trace_counted i url n c) as [_ [_ [_ Hno1]]].
    destruct (url_trace env self i url n c) as [l1 ctl]. cbn [fst snd] in *.
    destruct ctl.
    + destruct (IH (S i) (n + List.length l1)%nat
                  (c + List.length (progress_of l1))%nat)
        as [us1 [us2 [Hus [Hl Hno]]]].
      exists (url :: us1), us2. split; [now rewrite Hus|]. split; [|exact Hno].
      rewrite filter_app, H1, Hl. cbn [lifecycles].
      now rewrite app_nil_r.
    + exists [url], us. split; [reflexivity|]. split; [exact H1|].
      intros Hnone. destruct (Hno1 Hnone) as [_ H]. discriminate H.
Qed.

Lemma dns_trace_lifecycle : filter is_lifecycle (dns_trace env self) = [].
Proof.
  unfold dns_trace. destruct (py_truthy _); [|reflexivity].
  now destruct (run_dns_benchmark env).
Qed.

Lemma run_trace_lifecycle :
  exists us1 us2,
    urls self = us1 ++ us2
    /\ filter is_lifecycle (run_trace env self) = lifecycles env self 0 us1
    /\ (stop_after env = None -> us2 = []).
Proof.
  unfold run_trace, browse_trace.
  rewrite filter_app, dns_trace_lifecycle. cbn [app].
  destruct (running_at env (List.length (dns_trace env self))) eqn:Hrun0.
  - destruct (urls_trace_lifecycle (urls self) 0
                (List.length (dns_trace env self) + 1)%nat 0)
      as [us1 [us2 [Hus [Hl Hno]]]].
    exists us1, us2. split; [exact Hus|]. split; [|exact Hno].
    cbn [app filter is_lifecycle]. rewrite filter_app, Hl.
    match goal with
    | |- context [running_at env ?b] => destruct (running_at env b)
    end; cbn; now rewrite app_nil_r.
  - exists [], (urls self). split; [reflexivity|]. split; [reflexivity|].
    intros H. exfalso. exact (running_at_false_stop _ Hrun0 H).
Qed.

(** *** After a stop request *)

Lemma work_app (l1 l2 : list Action) :
  work (l1 ++ l2) = (work l1 + work l2)%nat.
Proof. unfold work. now rewrite filter_app, length_app. Qed.

Lemma work_skipn (k : nat) (l : list Action) : (work (skipn k l) <= work l)%nat.
Proof.
  rewrite <- (firstn_skipn k l) at 2. rewrite work_app. lia.
Qed.

Section Stopped.
Variable s : nat.
Hypothesis Hs : stop_after env = Some s.

Lemma running_at_lt (n : nat) : running_at env n = true -> (n < s)%nat.
Proof. rewrite (running_at_stop env n s Hs). apply Nat.ltb_lt. Qed.

Lemma prompt_app (n : nat) (l1 l2 : list Action) :
  prompt s n l1 -> prompt s (n + List.length l1) l2 -> prompt s n (l1 ++ l2).
Proof.
  intros [Hz1 Hw1] [Hz2 Hw2]. unfold prompt. split.
  - intros Hle. rewrite work_app, Hz1, Hz2; lia.
  - rewrite skipn_app, work_app.
    replace (s - n - List.length l1)%nat
      with (s - (n + List.length l1))%nat by lia.
    destruct (Nat.le_gt_cases (List.length l1) (s - n)) as [Hlong|Hshort].
    + rewrite (skipn_all2 l1) by exact Hlong. cbn. exact Hw2.
    + pose proof (work_skipn (s - (n + List.length l1)) l2) as Hle.
      rewrite Hz2 in Hle by lia. lia.
Qed.

Lemma prompt_idle (n : nat) (l : list Action) : work l = 0%nat -> prompt s n l.
Proof.
  intros H. split; [auto|]. pose proof (work_skipn (s - n) l). lia.
Qed.

Lemma prompt_chunk (n : nat) (l : list Action) :
  running_at env n = true -> (work l <= 1)%nat -> prompt s n l.
Proof.
  intros Hrun H. apply running_at_lt in Hrun. split; [lia|].
  pose proof (work_skipn (s - n) l). lia.
Qed.

Lemma failed_trace_work (i : nat) (url : string) (e : Exc) :
  forall (runs : list nat) (c : nat),
    work (failed_trace env self i url e c runs) = 0%nat.
Proof.
  induction runs as [|k runs IH]; intros c; [reflexivity|].
  cbn [failed_trace]. apply IH.
Qed.

Lemma runs_trace_prompt (url : string) (d : Driver) :
  forall (runs : list nat) (n c : nat),
    prompt s n (runs_trace env self url d n c runs).
Proof.
  induction runs as [|run runs IH]; intros n c.
  - now apply prompt_idle.
  - cbn [runs_trace].
    destruct (running_at env n) eqn:Hrun1; [|now apply prompt_idle].
    destruct (measure_load_time _ _ _ _) as [r|e].
    2:{ rewrite app_nil_r. apply prompt_chunk; [exact Hrun1|]. cbn. lia. }
    apply prompt_app; [apply prompt_chunk; [exact Hrun1|cbn; lia]|].
    cbn [List.length].
    destruct (running_at env (n + 3)) eqn:Hrun2; [|now apply prompt_idle].
    apply prompt_app; [apply prompt_chunk; [exact Hrun2|cbn; lia]|].
    cbn [List.length]. replace (n + 3 + 2)%nat with (n + 5)%nat by lia.
    apply IH.
Qed.

Lemma url_trace_prompt (i : nat) (url : string) (n c : nat) :
  prompt s n (fst (url_trace env self i url n c)).
Proof.
  unfold url_trace.
  destruct (running_at env n) eqn:Hrun1; [|now apply prompt_idle].
  destruct (driver_for env self i) as [e|d]; cbn [fst].
  - apply prompt_app; [apply prompt_chunk; [exact Hrun1|cbn; lia]|].
    apply prompt_idle, failed_trace_work.
  - apply prompt_app; [apply prompt_chunk; [exact Hrun1|cbn; lia]|].
    apply prompt_app; [apply runs_trace_prompt|].
    now apply prompt_idle.
Qed.

Lemma urls_trace_prompt :
  forall (us : list string) (i n c : nat),
    prompt s n (urls_trace env self i us n c).
Proof.
  induction us as [|url us IH]; intros i n c.
  - now apply prompt_idle.
  - cbn [urls_trace].
    pose proof (url_trace_prompt i url n c) as H1.
    destruct (url_trace env self i url n c) as [l1 [|]]; cbn [fst] in H1.
    + apply prompt_app; [exact H1|apply IH].
    + exact H1.
Qed.

Lemma dns_trace_work : work (dns_trace env self) = 0%nat.
Proof.
  unfold dns_trace. destruct (py_truthy _); [|reflexivity].
  now destruct (run_dns_benchmark env).
Qed.

Lemma run_trace_prompt : prompt s 0 (run_trace env self).
Proof.
  unfold run_trace, browse_trace.
  apply prompt_app; [apply prompt_idle, dns_trace_work|].
  cbn [Nat.add].
  destruct (running_at env (List.length (dns_trace env self)));
    [|now apply prompt_idle].
  apply prompt_app; [now apply prompt_idle|].
  apply prompt_app; [apply urls_trace_prompt|].
  apply prompt_idle.
  match goal with
  | |- context [running_at env ?b] => now destruct (running_at env b)
  end.
Qed.
End Stopped.

(** *** The results of a run *)

Section Results.
Variable P : RunResult -> Prop.

Lemma failed_trace_results (i : nat) (url : string) (e : Exc) :
  forall (runs : list nat) (c : nat),
    (forall k, In k runs -> P (failure_result env self i url e k)) ->
    Forall P (results_of (failed_trace env self i url e c runs)).
Proof.
  induction runs as [|k runs IH]; intros c H; [constructor|].
  cbn [failed_trace results_of]. constructor.
  - apply H. now left.
  - apply IH. intros k' Hk'. apply H. now right.
Qed.

Lemma runs_trace_results (url : string) (d : Driver) :
  forall (runs : list nat) (n c : nat),
    (forall run r,
        In run runs ->
        measure_load_time (session d run) url (timeout self)
          (wait_strategy self) = Returns r ->
        P (set_config (config self) (set_run_number (run + 1) r))) ->
    Forall P (results_of (runs_trace env self url d n c runs)).
Proof.
  induction runs as [|run runs IH]; intros n c H; [constructor|].
  cbn [runs_trace].
  destruct (running_at env n); [|constructor].
  destruct (measure_load_time _ _ _ _) as [r|e] eqn:Hr; [|constructor].
  cbn [app results_of].
  destruct (running_at env (n + 3)); [|constructor].
  cbn [app results_of]. constructor.
  - apply (H run r); [now left|exact Hr].
  - apply IH. intros run' r' Hin. apply H. now right.
Qed.

Lemma url_trace_results (i : nat) (url : string) (n c : nat) :
  (forall e k,
      driver_for env self i = inl e -> (k < runs_per_url self)%nat ->
      P (failure_result env self i url e k)) ->
  (forall d run r,
      driver_for env self i = inr d -> (run < runs_per_url self)%nat ->
      measure_load_time (session d run) url (timeout self)
        (wait_strategy self) = Returns r ->
      P (set_config (config self) (set_run_number (run + 1) r))) ->
  Forall P (results_of (fst (url_trace env self i url n c))).
Proof.
  intros Hfail Hmeas. unfold url_trace.
  destruct (running_at env n); [|constructor].
  destruct (driver_for env self i) as [e|d]; cbn [fst].
  - cbn [app results_of]. apply failed_trace_results.
    intros k Hk. apply in_seq in Hk. apply Hfail; [reflexivity|lia].
  - cbn [app results_of]. rewrite results_of_app. cbn [results_of].
    rewrite app_nil_r. apply runs_trace_results.
    intros run r Hin. apply in_seq in Hin. apply Hmeas; [reflexivity|lia].
Qed.

Lemma urls_trace_results :
  forall (us : list string) (i n c : nat),
    (forall j url e k,
        nth_error us j = Some url ->
        driver_for env self (i + j) = inl e -> (k < runs_per_url self)%nat ->
        P (failure_result env self (i + j) url e k)) ->
    (forall j url d run r,
        nth_error us j = Some url ->
        driver_for env self (i + j) = inr d -> (run < runs_per_url self)%nat ->
        measure_load_time (session d run) url (timeout self)
          (wait_strategy self) = Returns r ->
        P (set_config (config self) (set_run_number (run + 1) r))) ->
    Forall P (results_of (urls_trace env self i us n c)).
Proof.
  induction us as [|url us IH]; intros i n c Hfail Hmeas; [constructor|].
  cbn [urls_trace].
  assert (H1 : Forall P (results_of (fst (url_trace env self i url n c)))).
  { apply url_trace_results.
    - intros e k. specialize (Hfail 0%nat url e k eq_refl).
      now rewrite Nat.add_0_r in Hfail.
    - intros d run r. specialize (Hmeas 0%nat url d run r eq_refl).
      now rewrite Nat.add_0_r in Hmeas. }
  destruct (url_trace env self i url n c) as [l1 [|]]; cbn [fst] in H1;
    [|exact H1].
  rewrite results_of_app. apply Forall_app. split; [exact H1|].
  apply IH.
  - intros j u e k Hj. specialize (Hfail (S j) u e k Hj).
    now rewrite Nat.add_succ_r in Hfail.
  - intros j u d run r Hj. specialize (Hmeas (S j) u d run r Hj).
    now rewrite Nat.add_succ_r in Hmeas.
Qed.

(** Every result of a run is the error result of a run of a URL whose
    setup failed, or a measured result with its tags. *)
Lemma run_trace_results :
  (forall i url e k,
      nth_error (urls self) i = Some url ->
      driver_for env self i = inl e -> (k < runs_per_url self)%nat ->
      P (failure_result env self i url e k)) ->
  (forall i url d run r,
      nth_error (urls self) i = Some url ->
      driver_for env self i = inr d -> (run < runs_per_url self)%nat ->
      measure_load_time (session d run) url (timeout self)
        (wait_strategy self) = Returns r ->
      P (set_config (config self) (set_run_number (run + 1) r))) ->
  Forall P (results_of (run_trace env self)).
Proof.
  intros Hfail Hmeas. unfold run_trace, browse_trace.
  rewrite results_of_app, dns_trace_results. cbn [app].
  destruct (running_at env (List.length (dns_trace env self)));
    [|constructor].
  cbn [app results_of]. rewrite results_of_app.
  apply Forall_app. split.
  - apply urls_trace_results; [exact Hfail|exact Hmeas].
  - match goal with
    | |- context [running_at env ?b] => destruct (running_at env b)
    end; constructor.
Qed.
End Results.

(** *** The DNS phase *)

Lemma dns_signals_app (l1 l2 : list Action) :
  dns_signals (l1 ++ l2) = dns_signals l1 ++ dns_signals l2.
Proof.
  induction l1 as [|a l1 IH]; [reflexivity|].
  destruct a as [[]| | | | |]; cbn; now rewrite ?IH.
Qed.

Lemma dns_free_app (l1 l2 : list Action) :
  dns_free l1 -> dns_free l2 -> dns_free (l1 ++ l2).
Proof.
  intros [H1 H2] [H3 H4]. unfold dns_free.
  now rewrite filter_app, dns_signals_app, H1, H2, H3, H4.
Qed.

Lemma failed_trace_dns_free (i : nat) (url : string) (e : Exc) :
  forall (runs : list nat) (c : nat),
    dns_free (failed_trace env self i url e c runs).
Proof.
  induction runs as [|k runs IH]; intros c; [split; reflexivity|].
  cbn [failed_trace]. destruct (IH (c + 1)%nat) as [H1 H2].
  split; cbn; assumption.
Qed.

Lemma runs_trace_dns_free (url : string) (d : Driver) :
  forall (runs : list nat) (n c : nat),
    dns_free (runs_trace env self url d n c runs).
Proof.
  induction runs as [|run runs IH]; intros n c; [split; reflexivity|].
  cbn [runs_trace].
  destruct (running_at env n); [|split; reflexivity].
  destruct (measure_load_time _ _ _ _) as [r|e]; [|split; reflexivity].
  apply dns_free_app; [split; reflexivity|].
  destruct (running_at env (n + 3)); [|split; reflexivity].
  apply dns_free_app; [split; reflexivity|apply IH].
Qed.

Lemma url_trace_dns_free (i : nat) (url : string) (n c : nat) :
  dns_free (fst (url_trace env self i url n c)).
Proof.
  unfold url_trace. destruct (running_at env n); [|split; reflexivity].
  destruct (driver_for env self i) as [e|d]; cbn [fst].
  - apply dns_free_app; [split; reflexivity|apply failed_trace_dns_free].
  - apply dns_free_app; [split; reflexivity|].
    apply dns_free_app; [apply runs_trace_dns_free|split; reflexivity].
Qed.

Lemma urls_trace_dns_free :
  forall (us : list string) (i n c : nat),
    dns_free (urls_trace env self i us n c).
Proof.
  induction us as [|url us IH]; intros i n c; [split; reflexivity|].
  cbn [urls_trace].
  pose proof (url_trace_dns_free i url n c) as H1.
  destruct (url_trace env self i url n c) as [l1 [|]]; cbn [fst] in H1.
  - apply dns_free_app; [exact H1|apply IH].
  - exact H1.
Qed.

Lemma dns_trace_length :
  List.length (dns_trace env self) = if dns_enabled self then 4%nat else 0%nat.
Proof.
  unfold dns_trace, dns_enabled. destruct (py_truthy _); [|reflexivity].
  now destruct (run_dns_benchmark env).
Qed.

Lemma after_dns_free :
  dns_free
    (if running_at env (List.length (dns_trace env self)) then
       [Emit (status_update "Starting Browse speed tests...")]
       ++ browse_trace env self
       ++ (if running_at env (List.length (dns_trace env self) + 1
                              + List.length (browse_trace env self))
           then [Emit (status_update "Testing finished.")] else [])
       ++ [Emit finished]
     else
       [Emit (status_update "Test stopped after DNS benchmark.");
        Emit finished]).
Proof.
  destruct (running_at env (List.length (dns_trace env self)));
    [|split; reflexivity].
  apply dns_free_app; [split; reflexivity|].
  apply dns_free_app; [apply urls_trace_dns_free|].
  match goal with
  | |- context [running_at env ?b] => destruct (running_at env b)
  end; split; reflexivity.
Qed.
End TraceProofs.

Section SamplerProperties.

(** X1.  Every result of the sampler: the load time is the time elapsed on
    the monotonic clock, so never the sentinel [-1] when the clock does
    not go back; the timestamp is the wall clock read at the start; the
    error message is [None] exactly for a success and a text exactly for
    an error; an error has no timing breakdown. *)
Theorem sampler_result_invariants
    (driver : Session) (url : string) (timeout : Z) (wait_strategy : string) :
  exists r,
    measure_load_time driver url timeout wait_strategy = Returns r
    /\ load_time_ms r = elapsed_ms driver
    /\ timestamp r = time_time driver
    /\ (status r = Success <-> error_message r = Some None)
    /\ (status r = Error <-> exists msg, error_message r = Some (Some msg))
    /\ (status r = Error -> navigation_timing r = Some NavNone)
    /\ ((perf_start driver <= perf_end driver)%Q ->
        (0 <= load_time_ms r)%Q /\ ~ (load_time_ms r == -1)%Q).
Proof.
  destruct (measure_result_shape driver url timeout wait_strategy)
    as [r [Hr [_ [Hlt [Hts [_ [_ Hcases]]]]]]].
  exists r. split; [exact Hr|]. split; [exact Hlt|]. split; [exact Hts|].
  assert (Hclock : (perf_start driver <= perf_end driver)%Q ->
                   (0 <= load_time_ms r)%Q /\ ~ (load_time_ms r == -1)%Q).
  { intros Hle. rewrite Hlt.
    pose proof (elapsed_ms_nonneg driver Hle) as Hpos.
    split; [exact Hpos|]. intros Heq. rewrite Heq in Hpos. now apply Hpos. }
  destruct Hcases as [[Hst [Hmsg _]]|[Hst [Hnav [e [_ Hmsg]]]]];
    rewrite Hst, Hmsg.
  - split; [tauto|]. split; [|split; [discriminate|exact Hclock]].
    split; [discriminate|]. intros [msg H]. discriminate H.
  - split; [split; discriminate|].
    split; [split; eauto|]. split; [auto|exact Hclock].
Qed.

(** X2.  The error message of a failed page load says what failed: a
    timeout of the wait names the timeout and the strategy, another
    exception of the browser driver is reported as ["WebDriver error: "]
    and anything else as ["Unexpected error: "], each with the text of the
    exception. *)
Theorem sampler_error_classification
    (driver : Session) (url : string) (timeout : Z) (wait_strategy : string)
    (e : Exc) :
  Spec.load_outcome driver wait_strategy = Raises e ->
  exists r,
    measure_load_time driver url timeout wait_strategy = Returns r
    /\ status r = Error
    /\ error_message r
       = Some (Some
           (match exc_class e with
            | TimeoutException =>
                "Timeout after " ++ str_int timeout
                ++ " seconds waiting for page load (" ++ wait_strategy
                ++ " strategy)."
            | WebDriverException => "WebDriver error: " ++ exc_str e
            | _ => "Unexpected error: " ++ exc_str e
            end)%string).
Proof.
  intros Hout. eexists.
  split; [apply (measure_failure driver url timeout wait_strategy e Hout)|].
  split; reflexivity.
Qed.

(** X3.  The timing breakdown of a page that loaded.  When the timing
    script returns data with a positive [navigationStart] and numbers for
    the values that are subtracted, the result holds the breakdown of
    [TimingSpec.breakdown]: the milestones as they are, the three
    durations as differences, and [-1] for the total load time or the DOM
    processing time whose milestones are missing or 0. *)
Theorem timing_breakdown_computed
    (driver : Session) (url : string) (timeout : Z) (wait_strategy : string)
    (td : list (string * JsVal)) (n : Z) :
  Spec.page_loads driver wait_strategy ->
  navigation_timing_script driver = Returns (Some td) ->
  td <> [] ->
  tget "navigationStart" td = JsNum n -> (0 < n)%Z ->
  Forall (fun k => tget k td <> JsNull) TimingSpec.subtracted ->
  exists r,
    measure_load_time driver url timeout wait_strategy = Returns r
    /\ status r = Success
    /\ load_time_ms r = elapsed_ms driver
    /\ navigation_timing r = Some (NavData (TimingSpec.breakdown td)).
Proof.
  intros Hloads Hscript Hne Hnav Hpos Hsub.
  apply page_loads_outcome in Hloads as [u Hout].
  eexists. split.
  - eapply (measure_success_timing driver url timeout wait_strategy u);
      [exact Hout|].
    apply (timing_of_numbers driver url td n Hscript Hne Hnav Hpos Hsub).
  - repeat split.
Qed.

(** X4.  The timing breakdown degrades without touching the result of the
    page load, which stays a success.  Without timing data, or with a
    [navigationStart] that is missing, 0 or negative, the entry stays
    [None].  With a [navigationStart] that is [null], or with [null] for
    a value that is subtracted, the [TypeError] of the comparison or of
    the subtraction is caught and its text becomes the error marker. *)
Theorem timing_breakdown_degrades
    (driver : Session) (url : string) (timeout : Z) (wait_strategy : string) :
  Spec.page_loads driver wait_strategy ->
  exists r,
    measure_load_time driver url timeout wait_strategy = Returns r
    /\ status r = Success
    /\ (navigation_timing_script driver = Returns None
        \/ navigation_timing_script driver = Returns (Some []) ->
        navigation_timing r = Some NavNone)
    /\ (forall td n,
          navigation_timing_script driver = Returns (Some td) ->
          tget "navigationStart" td = JsNum n -> (n <= 0)%Z ->
          navigation_timing r = Some NavNone)
    /\ (forall td,
          navigation_timing_script driver = Returns (Some td) ->
          td <> [] ->
          tget "navigationStart" td = JsNull ->
          navigation_timing r
          = Some (NavError
              "'>' not supported between instances of 'NoneType' and 'int'"))
    /\ (forall td n,
          navigation_timing_script driver = Returns (Some td) ->
          td <> [] ->
          tget "navigationStart" td = JsNum n -> (0 < n)%Z ->
          Exists (fun k => tget k td = JsNull) TimingSpec.subtracted ->
          exists msg,
            navigation_timing r = Some (NavError msg)
            /\ prefix "unsupported operand type(s) for -: '" msg = true).
Proof.
  intros Hloads.
  apply page_loads_outcome in Hloads as [u Hout].
  destruct (measure_success driver url timeout wait_strategy u Hout)
    as [nav [Hm _]].
  eexists. split; [exact Hm|]. split; [reflexivity|].
  cbn [navigation_timing].
  assert (Hsame : forall nav',
            try_except (get_detailed_timing driver)
              (fun e => Some (update (set_navigation_timing
                                        (NavError (exc_str e)))))
              (TimingSpec.loaded driver url)
            = (Returns tt,
               {| SeleniumUtils.url := url; load_time_ms := elapsed_ms driver;
                  status := Success;
                  error_message := Some None;
                  navigation_timing := nav';
                  timestamp := time_time driver;
                  run_number := None; SeleniumUtils.config := None |}) ->
            nav = nav').
  { intros nav' H.
    pose proof (measure_success_timing driver url timeout wait_strategy u nav'
                  Hout H) as Hm'.
    rewrite Hm in Hm'. now injection Hm'. }
  split; [|split; [|split]].
  - intros H. apply Hsame. apply (timing_without_data driver url H).
  - intros td n Hscript Hnav Hle. apply Hsame.
    apply (timing_without_start driver url td n Hscript Hnav Hle).
  - intros td Hscript Hne Hnav. apply Hsame.
    apply (timing_with_null_start driver url td Hscript Hne Hnav).
  - intros td n Hscript Hne Hnav Hpos Hsub.
    destruct (timing_with_null_operand driver url td n Hscript Hne Hnav Hpos
                Hsub) as [a [b [H _]]].
    eexists. split; [apply Hsame, H|]. apply prefix_append.
Qed.
End SamplerProperties.

Section RunProperties.
Import Worker WorkerSpec WorkerTrace.

(** X5.  The progress signals of a run count the steps from 1 on, without
    a gap, against the one total [len(urls) * runs_per_url], which they
    never exceed; every result follows its step, and at most one step
    stays without its result (the page load that a stop request found
    under way).  Without a stop request the count reaches the total. *)
Theorem progress_counts_every_step (env : Env) (self : TestWorker) :
  exists n,
    progress_of (trace env self)
    = map (fun k => (k, total_steps self)) (seq 1 n)
    /\ (n <= total_steps self)%nat
    /\ (List.length (results_of (trace env self)) <= n)%nat
    /\ (n <= List.length (results_of (trace env self)) + 1)%nat
    /\ (stop_after env = None ->
        n = total_steps self
        /\ List.length (results_of (trace env self)) = total_steps self).
Proof.
  destruct (run_is_run_trace env self) as [-> _].
  destruct (run_trace_counted env self)
    as [[Hp [Hle [Hge Hstop]]] [Hbound Hno]].
  exists (steps (run_trace env self)).
  split; [exact Hp|]. split; [exact Hbound|].
  split; [exact Hle|]. split; [exact Hge|].
  intros Hnone. split; [now apply Hno|].
  specialize (Hno Hnone). fold (emitted (run_trace env self)).
  destruct (Nat.eq_dec (steps (run_trace env self))
              (emitted (run_trace env self) + 1)) as [E|E].
  - specialize (Hstop E). now rewrite (running_at_nostop _ _ Hnone) in Hstop.
  - unfold emitted in *. lia.
Qed.

(** X6.  The browser sessions of a run.  Whatever fails and whenever Stop
    is pressed, the actions of a run keep the discipline of [sessions]:
    a setup only when no session is open, page loads and resets only in
    the session of their URL, and no session open at the end.  The
    sessions are those of a first part of the URL list, in order: a quit
    after each setup that succeeded, none after one that failed; without
    a stop request of the whole list. *)
Theorem sessions_are_closed (env : Env) (self : TestWorker) :
  sessions None (trace env self) = Some None
  /\ exists us1 us2,
       urls self = us1 ++ us2
       /\ filter is_lifecycle (trace env self) = lifecycles env self 0 us1
       /\ (stop_after env = None -> us2 = []).
Proof.
  destruct (run_is_run_trace env self) as [-> _].
  split; [apply run_trace_sessions|apply run_trace_lifecycle].
Qed.

(** X7.  After a stop request the run lets the browser begin at most one
    more piece of work: one session setup, one page load or one state
    reset, the one that was announced when the request came. *)
Theorem stop_lets_one_operation_begin
    (env : Env) (self : TestWorker) (s : nat) :
  stop_after env = Some s ->
  (List.length (filter is_browser_work (skipn s (trace env self))) <= 1)%nat.
Proof.
  intros Hs. destruct (run_is_run_trace env self) as [-> _].
  destruct (run_trace_prompt env self s Hs) as [_ H].
  now rewrite Nat.sub_0_r in H.
Qed.

(** X8.  Every result of a run carries the tags of the worker: its URL is
    one of the list, its run number one of [1..runs_per_url], its
    configuration the one of the run; an error has a message, a success
    has none. *)
Theorem every_result_is_tagged (env : Env) (self : TestWorker) :
  Forall (tagged self) (results_of (trace env self)).
Proof.
  destruct (run_is_run_trace env self) as [-> _].
  apply run_trace_results.
  - intros i url e k Hnth _ Hk. unfold tagged. cbn.
    split; [now apply (nth_error_In _ i)|].
    split; [exists (k + 1)%nat; split; [reflexivity|lia]|].
    split; [reflexivity|]. split; [discriminate|]. eauto.
  - intros i url d run r Hnth _ Hrun Hr.
    destruct (measure_result_shape (session d run) url (timeout self)
                (wait_strategy self))
      as [r' [Hr' [Hurl [_ [_ [_ [_ Hcases]]]]]]].
    rewrite Hr in Hr'. injection Hr' as <-.
    unfold tagged. cbn. rewrite Hurl.
    split; [now apply (nth_error_In _ i)|].
    split; [exists (run + 1)%nat; split; [reflexivity|lia]|].
    split; [reflexivity|].
    destruct Hcases as [[Hst [Hmsg _]]|[Hst [_ [e [_ Hmsg]]]]];
      rewrite Hst, Hmsg; split; try discriminate; eauto.
Qed.

(** X9.  The results of a run are what the report and the export take:
    with session clocks that do not go back, a successful result has a
    load time that is not negative, and with a configuration that holds
    each key once, so does the copy in every result. *)
Theorem run_results_feed_the_report (env : Env) (self : TestWorker) :
  monotone_clocks env self ->
  well_keyed (PyDict (config self)) = true ->
  Forall GuiSpec.well_timed (results_of (trace env self))
  /\ Forall GuiSpec.config_well_keyed (results_of (trace env self)).
Proof.
  intros Hclocks Hkeys.
  destruct (run_is_run_trace env self) as [-> _].
  split.
  - apply run_trace_results.
    + intros i url e k _ _ _ Hst. discriminate Hst.
    + intros i url d run r _ Hd _ Hr.
      destruct (measure_result_shape (session d run) url (timeout self)
                  (wait_strategy self))
        as [r' [Hr' [_ [Hlt _]]]].
      rewrite Hr in Hr'. injection Hr' as <-.
      unfold GuiSpec.well_timed. cbn. intros _. rewrite Hlt.
      apply elapsed_ms_nonneg, (Hclocks i d run Hd).
  - apply run_trace_results.
    + intros i url e k _ _ _. exact Hkeys.
    + intros i url d run r _ _ _ _. exact Hkeys.
Qed.

(** X10.  The DNS phase.  When the configuration asks for the benchmark,
    the run begins with it, whenever Stop is pressed: the probe is called
    once and one [dns_results_ready] signal carries its results, or, if
    the probe raised, the single entry ["Error"] with the text of the
    exception.  Otherwise the probe is not called and no such signal is
    emitted. *)
Theorem dns_phase_runs_first (env : Env) (self : TestWorker) :
  filter is_dns_benchmark (trace env self)
  = (if dns_enabled self then [DnsBenchmark] else [])
  /\ dns_signals (trace env self)
     = (if dns_enabled self then [dns_report env] else [])
  /\ (dns_enabled self = true ->
      exists l,
        trace env self
        = Emit (status_update "Running DNS latency benchmark...")
          :: DnsBenchmark :: l).
Proof.
  destruct (run_is_run_trace env self) as [-> _].
  destruct (after_dns_free env self) as [Hf Hs].
  unfold run_trace. rewrite filter_app, dns_signals_app, Hf, Hs, !app_nil_r.
  unfold dns_trace, dns_enabled, dns_report.
  destruct (py_truthy _).
  - split; [now destruct (run_dns_benchmark env)|].
    split; [now destruct (run_dns_benchmark env)|].
    intros _. eexists. cbn [app]. reflexivity.
  - repeat split. discriminate.
Qed.

(** X11.  A stop request that comes before the run or during its DNS phase
    keeps the browser out of it: after the actions of the DNS phase the
    run only reports the stop and emits [finished]. *)
Theorem stop_before_browsing (env : Env) (self : TestWorker) (s : nat) :
  stop_after env = Some s ->
  (s <= if dns_enabled self then 4 else 0)%nat ->
  skipn (if dns_enabled self then 4 else 0) (trace env self)
  = [Emit (status_update "Test stopped after DNS benchmark."); Emit finished]
  /\ filter is_browser_work (trace env self) = []
  /\ results_of (trace env self) = [].
Proof.
  intros Hs Hle.
  destruct (run_is_run_trace env self) as [-> _].
  unfold run_trace.
  rewrite <- (dns_trace_length env self) in *.
  rewrite (running_at_stop env _ s Hs).
  rewrite (proj2 (Nat.ltb_ge _ _) Hle).
  rewrite skipn_app, Nat.sub_diag, skipn_all. cbn [app skipn].
  split; [reflexivity|].
  rewrite filter_app, results_of_app, (dns_trace_results env self).
  pose proof (dns_trace_work env self) as Hw. unfold work in Hw.
  apply length_zero_iff_nil in Hw. rewrite Hw. split; reflexivity.
Qed.
End RunProperties.

(* ================================================================= *)
(** ** The settings store, continued *)

Section SettingsMore.
Import SettingsManager SettingsSpec.

Lemma Json_nested_ind (P : Json -> Prop) :
  P JNull ->
  (forall b, P (JBool b)) ->
  (forall z, P (JInt z)) ->
  (forall q, P (JFloat q)) ->
  (forall s, P (JString s)) ->
  (forall items, Forall P items -> P (JArray items)) ->
  (forall members, Forall (fun kv => P (snd kv)) members ->
                   P (JObject members)) ->
  forall j, P j.
Proof.
  intros HNull HBool HInt HFloat HStr HArr HObj.
  fix IH 1. intros [| b | z | q | s | items | members].
  - exact HNull.
  - apply HBool.
  - apply HInt.
  - apply HFloat.
  - apply HStr.
  - apply HArr. induction items as [|x l IHl]; constructor;
      [apply IH|exact IHl].
  - apply HObj. induction members as [|[k x] l IHl]; constructor;
      [apply IH|exact IHl].
Qed.

Lemma dict_set_keys {V : Type} (k : string) (v : V) (d : list (string * V)) :
  forall k', In k' (map fst (dict_set k v d)) <-> k' = k \/ In k' (map fst d).
Proof.
  induction d as [|[k0 v0] d IH]; intros k'; cbn [dict_set map fst In].
  - intuition.
  - destruct (String.eqb_spec k k0) as [->|Hne]; cbn [map fst In].
    + intuition.
    + rewrite IH. intuition.
Qed.

Lemma dict_set_NoDup {V : Type} (k : string) (v : V) (d : list (string * V)) :
  NoDup (map fst d) -> NoDup (map fst (dict_set k v d)).
Proof.
  induction d as [|[k0 v0] d IH]; intros Hnd; cbn [dict_set map fst].
  - constructor; [intros []|constructor].
  - inversion Hnd as [|? ? Hnotin Hnd']; subst.
    destruct (String.eqb_spec k k0) as [->|Hne]; cbn [map fst].
    + now constructor.
    + constructor; [|now apply IH].
      rewrite dict_set_keys. intros [H|H]; [congruence|contradiction].
Qed.

Lemma dict_set_values {V : Type} (P : V -> Prop) (k : string) (v : V)
    (d : list (string * V)) :
  P v -> Forall (fun kv => P (snd kv)) d ->
  Forall (fun kv => P (snd kv)) (dict_set k v d).
Proof.
  intros Hv. induction 1 as [|[k0 v0] d H0 Hd IH]; cbn [dict_set].
  - now repeat constructor.
  - destruct (String.eqb k k0); constructor; auto.
Qed.

Lemma dict_set_well_keyed (k : string) (v : PyVal) (d : PyDictT) :
  well_keyed v = true -> well_keyed (PyDict d) = true ->
  well_keyed (PyDict (dict_set k v d)) = true.
Proof.
  cbn [well_keyed]. rewrite !andb_true_iff, !unique_NoDup, !forallb_forall.
  intros Hv [Hnd Hall]. split; [now apply dict_set_NoDup|].
  apply Forall_forall.
  apply (dict_set_values (fun x => well_keyed x = true)); [exact Hv|].
  now apply Forall_forall.
Qed.

(** What [json.load] returns holds each key of a dictionary once. *)
Lemma json_load_well_keyed (j : Json) : well_keyed (json_load j) = true.
Proof.
  induction j as [| b | z | q | s | items IH | members IH] using Json_nested_ind;
    try reflexivity.
  - cbn [json_load well_keyed]. rewrite forallb_forall. intros v Hv.
    apply in_map_iff in Hv as [x [<- Hx]].
    rewrite Forall_forall in IH. now apply IH.
  - cbn [json_load].
    assert (Hgen : forall acc : PyDictT,
               well_keyed (PyDict acc) = true ->
               well_keyed
                 (PyDict (fold_left
                    (fun d kv => dict_set (fst kv) (json_load (snd kv)) d)
                    members acc)) = true).
    { induction IH as [|[k x] l Hx Hl IHl]; intros acc Hacc; [exact Hacc|].
      cbn [fold_left fst snd]. apply IHl.
      apply dict_set_well_keyed; [exact Hx|exact Hacc]. }
    now apply Hgen.
Qed.

Lemma back_filled_complete (d d' : PyDictT) :
  back_filled d d' -> lacks_default d' = false.
Proof.
  intros Hfill. unfold lacks_default.
  apply not_true_is_false. intros H.
  apply existsb_exists in H as [[k v] [Hin Hmem]].
  cbn [fst] in Hmem. apply negb_true_iff in Hmem.
  unfold dict_mem in Hmem. rewrite Hfill in Hmem.
  destruct (dict_get k d); [discriminate|].
  assert (Hk : dict_get k DEFAULT_SETTINGS <> None).
  { clear -Hin. unfold DEFAULT_SETTINGS in *. cbn [In] in Hin.
    repeat (destruct Hin as [Hin|Hin];
            [injection Hin as <- <-; discriminate|]).
    destruct Hin. }
  destruct (dict_get k DEFAULT_SETTINGS); [discriminate|congruence].
Qed.

Lemma fill_defaults_well_keyed :
  forall (items : PyDictT) (d : PyDictT) (updated : bool) d' u',
    Forall (fun kv => well_keyed (snd kv) = true) items ->
    well_keyed (PyDict d) = true ->
    fill_defaults items (PyDict d) updated = Returns (PyDict d', u') ->
    well_keyed (PyDict d') = true.
Proof.
  induction items as [|[key value] items IH]; intros d updated d' u' Hv Hd H.
  - cbn in H. now injection H as <- _.
  - inversion Hv as [|? ? Hval Hrest]; subst. cbn [snd] in Hval.
    cbn [fill_defaults py_in] in H.
    destruct (dict_mem key d).
    + now apply (IH d updated d' u').
    + cbn [py_setitem] in H.
      apply (IH (dict_set key value d) true d' u'); auto.
      now apply dict_set_well_keyed.
Qed.

Lemma default_values_well_keyed :
  Forall (fun kv => well_keyed (snd kv) = true) DEFAULT_SETTINGS.
Proof. repeat constructor. Qed.

(** Loading a file that holds a JSON object. *)
Lemma load_object (disk : Disk) (j : Json) (d : PyDictT) :
  file disk = Some (JsonText j) ->
  json_load j = PyDict d ->
  read_error disk = None ->
  exists d',
    back_filled d d'
    /\ well_keyed (PyDict d') = true
    /\ (lacks_default d = false -> d' = d)
    /\ load_settings disk
       = (Returns (PyDict d'),
          if lacks_default d then written (PyDict d') disk else disk).
Proof.
  intros Hfile Hjson Hread.
  destruct (fill_defaults_dict DEFAULT_SETTINGS d false)
    as [d' [Hfill [Hget Hsame]]].
  exists d'. split; [exact Hget|].
  split.
  { eapply (fill_defaults_well_keyed DEFAULT_SETTINGS d false d');
      [exact default_values_well_keyed| |exact Hfill].
    rewrite <- Hjson. apply json_load_well_keyed. }
  fold (lacks_default d) in Hfill, Hsame. cbn [orb] in Hfill.
  split; [exact Hsame|].
  destruct disk as [f re we]. cbn [file read_error] in Hfile, Hread.
  subst f re.
  unfold load_settings, try_except, bind, read, call, ret, open_.
  cbn [file read_error]. rewrite Hjson, Hfill.
  destruct (lacks_default d); [|reflexivity].
  now rewrite save_settings_step.
Qed.

(** On a value that is not a dictionary the loop over the defaults
    changes nothing: it raises a [TypeError], or finds every key. *)
Lemma fill_defaults_other (settings : PyVal) :
  (forall d, settings <> PyDict d) ->
  forall (items : PyDictT),
    (exists msg, fill_defaults items settings false = Raises (TypeError msg))
    \/ (fill_defaults items settings false = Returns (settings, false)
        /\ forall key, In key (dict_keys items) ->
                       py_in key settings = Returns true).
Proof.
  intros Hnot. induction items as [|[key value] items IH].
  - right. split; [reflexivity|]. intros key [].
  - cbn [fill_defaults].
    destruct (py_in key settings) as [[|]|e] eqn:Hin.
    + destruct IH as [IH|[IH Hall]]; [now left|]. right.
      split; [exact IH|].
      intros k [<-|Hk]; [exact Hin|now apply Hall].
    + left. destruct settings as [| b | z | q | s | l | d]; cbn; eauto.
      now destruct (Hnot d).
    + left. destruct settings as [| b | z | q | s | l | d]; cbn in Hin;
        try discriminate Hin; injection Hin as <-; eauto.
Qed.

Lemma load_other (disk : Disk) (j : Json) :
  file disk = Some (JsonText j) ->
  (forall d, json_load j <> PyDict d) ->
  read_error disk = None ->
  (exists msg, load_settings disk = (Raises (TypeError msg), disk))
  \/ (load_settings disk = (Returns (json_load j), disk)
      /\ forall key, In key (dict_keys DEFAULT_SETTINGS) ->
                     py_in key (json_load j) = Returns true).
Proof.
  intros Hfile Hnot Hread.
  destruct disk as [f re we]. cbn [file read_error] in Hfile, Hread.
  subst f re.
  unfold load_settings, try_except, bind, read, call, ret, open_.
  cbn [file read_error].
  destruct (fill_defaults_other (json_load j) Hnot DEFAULT_SETTINGS)
    as [[msg H]|[H Hall]]; rewrite H.
  - left. exists msg. reflexivity.
  - right. split; [reflexivity|exact Hall].
Qed.

Lemma load_unreadable (disk : Disk) :
  (exists why, file disk = Some (Unparseable why))
  \/ (exists content msg, file disk = Some content
                          /\ read_error disk = Some msg) ->
  load_settings disk = (Returns (PyDict DEFAULT_SETTINGS), disk).
Proof.
  destruct disk as [f re we]. cbn [file read_error].
  intros [[why ->]|[content [msg [-> ->]]]];
    unfold load_settings, try_except, bind, read, call, ret, raise, open_;
    cbn [file read_error]; [now destruct re|reflexivity].
Qed.

(** What [load_settings] does to the disk: nothing, or it writes the
    dictionary that it returns, which has every default key. *)
Lemma load_settings_cases (disk : Disk) :
  snd (load_settings disk) = disk
  \/ exists d,
       load_settings disk
       = (Returns (PyDict d), written (PyDict d) disk)
       /\ well_keyed (PyDict d) = true
       /\ lacks_default d = false
       /\ (read_error disk = None \/ d = DEFAULT_SETTINGS).
Proof.
  destruct (file disk) as [[j|why|why]|] eqn:Hfile.
  - destruct (read_error disk) as [msg|] eqn:Hread.
    { left. rewrite load_unreadable; [reflexivity|]. right. eauto. }
    destruct (json_load j) as [| b | z | q | s | l | d] eqn:Hjson.
    7:{ destruct (load_object disk j d Hfile Hjson Hread)
          as [d' [Hfill [Hwk [Hsame Hload]]]].
        destruct (lacks_default d) eqn:Hlacks.
        - right. exists d'. split; [exact Hload|]. split; [exact Hwk|].
          split; [now apply (back_filled_complete d)|now left].
        - left. now rewrite Hload. }
    all: left;
      destruct (load_other disk j Hfile) as [[msg H]|[H _]];
      try (rewrite Hjson; discriminate); try exact Hread;
      now rewrite H.
  - left. rewrite load_unreadable; [reflexivity|]. left. eauto.
  - left. destruct disk as [f re we]. cbn [file] in Hfile. subst f.
    unfold load_settings, try_except, bind, read, call, ret, raise, open_.
    cbn [file read_error]. now destruct re.
  - right. exists DEFAULT_SETTINGS.
    split; [|split; [reflexivity|split; [reflexivity|now right]]].
    destruct disk as [f re we]. cbn [file] in Hfile. subst f.
    unfold load_settings, bind, read, ret. cbn [file].
    now rewrite save_settings_step.
Qed.

(** Loading what an attempt to write [d] left on the disk. *)
Lemma load_written (disk : Disk) (d : PyDictT) :
  well_keyed (PyDict d) = true ->
  lacks_default d = false ->
  write_error disk = None ->
  read_error disk = None ->
  load_settings (written (PyDict d) disk)
  = (Returns (PyDict d), written (PyDict d) disk).
Proof.
  intros Hwk Hfull Hwrite Hread.
  unfold written. rewrite Hwrite.
  destruct (load_object (set_file (JsonText (json_dump (PyDict d))) disk)
              (json_dump (PyDict d)) d eq_refl (json_round_trip _ Hwk) Hread)
    as [d' [_ [_ [Hsame Hload]]]].
  rewrite Hfull in Hload. now rewrite Hload, (Hsame Hfull).
Qed.
End SettingsMore.

Section SettingsProperties.
Import SettingsManager SettingsSpec.

Local Open Scope stmt_scope.

(** X12.  Loading is idempotent, whatever the disk holds and does: loading
    again returns the same settings (or raises the same exception) and
    leaves the file as the first load left it. *)
Theorem load_settings_idempotent (disk : Disk) :
  load_settings (snd (load_settings disk)) = load_settings disk.
Proof.
  destruct (load_settings_cases disk)
    as [Hsame|[d [Hload [Hwk [Hfull Hread]]]]].
  - now rewrite Hsame.
  - rewrite Hload. cbn [snd].
    destruct (write_error disk) as [msg|] eqn:Hwrite.
    { unfold written in *. rewrite Hwrite in *. exact Hload. }
    destruct (read_error disk) as [msg|] eqn:Hre.
    + destruct Hread as [Hread| ->]; [discriminate|].
      apply load_unreadable. right.
      unfold written. rewrite Hwrite. cbn [set_file file read_error]. eauto.
    + now apply load_written.
Qed.

(** X13.  Saving and loading.  On a disk that can be written and read,
    settings that hold each key once come back from the file as they were
    saved, with the defaults for the default keys they lack; the file then
    holds what was returned. *)
Theorem save_then_load (disk : Disk) (d : PyDictT) :
  well_keyed (PyDict d) = true ->
  write_error disk = None ->
  read_error disk = None ->
  exists d',
    back_filled d d'
    /\ (lacks_default d = false -> d' = d)
    /\ (save_settings (PyDict d) ;;; load_settings) disk
       = (Returns (PyDict d'), written (PyDict d') disk).
Proof.
  intros Hwk Hwrite Hread.
  unfold bind at 1. rewrite save_settings_step.
  destruct (load_object (written (PyDict d) disk) (json_dump (PyDict d)) d)
    as [d' [Hfill [_ [Hsame Hload]]]].
  - unfold written. now rewrite Hwrite.
  - now apply json_round_trip.
  - unfold written. now rewrite Hwrite.
  - exists d'. split; [exact Hfill|]. split; [exact Hsame|].
    rewrite Hload. f_equal.
    destruct (lacks_default d).
    + unfold written. rewrite Hwrite. cbn [set_file write_error].
      rewrite Hwrite. reflexivity.
    + now rewrite Hsame.
Qed.

(** X14.  A settings file that holds JSON other than an object is not
    handled: when some default key is not "in" the value read ([null], a
    number or a boolean, which have no "in"; an array that lacks the key
    as an element; a string that lacks it as a part), [load_settings]
    raises a [TypeError], which it does not catch, and leaves the file as
    it is. *)
Theorem load_settings_rejects_other_json (disk : Disk) (j : Json) (key : string) :
  file disk = Some (JsonText j) ->
  read_error disk = None ->
  (forall d, json_load j <> PyDict d) ->
  In key (dict_keys DEFAULT_SETTINGS) ->
  py_in key (json_load j) <> Returns true ->
  exists msg, load_settings disk = (Raises (TypeError msg), disk).
Proof.
  intros Hfile Hread Hnot Hkey Hin.
  destruct (load_other disk j Hfile Hnot Hread) as [H|[_ Hall]];
    [exact H|].
  now destruct (Hin (Hall key Hkey)).
Qed.
End SettingsProperties.

(* ================================================================= *)
(** ** The report, continued *)

Section ReportCounts.
Import Gui GuiSpec ReportSpec.

Lemma list_sum_cons (x : nat) (l : list nat) :
  list_sum (x :: l) = (x + list_sum l)%nat.
Proof. reflexivity. Qed.

Lemma url_entry_counts (results : list RunResult) (u : string) :
  num_successful_runs (url_entry results u)
  = List.length (filter (fun r => Qgeb (load_time_ms r) 0%Q)
                   (successes results u))
  /\ num_errors (url_entry results u) = List.length (errors results u).
Proof.
  unfold url_entry.
  destruct (map float_load_time _) as [|x l] eqn:E;
    cbn [num_successful_runs num_errors].
  - apply map_eq_nil in E. now rewrite E.
  - split; [|reflexivity].
    apply (f_equal (@List.length _)) in E. rewrite length_map in E.
    now symmetry.
Qed.

Lemma entry_shares (results : list RunResult) (u : string) :
  (num_successful_runs (url_entry results u)
   + num_errors (url_entry results u))%nat
  = list_sum (map (share u) results).
Proof.
  destruct (url_entry_counts results u) as [-> ->].
  unfold successes, errors, share.
  induction results as [|r rs IH]; [reflexivity|].
  cbn [filter map list_sum].
  destruct (has_url_status u Success r); cbn [filter andb];
    destruct (Qgeb (load_time_ms r) 0); destruct (has_url_status u Error r);
    unfold list_sum in *; cbn [List.length fold_right]; lia.
Qed.

Lemma share_other (u : string) (r : RunResult) :
  SeleniumUtils.url r <> u -> share u r = 0%nat.
Proof.
  intros Hne. unfold share, has_url_status.
  now rewrite (proj2 (String.eqb_neq _ _) Hne).
Qed.

Lemma share_own (r : RunResult) :
  (share (SeleniumUtils.url r) r <= 1)%nat
  /\ (well_timed r -> share (SeleniumUtils.url r) r = 1%nat).
Proof.
  unfold share, has_url_status, well_timed. rewrite String.eqb_refl.
  destruct (status r); cbn [status_eqb andb].
  - split; [destruct (Qgeb _ _); lia|].
    intros H. unfold Qgeb.
    now rewrite (proj2 (Qle_bool_iff 0 (load_time_ms r)) (H eq_refl)).
  - split; [lia|reflexivity].
Qed.

Lemma shares_of_one (r : RunResult) (us : list string) :
  NoDup us ->
  (list_sum (map (fun u => share u r) us) <= 1)%nat
  /\ (In (SeleniumUtils.url r) us -> well_timed r ->
      list_sum (map (fun u => share u r) us) = 1%nat).
Proof.
  induction 1 as [|u us Hnotin Hnd IH]; cbn [map]; rewrite ?list_sum_cons.
  - split; [cbn; lia|intros []].
  - destruct (string_dec (SeleniumUtils.url r) u) as [<-|Hne].
    + assert (Hrest : list_sum (map (fun u => share u r) us) = 0%nat).
      { clear -Hnotin. induction us as [|v us IH]; [reflexivity|].
        cbn [map]. rewrite list_sum_cons, share_other, IH; [reflexivity| |].
        - intros Hin. apply Hnotin. now right.
        - intros E. apply Hnotin. left. now symmetry. }
      rewrite Hrest. destruct (share_own r) as [Hle Heq].
      split; [lia|]. intros _ Hwt. rewrite (Heq Hwt). lia.
    + rewrite share_other by exact Hne. destruct IH as [Hle Heq].
      split; [exact Hle|].
      intros [Hin|Hin] Hwt; [congruence|now apply Heq].
Qed.

Lemma shares_of_all (results : list RunResult) (us : list string) :
  NoDup us ->
  (list_sum (map (fun u => list_sum (map (share u) results)) us)
   <= List.length results)%nat
  /\ ((forall r, In r results -> In (SeleniumUtils.url r) us) ->
      Forall well_timed results ->
      list_sum (map (fun u => list_sum (map (share u) results)) us)
      = List.length results).
Proof.
  intros Hnd. induction results as [|r rs IH].
  - cbn. split; [|intros _ _];
      induction us as [|u us IHus]; cbn; auto;
      inversion Hnd; subst; auto.
  - assert (Hsplit :
      list_sum (map (fun u => list_sum (map (share u) (r :: rs))) us)
      = (list_sum (map (fun u => share u r) us)
         + list_sum (map (fun u => list_sum (map (share u) rs)) us))%nat).
    { clear.
      rewrite (map_ext (fun u => list_sum (map (share u) (r :: rs)))
                 (fun u => (share u r + list_sum (map (share u) rs))%nat)
                 (fun u => eq_refl)).
      induction us as [|u us IH]; [reflexivity|].
      cbn [map]. rewrite !list_sum_cons, IH. lia. }
    rewrite Hsplit. cbn [List.length].
    destruct (shares_of_one r us Hnd) as [Hle1 Heq1].
    destruct IH as [Hle Heq]. split; [lia|].
    intros Hin Hwt. inversion Hwt as [|? ? Hr Hrs]; subst.
    rewrite Heq1, Heq; auto.
    + intros r' Hr'. apply Hin. now right.
    + apply Hin. now left.
Qed.
End ReportCounts.

Section Ordering.
Import Gui GuiSpec ReportSpec.

Lemma len_cons (x : Q) (l : list Q) : (len (x :: l) == len l + 1)%Q.
Proof.
  unfold len. cbn [List.length]. rewrite Nat2Z.inj_succ.
  unfold Z.succ. now rewrite inject_Z_plus.
Qed.

Lemma len_pos (x : Q) (l : list Q) : (0 < len (x :: l))%Q.
Proof.
  unfold len. change 0%Q with (inject_Z 0). rewrite <- Zlt_Qlt.
  cbn [List.length]. lia.
Qed.

Lemma len_nonneg (l : list Q) : (0 <= len l)%Q.
Proof.
  unfold len. change 0%Q with (inject_Z 0). rewrite <- Zle_Qle. lia.
Qed.

Lemma Qsum_bounds (lo hi : Q) (data : list Q) :
  Forall (Qle lo) data -> Forall (fun x => (x <= hi)%Q) data ->
  (lo * len data <= Qsum data)%Q /\ (Qsum data <= hi * len data)%Q.
Proof.
  induction data as [|x l IH]; intros Hlo Hhi.
  - unfold len, Qsum. cbn [List.length fold_right Z.of_nat].
    change (inject_Z 0) with 0%Q. split; lra.
  - inversion Hlo as [|? ? Hx Hl]; inversion Hhi as [|? ? Hx' Hl']; subst.
    destruct (IH Hl Hl') as [H1 H2].
    change (Qsum (x :: l)) with (x + Qsum l)%Q.
    rewrite len_cons. split; lra.
Qed.

(** The mean lies between the least and the greatest value. *)
Lemma mean_bounds (lo hi : Q) (data : list Q) :
  data <> [] ->
  Forall (Qle lo) data -> Forall (fun x => (x <= hi)%Q) data ->
  (lo <= arithmetic_mean data)%Q /\ (arithmetic_mean data <= hi)%Q.
Proof.
  intros Hne Hlo Hhi. destruct data as [|x l]; [congruence|].
  destruct (Qsum_bounds lo hi (x :: l) Hlo Hhi) as [H1 H2].
  pose proof (len_pos x l) as Hpos. unfold arithmetic_mean. split.
  - apply Qle_shift_div_l; assumption.
  - apply Qle_shift_div_r; assumption.
Qed.

(** The median lies between the least and the greatest value, when
    these are doubles. *)
Lemma median_bounds (lo hi m : Q) (data : list Q) :
  data <> [] ->
  to_float lo = lo -> to_float hi = hi ->
  Forall (Qle lo) data -> Forall (fun x => (x <= hi)%Q) data ->
  is_median data m ->
  (lo <= m)%Q /\ (m <= hi)%Q.
Proof.
  intros Hne Hflo Hfhi Hlo Hhi [sorted [Hperm [_ ->]]].
  pose proof (Permutation_length Hperm) as Hlen.
  assert (Hn : (0 < List.length data)%nat).
  { destruct data; [congruence|cbn; lia]. }
  assert (Hnth : forall i, (i < List.length data)%nat ->
                   (lo <= nth i sorted 0)%Q /\ (nth i sorted 0 <= hi)%Q).
  { intros i Hi.
    assert (Hin : In (nth i sorted 0%Q) data).
    { apply (Permutation_in _ Hperm), nth_In. lia. }
    rewrite Forall_forall in Hlo, Hhi. split; auto. }
  set (n := List.length data) in *.
  pose proof (Nat.div_lt n 2 Hn ltac:(lia)) as Hhalf.
  destruct (n mod 2 =? 1)%nat.
  - now apply Hnth.
  - destruct (Hnth (n / 2)%nat Hhalf) as [H1 H2].
    destruct (Hnth (n / 2 - 1)%nat ltac:(lia)) as [H3 H4].
    split.
    + rewrite <- Hflo. apply to_float_mono.
      apply Qle_shift_div_l; [reflexivity|]. lra.
    + rewrite <- Hfhi. apply to_float_mono.
      apply Qle_shift_div_r; [reflexivity|]. lra.
Qed.

Lemma dict_get_map_inv {V : Type} (f : string -> V) (k : string)
    (ks : list string) (v : V) :
  dict_get k (map (fun u => (u, f u)) ks) = Some v -> v = f k /\ In k ks.
Proof.
  induction ks as [|k' ks IH]; [discriminate|].
  cbn [map dict_get]. destruct (String.eqb_spec k k') as [->|Hne].
  - intros H. injection H as <-. split; [reflexivity|now left].
  - intros H. destruct (IH H) as [-> Hin]. split; [reflexivity|now right].
Qed.

(** The statistics of a list of doubles that is not empty. *)
Lemma statistics_ordered (x : Q) (l : list Q) :
  let data := x :: l in
  Forall (fun y => to_float y = y) data ->
  (round2 (value (py_min data)) <= round2 (value (median data)))%Q
  /\ (round2 (value (median data)) <= round2 (value (py_max data)))%Q
  /\ (round2 (value (py_min data)) <= round2 (value (mean data)))%Q
  /\ (round2 (value (mean data)) <= round2 (value (py_max data)))%Q
  /\ (0 <= (if (1 <? List.length data)%nat
            then round2 (value (stdev data)) else 0))%Q.
Proof.
  intros data Hfl.
  assert (Hne : data <> []) by discriminate.
  destruct (py_min_spec x l) as [lo [Hlo [Hin_lo Hall_lo]]].
  destruct (py_max_spec x l) as [hi [Hhi [Hin_hi Hall_hi]]].
  destruct (median_returns data Hne) as [m [Hm Hmed]].
  fold data in Hlo, Hhi, Hall_lo, Hall_hi, Hin_lo, Hin_hi.
  rewrite Hlo, Hhi, Hm, (mean_returns data Hne). cbn [value].
  rewrite Forall_forall in Hfl.
  pose proof (Hfl lo Hin_lo) as Hflo. pose proof (Hfl hi Hin_hi) as Hfhi.
  destruct (median_bounds lo hi m data Hne Hflo Hfhi Hall_lo Hall_hi Hmed)
    as [H1 H2].
  destruct (mean_bounds lo hi data Hne Hall_lo Hall_hi) as [H3 H4].
  apply to_float_mono in H3, H4. rewrite Hflo in H3. rewrite Hfhi in H4.
  repeat (split; [now apply round2_mono|]).
  destruct (1 <? List.length data)%nat eqn:Hlen; [|apply Qle_refl].
  apply Nat.ltb_lt in Hlen.
  rewrite stdev_returns by lia. apply round2_nonneg, float_sqrt_nonneg.
Qed.
End Ordering.

Section ReportProperties.
Import Gui GuiSpec ReportSpec.

(** X15.  The report counts every result once.  The successful runs and
    the errors of the entries of a summary add up to at most the number of
    results: a result is counted by the entry of its URL alone, and not at
    all when it is a success with a negative load time.  When no
    successful run has a negative load time they add up to the number of
    results. *)
Theorem report_counts_every_result (results : list RunResult) :
  exists summary,
    generate_summary_report results = Returns summary
    /\ (counted_runs summary <= List.length results)%nat
    /\ (Forall well_timed results ->
        counted_runs summary = List.length results).
Proof.
  eexists. split; [apply report_closed_form|].
  destruct (sorted_set_spec (map SeleniumUtils.url results))
    as [_ [Hnd Hmem]].
  unfold counted_runs. rewrite map_map. cbn [snd].
  rewrite (map_ext _ _ (entry_shares results)).
  destruct (shares_of_all results _ Hnd) as [Hle Heq].
  split; [exact Hle|].
  intros Hwt. apply Heq; [|exact Hwt].
  intros r Hr. apply Hmem. now apply in_map.
Qed.

(** X16.  The statistics of an entry are in order.  For a URL with a
    counted successful run the five statistics are numbers, the median
    and the mean lie between the minimum and the maximum (all four as
    rounded), and the standard deviation is not negative. *)
Theorem summary_statistics_are_ordered
    (results : list RunResult) (summary : Summary) (u : string)
    (entry : UrlSummary) :
  generate_summary_report results = Returns summary ->
  dict_get u summary = Some entry ->
  num_successful_runs entry <> 0%nat ->
  exists lo md av hi sd,
    min_load_time_ms entry = Num lo
    /\ median_load_time_ms entry = Num md
    /\ avg_load_time_ms entry = Num av
    /\ max_load_time_ms entry = Num hi
    /\ std_dev_load_time_ms entry = Num sd
    /\ (lo <= md)%Q /\ (md <= hi)%Q
    /\ (lo <= av)%Q /\ (av <= hi)%Q
    /\ (0 <= sd)%Q.
Proof.
  intros Hrep Hget Hsome.
  rewrite report_closed_form in Hrep. injection Hrep as <-.
  apply dict_get_map_inv in Hget as [-> _].
  unfold url_entry in *.
  set (data := map float_load_time _) in *.
  assert (Hfl : Forall (fun y => to_float y = y) data).
  { apply Forall_map, Forall_forall. intros r _. apply to_float_idem. }
  destruct data as [|x l]; [now elim Hsome|].
  cbn [min_load_time_ms median_load_time_ms avg_load_time_ms
         max_load_time_ms std_dev_load_time_ms].
  destruct (statistics_ordered x l Hfl) as [H1 [H2 [H3 [H4 H5]]]].
  do 5 eexists. repeat (split; [reflexivity|]). auto.
Qed.
End ReportProperties.

(* ================================================================= *)
(** ** The session setup *)

Section SessionSetupProperties.
Import Worker SessionSetup.

Ltac run_setup :=
  unfold setup, actions, setup_driver, install_and_start, quit_if_started,
    did, try_except, bind, call, ret, raise, update, read, set_driver_var,
    fresh;
  cbn [driver_var done fst snd app].

(** X17.  A browser name that is neither Chrome nor Firefox, in any
    capitals: [setup_driver] raises a [WebDriverException] that wraps the
    [ValueError], and touches nothing on the machine. *)
Theorem setup_rejects_unknown_browser
    (m : Machine) (browser_name : string) (headless anti_detection : bool) :
  lower browser_name <> "chrome" ->
  lower browser_name <> "firefox" ->
  setup m browser_name headless anti_detection
  = Raises (WebDriverException_
              ("Unexpected driver setup error: Unsupported browser: "
               ++ browser_name))
  /\ actions m browser_name headless anti_detection = [].
Proof.
  intros Hc Hf. run_setup.
  rewrite (proj2 (String.eqb_neq _ _) Hc), (proj2 (String.eqb_neq _ _) Hf).
  split; reflexivity.
Qed.

(** X18.  [setup_driver] leaves no browser behind.  It never returns
    [None]: it returns the browser that it started, without a call of
    [quit()], or it raises, and then no browser is left open: [quit()]
    was called on the one that was started before the failure.  What it
    raises is a [WebDriverException], unless that [quit()] raised
    itself. *)
Theorem setup_leaves_no_browser_behind
    (m : Machine) (browser_name : string) (headless anti_detection : bool) :
  match setup m browser_name headless anti_detection with
  | Returns (Some d) =>
      left_open m (actions m browser_name headless anti_detection) false
      = true
      /\ ~ In QuitBrowser (actions m browser_name headless anti_detection)
      /\ exists kind path options,
           install m kind = Returns path
           /\ start m kind path options = Returns d
  | Returns None => False
  | Raises e =>
      left_open m (actions m browser_name headless anti_detection) false
      = false
      /\ (is_webdriver_exception e = true
          \/ exists d, quit d = Raises e
                       /\ In QuitBrowser
                            (actions m browser_name headless anti_detection))
  end.
Proof.
  run_setup.
  destruct (String.eqb (lower browser_name) "chrome").
  - destruct (install m Chrome) as [path|e1] eqn:Hi; cbn [driver_var done app].
    2:{ cbn. auto. }
    destruct (start m Chrome path _) as [d|e2] eqn:Hs;
      cbn [driver_var done app].
    2:{ cbn. rewrite ?Hi, ?Hs. auto. }
    destruct anti_detection; cbn [driver_var done app].
    + destruct (execute_cdp_cmd m d) as [[]|e3]; cbn [driver_var done app].
      * cbn [fst snd done left_open]. rewrite ?Hi, ?Hs.
        split; [reflexivity|]. split; [|eauto].
        cbn. intuition discriminate.
      * destruct (quit d) as [[]|e4] eqn:Hq; cbn [driver_var done app].
        -- destruct (is_webdriver_exception e3) eqn:Hw;
             cbn [fst snd done left_open]; rewrite ?Hi, ?Hs; auto.
        -- cbn [fst snd done left_open]. rewrite ?Hi, ?Hs.
           split; [reflexivity|]. right. exists d. split; [exact Hq|].
           cbn. auto.
    + cbn [fst snd done left_open]. rewrite ?Hi, ?Hs.
      split; [reflexivity|]. split; [|eauto].
      cbn. intuition discriminate.
  - destruct (String.eqb (lower browser_name) "firefox").
    + destruct (install m Firefox) as [path|e1] eqn:Hi;
        cbn [driver_var done app].
      2:{ cbn. auto. }
      destruct (start m Firefox path _) as [d|e2] eqn:Hs;
        cbn [driver_var done app].
      2:{ cbn. rewrite ?Hi, ?Hs. auto. }
      cbn [fst snd done left_open]. rewrite ?Hi, ?Hs.
      split; [reflexivity|]. split; [|eauto].
      cbn. intuition discriminate.
    + cbn. auto.
Qed.

(** X19.  The options are what was asked for.  Without [anti_detection] no
    option that hides the automation reaches a browser and no DevTools
    command is sent; without [headless] no browser is started headless,
    and with it every browser is. *)
Theorem setup_options_as_requested
    (m : Machine) (browser_name : string) (headless anti_detection : bool) :
  (anti_detection = false ->
   existsb hides_automation
     (options_used (actions m browser_name headless anti_detection)) = false
   /\ existsb is_cdp (actions m browser_name headless anti_detection) = false)
  /\ (forall kind options,
        In (StartBrowser kind options)
           (actions m browser_name headless anti_detection) ->
        (In (add_argument "--headless") options <-> headless = true)
        /\ In (add_argument "--disable-gpu") options).
Proof.
  split.
  - intros ->. run_setup.
    destruct (String.eqb (lower browser_name) "chrome").
    + destruct (install m Chrome) as [path|e1]; cbn [driver_var done app];
        [|split; reflexivity].
      destruct (start m Chrome path _) as [d|e2]; cbn [driver_var done app];
        destruct headless; split; reflexivity.
    + destruct (String.eqb (lower browser_name) "firefox");
        [|split; reflexivity].
      destruct (install m Firefox) as [path|e1]; cbn [driver_var done app];
        [|split; reflexivity].
      destruct (start m Firefox path _) as [d|e2]; cbn [driver_var done app];
        destruct headless; split; reflexivity.
  - intros kind options. run_setup.
    assert (Hc : forall h a,
               (In (add_argument "--headless") (chrome_options h a)
                <-> h = true)
               /\ In (add_argument "--disable-gpu") (chrome_options h a)).
    { intros [|] [|]; cbn; intuition discriminate. }
    assert (Hf : forall h a,
               (In (add_argument "--headless") (firefox_options h a)
                <-> h = true)
               /\ In (add_argument "--disable-gpu") (firefox_options h a)).
    { intros [|] [|]; cbn; intuition discriminate. }
    destruct (String.eqb (lower browser_name) "chrome").
    + destruct (install m Chrome) as [path|e1]; cbn [driver_var done app].
      2:{ cbn. intuition discriminate. }
      destruct (start m Chrome path _) as [d|e2]; cbn [driver_var done app].
      2:{ cbn. intros [H|[H|[]]]; [discriminate|].
          injection H as <- <-. apply Hc. }
      destruct anti_detection; cbn [driver_var done app].
      * destruct (execute_cdp_cmd m d) as [[]|e3]; cbn [driver_var done app].
        -- cbn. intros [H|[H|[H|[]]]]; try discriminate.
           injection H as <- <-. apply Hc.
        -- destruct (quit d) as [[]|e4]; cbn [driver_var done app];
             [destruct (is_webdriver_exception e3)|]; cbn;
             intros [H|[H|[H|[H|[]]]]]; try discriminate;
             injection H as <- <-; apply Hc.
      * cbn. intros [H|[H|[]]]; [discriminate|].
        injection H as <- <-. apply Hc.
    + destruct (String.eqb (lower browser_name) "firefox").
      * destruct (install m Firefox) as [path|e1]; cbn [driver_var done app].
        2:{ cbn. intuition discriminate. }
        destruct (start m Firefox path _) as [d|e2]; cbn [driver_var done app];
          cbn; intros [H|[H|[]]]; try discriminate;
          injection H as <- <-; apply Hf.
      * cbn. intros [].
Qed.
End SessionSetupProperties.

(* ================================================================= *)
(** ** The session setup in a run *)

Section SetupInTheRun.
Import Worker WorkerSpec WorkerTrace SessionSetup SetupSpec.

(** X20.  A run with a browser name that is neither Chrome nor Firefox
    touches no browser: every session setup fails in [setup_driver], so
    every result of the run is an error that names the unsupported
    browser, and no session is ever quit. *)
Theorem unsupported_browser_fails_every_run
    (machine : nat -> Machine) (env : Env) (self : TestWorker) :
  set_up_by machine env ->
  lower (browser self) <> "chrome" ->
  lower (browser self) <> "firefox" ->
  Forall (fun r => status r = Error
                   /\ error_message r
                      = Some (Some (unsupported_message (browser self))))
    (results_of (trace env self))
  /\ (forall i, SessionSetup.actions (machine i) (browser self)
                  (headless self)
                  (py_truthy (dict_get_default "anti_detection_enabled"
                                (PyBool false) (config self))) = [])
  /\ Forall (fun a => exists url, a = SetupDriver url)
       (filter is_lifecycle (trace env self)).
Proof.
  intros Hreal Hc Hf.
  assert (Hsetup : forall i,
            driver_for env self i
            = inl (WebDriverException_
                     ("Unexpected driver setup error: Unsupported browser: "
                      ++ browser self))).
  { intros i. unfold driver_for. rewrite Hreal.
    unfold setup, setup_driver, install_and_start, quit_if_started,
      did, try_except, bind, call, ret, raise, update, read, fresh.
    rewrite (proj2 (String.eqb_neq _ _) Hc), (proj2 (String.eqb_neq _ _) Hf).
    reflexivity. }
  destruct (run_is_run_trace env self) as [-> _].
  split; [|split].
  - apply run_trace_results.
    + intros i url e k _ He _. rewrite Hsetup in He. injection He as <-.
      split; reflexivity.
    + intros i url d run r _ Hd. rewrite Hsetup in Hd. discriminate.
  - intros i. unfold actions, setup_driver, install_and_start,
      quit_if_started, did, try_except, bind, call, ret, raise, update, read,
      fresh.
    rewrite (proj2 (String.eqb_neq _ _) Hc), (proj2 (String.eqb_neq _ _) Hf).
    reflexivity.
  - destruct (run_trace_lifecycle env self) as [us1 [us2 [_ [-> _]]]].
    generalize 0%nat. induction us1 as [|u us1 IH]; intros i; [constructor|].
    cbn [lifecycles]. rewrite Hsetup. cbn [app].
    constructor; [eauto|apply IH].
Qed.
End SetupInTheRun.

(* ================================================================= *)
(** ** The slot of the results *)

Section ResultSlotFacts.
Import Worker ResultSlot.

Lemma set_next_item_step (text : string) (d : list RunResult)
    (t : list (list string)) (row : list string) (l : list string) :
  set_next_item text
    {| results_data := d; results_table := t ++ [row]; log_area := l |}
  = (Returns tt,
     {| results_data := d; results_table := t ++ [row ++ [text]];
        log_area := l |}).
Proof.
  unfold set_next_item, update. cbn [results_data results_table log_area].
  now rewrite removelast_last, last_last.
Qed.

(** The slot, case by case. *)
Lemma handle_result_cases (tk : Toolkit) (result : RunResult) (w : Window) :
  let stored rows log :=
    {| results_data := results_data w ++ [result];
       results_table := results_table w ++ [rows];
       log_area := log |} in
  handle_result tk result w
  = match strftime tk (timestamp result) with
    | Raises e => (Raises e, stored [] (log_area w))
    | Returns ts =>
        let four := [SeleniumUtils.url result; run_num_str result;
                     load_time_str tk result; status_str result] in
        match match details_str result with
              | Some text => Returns text
              | None => item_of_none tk
              end with
        | Raises e => (Raises e, stored four (log_area w))
        | Returns details =>
            match truthy_timing result, status result with
            | Some timing, Success =>
                match dom_load timing with
                | Raises e =>
                    (Raises e,
                     stored (row_of tk result details ts) (log_area w))
                | Returns dom =>
                    (Returns tt,
                     stored (row_of tk result details ts)
                       (log_area w ++ [timing_details result timing dom]))
                end
            | _, _ =>
                (Returns tt, stored (row_of tk result details ts) (log_area w))
            end
        end
    end.
Proof.
  cbv zeta. unfold handle_result, store, insertRow.
  unfold bind at 1. unfold update at 1.
  unfold bind at 1. unfold update at 1.
  cbn [results_data results_table log_area].
  unfold bind at 1. unfold call at 1.
  destruct (strftime tk (timestamp result)) as [ts|e]; [|reflexivity].
  do 4 (unfold bind at 1; rewrite set_next_item_step). cbn [app].
  unfold bind at 1.
  assert (Hd : forall st : Window,
            match details_str result with
            | Some text => ret text
            | None => call (item_of_none tk)
            end st
            = (match details_str result with
               | Some text => Returns text
               | None => item_of_none tk
               end, st)).
  { intros st. now destruct (details_str result). }
  rewrite Hd.
  destruct (match details_str result with
            | Some text => Returns text
            | None => item_of_none tk
            end) as [details|e]; [|reflexivity].
  do 2 (unfold bind at 1; rewrite set_next_item_step). cbn [app].
  unfold row_of.
  destruct (truthy_timing result) as [timing|]; [|reflexivity].
  destruct (status result); [|reflexivity].
  unfold bind at 1. unfold call at 1.
  destruct (dom_load timing) as [dom|e]; reflexivity.
Qed.
End ResultSlotFacts.

Section ResultSlotProperties.
Import Worker ResultSlot.

Lemma result_data_stored (tk : Toolkit) (result : RunResult) (w : Window) :
  results_data (snd (handle_result tk result w))
  = results_data w ++ [result].
Proof.
  rewrite handle_result_cases. cbv zeta.
  destruct (strftime tk (timestamp result)); [|reflexivity].
  destruct (match details_str result with
            | Some text => Returns text
            | None => item_of_none tk
            end); [|reflexivity].
  destruct (truthy_timing result) as [timing|];
    [destruct (status result); [destruct (dom_load timing)|]|]; reflexivity.
Qed.

Lemma slot_raises_on_marker (tk : Toolkit) (result : RunResult) (w : Window)
    (msg : string) :
  status result = Success ->
  navigation_timing result = Some (NavError msg) ->
  exists err,
    fst (handle_result tk result w) = Raises err
    /\ log_area (snd (handle_result tk result w)) = log_area w
    /\ (forall ts, strftime tk (timestamp result) = Returns ts ->
          err = TypeError "unsupported operand type(s) for -: 'str' and 'int'"
          /\ results_table (snd (handle_result tk result w))
             = results_table w ++ [row_of tk result "OK" ts]).
Proof.
  intros Hst Hnav. rewrite handle_result_cases. cbv zeta.
  unfold details_str, truthy_timing. rewrite Hst, Hnav.
  destruct (strftime tk (timestamp result)) as [ts|e]; cbn [dom_load fst snd].
  - eexists. split; [reflexivity|]. split; [reflexivity|].
    intros ts' E. injection E as <-. split; reflexivity.
  - eexists. split; [reflexivity|]. split; [reflexivity|]. discriminate.
Qed.

(** X21.  The slot stores a result before it shows it: whatever happens
    while the row is filled, the result is appended to [results_data] and
    the table has one more row, so the table keeps a row for each stored
    result.  When the slot returns, that row is the complete row of the
    result, with ['OK'] as the details of a success and the error message
    as the details of an error. *)
Theorem result_is_stored_then_shown
    (tk : Toolkit) (result : RunResult) (w : Window) :
  let out := handle_result tk result w in
  results_data (snd out) = results_data w ++ [result]
  /\ (exists row, results_table (snd out) = results_table w ++ [row])
  /\ (in_step w -> in_step (snd out))
  /\ (fst out = Returns tt ->
      exists details ts,
        strftime tk (timestamp result) = Returns ts
        /\ results_table (snd out)
           = results_table w ++ [row_of tk result details ts]
        /\ (status result = Success -> details = "OK")
        /\ (forall msg, status result = Error ->
              error_message result = Some (Some msg) -> details = msg)).
Proof.
  cbv zeta. rewrite handle_result_cases. cbv zeta.
  assert (Hstep : forall rows log,
            in_step w ->
            in_step {| results_data := results_data w ++ [result];
                       results_table := results_table w ++ [rows];
                       log_area := log |}).
  { intros rows log H. unfold in_step in *.
    cbn [results_data results_table]. now rewrite !length_app, H. }
  assert (Hdetails : forall details,
            match details_str result with
            | Some text => Returns text
            | None => item_of_none tk
            end = Returns details ->
            (status result = Success -> details = "OK")
            /\ (forall msg, status result = Error ->
                  error_message result = Some (Some msg) -> details = msg)).
  { intros details. unfold details_str.
    destruct (status result).
    - intros E. injection E as <-. split; [reflexivity|discriminate].
    - intros E. split; [discriminate|]. intros msg _ Hmsg.
      rewrite Hmsg in E. now injection E. }
  destruct (strftime tk (timestamp result)) as [ts|e].
  2:{ cbn [fst snd results_data results_table].
      repeat split; eauto. discriminate. }
  destruct (match details_str result with
            | Some text => Returns text
            | None => item_of_none tk
            end) as [details|e] eqn:Hd.
  2:{ cbn [fst snd results_data results_table].
      repeat split; eauto. discriminate. }
  specialize (Hdetails details eq_refl).
  destruct (truthy_timing result) as [timing|];
    [destruct (status result) eqn:Hst; [destruct (dom_load timing)|]|];
    cbn [fst snd results_data results_table];
    (split; [reflexivity|]); (split; [eauto|]); (split; [apply Hstep|]);
    try discriminate; intros _; exists details, ts; tauto.
Qed.

(** X22.  A page that loads while the extraction of its timing fails gives
    a success that carries the error marker, and the slot cannot show the
    timing of such a result: delivered by the worker with its run number
    and configuration, it makes the slot raise, a [TypeError] from
    ['N/A' - 0] once the row is filled, and nothing is logged. *)
Theorem marked_result_makes_the_slot_raise
    (driver : Session) (url : string) (timeout : Z) (wait_strategy : string)
    (e : Exc) :
  Spec.page_loads driver wait_strategy ->
  Spec.timing_extraction_fails driver e ->
  exists r,
    measure_load_time driver url timeout wait_strategy = Returns r
    /\ status r = Success
    /\ navigation_timing r = Some (NavError (exc_str e))
    /\ forall (tk : Toolkit) (w : Window) (cfg : PyDictT) (n : nat),
         let delivered := set_config cfg (set_run_number n r) in
         exists err,
           fst (handle_result tk delivered w) = Raises err
           /\ results_data (snd (handle_result tk delivered w))
              = results_data w ++ [delivered]
           /\ log_area (snd (handle_result tk delivered w)) = log_area w
           /\ (forall ts, strftime tk (timestamp r) = Returns ts ->
                 err = TypeError
                         "unsupported operand type(s) for -: 'str' and 'int'").
Proof.
  intros Hloads Hfails.
  apply page_loads_outcome in Hloads as [u Hout].
  destruct (measure_success driver url timeout wait_strategy u Hout)
    as [nav [Hm Hnav]].
  specialize (Hnav e Hfails). subst nav.
  eexists. split; [exact Hm|]. split; [reflexivity|]. split; [reflexivity|].
  intros tk w cfg n delivered.
  destruct (slot_raises_on_marker tk delivered w (exc_str e) eq_refl eq_refl)
    as [err [Herr [Hlog Hts]]].
  exists err. split; [exact Herr|]. split; [|split; [exact Hlog|]].
  - pose proof (result_data_stored tk delivered w) as H. exact H.
  - intros ts H. apply (Hts ts H).
Qed.
End ResultSlotProperties.

(* ================================================================= *)
(** ** The DNS benchmark *)

Section DnsFacts.
Import Worker DnsUtils.

Lemma dict_set_fresh {V : Type} (k : string) (v : V) (d : list (string * V)) :
  ~ In k (map fst d) -> dict_set k v d = d ++ [(k, v)].
Proof.
  induction d as [|[k' v'] d IH]; intros Hk; [reflexivity|].
  cbn [dict_set map fst In] in *.
  destruct (String.eqb_spec k k') as [->|Hne]; [tauto|].
  cbn [app]. f_equal. apply IH. tauto.
Qed.

(** A probe raises only what the making of its resolver raises, and
    returns a sound entry. *)
Lemma measure_dns_latency_cases (net : Network) (k : nat)
    (domain dns_server : string) (timeout : Z) :
  match measure_dns_latency net k domain dns_server timeout with
  | Raises e => new_resolver net k dns_server = Raises e
  | Returns (latency, status) =>
      steady_clock net -> sound_entry (entry latency status)
  end.
Proof.
  unfold measure_dns_latency.
  destruct (new_resolver net k dns_server) as [u|e]; [|reflexivity].
  destruct (resolve net k domain dns_server); intros Hclock;
    eexists; (split; [reflexivity|]); cbn [dns_status entry].
  - split; [congruence|]. intros _. apply round2_nonneg.
    specialize (Hclock k).
    set (a := fst (perf_counter net k)) in *.
    set (b := snd (perf_counter net k)) in *. nra.
  - split; [reflexivity|discriminate].
  - split; [reflexivity|discriminate].
  - split; [reflexivity|discriminate].
Qed.

Lemma test_standard_spec (net : Network) :
  forall (servers : list (string * string)) (k : nat) (results : DnsResults),
    NoDup (map fst results ++ map label servers) ->
    match test_standard net k servers results with
    | Returns out =>
        map fst out = map fst results ++ map label servers
        /\ (steady_clock net ->
            Forall (fun kv => sound_entry (snd kv)) results ->
            Forall (fun kv => sound_entry (snd kv)) out)
    | Raises e =>
        exists j server,
          In (j, server)
             (combine (seq k (List.length servers)) (map snd servers))
          /\ new_resolver net j server = Raises e
    end.
Proof.
  induction servers as [|[name ip] servers IH]; intros k results Hnd.
  - cbn. rewrite app_nil_r. auto.
  - cbn [test_standard].
    pose proof (measure_dns_latency_cases net k TEST_DOMAIN ip 2) as Hm.
    destruct (measure_dns_latency net k TEST_DOMAIN ip 2)
      as [[latency status]|e].
    2:{ exists k, ip. split; [left; reflexivity|exact Hm]. }
    cbn [map] in Hnd.
    assert (Hfresh : ~ In (name ++ " (" ++ ip ++ ")")%string
                       (map fst results)).
    { intros Hin. apply NoDup_remove_2 in Hnd. apply Hnd.
      apply in_or_app. now left. }
    rewrite (dict_set_fresh _ _ _ Hfresh).
    specialize (IH (S k) (results ++ [((name ++ " (" ++ ip ++ ")")%string,
                                       entry latency status)])).
    rewrite map_app in IH. cbn [map fst] in IH.
    rewrite <- app_assoc in IH. cbn [app] in IH.
    specialize (IH Hnd).
    destruct (test_standard net (S k) servers _) as [out|e].
    + destruct IH as [Hkeys Hsound]. split; [exact Hkeys|].
      intros Hclock Hres. apply (Hsound Hclock).
      apply Forall_app. split; [exact Hres|].
      constructor; [apply (Hm Hclock)|constructor].
    + destruct IH as [j [server [Hin He]]].
      exists j, server. split; [right; exact Hin|exact He].
Qed.
End DnsFacts.

Section DnsProperties.
Import Worker DnsUtils.

(** X23.  The DNS benchmark reports seven servers, the system's first and
    then the six public ones in the order of the table, each with a
    latency that is the sentinel [-1] exactly when the status is not
    ["Success"].  It raises only what the making of the resolver of one
    of its probes raises: a query that fails becomes the status of its
    entry. *)
Theorem dns_benchmark_reports_every_server (net : Network) :
  match run_dns_benchmark net with
  | Returns results =>
      map fst results = system_label net :: standard_labels
      /\ NoDup (map fst results)
      /\ (steady_clock net ->
          Forall (fun kv => sound_entry (snd kv)) results)
  | Raises e =>
      exists k server,
        In (k, server) (probes net) /\ new_resolver net k server = Raises e
  end.
Proof.
  assert (Hsys : forall ip : string,
            NoDup ((("System (" ++ ip ++ ")")%string :: nil)
                   ++ map label STANDARD_DNS_SERVERS)).
  { intros ip. cbn. constructor.
    - cbn. intuition discriminate.
    - repeat constructor; cbn; intuition discriminate. }
  assert (Hdef : NoDup (("System Default" :: nil)
                        ++ map label STANDARD_DNS_SERVERS)).
  { cbn. repeat constructor; cbn; intuition discriminate. }
  assert (Hnone : sound_entry (entry minus_one "Not Detected")).
  { eexists. split; [reflexivity|]. split; [reflexivity|discriminate]. }
  unfold run_dns_benchmark, system_label, probes.
  destruct (get_system_dns_servers net) as [|server_ip rest].
  - pose proof (test_standard_spec net STANDARD_DNS_SERVERS 1
                  [("System Default", entry minus_one "Not Detected")] Hdef)
      as H.
    destruct (test_standard net 1 STANDARD_DNS_SERVERS _) as [out|e].
    + destruct H as [Hkeys Hsound]. split; [exact Hkeys|].
      split; [rewrite Hkeys; exact Hdef|].
      intros Hclock. apply (Hsound Hclock). now constructor.
    + exact H.
  - destruct (String.eqb server_ip "OS Default (Not Detected)");
      cbn [negb].
    + pose proof (test_standard_spec net STANDARD_DNS_SERVERS 1
                    [("System Default", entry minus_one "Not Detected")] Hdef)
        as H.
      destruct (test_standard net 1 STANDARD_DNS_SERVERS _) as [out|e].
      * destruct H as [Hkeys Hsound]. split; [exact Hkeys|].
        split; [rewrite Hkeys; exact Hdef|].
        intros Hclock. apply (Hsound Hclock). now constructor.
      * exact H.
    + pose proof (measure_dns_latency_cases net 0 TEST_DOMAIN server_ip 2)
        as Hm.
      destruct (measure_dns_latency net 0 TEST_DOMAIN server_ip 2)
        as [[latency status]|e].
      2:{ exists 0%nat, server_ip. split; [left; reflexivity|exact Hm]. }
      pose proof (test_standard_spec net STANDARD_DNS_SERVERS 1
                    [(("System (" ++ server_ip ++ ")")%string,
                      entry latency status)] (Hsys server_ip)) as H.
      destruct (test_standard net 1 STANDARD_DNS_SERVERS _) as [out|e].
      * destruct H as [Hkeys Hsound]. split; [exact Hkeys|].
        split; [rewrite Hkeys; exact (Hsys server_ip)|].
        intros Hclock. apply (Hsound Hclock).
        constructor; [apply (Hm Hclock)|constructor].
      * destruct H as [j [server [Hin He]]].
        exists j, server. split; [right; exact Hin|exact He].
Qed.
End DnsProperties.

(* ================================================================= *)
(** ** The list of URLs and the target of an export *)

Section UrlListProperties.
Import UrlList.

Lemma mem_In (url : string) (items : list string) :
  mem url items = true <-> In url items.
Proof.
  unfold mem. rewrite existsb_exists. split.
  - intros [x [Hin Heq]]. apply String.eqb_eq in Heq. now subst.
  - intros Hin. exists url. split; [exact Hin|apply String.eqb_refl].
Qed.

(** X24.  [add_url] keeps the list of URLs clean.  It always empties the
    input field; it appends the stripped text exactly when that text
    starts with [http://] or [https://] and is not yet in the list, and
    otherwise leaves the list as it is.  So a list without duplicates
    stays without duplicates, and a list of web addresses stays one.  The
    operator is told when a text that is not empty was not added. *)
Theorem add_url_keeps_the_list_clean (strip : string -> string) (p : Panel) :
  let url := strip (url_input p) in
  let p' := add_url strip p in
  url_input p' = ""
  /\ url_list_widget p'
     = (if is_web_url url && negb (mem url (url_list_widget p))
        then url_list_widget p ++ [url] else url_list_widget p)
  /\ (NoDup (url_list_widget p) -> NoDup (url_list_widget p'))
  /\ (Forall (fun u => is_web_url u = true) (url_list_widget p) ->
      Forall (fun u => is_web_url u = true) (url_list_widget p'))
  /\ (notices p' = notices p
      <-> url = "" \/ url_list_widget p' = url_list_widget p ++ [url]).
Proof.
  cbv zeta. unfold add_url.
  set (url := strip (url_input p)).
  assert (Hempty : url = "" -> is_web_url url = false) by now intros ->.
  assert (Hgrow : forall l : list string, l <> l ++ [url]).
  { intros l H. apply (f_equal (@List.length _)) in H.
    rewrite length_app in H. cbn in H. lia. }
  assert (Hnotice : forall (l : list Notice) n, l ++ [n] <> l).
  { intros l n H. apply (f_equal (@List.length _)) in H.
    rewrite length_app in H. cbn in H. lia. }
  destruct (String.eqb_spec url "") as [E|E]; cbn [negb andb].
  - rewrite (Hempty E). cbn [andb clear_input url_input url_list_widget notices].
    repeat split; auto.
  - destruct (is_web_url url) eqn:Hweb; cbn [andb].
    + destruct (mem url (url_list_widget p)) eqn:Hmem; cbn [negb].
      * cbn [clear_input notify url_input url_list_widget notices].
        split; [reflexivity|]. split; [reflexivity|].
        split; [auto|]. split; [auto|]. split.
        -- intros H. now apply Hnotice in H.
        -- intros [H|H]; [now elim E|]. now apply Hgrow in H.
      * cbn [clear_input addItem url_input url_list_widget notices].
        split; [reflexivity|]. split; [reflexivity|]. split; [|split].
        -- intros Hnd. apply NoDup_app; [exact Hnd|repeat constructor; auto|].
           intros x Hx [<-|[]]. apply mem_In in Hx. congruence.
        -- intros Hall. apply Forall_app. split; [exact Hall|].
           now constructor.
        -- split; auto.
    + cbn [clear_input notify url_input url_list_widget notices].
      split; [reflexivity|]. split; [reflexivity|].
      split; [auto|]. split; [auto|]. split.
      * intros H. now apply Hnotice in H.
      * intros [H|H]; [now elim E|]. now apply Hgrow in H.
Qed.
End UrlListProperties.

Section ExportTargetFacts.
Import SessionSetup ExportTarget.

Lemma lower_app (a b : string) : lower (a ++ b) = (lower a ++ lower b)%string.
Proof. induction a as [|c a IH]; cbn; [reflexivity|now rewrite IH]. Qed.

Lemma substring_all (s : string) : substring 0 (String.length s) s = s.
Proof. induction s as [|c s IH]; cbn; [reflexivity|now rewrite IH]. Qed.

Lemma length_append (a b : string) :
  String.length (a ++ b) = (String.length a + String.length b)%nat.
Proof. induction a as [|c a IH]; cbn; [reflexivity|now rewrite IH]. Qed.

Lemma substring_skip (a b : string) :
  substring (String.length a) (String.length b) (a ++ b) = b.
Proof. induction a as [|c a IH]; cbn; [apply substring_all|exact IH]. Qed.

Lemma endswith_append (a suffix : string) : endswith (a ++ suffix) suffix = true.
Proof.
  unfold endswith. rewrite length_append.
  replace (String.length a + String.length suffix - String.length suffix)%nat
    with (String.length a) by lia.
  rewrite substring_skip, String.eqb_refl, andb_true_r.
  apply Nat.leb_le. lia.
Qed.
End ExportTargetFacts.

Section ExportTargetProperties.
Import SessionSetup ExportTarget.

(** X25.  The file of an export carries the extension of its format, once.
    When the chosen filter names JSON the format is JSON, otherwise it is
    CSV; when the filter names a format, the name of the file ends in the
    extension of that format, in any capitals: the extension is appended
    only to a name that does not end in it, so that settling the target
    again changes nothing.  With a filter that names neither format the
    name is taken as it is. *)
Theorem export_file_carries_its_extension (filename selected_filter : string) :
  let name := fst (export_target filename selected_filter) in
  let format := snd (export_target filename selected_filter) in
  (format = JSON <-> contains "JSON" selected_filter = true)
  /\ (name = filename \/ name = (filename ++ extension format)%string)
  /\ (contains "JSON" selected_filter = true
      \/ contains "CSV" selected_filter = true ->
      endswith (lower name) (extension format) = true)
  /\ (contains "JSON" selected_filter = false ->
      contains "CSV" selected_filter = false -> name = filename)
  /\ export_target name selected_filter = (name, format).
Proof.
  cbv zeta. unfold export_target.
  destruct (contains "JSON" selected_filter) eqn:Hj.
  - destruct (endswith (lower filename) ".json") eqn:He;
      cbn [negb fst snd extension].
    + rewrite He. cbn [negb]. repeat split; auto; discriminate.
    + rewrite lower_app.
      change (lower ".json") with ".json".
      rewrite endswith_append. cbn [negb]. repeat split; auto; discriminate.
  - destruct (contains "CSV" selected_filter) eqn:Hc.
    + destruct (endswith (lower filename) ".csv") eqn:He;
        cbn [negb fst snd extension].
      * rewrite He. cbn [negb].
        repeat split; auto; try discriminate.
      * rewrite lower_app.
        change (lower ".csv") with ".csv".
        rewrite endswith_append. cbn [negb].
        repeat split; auto; try discriminate.
    + cbn [fst snd]. repeat split; auto; try discriminate.
      all: intros [H|H]; discriminate.
Qed.
End ExportTargetProperties.

(* ================================================================= *)
(** ** The export of a report *)

Section ExportFacts.
Import Worker Gui SettingsManager ExportTarget ReportExport.
Variable fs : FileCall -> Outcome unit.

Lemma file_call_step (c : FileCall) (st : Exporting) :
  file_call fs c st
  = (fs c, {| calls := calls st ++ [c]; shown := shown st |}).
Proof. reflexivity. Qed.

Lemma write_call_only (c : FileCall) : is_write c -> writes_only fs (file_call fs c).
Proof.
  intros Hc st. exists [c]. rewrite file_call_step. cbn [fst snd].
  split; [reflexivity|]. split; [now constructor|].
  intros H. now constructor.
Qed.

Lemma writes_only_seq (c1 c2 : Exp unit) :
  writes_only fs c1 -> writes_only fs c2 ->
  writes_only fs (bind c1 (fun _ => c2)).
Proof.
  intros H1 H2 st. unfold bind.
  destruct (H1 st) as [l1 [E1 [W1 R1]]].
  destruct (c1 st) as [[[]|e] st1]; cbn [fst snd] in *.
  - subst st1. destruct (H2 {| calls := calls st ++ l1; shown := shown st |})
      as [l2 [E2 [W2 R2]]].
    exists (l1 ++ l2). rewrite E2. cbn [calls shown].
    rewrite app_assoc. split; [reflexivity|].
    split; [now apply Forall_app|].
    intros H. apply Forall_app. split; [now apply R1|now apply R2].
  - exists l1. split; [exact E1|]. split; [exact W1|]. discriminate.
Qed.

Lemma write_rows_only (entries : list UrlSummary) :
  writes_only fs (write_rows fs entries).
Proof.
  induction entries as [|s entries IH].
  - intros st. exists []. cbn. rewrite app_nil_r.
    destruct st; repeat split; constructor.
  - cbn [write_rows]. intros st. unfold bind at 1, call at 1.
    destruct (join_messages (error_messages s)) as [messages|e].
    + apply (writes_only_seq _ _
               (write_call_only (WriteRow (csv_row s messages)) I) IH).
    + exists []. cbn [fst snd]. rewrite app_nil_r.
      destruct st; repeat split; [constructor|discriminate].
Qed.

(** The calls of [with open]. *)
Lemma with_open_calls (filename : string) (body : Exp unit) (st : Exporting) :
  writes_only fs body ->
  shown (snd (with_open fs filename body st)) = shown st
  /\ ((exists e,
         fs (OpenW filename) = Raises e
         /\ fst (with_open fs filename body st) = Raises e
         /\ calls (snd (with_open fs filename body st))
            = calls st ++ [OpenW filename])
      \/ (exists l,
            calls (snd (with_open fs filename body st))
            = calls st ++ OpenW filename :: l ++ [CloseFile]
            /\ Forall is_write l
            /\ (fst (with_open fs filename body st) = Returns tt ->
                Forall (fun w => fs w = Returns tt)
                  (OpenW filename :: l ++ [CloseFile])))).
Proof.
  intros Hbody. unfold with_open, bind. rewrite file_call_step.
  destruct (fs (OpenW filename)) as [[]|e] eqn:Hopen.
  2:{ cbn [fst snd shown calls]. split; [reflexivity|]. left. eauto. }
  unfold try_finally.
  destruct (Hbody {| calls := calls st ++ [OpenW filename];
                     shown := shown st |}) as [l [E [W R]]].
  destruct (body _) as [o st1]. cbn [fst snd calls shown] in *. subst st1.
  rewrite file_call_step. cbn [calls shown].
  destruct (fs CloseFile) as [[]|e] eqn:Hclose; cbn [fst snd calls shown].
  - split; [reflexivity|]. right. exists l.
    split; [now rewrite <- !app_assoc|]. split; [exact W|].
    intros Ho. constructor; [exact Hopen|].
    apply Forall_app. split; [now apply R|now constructor].
  - split; [reflexivity|]. right. exists l.
    split; [now rewrite <- !app_assoc|]. split; [exact W|]. discriminate.
Qed.
End ExportFacts.

Section ExportCases.
Import Worker Gui SettingsManager ExportTarget ReportExport.
Variable fs : FileCall -> Outcome unit.

Lemma summary_of_nonempty (r : RunResult) (rs : list RunResult) :
  summary_of (r :: rs) <> [].
Proof.
  unfold summary_of.
  destruct (sorted_set_spec (map SeleniumUtils.url (r :: rs)))
    as [_ [_ Hmem]].
  destruct (sorted_str _) as [|u us]; [|discriminate].
  exfalso. apply (Hmem (SeleniumUtils.url r)). now left.
Qed.

Lemma body_of_writes_only (format : Format) (settings : PyDictT)
    (results_data : list RunResult) :
  writes_only fs (body_of fs format settings results_data).
Proof.
  destruct format; cbn [body_of].
  - apply writes_only_seq; [now apply write_call_only|apply write_rows_only].
  - now apply write_call_only.
Qed.

(** An export that has results and a file name: the file is written
    under [with open], and the operator is shown the success or the
    failure. *)
Lemma export_run_cases (answer : string * string) (settings : PyDictT)
    (r : RunResult) (rs : list RunResult) :
  fst answer <> "" ->
  export_run fs answer settings (r :: rs)
  = let target := export_target (fst answer) (snd answer) in
    let out := with_open fs (fst target)
                 (body_of fs (snd target) settings (r :: rs)) nothing in
    {| calls := calls (snd out);
       shown := shown (snd out)
                ++ match fst out with
                   | Returns _ => [success answer]
                   | Raises e => failure_shown e
                   end |}.
Proof.
  intros Hname. unfold export_run, export_report.
  rewrite (proj2 (String.eqb_neq _ _) Hname). cbv zeta.
  pose proof (summary_of_nonempty r rs) as Hne.
  unfold try_except, success, failure_shown.
  destruct (snd (export_target (fst answer) (snd answer))); cbn [body_of].
  - unfold bind at 1. unfold bind at 1. unfold call at 1.
    rewrite report_closed_form. fold (summary_of (r :: rs)).
    destruct (summary_of (r :: rs)) as [|kv summary] eqn:Hs; [congruence|].
    unfold bind at 1.
    destruct (with_open fs _ _ nothing) as [[[]|e] st]; cbn [fst snd].
    + reflexivity.
    + destruct (is_io_error e); unfold bind, show, update;
        cbn [fst snd calls shown]; now rewrite <- app_assoc.
  - unfold bind at 1. unfold bind at 1. unfold call at 1.
    rewrite report_closed_form. fold (summary_of (r :: rs)).
    unfold bind at 1.
    destruct (with_open fs _ _ nothing) as [[[]|e] st]; cbn [fst snd].
    + reflexivity.
    + destruct (is_io_error e); unfold bind, show, update;
        cbn [fst snd calls shown]; now rewrite <- app_assoc.
Qed.
End ExportCases.

Section ExportRows.
Import Worker Gui SettingsManager ExportTarget ReportExport.
Variable fs : FileCall -> Outcome unit.
Hypothesis fs_returns : forall c, fs c = Returns tt.

(** With a file system that does not fail, the loop writes the rows of
    the entries up to the first one that has a message that is not a
    text, and raises there. *)
Lemma write_rows_run (entries : list UrlSummary) :
  forall st, exists k,
    snd (write_rows fs entries st)
    = {| calls := calls st
                  ++ map WriteRow (map row_of_entry (firstn k entries));
         shown := shown st |}
    /\ ((k = List.length entries
         /\ fst (write_rows fs entries st) = Returns tt
         /\ Forall (fun s => first_none 0 (error_messages s) = None) entries)
        \/ ((k < List.length entries)%nat
            /\ exists i,
                 first_none 0 (error_messages (nth k entries
                                                 (GuiSpec.url_entry [] "")))
                 = Some i
                 /\ fst (write_rows fs entries st)
                    = Raises (TypeError
                        ("sequence item " ++ str_nat i
                         ++ ": expected str instance, NoneType found")))).
Proof.
  induction entries as [|s entries IH]; intros st.
  - exists 0%nat. cbn. rewrite app_nil_r. destruct st. auto.
  - cbn [write_rows]. unfold join_messages, file_call.
    unfold bind, call, update.
    destruct (first_none 0 (error_messages s)) as [i|] eqn:Hnone.
    + exists 0%nat. cbn [firstn map fst snd nth List.length].
      rewrite app_nil_r. split; [now destruct st|].
      right. split; [lia|]. exists i. split; [exact Hnone|reflexivity].
    + rewrite fs_returns. cbv beta iota zeta.
      destruct (IH {| calls := calls st
                        ++ [WriteRow (csv_row s
                                        (join "; " (texts (error_messages s))))];
                      shown := shown st |}) as [k [E H]].
      exists (S k). rewrite E. cbn [calls shown firstn map List.length nth].
      rewrite <- app_assoc. split; [reflexivity|].
      destruct H as [[-> [H Hall]]|[Hk H]]; [left|right].
      * split; [reflexivity|]. split; [exact H|now constructor].
      * split; [lia|exact H].
Qed.

Lemma first_none_texts (items : list (option string)) :
  Forall (fun m => m <> None) items ->
  forall i, first_none i items = None.
Proof.
  induction 1 as [|m items Hm _ IH]; intros i; [reflexivity|].
  destruct m; [apply IH|congruence].
Qed.

Lemma first_none_found (items : list (option string)) :
  In None items -> forall i, first_none i items <> None.
Proof.
  induction items as [|m items IH]; intros Hin i; [destruct Hin|].
  destruct m; cbn; [|discriminate].
  apply IH. destruct Hin as [H|H]; [discriminate|exact H].
Qed.

(** The messages of an entry are texts when every error has one. *)
Lemma entry_messages_are_texts (results_data : list RunResult) (u : string) :
  errors_have_text results_data ->
  Forall (fun m => m <> None)
    (error_messages (GuiSpec.url_entry results_data u)).
Proof.
  intros Htext.
  assert (H : Forall (fun m => m <> None)
                (map get_error_message (GuiSpec.errors results_data u))).
  { apply Forall_map. apply Forall_forall. intros r Hr.
    unfold GuiSpec.errors in Hr. apply filter_In in Hr as [Hin Hst].
    unfold has_url_status in Hst. apply andb_true_iff in Hst as [_ Hst].
    unfold errors_have_text in Htext. rewrite Forall_forall in Htext.
    destruct (status r) eqn:E; [discriminate|].
    destruct (Htext r Hin E) as [msg Hmsg].
    unfold get_error_message. rewrite Hmsg. discriminate. }
  unfold GuiSpec.url_entry.
  destruct (map float_load_time _); exact H.
Qed.

Lemma with_open_run (filename : string) (body : Exp unit) (st : Exporting) :
  with_open fs filename body st
  = let out := body {| calls := calls st ++ [OpenW filename];
                       shown := shown st |} in
    (fst out, {| calls := calls (snd out) ++ [CloseFile];
                 shown := shown (snd out) |}).
Proof.
  unfold with_open, try_finally, file_call. unfold bind, call, update.
  rewrite !fs_returns. cbv beta iota zeta.
  now destruct (body _).
Qed.

Lemma header_then_rows (entries : list UrlSummary) (st : Exporting) :
  bind (file_call fs (WriteHeader fieldnames))
    (fun _ => write_rows fs entries) st
  = write_rows fs entries
      {| calls := calls st ++ [WriteHeader fieldnames]; shown := shown st |}.
Proof.
  unfold file_call. unfold bind, call, update. now rewrite fs_returns.
Qed.

(** The CSV export, with a file system that does not fail: the rows
    written are the first [k] rows of the report, all of them unless the
    [k]-th entry has a message that is not a text. *)
Lemma csv_export_rows (answer : string * string) (settings : PyDictT)
    (results_data : list RunResult) :
  results_data <> [] ->
  fst answer <> "" ->
  snd (export_target (fst answer) (snd answer)) = CSV ->
  exists k,
    calls (export_run fs answer settings results_data)
    = OpenW (fst (export_target (fst answer) (snd answer)))
      :: WriteHeader fieldnames
      :: map WriteRow (firstn k (csv_rows results_data)) ++ [CloseFile]
    /\ ((k = List.length (csv_rows results_data)
         /\ shown (export_run fs answer settings results_data)
            = [success answer]
         /\ Forall (fun s => first_none 0 (error_messages s) = None)
              (map snd (summary_of results_data)))
        \/ ((k < List.length (csv_rows results_data))%nat
            /\ exists i,
                 first_none 0
                   (error_messages
                      (nth k (map snd (summary_of results_data))
                         (GuiSpec.url_entry [] ""))) = Some i
                 /\ shown (export_run fs answer settings results_data)
                    = failure_shown
                        (TypeError
                           ("sequence item " ++ str_nat i
                            ++ ": expected str instance, NoneType found")))).
Proof.
  intros Hres Hname Hcsv.
  destruct results_data as [|r rs]; [congruence|].
  rewrite (export_run_cases fs answer settings r rs Hname). cbv zeta.
  rewrite Hcsv. cbn [body_of].
  rewrite with_open_run. cbv zeta. rewrite header_then_rows.
  cbn [calls shown nothing app fst snd].
  match goal with
  | |- context [write_rows fs ?es ?st] =>
      destruct (write_rows_run es st) as [k [E H]];
      destruct (write_rows fs es st) as [o st1]
  end.
  cbn [fst snd] in *. subst st1. cbn [calls shown app].
  assert (Hrows : map row_of_entry (map snd (summary_of (r :: rs)))
                  = csv_rows (r :: rs)).
  { unfold csv_rows, summary_of. now rewrite !map_map. }
  assert (Hlen : List.length (map snd (summary_of (r :: rs)))
                 = List.length (csv_rows (r :: rs))).
  { rewrite <- Hrows. now rewrite !length_map. }
  exists k. rewrite <- Hlen, <- Hrows, (firstn_map row_of_entry).
  split; [reflexivity|].
  destruct H as [[-> [-> Hall]]|[Hk [i [Hnone ->]]]]; [left|right].
  - split; [reflexivity|]. split; [reflexivity|exact Hall].
  - split; [exact Hk|]. exists i. split; [exact Hnone|reflexivity].
Qed.

(** The CSV export of results whose errors have texts. *)
Lemma csv_export_run (answer : string * string) (settings : PyDictT)
    (results_data : list RunResult) :
  results_data <> [] ->
  fst answer <> "" ->
  snd (export_target (fst answer) (snd answer)) = CSV ->
  errors_have_text results_data ->
  export_run fs answer settings results_data
  = {| calls := OpenW (fst (export_target (fst answer) (snd answer)))
                :: WriteHeader fieldnames
                :: map WriteRow (csv_rows results_data) ++ [CloseFile];
       shown := [success answer] |}.
Proof.
  intros Hres Hname Hcsv Htext.
  destruct (csv_export_rows answer settings results_data Hres Hname Hcsv)
    as [k [Hcalls H]].
  destruct (export_run fs answer settings results_data) as [cs sh].
  cbn [calls shown] in *.
  destruct H as [[-> [-> _]]|[Hk [i [Hnone _]]]].
  - rewrite firstn_all in Hcalls. now rewrite Hcalls.
  - exfalso. unfold summary_of in Hnone. rewrite map_map in Hnone.
    cbn [snd] in Hnone.
    assert (Hk' : (k < List.length (sorted_str (py_set
                      (map SeleniumUtils.url results_data))))%nat).
    { unfold csv_rows in Hk. now rewrite length_map in Hk. }
    rewrite (nth_indep _ _ (GuiSpec.url_entry results_data "")) in Hnone
      by now rewrite length_map.
    rewrite (map_nth (GuiSpec.url_entry results_data)) in Hnone.
    rewrite (first_none_texts _ (entry_messages_are_texts _ _ Htext)) in Hnone.
    discriminate.
Qed.
End ExportRows.

Section ExportProperties.
Import Worker WorkerSpec WorkerTrace Gui SettingsManager ExportTarget.
Import ReportExport.

Lemma success_not_failure (answer : string * string) (e : Exc) :
  ~ In (success answer) (failure_shown e).
Proof.
  unfold success, failure_shown.
  destruct (is_io_error e); cbn; intuition discriminate.
Qed.

(** X26.  An export closes the file it opened, whatever fails: the calls on
    the file are an [open], writes and one [close] at the end, or the
    single [open] that failed, or none at all, the latter exactly when
    there is no result or the dialog was cancelled.  The operator is told
    the outcome, except after cancelling; the success is reported alone,
    and only when every call on the file returned. *)
Theorem export_closes_its_file
    (fs : FileCall -> Outcome unit) (answer : string * string)
    (settings : PyDictT) (results_data : list RunResult) :
  let out := export_run fs answer settings results_data in
  file_closed fs (calls out)
  /\ (In (success answer) (shown out) ->
      shown out = [success answer]
      /\ calls out <> []
      /\ Forall (fun c => fs c = Returns tt) (calls out))
  /\ (calls out = [] <-> results_data = [] \/ fst answer = "")
  /\ (shown out = [] <-> results_data <> [] /\ fst answer = "").
Proof.
  cbv zeta. destruct results_data as [|r rs].
  { unfold export_run, export_report, show, update, nothing, file_closed.
    cbn [snd calls shown app].
    split; [auto|]. split; [intros [H|[]]; discriminate|].
    split; [tauto|]. split; [discriminate|]. intros [H _]. congruence. }
  destruct (String.eqb_spec (fst answer) "") as [Hname|Hname].
  { unfold export_run, export_report. rewrite Hname. cbn [String.eqb].
    unfold ret, nothing, file_closed. cbn [snd calls shown].
    split; [auto|]. split; [intros []|]. split; [tauto|].
    split; [|reflexivity]. intros _. split; [discriminate|reflexivity]. }
  rewrite (export_run_cases fs answer settings r rs Hname). cbv zeta.
  set (target := export_target (fst answer) (snd answer)).
  destruct (with_open_calls fs (fst target)
              (body_of fs (snd target) settings (r :: rs)) nothing
              (body_of_writes_only fs _ _ _))
    as [Hshown [[e [Hopen [Hfst Hcalls]]]|[l [Hcalls [Hw Hret]]]]];
    destruct (with_open fs _ _ nothing) as [o st];
    cbn [fst snd calls shown nothing app] in *; subst.
  - rewrite Hshown, Hcalls. cbn [app].
    split; [right; left; eauto|].
    split; [intros H; now apply success_not_failure in H|].
    split; [split; [discriminate|intros [H|H]; congruence]|].
    split; [|intros [_ H]; congruence].
    unfold failure_shown. destruct (is_io_error e); discriminate.
  - rewrite Hshown, Hcalls. cbn [app].
    split; [right; right; eauto|].
    split; [|split; [split; [discriminate|intros [H|H]; congruence]|]].
    + destruct o as [[]|e]; [|intros H; now apply success_not_failure in H].
      intros _. split; [reflexivity|]. split; [discriminate|].
      now apply Hret.
    + split; [|intros [_ H]; congruence].
      destruct o as [[]|e]; [discriminate|].
      unfold failure_shown. destruct (is_io_error e); discriminate.
Qed.

(** The errors of a run have texts. *)
Lemma run_errors_have_text (env : Env) (self : TestWorker) :
  errors_have_text (results_of (trace env self)).
Proof.
  destruct (run_is_run_trace env self) as [-> _].
  apply run_trace_results.
  - intros i url e k _ _ _ _. cbn. eauto.
  - intros i url d run r _ _ _ Hr.
    destruct (measure_result_shape (session d run) url (timeout self)
                (wait_strategy self))
      as [r' [Hr' [_ [_ [_ [_ [_ Hcases]]]]]]].
    rewrite Hr in Hr'. injection Hr' as <-. cbn.
    destruct Hcases as [[Hst _]|[_ [_ [e [_ Hmsg]]]]].
    + rewrite Hst. discriminate.
    + rewrite Hmsg. eauto.
Qed.

(** X27.  The results of a run can always be exported as CSV.  With a file
    system that does not fail, the export of the results of any run
    writes the header and one row for each URL that has results, in the
    order of the report, closes the file and reports the success: no
    message of such results makes the joining of the error messages
    raise. *)
Theorem run_results_export_to_csv
    (env : Env) (self : TestWorker) (fs : FileCall -> Outcome unit)
    (answer : string * string) (settings : PyDictT) :
  results_of (trace env self) <> [] ->
  fst answer <> "" ->
  snd (export_target (fst answer) (snd answer)) = CSV ->
  (forall c, fs c = Returns tt) ->
  export_run fs answer settings (results_of (trace env self))
  = {| calls := OpenW (fst (export_target (fst answer) (snd answer)))
                :: WriteHeader fieldnames
                :: map WriteRow (csv_rows (results_of (trace env self)))
                ++ [CloseFile];
       shown := [success answer] |}
  /\ List.length (csv_rows (results_of (trace env self)))
     = List.length (py_set (map SeleniumUtils.url
                              (results_of (trace env self)))).
Proof.
  intros Hres Hname Hcsv Hfs. split.
  - apply (csv_export_run fs Hfs answer settings _ Hres Hname Hcsv).
    apply run_errors_have_text.
  - unfold csv_rows. rewrite length_map.
    apply Permutation_length. unfold sorted_str.
    apply sorted_by_perm.
Qed.

(** X28.  An error without a text stops the CSV export half way.  When a
    stored error has [None] as its message, the joining of the messages
    of its URL raises a [TypeError]: the file, already opened, is closed
    with the header and the rows of the URLs before that one, and the
    operator is shown an unexpected error. *)
Theorem csv_export_stops_at_a_missing_message
    (fs : FileCall -> Outcome unit) (answer : string * string)
    (settings : PyDictT) (results_data : list RunResult) (r : RunResult) :
  In r results_data ->
  status r = Error ->
  error_message r = Some None ->
  fst answer <> "" ->
  snd (export_target (fst answer) (snd answer)) = CSV ->
  (forall c, fs c = Returns tt) ->
  exists k i,
    (k < List.length (csv_rows results_data))%nat
    /\ calls (export_run fs answer settings results_data)
       = OpenW (fst (export_target (fst answer) (snd answer)))
         :: WriteHeader fieldnames
         :: map WriteRow (firstn k (csv_rows results_data)) ++ [CloseFile]
    /\ shown (export_run fs answer settings results_data)
       = failure_shown
           (TypeError ("sequence item " ++ str_nat i
                       ++ ": expected str instance, NoneType found")).
Proof.
  intros Hin Hst Hmsg Hname Hcsv Hfs.
  assert (Hres : results_data <> []) by (intros ->; destruct Hin).
  destruct (csv_export_rows fs Hfs answer settings results_data Hres Hname
              Hcsv) as [k [Hcalls H]].
  destruct H as [[_ [_ Hall]]|[Hk [i [_ Hshown]]]].
  - exfalso. unfold summary_of in Hall. rewrite map_map in Hall.
    cbn [snd] in Hall. rewrite Forall_map, Forall_forall in Hall.
    destruct (sorted_set_spec (map SeleniumUtils.url results_data))
      as [_ [_ Hmem]].
    assert (Hu : In (SeleniumUtils.url r)
                   (sorted_str (py_set (map SeleniumUtils.url results_data)))).
    { apply Hmem. now apply in_map. }
    specialize (Hall _ Hu). revert Hall.
    apply first_none_found.
    assert (Hbad : In None (map get_error_message
                              (GuiSpec.errors results_data
                                 (SeleniumUtils.url r)))).
    { apply in_map_iff. exists r. split.
      - unfold get_error_message. now rewrite Hmsg.
      - unfold GuiSpec.errors. apply filter_In. split; [exact Hin|].
        unfold has_url_status. now rewrite String.eqb_refl, Hst. }
    unfold GuiSpec.url_entry. destruct (map float_load_time _); exact Hbad.
  - exists k, i. split; [exact Hk|]. split; [exact Hcalls|exact Hshown].
Qed.
End ExportProperties.

(* ================================================================= *)
(** ** Witnesses *)

Section SamplerWitnesses.

(** Witness of X2. *)
Lemma sampler_error_classification_witness :
  exists r,
    measure_load_time Samples.unreachable_page "https://a.example" 60
      "Combined" = Returns r
    /\ status r = Error
    /\ error_message r
       = Some (Some ("WebDriver error: Message: unknown error: "
                     ++ "net::ERR_NAME_NOT_RESOLVED")%string).
Proof.
  apply (sampler_error_classification Samples.unreachable_page
           "https://a.example" 60 "Combined" Scenarios.name_not_resolved).
  reflexivity.
Defined.

(** Witness of X3. *)
Lemma timing_breakdown_computed_witness :
  exists r,
    measure_load_time Scenarios.timed_page "https://a.example" 60 "Combined"
    = Returns r
    /\ status r = Success
    /\ load_time_ms r = elapsed_ms Scenarios.timed_page
    /\ navigation_timing r
       = Some (NavData (TimingSpec.breakdown Scenarios.timing_data)).
Proof.
  apply (timing_breakdown_computed Scenarios.timed_page "https://a.example"
           60 "Combined" Scenarios.timing_data 1000).
  - exists tt. split; [reflexivity|]. right. right.
    split; [reflexivity|]. split; exists tt; reflexivity.
  - reflexivity.
  - discriminate.
  - reflexivity.
  - reflexivity.
  - repeat constructor; discriminate.
Defined.

(** Witness of X4. *)
Lemma timing_breakdown_degrades_witness :
  exists r,
    measure_load_time Samples.fast_page "https://a.example" 60 "Combined"
    = Returns r
    /\ status r = Success
    /\ navigation_timing r = Some NavNone.
Proof.
  destruct (timing_breakdown_degrades Samples.fast_page "https://a.example"
              60 "Combined") as [r [Hr [Hst [Hnone _]]]].
  - exists tt. split; [reflexivity|]. right. right.
    split; [reflexivity|]. split; exists tt; reflexivity.
  - exists r. split; [exact Hr|]. split; [exact Hst|].
    apply Hnone. left. reflexivity.
Defined.
End SamplerWitnesses.

Section RunWitnesses.
Import Worker WorkerSpec WorkerTrace.

(** Witness of X7. *)
Lemma stop_lets_one_operation_begin_witness :
  (List.length
     (filter is_browser_work
        (skipn 3 (trace (Samples.first_setup_fails (Some 3%nat))
                    Samples.two_by_two))) <= 1)%nat.
Proof.
  apply (stop_lets_one_operation_begin
           (Samples.first_setup_fails (Some 3%nat)) Samples.two_by_two 3).
  reflexivity.
Defined.

(** Witness of X9. *)
Lemma run_results_feed_the_report_witness :
  Forall GuiSpec.well_timed
    (results_of (trace Samples.quiet_env Samples.two_by_two))
  /\ Forall GuiSpec.config_well_keyed
       (results_of (trace Samples.quiet_env Samples.two_by_two)).
Proof.
  apply (run_results_feed_the_report Samples.quiet_env Samples.two_by_two).
  - intros i d run H. injection H as <-. discriminate.
  - reflexivity.
Defined.

(** Witness of X11. *)
Lemma stop_before_browsing_witness :
  skipn 0 (trace (Samples.first_setup_fails (Some 0%nat)) Samples.two_by_two)
  = [Emit (status_update "Test stopped after DNS benchmark."); Emit finished]
  /\ filter is_browser_work
       (trace (Samples.first_setup_fails (Some 0%nat)) Samples.two_by_two)
     = []
  /\ results_of
       (trace (Samples.first_setup_fails (Some 0%nat)) Samples.two_by_two)
     = [].
Proof.
  apply (stop_before_browsing (Samples.first_setup_fails (Some 0%nat))
           Samples.two_by_two 0).
  - reflexivity.
  - apply le_n.
Defined.
End RunWitnesses.

Section SettingsWitnesses.
Import SettingsManager SettingsSpec.

Local Open Scope stmt_scope.

(** Witness of X13. *)
Lemma save_then_load_witness :
  exists d',
    back_filled Scenarios.two_settings d'
    /\ (lacks_default Scenarios.two_settings = false ->
        d' = Scenarios.two_settings)
    /\ (save_settings (PyDict Scenarios.two_settings) ;;; load_settings)
         Samples.no_file
       = (Returns (PyDict d'), written (PyDict d') Samples.no_file).
Proof.
  apply (save_then_load Samples.no_file Scenarios.two_settings);
    reflexivity.
Defined.

(** Witness of X14. *)
Lemma load_settings_rejects_other_json_witness :
  exists msg,
    load_settings Scenarios.array_file
    = (Raises (TypeError msg), Scenarios.array_file).
Proof.
  apply (load_settings_rejects_other_json Scenarios.array_file
           (JArray [JString "https://a.example"]) "urls").
  - reflexivity.
  - reflexivity.
  - intros d. discriminate.
  - left. reflexivity.
  - discriminate.
Defined.
End SettingsWitnesses.

Section ReportMoreWitnesses.
Import Gui GuiSpec ReportSpec.

(** Witness of X16. *)
Lemma summary_statistics_are_ordered_witness :
  exists lo md av hi sd,
    min_load_time_ms (url_entry Samples.three_runs "https://a.example")
    = Num lo
    /\ median_load_time_ms (url_entry Samples.three_runs "https://a.example")
       = Num md
    /\ avg_load_time_ms (url_entry Samples.three_runs "https://a.example")
       = Num av
    /\ max_load_time_ms (url_entry Samples.three_runs "https://a.example")
       = Num hi
    /\ std_dev_load_time_ms (url_entry Samples.three_runs "https://a.example")
       = Num sd
    /\ (lo <= md)%Q /\ (md <= hi)%Q
    /\ (lo <= av)%Q /\ (av <= hi)%Q
    /\ (0 <= sd)%Q.
Proof.
  apply (summary_statistics_are_ordered Samples.three_runs
           [("https://a.example",
             url_entry Samples.three_runs "https://a.example")]
           "https://a.example").
  - reflexivity.
  - reflexivity.
  - discriminate.
Defined.
End ReportMoreWitnesses.

Section SetupWitnesses.
Import Worker WorkerSpec WorkerTrace SessionSetup SetupSpec.

(** Witness of X17. *)
Lemma setup_rejects_unknown_browser_witness :
  setup Scenarios.bare_machine "Safari" false true
  = Raises (WebDriverException_
              "Unexpected driver setup error: Unsupported browser: Safari")
  /\ actions Scenarios.bare_machine "Safari" false true = [].
Proof.
  apply (setup_rejects_unknown_browser Scenarios.bare_machine "Safari"
           false true); discriminate.
Defined.

(** Witness of X20. *)
Lemma unsupported_browser_fails_every_run_witness :
  Forall (fun r => status r = Error
                   /\ error_message r
                      = Some (Some (unsupported_message "Safari")))
    (results_of (trace Scenarios.bare_env Scenarios.safari_worker))
  /\ (forall i : nat,
        actions Scenarios.bare_machine "Safari" false false = [])
  /\ Forall (fun a => exists url, a = SetupDriver url)
       (filter is_lifecycle
          (trace Scenarios.bare_env Scenarios.safari_worker)).
Proof.
  apply (unsupported_browser_fails_every_run (fun _ => Scenarios.bare_machine)
           Scenarios.bare_env Scenarios.safari_worker).
  - intros i browser_name headless anti_detection. reflexivity.
  - discriminate.
  - discriminate.
Defined.
End SetupWitnesses.

Section SlotWitnesses.
Import Worker ResultSlot.

(** Witness of X22. *)
Lemma marked_result_makes_the_slot_raise_witness :
  exists r,
    measure_load_time Samples.page_without_timing "https://a.example" 60
      "Combined" = Returns r
    /\ status r = Success
    /\ navigation_timing r = Some (NavError "Message: javascript error").
Proof.
  destruct (marked_result_makes_the_slot_raise Samples.page_without_timing
              "https://a.example" 60 "Combined" Scenarios.javascript_error)
    as [r [Hr [Hst [Hnav _]]]].
  - exists tt. split; [reflexivity|]. right. right.
    split; [reflexivity|]. split; exists tt; reflexivity.
  - intros results. reflexivity.
  - exists r. split; [exact Hr|]. split; [exact Hst|exact Hnav].
Defined.
End SlotWitnesses.

Section CsvExportWitnesses.
Import Worker WorkerSpec Gui ExportTarget ReportExport.

(** Witness of X27. *)
Lemma run_results_export_to_csv_witness :
  shown (export_run Scenarios.healthy Scenarios.csv_answer
           Samples.settings_in_use
           (results_of (trace Samples.quiet_env Samples.two_by_two)))
  = [Status "Report exported successfully to report.csv"].
Proof.
  destruct (run_results_export_to_csv Samples.quiet_env Samples.two_by_two
              Scenarios.healthy Scenarios.csv_answer Samples.settings_in_use)
    as [H _].
  - vm_compute. discriminate.
  - discriminate.
  - reflexivity.
  - reflexivity.
  - rewrite H. reflexivity.
Defined.

(** Witness of X28. *)
Lemma csv_export_stops_at_a_missing_message_witness :
  exists k i,
    (k < List.length (csv_rows [Scenarios.silent_error]))%nat
    /\ calls (export_run Scenarios.healthy Scenarios.csv_answer
                Samples.settings_in_use [Scenarios.silent_error])
       = OpenW "report.csv" :: WriteHeader fieldnames
         :: map WriteRow (firstn k (csv_rows [Scenarios.silent_error]))
         ++ [CloseFile]
    /\ shown (export_run Scenarios.healthy Scenarios.csv_answer
                Samples.settings_in_use [Scenarios.silent_error])
       = failure_shown
           (TypeError ("sequence item " ++ str_nat i
                       ++ ": expected str instance, NoneType found")%string).
Proof.
  apply (csv_export_stops_at_a_missing_message Scenarios.healthy
           Scenarios.csv_answer Samples.settings_in_use
           [Scenarios.silent_error] Scenarios.silent_error).
  - left. reflexivity.
  - reflexivity.
  - reflexivity.
  - discriminate.
  - reflexivity.
  - reflexivity.
Defined.
End CsvExportWitnesses.
